(* ===== verification/_CoqProject ===== *)
-Q . S2P
Prelude.v
Unicode.v
GoStrings.v
Http.v
Breaker.v
Regex.v
Net.v
Requests.v
IPAccess.v
Jwt.v
Headers.v
Rules.v
Float64.v
RateLimit.v
Idempotency.v
HttpClient.v
ServiceAuth.v
Auth.v
Proc.v
TTLCache.v
Dynamo.v
Secrets.v
Health.v
Banned.v
Sanitize.v
Redact.v
LogLine.v
Logging.v
Redis.v
Aws.v
Rds.v
Crypto.v
Events.v
CloudWatch.v
Moxtox.v
Telemetry.v
Ses.v
Clients.v
Otel.v
Stack.v
Outbound.v
Stubs.v
Claims.v
