(* ===== verification/Prelude.v ===== *)
(** * Komodo Forge SDK: verification development

    The Komodo Forge SDK for Go (rdevitto86/komodo-forge-sdk-go) is the library
    its services share: an HTTP client with circuit breaker, retry and service
    tokens, and the middlewares a service stacks in front of its handlers
    (request ids, IP lists, authentication, CSRF, rate limiting, idempotency,
    rule validation, sanitization, redaction, telemetry), its logging, and its
    clients for Redis, AWS and other services.  This library models them and
    proves what they promise, and where they do not keep a promise, proves that.

    ** How the program is modelled

    - A handler ([Http.handler]) is a function from a request, a response
      writer and a world to a world, a writer and an exit; a middleware is a
      function on handlers, [Http.Chain] is src/api/middleware/chain.  The
      package-level state of a middleware is a component of the world, reached
      through the class [Prelude.Lens]; the clock is the class [Prelude.Clock].
      Middlewares that read the clock once see one time; code that reads it
      several times (breaker, token source, JWKS lookups) gets the times as
      arguments.
    - Interfaces of the code are classes: [Auth.Verifier] (auth.Verifier),
      [Idempotency.Cache] with the instances [LocalCache] and
      [DistributedCache], [Idempotency.RedisKV] and [RateLimit.redisAPI] for the
      methods of redis.API, [Dynamo.dynamoDBAPI], [Secrets.secretsManagerAPI],
      [Rds.rdsDataAPI] and [CloudWatch.cwLogsAPI] for what the AWS SDK provides,
      [Banned.RecordStore] for what the ban list needs of the DynamoDB client,
      [Ses.sesAPI], [Clients.Connect.connectAPI] and its neighbours for the
      other AWS services, [Telemetry.LogSink] for the logger the telemetry
      writes to.  [Stack.Gate] is what the middlewares promise each other: each
      answers with an error itself or calls the next handler once, and what
      scopes it may put into the context.  [Claims.Register] is what the
      idempotency middleware relies on, [Claims.RedisServer] what Redis
      documents of SET NX.
    - Shared state under concurrency is a step relation: [Breaker.sys_step]
      interleaves calls and prunes at the granularity of locks and sync.Map
      operations, [Idempotency.sys_step] claims and the evictor,
      [Proc.pool_step] the goroutines of a batch, [Logging.step] and
      [Logging.HTTPSink.step] the producers and the writing goroutine of a sink.
    - int, int64 and time.Duration are integers with [Prelude.wrap64] where the
      code can overflow; time.Sub saturates ([Prelude.timeSub]); float64 is a
      rational rounded to 53 bits after every operation ([Float64.fround]).
    - Strings are byte strings; the parts of strings, strconv, net, net/netip,
      net/url, regexp, time and net/http the code uses are defined in
      [GoStrings], [Regex], [Net], [Float64], [Http] and [Headers].
    - Code outside the repository (go-jwt, YAML, AWS, Redis, singleflight,
      argon2, AES-GCM) and the reflective parts of the standard library (JSON
      coding, compiling a regular expression a configuration contains) are
      arguments of the definitions that use them.  The Lua script of the Redis
      client is source of the repository and is modelled.  What a handler
      logs on the way is left out; the logging library itself is [LogLine] and
      [Logging].

    ** The files

    - [Prelude]: machine integers, time, errors ([result], [errors_is]), lenses,
      tactics, list facts.
    - [Unicode]: the case mappings of Unicode as Go's tables have them, range by
      range.
    - [GoStrings]: slices, prefixes, [Split]/[Join], [TrimSpace], [Atoi]; runes and
      UTF-8, [ToLower] and [ToUpper] rune by rune.  [EqualFold] folds ASCII: what
      the code compares with it is an ASCII text.
    - [Http]: headers, context (src/http/context), requests, error codes and
      error responses (src/api/errors), the response writer and its recording
      wrapper (src/api/response), [Chain].  Theorems: a rejecting middleware
      hides what is listed after it; the wrapper records the status sent,
      except after an informational one.
    - [Breaker]: src/http/client/circuitbreaker.go.  Theorems: sequential calls
      refine the automaton closed/open/half-open; when it trips; the host cap
      and the half-open bound are invariants; three races that exceed them.
    - [Regex]: a derivative matcher, proved to decide the language.
    - [Net]: IP addresses, CIDR blocks, host:port, URL queries.
    - [Requests]: src/api/request.  Theorems: the client key behind trusted
      proxies ignores what the client prepended, but not a header line of its
      own; version and route; request ids; building a request without a body
      panics.
    - [IPAccess]: src/api/ipaccess.  Theorems: the middleware admits exactly
      what the lists denote; a malformed allow list fails open.
    - [Jwt]: src/security/jwt, oauth, token.  Theorem: bearer extraction.
    - [Headers]: src/api/headers, src/api/csrf.  Theorems: double submit; how
      the client-source middleware switches it off; the content length limit.
    - [Rules]: src/rules, src/api/validation.  Theorems: the most specific rule of
      the configuration applies; equal specificity is ambiguous; a strict rule
      accepts exactly what satisfies it as configured; the body is truncated.  A
      request without Body reads as an empty one (in Go reading it would panic;
      net/http gives every server request a Body).
    - [Float64]: binary64 arithmetic with its error bounds, durations.
    - [RateLimit]: src/api/ratelimit.  The state [rlState] and the client interface
      [redisAPI] take the state of the Redis server as a parameter, so that [Allow]
      runs on the server of [Redis] as well.  Theorems: the window bound; no
      sequence of calls and evictor ticks shows that buckets were evicted; stale
      clock readings refill twice; a large time to live overflows.
    - [Idempotency]: src/api/idempotency.  Theorems: claims of a key are
      exclusive under every interleaving of claims; the evictor breaks this; a
      duplicate request conflicts; Check on the distributed store.
    - [HttpClient]: src/http/client/client.go, retry.go.  Theorems: the retry
      loop terminates within its budget, goes through the breaker at every attempt
      and backs off, returns the first final outcome, and what is sent without
      GetBody.
    - [ServiceAuth]: src/http/client/serviceauth.go.  Theorem: tokens handed
      out were granted by the endpoint and are live; [answers] is what the
      endpoint has answered so far, [reached] what a cache holds after that.
    - [Auth]: src/auth.  Theorems: a handler behind the scope guard runs only
      for a verified service; a key is handed out exactly if the newest document
      served has it, over all histories of lookups; what the negative cache
      protects against.

    - [Proc]: programs that call services, run alone or in a pool of goroutines
      under any schedule.
    - [Dynamo]: src/aws/dynamodb.  Theorems: a batch write without error has
      applied everything, under every interleaving of its chunks; the pool
      respects its limit, never blocks, ends and reports the first error by
      index; QueryAll starts at the beginning whatever start key it is given.
    - [TTLCache]: the cache the next three share.
    - [Secrets]: src/aws/secretsmanager.  Theorems: what GetSecrets returns was
      served at most a time to live ago; the watcher reports changes.
    - [Health]: src/api/handlers/health.  Theorems: the readiness answer; a
      cancelled probe poisons it.
    - [Banned]: src/security/bannedcustomers.  Theorem: what a ban answer rests
      on.

    - [Sanitize]: src/api/sanitization.  Theorems: what the middleware passes
      on is clean, and an unreadable body is answered; removal is not repeated;
      other content types pass.
    - [Redact]: src/security/redaction, src/api/redaction.  Theorems: a value
      under a sensitive key does not influence the output, structure and types
      are kept, which keys are sensitive, what the checksum detects, and the gaps.
    - [LogLine]: src/logging, the attributes and the two line formats.
      Theorems: when a record is one line, and the two texts, message and request
      id, that can break it; a sensitive attribute does not influence it; where
      text and JSON disagree.
    - [Logging]: src/logging/runtime, the asynchronous writer, the HTTP sink
      and the package state.  Theorems: every line a completed write submitted is
      written, in order, once; a flush is acknowledged when what preceded it is written; crashes
      after Close and across a swap.
    - [Redis]: src/db/redis.  Theorems: the distributed window bound, that the
      limiter is off by default, and what skewed clocks do.
    - [Aws]: the options the AWS clients share.
    - [Rds]: src/aws/rds.  Theorem: parameters and rows round trip in front of any
      database that binds parameters by name and returns the metadata the request
      asks for ([fronts]).
    - [Crypto]: src/security/hashing, encryption.  Theorems: round trips.
    - [Events]: src/events, src/aws/sqs, src/aws/sns.  The handler is given the
      number of the call, so that it may answer each call differently.  Theorems:
      delivery and acknowledgement, the backoff, what a failing handler does to
      the order.
    - [CloudWatch]: src/aws/cloudwatch.  Theorems: stable order and batch
      limits of log events and what the service's rejections leave of them, the
      pages of a search, the metric upload.
    - [Moxtox]: src/testing/moxtox, the mock server.  Theorems: whatever the
      configuration no mock is served; the order of scenarios; what a body
      condition does to the next one; the quick mode's unreachable default.
    - [Telemetry]: src/api/telemetry, src/api/server, Bind of src/api/response.
      Theorems: panics are contained and the record shows the status the client
      sees; the exceptions, after an informational status among them; what a failed
      start looks like.
    - [Ses]: src/aws/ses.  Theorems: no address or subject adds a header; texts
      and attachments round trip through readers of multipart, quoted-printable
      and base64; a file name injects a header.
    - [Clients]: a Module per thin client (src/aws/connect, contactlens,
      elasticache, opensearch, s3, lambda, bedrock).  Theorem: listings are
      complete.
    - [Otel]: src/logging/otel, and in its Module WebSocket src/http/websocket.
      Theorems: the file log is complete; the limits of a connection.
    - [Stack]: src/api/middleware/exports.go, every exported middleware as a
      [Gate].  Theorems: any chain of them fails closed; the scope guard is
      sound in any chain; with the telemetry around it there is one record per
      request, and what it shows of what the client got.
    - [Outbound]: src/http/client once more, put together over one world: the
      retrying client, net/http's redirects, the authenticating transport, the
      token source.  [traced] adds to the world what was put on the wire, and
      [history] tells what the endpoint has answered; the code reads neither.  A
      lemma says that it runs as the client of [HttpClient] does.  Theorems: every
      request on the wire carries the latest token granted, in its lifetime; a
      redirect takes it along.
    - [Claims]: the promise [Register] of an idempotency cache and of what its
      background does (the evictor of the in-memory cache, nothing for Redis), kept
      by both.  Theorem: a repeated request is refused.
    - [Stubs]: src/gcp, src/db/sql, src/db/opensearch, src/testing/testutil:
      clients that are not implemented yet, and the test tiers.

    ** Fuel

    [HttpClient.retry_loop] gets one unit per allowed attempt and returns at
    the latest at the last attempt.  [Net.ipv6Loop] gets eight
    units, one per group of an IPv6 address.  [GoStrings.trimFuel],
    [replace_fuel], [GoStrings.mapRunes], [Float64.durationTerms], [Redact.starEnds] and
    [Redact.replaceFrom] get the length of the string, every round consumes a
    byte.  [Dynamo.chunks_from] and [CloudWatch.Metrics.chunks] get the length of
    the list; [Dynamo.allPages] and [CloudWatch.filterLoop] get one unit per
    page, and return when they have as many as there are pages.
    [Redis.expUp] and [expDown] get the number of binary digits of the value,
    each round takes a decimal one.  [Clients.listPages] gets one unit per
    request, and never ends when the service always sends a token
    ([listPages_endless]).  [Ses.qWords] and the readers [Ses.readHeader] and
    [Ses.splitOn] get the length of the string.  [Outbound.follow] gets the ten
    requests net/http allows, [Outbound.retryIn] one unit per allowed attempt.
    [Proc.prog] is an inductive type: programs end.

    ** Not modelled

    The connectors (src/connectors) are empty structs, the host hardening
    (src/security/os/host) single system calls; code generation and scripts are
    tooling.  Of the websocket client and the log exporters, the connection and
    the OpenTelemetry SDK are libraries. *)

From stdpp Require Export prelude gmap strings list fin_maps pretty.
From Stdlib Require Export ZArith Lia.

Open Scope Z_scope.

(** ** Scopes, hint databases *)

Declare Scope go_scope.
Delimit Scope go_scope with go.
Open Scope go_scope.

(** Facts about machine integers, durations and saturating time arithmetic. *)
Create HintDb goint discriminated.
(** Facts about Go strings. *)
Create Rewrite HintDb gostr.

(** ** Machine integers

    Go's [int], [int64] and [time.Duration] are 64-bit two's complement
    integers: an operation whose exact result does not fit wraps around. *)

Definition int64_min : Z := - 2 ^ 63.
Definition int64_max : Z := 2 ^ 63 - 1.
Definition int64_ok (z : Z) : Prop := int64_min <= z <= int64_max.
Definition wrap64 (z : Z) : Z := (z + 2 ^ 63) mod 2 ^ 64 - 2 ^ 63.
Definition wrap32 (z : Z) : Z := (z + 2 ^ 31) mod 2 ^ 32 - 2 ^ 31.

#[export] Instance int64_ok_dec z : Decision (int64_ok z).
Proof. unfold int64_ok. apply _. Defined.

Lemma wrap64_id z : int64_ok z -> wrap64 z = z.
Proof.
  unfold int64_ok, int64_min, int64_max, wrap64. intros H.
  rewrite Z.mod_small; lia.
Qed.

Lemma wrap64_range z : int64_ok (wrap64 z).
Proof.
  unfold int64_ok, int64_min, int64_max, wrap64.
  pose proof (Z.mod_pos_bound (z + 2 ^ 63) (2 ^ 64) ltac:(lia)). lia.
Qed.

Lemma wrap64_wrap64 z : wrap64 (wrap64 z) = wrap64 z.
Proof. apply wrap64_id, wrap64_range. Qed.

#[export] Hint Resolve wrap64_id wrap64_range : goint.

(** ** Time

    A [time.Time] is the number of nanoseconds since the Unix epoch; the zero
    [time.Time] is 1 January of year 1.  [Sub] saturates at the extreme
    durations, as the standard library does. *)

Definition Nanosecond : Z := 1.
Definition Millisecond : Z := 1000000.
Definition Second : Z := 1000000000.
Definition Minute : Z := 60 * Second.

Definition zeroTime : Z := -62135596800 * Second.
Definition isZero (t : Z) : bool := t =? zeroTime.
Definition saturate64 (z : Z) : Z := Z.max int64_min (Z.min int64_max z).
Definition timeSub (a b : Z) : Z := saturate64 (a - b).
Definition timeBefore (a b : Z) : bool := a <? b.
Definition timeAfter (a b : Z) : bool := b <? a.
(** [t.Unix()]: whole seconds, rounded towards minus infinity. *)
Definition unixSec (t : Z) : Z := t / Second.

Lemma saturate64_id z : int64_ok z -> saturate64 z = z.
Proof. unfold saturate64, int64_ok. lia. Qed.

Lemma saturate64_range z : int64_ok (saturate64 z).
Proof. unfold saturate64, int64_ok, int64_min, int64_max. lia. Qed.

Lemma saturate64_mono a b : a <= b -> saturate64 a <= saturate64 b.
Proof. unfold saturate64. lia. Qed.

Lemma unixSec_mono a b : a <= b -> unixSec a <= unixSec b.
Proof. intros. unfold unixSec. apply Z.div_le_mono; [reflexivity|done]. Qed.

#[export] Hint Resolve saturate64_id saturate64_range saturate64_mono unixSec_mono : goint.

(** ** Errors

    A Go [error] is a chain of messages ending in a plain error or in a
    sentinel (a package-level [errors.New] value, compared by identity).
    [errors_is] is [errors.Is]. *)

Inductive error : Type :=
  | Errorf (msg : string)
  | Sentinel (name : string)
  | Wrap (msg : string) (cause : error).

#[export] Instance error_eq_dec : EqDecision error.
Proof. solve_decision. Defined.

Fixpoint errors_is (e target : error) : bool :=
  bool_decide (e = target) ||
  match e with
  | Wrap _ cause => errors_is cause target
  | _ => false
  end.

(** A pair [(v, err)] with exactly one meaningful side. *)
Inductive result (A : Type) : Type :=
  | Ok (a : A)
  | Err (e : error).
Arguments Ok {A} a.
Arguments Err {A} e.

Definition rbind {A B} (m : result A) (k : A -> result B) : result B :=
  match m with Ok a => k a | Err e => Err e end.
Definition rmap {A B} (f : A -> B) (m : result A) : result B :=
  match m with Ok a => Ok (f a) | Err e => Err e end.
Definition is_ok {A} (m : result A) : bool :=
  match m with Ok _ => true | Err _ => false end.

Notation "'let?' x ':=' m 'in' k" := (rbind m (fun x => k))
  (at level 10, x name, m at level 100, k at level 200) : go_scope.

Lemma rbind_Ok_inv {A B} (m : result A) (k : A -> result B) b :
  rbind m k = Ok b -> exists a, m = Ok a /\ k a = Ok b.
Proof. destruct m; simpl; [eauto|done]. Qed.

Lemma errors_is_refl e : errors_is e e = true.
Proof. destruct e; simpl; by rewrite bool_decide_true. Qed.

Lemma errors_is_wrap msg e t : errors_is e t = true -> errors_is (Wrap msg e) t = true.
Proof. intros H. simpl. by rewrite H, orb_true_r. Qed.

(** ** State components of a larger world

    Package-level state (a store, a limiter, a verifier) lives in the world a
    request is served in.  [Lens S W] says that the world [W] has a component
    [S]: handlers are written against this interface, so that middlewares with
    different state compose in one chain. *)

Class Lens (S W : Type) := {
  view : W -> S;
  over : S -> W -> W;
  view_over s w : view (over s w) = s;
  over_view w : over (view w) w = w;
  over_over s1 s2 w : over s1 (over s2 w) = over s1 w;
}.

#[export] Program Instance lens_id S : Lens S S :=
  {| view := fun s => s; over := fun s _ => s |}.
Solve Obligations with done.

(** The wall clock of a world. *)
Class Clock (W : Type) := now : W -> Z.

(** ** Tactics shared by the development *)

Ltac bool_to_prop :=
  repeat match goal with
  | H : andb _ _ = true |- _ => apply andb_true_iff in H; destruct H
  | H : andb _ _ = false |- _ => apply andb_false_iff in H
  | H : orb _ _ = true |- _ => apply orb_true_iff in H
  | H : orb _ _ = false |- _ => apply orb_false_iff in H; destruct H
  | H : negb _ = true |- _ => apply negb_true_iff in H
  | H : negb _ = false |- _ => apply negb_false_iff in H
  | H : bool_decide _ = true |- _ => apply bool_decide_eq_true in H
  | H : bool_decide _ = false |- _ => apply bool_decide_eq_false in H
  | H : (_ =? _)%Z = true |- _ => apply Z.eqb_eq in H
  | H : (_ =? _)%Z = false |- _ => apply Z.eqb_neq in H
  | H : (_ <? _)%Z = true |- _ => apply Z.ltb_lt in H
  | H : (_ <? _)%Z = false |- _ => apply Z.ltb_ge in H
  | H : (_ <=? _)%Z = true |- _ => apply Z.leb_le in H
  | H : (_ <=? _)%Z = false |- _ => apply Z.leb_gt in H
  | H : String.eqb _ _ = true |- _ => apply String.eqb_eq in H
  | H : String.eqb _ _ = false |- _ => apply String.eqb_neq in H
  end.

(** Split on the conditions and matches the goal or the hypotheses branch on. *)
Ltac split_goal :=
  match goal with
  | |- context [if ?b then _ else _] => destruct b eqn:?
  | |- context [match ?x with _ => _ end] => destruct x eqn:?
  end.
Ltac split_hyp H :=
  match type of H with
  | context [if ?b then _ else _] => destruct b eqn:?
  | context [match ?x with _ => _ end] => destruct x eqn:?
  end.
Ltac split_all := repeat (split_goal; try done).
Ltac branch := repeat (split_goal; simpl in *; try done); bool_to_prop.

(** ** Shared list facts *)

(** Replacing one element changes a sum by the difference of the summands. *)
Lemma sum_list_with_insert {A} (f : A -> nat) (l : list A) i x y :
  l !! i = Some x -> (sum_list_with f (<[i:=y]> l) + f x = sum_list_with f l + f y)%nat.
Proof.
  revert i. induction l as [|a l IH]; intros [|i]; simpl; try done.
  - intros [= ->]. lia.
  - intros H. specialize (IH i H). lia.
Qed.

Lemma sum_list_with_lookup {A} (f : A -> nat) (l : list A) i x :
  l !! i = Some x -> (f x <= sum_list_with f l)%nat.
Proof. revert i. induction l as [|a l IH]; intros [|i]; simpl; try done; [intros [= ->]; lia|].
  intros H%IH. lia. Qed.

(** Two different positions both count. *)
Lemma sum_list_with_two {A} (f : A -> nat) (l : list A) i j x y :
  i <> j -> l !! i = Some x -> l !! j = Some y -> (f x + f y <= sum_list_with f l)%nat.
Proof.
  revert i j. induction l as [|a l IH]; intros [|i] [|j]; simpl; try done.
  - intros _ [= ->] H%(sum_list_with_lookup f). lia.
  - intros _ H%(sum_list_with_lookup f) [= ->]. lia.
  - intros Hne H1 H2. assert (i <> j) by congruence. pose proof (IH i j ltac:(done) H1 H2). lia.
Qed.

Lemma ex_In_cons {A} (P : A -> Prop) x l :
  (exists y, In y (x :: l) /\ P y) <-> P x \/ exists y, In y l /\ P y.
Proof. simpl. split; [intros (y & [->|?] & ?); eauto|intros [?|(y & ? & ?)]; eauto]. Qed.

Lemma all_In_cons {A} (P : A -> Prop) x l :
  (forall y, In y (x :: l) -> P y) <-> P x /\ forall y, In y l -> P y.
Proof. simpl. split; [auto|intros [? ?] y [->|?]; auto]. Qed.
