(* ===== verification/Unicode.v ===== *)
(** * The case mappings of package unicode

    [unicode.ToLower] and [unicode.ToUpper] beyond ASCII, as ranges: the first and the
    last code point, the distance of two code points of the range, and what is added
    to each.  The data is the simple case mapping of the Unicode character
    database, the same in versions 14 and 15. *)

From S2P Require Import Prelude.

Open Scope Z_scope.

Definition caseRange : Type := Z * Z * Z * Z.
(** The mapping of the ranges; other code points are mapped to themselves. *)
Fixpoint mapCase (ranges : list caseRange) (n : Z) : Z :=
  match ranges with
  | [] => n
  | (first, last, every, delta) :: ranges =>
      if (first <=? n) && (n <=? last) && ((n - first) mod every =? 0) then n + delta else mapCase ranges n
  end.

Definition lowerRanges : list caseRange :=
  [(192, 214, 1, 32); (216, 222, 1, 32); (256, 302, 2, 1); (304, 304, 1, -199); (306, 310, 2, 1);
   (313, 327, 2, 1); (330, 374, 2, 1); (376, 376, 1, -121); (377, 381, 2, 1); (385, 385, 1, 210);
   (386, 388, 2, 1); (390, 390, 1, 206); (391, 391, 1, 1); (393, 394, 1, 205); (395, 395, 1, 1);
   (398, 398, 1, 79); (399, 399, 1, 202); (400, 400, 1, 203); (401, 401, 1, 1); (403, 403, 1, 205);
   (404, 404, 1, 207); (406, 406, 1, 211); (407, 407, 1, 209); (408, 408, 1, 1); (412, 412, 1, 211);
   (413, 413, 1, 213); (415, 415, 1, 214); (416, 420, 2, 1); (422, 422, 1, 218); (423, 423, 1, 1);
   (425, 425, 1, 218); (428, 428, 1, 1); (430, 430, 1, 218); (431, 431, 1, 1); (433, 434, 1, 217);
   (435, 437, 2, 1); (439, 439, 1, 219); (440, 440, 1, 1); (444, 444, 1, 1); (452, 452, 1, 2);
   (453, 453, 1, 1); (455, 455, 1, 2); (456, 456, 1, 1); (458, 458, 1, 2); (459, 475, 2, 1);
   (478, 494, 2, 1); (497, 497, 1, 2); (498, 500, 2, 1); (502, 502, 1, -97); (503, 503, 1, -56);
   (504, 542, 2, 1); (544, 544, 1, -130); (546, 562, 2, 1); (570, 570, 1, 10795); (571, 571, 1, 1);
   (573, 573, 1, -163); (574, 574, 1, 10792); (577, 577, 1, 1); (579, 579, 1, -195); (580, 580, 1, 69);
   (581, 581, 1, 71); (582, 590, 2, 1); (880, 882, 2, 1); (886, 886, 1, 1); (895, 895, 1, 116);
   (902, 902, 1, 38); (904, 906, 1, 37); (908, 908, 1, 64); (910, 911, 1, 63); (913, 929, 1, 32);
   (931, 939, 1, 32); (975, 975, 1, 8); (984, 1006, 2, 1); (1012, 1012, 1, -60); (1015, 1015, 1, 1);
   (1017, 1017, 1, -7); (1018, 1018, 1, 1); (1021, 1023, 1, -130); (1024, 1039, 1, 80);
   (1040, 1071, 1, 32); (1120, 1152, 2, 1); (1162, 1214, 2, 1); (1216, 1216, 1, 15);
   (1217, 1229, 2, 1); (1232, 1326, 2, 1); (1329, 1366, 1, 48); (4256, 4293, 1, 7264);
   (4295, 4295, 1, 7264); (4301, 4301, 1, 7264); (5024, 5103, 1, 38864); (5104, 5109, 1, 8);
   (7312, 7354, 1, -3008); (7357, 7359, 1, -3008); (7680, 7828, 2, 1); (7838, 7838, 1, -7615);
   (7840, 7934, 2, 1); (7944, 7951, 1, -8); (7960, 7965, 1, -8); (7976, 7983, 1, -8);
   (7992, 7999, 1, -8); (8008, 8013, 1, -8); (8025, 8031, 2, -8); (8040, 8047, 1, -8);
   (8072, 8079, 1, -8); (8088, 8095, 1, -8); (8104, 8111, 1, -8); (8120, 8121, 1, -8);
   (8122, 8123, 1, -74); (8124, 8124, 1, -9); (8136, 8139, 1, -86); (8140, 8140, 1, -9);
   (8152, 8153, 1, -8); (8154, 8155, 1, -100); (8168, 8169, 1, -8); (8170, 8171, 1, -112);
   (8172, 8172, 1, -7); (8184, 8185, 1, -128); (8186, 8187, 1, -126); (8188, 8188, 1, -9);
   (8486, 8486, 1, -7517); (8490, 8490, 1, -8383); (8491, 8491, 1, -8262); (8498, 8498, 1, 28);
   (8544, 8559, 1, 16); (8579, 8579, 1, 1); (9398, 9423, 1, 26); (11264, 11311, 1, 48);
   (11360, 11360, 1, 1); (11362, 11362, 1, -10743); (11363, 11363, 1, -3814);
   (11364, 11364, 1, -10727); (11367, 11371, 2, 1); (11373, 11373, 1, -10780);
   (11374, 11374, 1, -10749); (11375, 11375, 1, -10783); (11376, 11376, 1, -10782);
   (11378, 11378, 1, 1); (11381, 11381, 1, 1); (11390, 11391, 1, -10815); (11392, 11490, 2, 1);
   (11499, 11501, 2, 1); (11506, 11506, 1, 1); (42560, 42604, 2, 1); (42624, 42650, 2, 1);
   (42786, 42798, 2, 1); (42802, 42862, 2, 1); (42873, 42875, 2, 1); (42877, 42877, 1, -35332);
   (42878, 42886, 2, 1); (42891, 42891, 1, 1); (42893, 42893, 1, -42280); (42896, 42898, 2, 1);
   (42902, 42920, 2, 1); (42922, 42922, 1, -42308); (42923, 42923, 1, -42319);
   (42924, 42924, 1, -42315); (42925, 42925, 1, -42305); (42926, 42926, 1, -42308);
   (42928, 42928, 1, -42258); (42929, 42929, 1, -42282); (42930, 42930, 1, -42261);
   (42931, 42931, 1, 928); (42932, 42946, 2, 1); (42948, 42948, 1, -48); (42949, 42949, 1, -42307);
   (42950, 42950, 1, -35384); (42951, 42953, 2, 1); (42960, 42960, 1, 1); (42966, 42968, 2, 1);
   (42997, 42997, 1, 1); (65313, 65338, 1, 32); (66560, 66599, 1, 40); (66736, 66771, 1, 40);
   (66928, 66938, 1, 39); (66940, 66954, 1, 39); (66956, 66962, 1, 39); (66964, 66965, 1, 39);
   (68736, 68786, 1, 64); (71840, 71871, 1, 32); (93760, 93791, 1, 32); (125184, 125217, 1, 34)].

Definition upperRanges : list caseRange :=
  [(181, 181, 1, 743); (224, 246, 1, -32); (248, 254, 1, -32); (255, 255, 1, 121); (257, 303, 2, -1);
   (305, 305, 1, -232); (307, 311, 2, -1); (314, 328, 2, -1); (331, 375, 2, -1); (378, 382, 2, -1);
   (383, 383, 1, -300); (384, 384, 1, 195); (387, 389, 2, -1); (392, 392, 1, -1); (396, 396, 1, -1);
   (402, 402, 1, -1); (405, 405, 1, 97); (409, 409, 1, -1); (410, 410, 1, 163); (414, 414, 1, 130);
   (417, 421, 2, -1); (424, 424, 1, -1); (429, 429, 1, -1); (432, 432, 1, -1); (436, 438, 2, -1);
   (441, 441, 1, -1); (445, 445, 1, -1); (447, 447, 1, 56); (453, 453, 1, -1); (454, 454, 1, -2);
   (456, 456, 1, -1); (457, 457, 1, -2); (459, 459, 1, -1); (460, 460, 1, -2); (462, 476, 2, -1);
   (477, 477, 1, -79); (479, 495, 2, -1); (498, 498, 1, -1); (499, 499, 1, -2); (501, 501, 1, -1);
   (505, 543, 2, -1); (547, 563, 2, -1); (572, 572, 1, -1); (575, 576, 1, 10815); (578, 578, 1, -1);
   (583, 591, 2, -1); (592, 592, 1, 10783); (593, 593, 1, 10780); (594, 594, 1, 10782);
   (595, 595, 1, -210); (596, 596, 1, -206); (598, 599, 1, -205); (601, 601, 1, -202);
   (603, 603, 1, -203); (604, 604, 1, 42319); (608, 608, 1, -205); (609, 609, 1, 42315);
   (611, 611, 1, -207); (613, 613, 1, 42280); (614, 614, 1, 42308); (616, 616, 1, -209);
   (617, 617, 1, -211); (618, 618, 1, 42308); (619, 619, 1, 10743); (620, 620, 1, 42305);
   (623, 623, 1, -211); (625, 625, 1, 10749); (626, 626, 1, -213); (629, 629, 1, -214);
   (637, 637, 1, 10727); (640, 640, 1, -218); (642, 642, 1, 42307); (643, 643, 1, -218);
   (647, 647, 1, 42282); (648, 648, 1, -218); (649, 649, 1, -69); (650, 651, 1, -217);
   (652, 652, 1, -71); (658, 658, 1, -219); (669, 669, 1, 42261); (670, 670, 1, 42258);
   (837, 837, 1, 84); (881, 883, 2, -1); (887, 887, 1, -1); (891, 893, 1, 130); (940, 940, 1, -38);
   (941, 943, 1, -37); (945, 961, 1, -32); (962, 962, 1, -31); (963, 971, 1, -32); (972, 972, 1, -64);
   (973, 974, 1, -63); (976, 976, 1, -62); (977, 977, 1, -57); (981, 981, 1, -47); (982, 982, 1, -54);
   (983, 983, 1, -8); (985, 1007, 2, -1); (1008, 1008, 1, -86); (1009, 1009, 1, -80);
   (1010, 1010, 1, 7); (1011, 1011, 1, -116); (1013, 1013, 1, -96); (1016, 1016, 1, -1);
   (1019, 1019, 1, -1); (1072, 1103, 1, -32); (1104, 1119, 1, -80); (1121, 1153, 2, -1);
   (1163, 1215, 2, -1); (1218, 1230, 2, -1); (1231, 1231, 1, -15); (1233, 1327, 2, -1);
   (1377, 1414, 1, -48); (4304, 4346, 1, 3008); (4349, 4351, 1, 3008); (5112, 5117, 1, -8);
   (7296, 7296, 1, -6254); (7297, 7297, 1, -6253); (7298, 7298, 1, -6244); (7299, 7300, 1, -6242);
   (7301, 7301, 1, -6243); (7302, 7302, 1, -6236); (7303, 7303, 1, -6181); (7304, 7304, 1, 35266);
   (7545, 7545, 1, 35332); (7549, 7549, 1, 3814); (7566, 7566, 1, 35384); (7681, 7829, 2, -1);
   (7835, 7835, 1, -59); (7841, 7935, 2, -1); (7936, 7943, 1, 8); (7952, 7957, 1, 8);
   (7968, 7975, 1, 8); (7984, 7991, 1, 8); (8000, 8005, 1, 8); (8017, 8023, 2, 8); (8032, 8039, 1, 8);
   (8048, 8049, 1, 74); (8050, 8053, 1, 86); (8054, 8055, 1, 100); (8056, 8057, 1, 128);
   (8058, 8059, 1, 112); (8060, 8061, 1, 126); (8064, 8071, 1, 8); (8080, 8087, 1, 8);
   (8096, 8103, 1, 8); (8112, 8113, 1, 8); (8115, 8115, 1, 9); (8126, 8126, 1, -7205);
   (8131, 8131, 1, 9); (8144, 8145, 1, 8); (8160, 8161, 1, 8); (8165, 8165, 1, 7); (8179, 8179, 1, 9);
   (8526, 8526, 1, -28); (8560, 8575, 1, -16); (8580, 8580, 1, -1); (9424, 9449, 1, -26);
   (11312, 11359, 1, -48); (11361, 11361, 1, -1); (11365, 11365, 1, -10795); (11366, 11366, 1, -10792);
   (11368, 11372, 2, -1); (11379, 11379, 1, -1); (11382, 11382, 1, -1); (11393, 11491, 2, -1);
   (11500, 11502, 2, -1); (11507, 11507, 1, -1); (11520, 11557, 1, -7264); (11559, 11559, 1, -7264);
   (11565, 11565, 1, -7264); (42561, 42605, 2, -1); (42625, 42651, 2, -1); (42787, 42799, 2, -1);
   (42803, 42863, 2, -1); (42874, 42876, 2, -1); (42879, 42887, 2, -1); (42892, 42892, 1, -1);
   (42897, 42899, 2, -1); (42900, 42900, 1, 48); (42903, 42921, 2, -1); (42933, 42947, 2, -1);
   (42952, 42954, 2, -1); (42961, 42961, 1, -1); (42967, 42969, 2, -1); (42998, 42998, 1, -1);
   (43859, 43859, 1, -928); (43888, 43967, 1, -38864); (65345, 65370, 1, -32); (66600, 66639, 1, -40);
   (66776, 66811, 1, -40); (66967, 66977, 1, -39); (66979, 66993, 1, -39); (66995, 67001, 1, -39);
   (67003, 67004, 1, -39); (68800, 68850, 1, -64); (71872, 71903, 1, -32); (93792, 93823, 1, -32);
   (125218, 125251, 1, -34)].

Definition lowerRune (n : Z) : Z :=
  if n <? 128 then if (65 <=? n) && (n <=? 90) then n + 32 else n else mapCase lowerRanges n.
Definition upperRune (n : Z) : Z :=
  if n <? 128 then if (97 <=? n) && (n <=? 122) then n - 32 else n else mapCase upperRanges n.

(** The dotted capital I and the Kelvin sign have ASCII letters as their lower case,
    the dotless i and the long s as their upper case. *)
Example ascii_lower : map lowerRune [304; 8490; 75; 201] = [105; 107; 107; 233].
Proof. reflexivity. Qed.
Example ascii_upper : map upperRune [305; 383; 107; 233; 223] = [73; 83; 75; 201; 223].
Proof. reflexivity. Qed.
