(* ===== verification/GoStrings.v ===== *)
(** * The parts of Go's [strings] and [strconv] packages the SDK uses

    A Go string is a sequence of bytes: [string] of the Standard Library, one
    [ascii] per byte.  The functions follow the Go standard library on every
    input, with one exception: [EqualFold] folds the case of ASCII letters, which is
    what [strings.EqualFold] does when one of its arguments is an ASCII text without
    k and s.  [TrimSpace] knows the Unicode spaces by their UTF-8 encodings. *)

From S2P Require Import Prelude Unicode.
From Stdlib Require Export Ascii String.
Abbreviation length := List.length.

Open Scope string_scope.
Open Scope Z_scope.

(** ** Bytes *)

Definition byteZ (c : ascii) : Z := Z.of_N (N_of_ascii c).
Definition in_range (lo hi : ascii) (c : ascii) : bool :=
  (byteZ lo <=? byteZ c) && (byteZ c <=? byteZ hi).
Definition isDigit : ascii -> bool := in_range "0" "9".
Definition isUpper : ascii -> bool := in_range "A" "Z".
Definition isLower : ascii -> bool := in_range "a" "z".
Definition lowerByte (c : ascii) : ascii :=
  if isUpper c then ascii_of_N (N_of_ascii c + 32) else c.
Definition upperByte (c : ascii) : ascii :=
  if isLower c then ascii_of_N (N_of_ascii c - 32) else c.

(** ** Slicing, searching, case *)

Definition len (s : string) : Z := Z.of_nat (String.length s).

Fixpoint smap (f : ascii -> ascii) (s : string) : string :=
  match s with "" => "" | String c s' => String (f c) (smap f s') end.
Definition EqualFold (a b : string) : bool := String.eqb (smap lowerByte a) (smap lowerByte b).

Fixpoint sforall (f : ascii -> bool) (s : string) : bool :=
  match s with "" => true | String c s' => f c && sforall f s' end.

(** [s[n:]] and [s[:n]]. *)
Fixpoint sdrop (n : nat) (s : string) : string :=
  match n, s with
  | O, _ => s
  | S n', String _ s' => sdrop n' s'
  | S _, "" => ""
  end.
Fixpoint stake (n : nat) (s : string) : string :=
  match n, s with
  | S n', String c s' => String c (stake n' s')
  | _, _ => ""
  end.

(** *** Runes *)

Definition byteOf (z : Z) : ascii := ascii_of_N (Z.to_N z).
Definition contByte (c : ascii) : option Z :=
  let b := byteZ c in if (128 <=? b) && (b <? 192) then Some (b - 128) else None.
(** [utf8.DecodeRuneInString] of a multi-byte rune: the rune and its bytes. *)
Definition decodeRune (s : string) : option (Z * nat) :=
  match s with
  | String c0 (String c1 r) =>
      let b0 := byteZ c0 in
      x1 ← contByte c1;
      if (194 <=? b0) && (b0 <? 224) then Some ((b0 - 192) * 64 + x1, 2%nat) else
      match r with
      | String c2 r =>
          x2 ← contByte c2;
          if (224 <=? b0) && (b0 <? 240) then
            let n := (b0 - 224) * 4096 + x1 * 64 + x2 in
            if (2048 <=? n) && negb ((55296 <=? n) && (n <? 57344)) then Some (n, 3%nat) else None
          else
          match r with
          | String c3 _ =>
              x3 ← contByte c3;
              let n := (b0 - 240) * 262144 + x1 * 4096 + x2 * 64 + x3 in
              if (240 <=? b0) && (b0 <? 245) && (65536 <=? n) && (n <=? 1114111) then Some (n, 4%nat) else None
          | "" => None
          end
      | "" => None
      end
  | _ => None
  end.
(** [utf8.EncodeRune]. *)
Definition encodeRune (n : Z) : string :=
  let cont x := byteOf (128 + x mod 64) in
  if n <? 128 then String (byteOf n) ""
  else if n <? 2048 then String (byteOf (192 + n / 64)) (String (cont n) "")
  else if n <? 65536 then
    String (byteOf (224 + n / 4096)) (String (cont (n / 64)) (String (cont n) ""))
  else String (byteOf (240 + n / 262144)) (String (cont (n / 4096)) (String (cont (n / 64)) (String (cont n) ""))).
Definition RuneError : Z := 65533.
(** [strings.Map] of a function that keeps [RuneError], which an invalid byte is
    read as. *)
Fixpoint mapRunes (fuel : nat) (f : Z -> Z) (s : string) : string :=
  match fuel, s with
  | S fuel, String c r =>
      if byteZ c <? 128 then encodeRune (f (byteZ c)) +:+ mapRunes fuel f r
      else match decodeRune s with
           | Some (n, w) => encodeRune (f n) +:+ mapRunes fuel f (sdrop w s)
           | None => encodeRune (f RuneError) +:+ mapRunes fuel f r
           end
  | _, _ => ""
  end.
Definition isASCII (s : string) : bool := sforall (fun c => byteZ c <? 128) s.
Definition ToLower (s : string) : string :=
  if isASCII s then smap lowerByte s else mapRunes (String.length s) lowerRune s.
Definition ToUpper (s : string) : string :=
  if isASCII s then smap upperByte s else mapRunes (String.length s) upperRune s.

Definition HasPrefix (s p : string) : bool := String.prefix p s.
Definition CutPrefix (s p : string) : option string :=
  if HasPrefix s p then Some (sdrop (String.length p) s) else None.
Definition TrimPrefix (s p : string) : string :=
  default s (CutPrefix s p).

Fixpoint srev_app (s acc : string) : string :=
  match s with "" => acc | String c s' => srev_app s' (String c acc) end.
Definition srev (s : string) : string := srev_app s "".
Definition HasSuffix (s p : string) : bool := HasPrefix (srev s) (srev p).
Definition TrimSuffix (s p : string) : string :=
  if HasSuffix s p then stake (String.length s - String.length p) s else s.

(** [strings.Index]; [None] is Go's -1. *)
Fixpoint Index (s sub : string) : option nat :=
  if HasPrefix s sub then Some 0%nat else
  match s with
  | "" => None
  | String _ s' => match Index s' sub with Some n => Some (S n) | None => None end
  end.
Definition Contains (s sub : string) : bool :=
  match Index s sub with Some _ => true | None => false end.

(** [strings.Split] and [strings.SplitSeq] on a one-byte separator. *)
Fixpoint Split (s : string) (c : ascii) : list string :=
  match s with
  | "" => [""]
  | String a s' =>
      if Ascii.eqb a c then "" :: Split s' c else
      match Split s' c with
      | [] => [String a ""]
      | h :: t => String a h :: t
      end
  end.
Fixpoint Join (l : list string) (sep : string) : string :=
  match l with
  | [] => ""
  | [x] => x
  | x :: l' => x +:+ sep +:+ Join l' sep
  end.

(** [strings.ReplaceAll] with a non-empty [old]: leftmost, non-overlapping. *)
Fixpoint replace_fuel (fuel : nat) (s old new : string) : string :=
  match fuel with
  | O => s
  | S fuel' =>
      if HasPrefix s old then new +:+ replace_fuel fuel' (sdrop (String.length old) s) old new
      else match s with
           | "" => ""
           | String c s' => String c (replace_fuel fuel' s' old new)
           end
  end.
Definition ReplaceAll (s old new : string) : string :=
  replace_fuel (S (String.length s)) s old new.

(** [strings.TrimRight] with a one-byte cutset. *)
Fixpoint trimLeftByte (c : ascii) (s : string) : string :=
  match s with
  | "" => ""
  | String a s' => if Ascii.eqb a c then trimLeftByte c s' else s
  end.
Definition TrimRight (s : string) (c : ascii) : string := srev (trimLeftByte c (srev s)).

(** ** [strings.TrimSpace] *)

Definition b2 (x y : nat) : string := String (ascii_of_nat x) (String (ascii_of_nat y) "").
Definition b3 (x y z : nat) : string := String (ascii_of_nat x) (b2 y z).

(** The UTF-8 encodings of the runes [unicode.IsSpace] accepts. *)
Definition spaces : list string := Eval cbv in
  map (fun n => String (ascii_of_nat n) "") [9; 10; 11; 12; 13; 32]%nat ++
  [b2 194 133; b2 194 160; b3 225 154 128] ++
  map (fun n => b3 226 128 n) [128; 129; 130; 131; 132; 133; 134; 135; 136; 137; 138; 168; 169; 175]%nat ++
  [b3 226 129 159; b3 227 128 128].
Definition rspaces : list string := Eval cbv in map srev spaces.

Fixpoint cutAny (ps : list string) (s : string) : option string :=
  match ps with
  | [] => None
  | p :: ps' => match CutPrefix s p with Some r => Some r | None => cutAny ps' s end
  end.
Fixpoint trimFuel (fuel : nat) (ps : list string) (s : string) : string :=
  match fuel with
  | O => s
  | S fuel' => match cutAny ps s with Some r => trimFuel fuel' ps r | None => s end
  end.
Definition trimLeft (s : string) : string := trimFuel (String.length s) spaces s.
Definition trimRight (s : string) : string :=
  srev (trimFuel (String.length s) rspaces (srev s)).
Definition TrimSpace (s : string) : string := trimRight (trimLeft s).

(** [strings.FieldsSeq] on ASCII white space. *)
Definition asciiSpace (c : ascii) : bool :=
  existsb (fun n => N.eqb (N_of_ascii c) n) [9; 10; 11; 12; 13; 32]%N.
Fixpoint fields_go (s cur : string) : list string :=
  match s with
  | "" => if String.eqb cur "" then [] else [srev cur]
  | String c s' =>
      if asciiSpace c then (if String.eqb cur "" then fields_go s' "" else srev cur :: fields_go s' "")
      else fields_go s' (String c cur)
  end.
Definition Fields (s : string) : list string := fields_go s "".

(** ** [strconv] *)

Definition Itoa (z : Z) : string := pretty z.

Fixpoint digits (s : string) (acc : Z) : option Z :=
  match s with
  | "" => Some acc
  | String c s' => if isDigit c then digits s' (10 * acc + (byteZ c - 48)) else None
  end.
Definition parseInt64 (s : string) : option Z :=
  let unsigned neg s' :=
    match s' with
    | "" => None
    | _ => match digits s' 0 with
           | Some n => let z := if neg : bool then - n else n in
                       if bool_decide (int64_ok z) then Some z else None
           | None => None
           end
    end in
  match s with
  | String "+" s' => unsigned false s'
  | String "-" s' => unsigned true s'
  | _ => unsigned false s
  end.
(** [strconv.Atoi]; [None] is a syntax or range error. *)
Definition Atoi (s : string) : option Z := parseInt64 s.

(** ** Lemmas: append, slices, prefixes *)

(** Library settings keep [simpl] from unfolding append. *)
Lemma sapp_cons c a b : String c a +:+ b = String c (a +:+ b).
Proof. reflexivity. Qed.
Lemma sapp_nil_l b : "" +:+ b = b.
Proof. reflexivity. Qed.

Lemma sapp_nil_r s : s +:+ "" = s.
Proof. induction s as [|c s IH]; [done|]. by rewrite sapp_cons, IH. Qed.

Lemma sapp_assoc (a b c : string) : (a +:+ b) +:+ c = a +:+ b +:+ c.
Proof. induction a as [|x a IH]; [done|]. by rewrite !sapp_cons, IH. Qed.

Lemma slen_app (a b : string) :
  String.length (a +:+ b) = (String.length a + String.length b)%nat.
Proof. induction a as [|x a IH]; [done|]. rewrite sapp_cons. simpl. by rewrite IH. Qed.

Lemma sdrop_app p r : sdrop (String.length p) (p +:+ r) = r.
Proof. induction p as [|c p IH]; [by destruct r|]. by rewrite sapp_cons. Qed.

Lemma stake_app p r : stake (String.length p) (p +:+ r) = p.
Proof. induction p as [|c p IH]; [by destruct r|]. rewrite sapp_cons. simpl. by rewrite IH. Qed.

Lemma stake_sdrop n s : stake n s +:+ sdrop n s = s.
Proof.
  revert s; induction n as [|n IH]; intros [|c s]; try done.
  simpl. rewrite sapp_cons. by rewrite IH.
Qed.

Lemma sdrop_length n s : String.length (sdrop n s) = (String.length s - n)%nat.
Proof. revert s; induction n; intros [|c s]; simpl; auto. Qed.

Lemma HasPrefix_app p r : HasPrefix (p +:+ r) p = true.
Proof.
  unfold HasPrefix. induction p as [|c p IH]; [by destruct r|].
  rewrite sapp_cons. simpl. by destruct (ascii_dec c c).
Qed.

Lemma HasPrefix_true s p : HasPrefix s p = true -> s = p +:+ sdrop (String.length p) s.
Proof.
  unfold HasPrefix. revert s; induction p as [|a p IH]; intros [|c s]; simpl; try done.
  destruct (ascii_dec a c) as [->|]; [|done]. intros H. by rewrite sapp_cons, <- IH.
Qed.

Lemma HasPrefix_spec s p : HasPrefix s p = true <-> exists r, s = p +:+ r.
Proof.
  split; [intros H%HasPrefix_true; eauto|]. intros [r ->]. apply HasPrefix_app.
Qed.

Lemma HasPrefix_nil s : HasPrefix s "" = true.
Proof. by destruct s. Qed.

Lemma CutPrefix_Some s p r : CutPrefix s p = Some r <-> s = p +:+ r.
Proof.
  unfold CutPrefix. split.
  - destruct (HasPrefix s p) eqn:E; [|done]. intros [= <-]. by apply HasPrefix_true.
  - intros ->. by rewrite HasPrefix_app, sdrop_app.
Qed.

Lemma CutPrefix_None s p : CutPrefix s p = None <-> HasPrefix s p = false.
Proof. unfold CutPrefix. by destruct (HasPrefix s p). Qed.

#[export] Hint Rewrite sapp_nil_r sapp_assoc sdrop_app stake_app HasPrefix_app HasPrefix_nil : gostr.

Lemma srev_app_spec s acc : srev_app s acc = srev_app s "" +:+ acc.
Proof.
  revert acc. induction s as [|c s IH]; intros acc; [done|]. simpl.
  by rewrite IH, (IH (String c "")), sapp_assoc.
Qed.

Lemma srev_cons c s : srev (String c s) = srev s +:+ String c "".
Proof. unfold srev. simpl. by rewrite srev_app_spec. Qed.

Lemma srev_app_distr a b : srev (a +:+ b) = srev b +:+ srev a.
Proof.
  induction a as [|c a IH]; [by rewrite sapp_nil_r|].
  by rewrite sapp_cons, !srev_cons, IH, sapp_assoc.
Qed.

Lemma srev_involutive s : srev (srev s) = s.
Proof. induction s; [done|]. rewrite srev_cons, srev_app_distr, IHs. done. Qed.

Lemma srev_length s : String.length (srev s) = String.length s.
Proof. induction s; [done|]. rewrite srev_cons, slen_app, IHs. simpl. lia. Qed.

(** ** Lemmas: [Split] and [Join] *)

Fixpoint sIn (c : ascii) (s : string) : Prop :=
  match s with "" => False | String a s' => a = c \/ sIn c s' end.

Lemma Contains_spec s sub : Contains s sub = true <-> exists p q, s = p +:+ sub +:+ q.
Proof.
  unfold Contains. induction s as [|c s IH].
  - cbn [Index]. destruct (HasPrefix "" sub) eqn:E.
    + split; [|done]. intros _. apply HasPrefix_spec in E as [r E]. by exists "", r.
    + split; [done|]. intros (p & q & H). destruct p; [|done]. rewrite sapp_nil_l in H.
      by rewrite H, HasPrefix_app in E.
  - cbn [Index]. destruct (HasPrefix (String c s) sub) eqn:E.
    { split; [|done]. intros _. apply HasPrefix_spec in E as [r E]. by exists "", r. }
    destruct (Index s sub) as [n|].
    + split; [|done]. intros _. destruct (proj1 IH eq_refl) as (p & q & ->). by exists (String c p), q.
    + split; [done|]. intros (p & q & H). destruct p as [|x p].
      * rewrite sapp_nil_l in H. by rewrite H, HasPrefix_app in E.
      * apply IH. rewrite sapp_cons in H. injection H as -> ->. by exists p, q.
Qed.

Lemma Split_nonempty s c : Split s c <> [].
Proof. destruct s; simpl; [done|]. destruct (Ascii.eqb a c); [done|]. by destruct (Split s c). Qed.

Lemma Split_cons_ne a s c :
  a <> c -> exists h t, Split s c = h :: t /\ Split (String a s) c = String a h :: t.
Proof.
  intros H. simpl. apply Ascii.eqb_neq in H. rewrite H.
  destruct (Split s c) as [|h t] eqn:E; [by apply Split_nonempty in E|]. eauto.
Qed.

Lemma Split_cons_eq c s : Split (String c s) c = "" :: Split s c.
Proof. simpl. by rewrite Ascii.eqb_refl. Qed.

Lemma Join_cons x l sep : l <> [] -> Join (x :: l) sep = x +:+ sep +:+ Join l sep.
Proof. by destruct l. Qed.

Lemma Join_Split s c : Join (Split s c) (String c "") = s.
Proof.
  induction s as [|a s IH]; [done|].
  destruct (decide (a = c)) as [->|Hne].
  - rewrite Split_cons_eq, Join_cons by apply Split_nonempty. by rewrite IH.
  - destruct (Split_cons_ne a s c Hne) as (h & t & E1 & E2).
    rewrite E1 in IH. rewrite E2.
    destruct t; simpl in *; [by subst|]. by rewrite sapp_cons, IH.
Qed.

Lemma Split_no_sep s c x : In x (Split s c) -> ~ sIn c x.
Proof.
  revert x. induction s as [|a s IH]; intros x.
  - intros [<-|[]]; auto.
  - destruct (decide (a = c)) as [->|Hne].
    + rewrite Split_cons_eq. intros [<-|Hx]; [by intros []|auto].
    + destruct (Split_cons_ne a s c Hne) as (h & t & E1 & E2).
      rewrite E2. rewrite E1 in IH. intros [<-|Hx].
      * simpl. intros [?|Hin]; [done|]. eapply IH; [by left|done].
      * eapply IH. by right.
Qed.

Lemma Split_plain s c : ~ sIn c s -> Split s c = [s].
Proof.
  induction s as [|a s IH]; [done|]. simpl. intros H.
  destruct (Ascii.eqb_spec a c) as [->|Hne]; [exfalso; apply H; by left|].
  rewrite IH; [done|]. intros Hin. apply H. by right.
Qed.

Lemma sIn_app c a b : sIn c (a +:+ b) <-> sIn c a \/ sIn c b.
Proof. induction a as [|x a IH]; simpl; [tauto|]. rewrite IH. tauto. Qed.

Lemma sforall_app p a b : sforall p (a +:+ b) = sforall p a && sforall p b.
Proof. induction a as [|c a IH]; [done|]. rewrite sapp_cons. simpl. by rewrite IH, andb_assoc. Qed.

Lemma sforall_notIn p c s : sforall p s = true -> p c = false -> ~ sIn c s.
Proof.
  induction s as [|a s IH]; [by intros _ _ []|]. simpl. rewrite andb_true_iff. intros [Ha Hs] Hc [->|Hin]; [congruence|].
  by apply IH.
Qed.

(** Splitting at a separator concatenates the splits of the two sides. *)
Lemma Split_app a b c : Split (a +:+ String c b) c = (Split a c ++ Split b c)%list.
Proof.
  induction a as [|x a IH].
  - by rewrite sapp_nil_l, Split_cons_eq.
  - rewrite sapp_cons.
    destruct (decide (x = c)) as [->|Hne].
    + by rewrite !Split_cons_eq, IH.
    + destruct (Split_cons_ne x (a +:+ String c b) c Hne) as (h & t & E1 & E2).
      destruct (Split_cons_ne x a c Hne) as (h' & t' & E1' & E2').
      rewrite E2, E2'. rewrite E1, E1' in IH. simplify_list_eq. done.
Qed.

(** ** Lemmas: [TrimSpace] *)

Lemma cutAny_None ps s : cutAny ps s = None <-> (forall p, In p ps -> HasPrefix s p = false).
Proof.
  induction ps as [|p ps IH]; simpl; [naive_solver|].
  destruct (CutPrefix s p) as [r|] eqn:E.
  - split; [done|]. intros H. apply CutPrefix_Some in E as ->.
    specialize (H p (or_introl eq_refl)). by rewrite HasPrefix_app in H.
  - apply CutPrefix_None in E. rewrite IH. split; [intros H q [<-|]; auto|auto].
Qed.

Lemma cutAny_Some ps s r : cutAny ps s = Some r -> exists p, In p ps /\ s = p +:+ r.
Proof.
  induction ps as [|p ps IH]; simpl; [done|].
  destruct (CutPrefix s p) as [r'|] eqn:E.
  - intros [= <-]. apply CutPrefix_Some in E. eauto.
  - intros H. destruct (IH H) as (q & ? & ?). eauto.
Qed.

Lemma trimFuel_suffix n ps s : exists pre, s = pre +:+ trimFuel n ps s.
Proof.
  revert s. induction n as [|n IH]; intros s; simpl; [by exists ""|].
  destruct (cutAny ps s) as [r|] eqn:E; [|by exists ""].
  apply cutAny_Some in E as (p & _ & ->). destruct (IH r) as [pre Hr].
  exists (p +:+ pre). by rewrite sapp_assoc, <- Hr.
Qed.

Lemma trimFuel_done n ps s :
  Forall (fun p => p <> "") ps -> (String.length s <= n)%nat -> cutAny ps (trimFuel n ps s) = None.
Proof.
  intros Hne. revert s. induction n as [|n IH]; intros s Hn; simpl.
  - destruct s as [|c s']; [|simpl in Hn; lia].
    apply cutAny_None. intros p Hp%list_elem_of_In.
    eapply Forall_forall in Hne; [|exact Hp]. by destruct p.
  - destruct (cutAny ps s) as [r|] eqn:E; [|done].
    apply cutAny_Some in E as (p & Hp%list_elem_of_In & ->). apply IH.
    eapply Forall_forall in Hne; [|exact Hp]. rewrite slen_app in Hn.
    destruct p; [done|]. simpl in Hn. lia.
Qed.

Lemma trimFuel_None n ps s : cutAny ps s = None -> trimFuel n ps s = s.
Proof. destruct n; simpl; [done|]. by intros ->. Qed.

(** No leading, no trailing white space. *)
Definition trimmed (s : string) : Prop :=
  cutAny spaces s = None /\ cutAny rspaces (srev s) = None.

Lemma spaces_nonempty : Forall (fun p => p <> "") spaces.
Proof. repeat constructor; discriminate. Qed.
Lemma rspaces_nonempty : Forall (fun p => p <> "") rspaces.
Proof. repeat constructor; discriminate. Qed.

Lemma trimLeft_lead s : cutAny spaces (trimLeft s) = None.
Proof. apply trimFuel_done; [apply spaces_nonempty|done]. Qed.

Lemma trimRight_trail s : cutAny rspaces (srev (trimRight s)) = None.
Proof.
  unfold trimRight. rewrite srev_involutive.
  apply trimFuel_done; [apply rspaces_nonempty|]. by rewrite srev_length.
Qed.

Lemma trimRight_prefix s : exists post, s = trimRight s +:+ post.
Proof.
  unfold trimRight.
  destruct (trimFuel_suffix (String.length s) rspaces (srev s)) as [pre H].
  exists (srev pre). rewrite <- srev_app_distr, <- H. by rewrite srev_involutive.
Qed.

Lemma TrimSpace_trimmed s : trimmed (TrimSpace s).
Proof.
  split; [|apply trimRight_trail].
  unfold TrimSpace. destruct (trimRight_prefix (trimLeft s)) as [post H].
  apply cutAny_None. intros p Hp. apply not_true_iff_false. intros Hpre.
  pose proof (proj1 (cutAny_None _ _) (trimLeft_lead s) p Hp) as Hno.
  rewrite H in Hno. apply HasPrefix_spec in Hpre as [r Hr]. rewrite Hr, sapp_assoc in Hno.
  by rewrite HasPrefix_app in Hno.
Qed.

Lemma TrimSpace_id s : trimmed s -> TrimSpace s = s.
Proof.
  intros [Hl Hr]. unfold TrimSpace, trimRight, trimLeft.
  rewrite (trimFuel_None _ _ _ Hl), (trimFuel_None _ _ _ Hr). apply srev_involutive.
Qed.

Lemma TrimSpace_idem s : TrimSpace (TrimSpace s) = TrimSpace s.
Proof. apply TrimSpace_id, TrimSpace_trimmed. Qed.

(** The result is a contiguous part of the input. *)
Lemma TrimSpace_infix s : exists pre post, s = pre +:+ TrimSpace s +:+ post.
Proof.
  destruct (trimFuel_suffix (String.length s) spaces s) as [pre H1].
  destruct (trimRight_prefix (trimLeft s)) as [post H2].
  exists pre, post. unfold TrimSpace. by rewrite <- H2.
Qed.

Lemma trimFuel_nil_last n ps s :
  trimFuel n ps s = "" -> s <> "" -> exists p q, In p ps /\ s = q +:+ p.
Proof.
  revert s. induction n as [|n IH]; intros s; simpl; [done|].
  destruct (cutAny ps s) as [r|] eqn:E; [|done].
  apply cutAny_Some in E as (p & Hp & ->). intros Hr _.
  destruct (decide (r = "")) as [->|Hne]; [exists p, ""; by rewrite sapp_nil_r|].
  destruct (IH r Hr Hne) as (p' & q & Hp' & ->). exists p', (p +:+ q). by rewrite sapp_assoc.
Qed.

Lemma rspaces_spec p : In p spaces -> In (srev p) rspaces.
Proof. intros Hp. change rspaces with (map srev spaces). by apply in_map. Qed.

Lemma cutAny_app_None ps a b : cutAny ps (a +:+ b) = None -> cutAny ps a = None.
Proof.
  rewrite !cutAny_None. intros H p Hp. specialize (H p Hp). apply not_true_iff_false.
  intros [r ->]%HasPrefix_spec. by rewrite sapp_assoc, HasPrefix_app in H.
Qed.

(** A string that ends in something else than white space does not vanish. *)
Lemma TrimSpace_nil s : TrimSpace s = "" -> cutAny rspaces (srev s) = None -> s = "".
Proof.
  intros H Hr. destruct (decide (s = "")) as [|Hs]; [done|]. exfalso.
  assert (L : forall p q, In p spaces -> s <> q +:+ p).
  { intros p q Hp%rspaces_spec ->. rewrite srev_app_distr in Hr.
    pose proof (proj1 (cutAny_None _ _) Hr _ Hp) as Hn. by rewrite HasPrefix_app in Hn. }
  destruct (trimFuel_suffix (String.length s) spaces s) as [pre E]. fold (trimLeft s) in E.
  destruct (decide (trimLeft s = "")) as [E0|E0].
  - destruct (trimFuel_nil_last _ _ _ E0 Hs) as (p & q & Hp & Hq). by apply (L p q).
  - unfold TrimSpace, trimRight in H. rewrite E, srev_app_distr in Hr. apply cutAny_app_None in Hr.
    rewrite (trimFuel_None _ _ _ Hr), srev_involutive in H. done.
Qed.

Lemma smap_length f s : String.length (smap f s) = String.length s.
Proof. induction s; simpl; auto. Qed.

Lemma smap_app f a b : smap f (a +:+ b) = smap f a +:+ smap f b.
Proof. induction a as [|c a IH]; [done|]. rewrite !sapp_cons. simpl. by rewrite sapp_cons, IH. Qed.

Lemma stake_stake n s : stake n (stake n s) = stake n s.
Proof. revert s. induction n; intros [|c s]; simpl; auto. by rewrite IHn. Qed.

Lemma stake_length n s : (String.length (stake n s) <= n)%nat.
Proof. revert s. induction n; intros [|c s]; simpl; auto; [lia|]. specialize (IHn s). lia. Qed.

(** ** Lemmas: runes *)

Lemma byteZ_range c : 0 <= byteZ c < 256.
Proof. unfold byteZ. pose proof (N_ascii_bounded c). lia. Qed.

Lemma byteOf_byteZ c : byteOf (byteZ c) = c.
Proof. unfold byteOf, byteZ. by rewrite N2Z.id, ascii_N_embedding. Qed.

Lemma byteZ_byteOf z : 0 <= z < 256 -> byteZ (byteOf z) = z.
Proof. intros H. unfold byteOf, byteZ. rewrite N_ascii_embedding by lia. lia. Qed.

(** A code point that has an encoding. *)
Definition validRune (n : Z) : Prop := 0 <= n < 55296 \/ 57344 <= n <= 1114111.

Lemma contByte_Some c x : contByte c = Some x <-> byteZ c = 128 + x /\ 0 <= x < 64.
Proof.
  unfold contByte. destruct (Z.leb_spec 128 (byteZ c)), (Z.ltb_spec (byteZ c) 192); simpl;
    (split; [intros [= <-]; lia|]); intros []; try (f_equal; lia); lia.
Qed.
Lemma contByte_cont n : contByte (byteOf (128 + n mod 64)) = Some (n mod 64).
Proof. pose proof (Z.mod_pos_bound n 64). apply contByte_Some. rewrite byteZ_byteOf by lia. lia. Qed.

(** Decoding undoes encoding, and only that. *)
Lemma decodeRune_encodeRune n r : validRune n -> 128 <= n ->
  decodeRune (encodeRune n +:+ r) = Some (n, String.length (encodeRune n)).
Proof.
  unfold validRune, encodeRune. intros Hv Hn. destruct (Z.ltb_spec n 128); [lia|].
  destruct (Z.ltb_spec n 2048).
  - rewrite !sapp_cons, sapp_nil_l. unfold decodeRune. rewrite contByte_cont. cbn [mbind option_bind].
    rewrite byteZ_byteOf by (Z.to_euclidean_division_equations; lia).
    destruct (Z.leb_spec 194 (192 + n / 64)); [|Z.to_euclidean_division_equations; lia].
    destruct (Z.ltb_spec (192 + n / 64) 224); [|Z.to_euclidean_division_equations; lia].
    simpl. repeat f_equal. Z.to_euclidean_division_equations; lia.
  - destruct (Z.ltb_spec n 65536).
    + rewrite !sapp_cons, sapp_nil_l. unfold decodeRune. rewrite !contByte_cont. cbn [mbind option_bind].
      rewrite byteZ_byteOf by (Z.to_euclidean_division_equations; lia).
      destruct (Z.ltb_spec (224 + n / 4096) 224); [Z.to_euclidean_division_equations; lia|].
      rewrite andb_false_r.
      destruct (Z.leb_spec 224 (224 + n / 4096)); [|Z.to_euclidean_division_equations; lia].
      destruct (Z.ltb_spec (224 + n / 4096) 240); [|Z.to_euclidean_division_equations; lia]. cbn [andb].
      assert (E : (224 + n / 4096 - 224) * 4096 + (n / 64) mod 64 * 64 + n mod 64 = n)
        by (Z.to_euclidean_division_equations; lia). rewrite E.
      destruct (Z.leb_spec 2048 n); [|lia]. destruct (Z.leb_spec 55296 n), (Z.ltb_spec n 57344); simpl; try done; lia.
    + rewrite !sapp_cons, sapp_nil_l. unfold decodeRune. rewrite !contByte_cont. cbn [mbind option_bind].
      rewrite byteZ_byteOf by (Z.to_euclidean_division_equations; lia).
      destruct (Z.ltb_spec (240 + n / 262144) 224); [Z.to_euclidean_division_equations; lia|].
      rewrite andb_false_r.
      destruct (Z.ltb_spec (240 + n / 262144) 240); [Z.to_euclidean_division_equations; lia|].
      rewrite andb_false_r.
      assert (E : (240 + n / 262144 - 240) * 262144 + (n / 4096) mod 64 * 4096 + (n / 64) mod 64 * 64 + n mod 64 = n)
        by (Z.to_euclidean_division_equations; lia). rewrite E.
      destruct (Z.leb_spec 240 (240 + n / 262144)); [|Z.to_euclidean_division_equations; lia].
      destruct (Z.ltb_spec (240 + n / 262144) 245); [|Z.to_euclidean_division_equations; lia].
      destruct (Z.leb_spec 65536 n), (Z.leb_spec n 1114111); simpl; try done; lia.
Qed.

Lemma byteOf_eq c z : byteZ c = z -> byteOf z = c.
Proof. intros <-. apply byteOf_byteZ. Qed.

Lemma decodeRune_sound s n w : decodeRune s = Some (n, w) ->
  validRune n /\ 128 <= n /\ s = encodeRune n +:+ sdrop w s /\ w = String.length (encodeRune n).
Proof.
  unfold decodeRune, validRune. destruct s as [|c0 [|c1 r]]; try done.
  destruct (contByte c1) as [x1|] eqn:E1; [|done]. cbn [mbind option_bind]. apply contByte_Some in E1 as [B1 R1].
  destruct ((194 <=? byteZ c0) && (byteZ c0 <? 224)) eqn:Eb.
  { intros [= <- <-]. bool_to_prop. set (m := (byteZ c0 - 192) * 64 + x1).
    assert (Hm : 128 <= m < 2048) by lia. unfold encodeRune.
    destruct (Z.ltb_spec m 128); [lia|]. destruct (Z.ltb_spec m 2048); [|lia].
    rewrite (byteOf_eq c0), (byteOf_eq c1) by (subst m; Z.to_euclidean_division_equations; lia).
    split_and!; [lia|lia|done|done]. }
  destruct r as [|c2 r]; [done|]. destruct (contByte c2) as [x2|] eqn:E2; [|done]. cbn [mbind option_bind].
  apply contByte_Some in E2 as [B2 R2].
  destruct ((224 <=? byteZ c0) && (byteZ c0 <? 240)) eqn:Eb3.
  { set (m := (byteZ c0 - 224) * 4096 + x1 * 64 + x2).
    destruct ((2048 <=? m) && negb ((55296 <=? m) && (m <? 57344))) eqn:E; [|done]. intros [= <- <-].
    apply andb_true_iff in Eb3 as [H1%Z.leb_le H2%Z.ltb_lt]. apply andb_true_iff in E as [H3%Z.leb_le H4].
    assert (Hm : 0 <= m < 55296 \/ 57344 <= m < 65536).
    { apply negb_true_iff, andb_false_iff in H4 as [H4|H4]; [rewrite Z.leb_gt in H4; lia|rewrite Z.ltb_ge in H4; lia]. }
    unfold encodeRune. destruct (Z.ltb_spec m 128); [lia|]. destruct (Z.ltb_spec m 2048); [lia|].
    destruct (Z.ltb_spec m 65536); [|lia].
    rewrite (byteOf_eq c0), (byteOf_eq c1), (byteOf_eq c2) by (subst m; Z.to_euclidean_division_equations; lia).
    split_and!; [lia|lia|done|done]. }
  destruct r as [|c3 r]; [done|]. destruct (contByte c3) as [x3|] eqn:E3; [|done]. cbn [mbind option_bind].
  apply contByte_Some in E3 as [B3 R3]. set (m := (byteZ c0 - 240) * 262144 + x1 * 4096 + x2 * 64 + x3).
  destruct ((240 <=? byteZ c0) && (byteZ c0 <? 245) && (65536 <=? m) && (m <=? 1114111)) eqn:E; [|done].
  intros [= <- <-]. clear Eb Eb3. rewrite !andb_true_iff, !Z.leb_le, Z.ltb_lt in E. destruct E as [[[H1 H2] H3] H4].
  unfold encodeRune. destruct (Z.ltb_spec m 128); [lia|]. destruct (Z.ltb_spec m 2048); [lia|].
  destruct (Z.ltb_spec m 65536); [lia|].
  rewrite (byteOf_eq c0), (byteOf_eq c1), (byteOf_eq c2), (byteOf_eq c3)
    by (subst m; Z.to_euclidean_division_equations; lia).
  split_and!; [lia|lia|done|done].
Qed.

(** The runes of a string: encoded runes, and [RuneError] for each byte at which no
    encoding begins. *)
Inductive spells : string -> list Z -> Prop :=
  | spells_nil : spells "" []
  | spells_rune n s rs : validRune n -> spells s rs -> spells (encodeRune n +:+ s) (n :: rs)
  | spells_error c s rs : (forall n r, validRune n -> String c s <> encodeRune n +:+ r) ->
      spells s rs -> spells (String c s) (RuneError :: rs).
Definition encodeRunes (rs : list Z) : string := fold_right (fun n s => encodeRune n +:+ s) "" rs.

Lemma spells_encodeRunes rs : Forall validRune rs -> spells (encodeRunes rs) rs.
Proof. induction 1; simpl; by constructor. Qed.

Lemma encodeRune_ascii n : 0 <= n < 128 -> encodeRune n = String (byteOf n) "".
Proof. intros H. unfold encodeRune. by destruct (Z.ltb_spec n 128); [|lia]. Qed.

Lemma encodeRune_first n : validRune n ->
  exists c r, encodeRune n = String c r /\ (byteZ c < 128 <-> n < 128).
Proof.
  unfold validRune, encodeRune. intros Hv. destruct (Z.ltb_spec n 128).
  { do 2 eexists. split; [done|]. rewrite byteZ_byteOf by lia. lia. }
  destruct (Z.ltb_spec n 2048); [|destruct (Z.ltb_spec n 65536)]; do 2 eexists; (split; [done|]);
    rewrite byteZ_byteOf by (Z.to_euclidean_division_equations; lia); Z.to_euclidean_division_equations; lia.
Qed.

Lemma mapRunes_spells f s rs : spells s rs -> forall fuel, (String.length s <= fuel)%nat ->
  mapRunes fuel f s = encodeRunes (map f rs).
Proof.
  induction 1 as [|n s rs Hv _ IH|c s rs Hno _ IH]; intros fuel Hf; [by destruct fuel|..].
  - destruct (encodeRune_first n Hv) as (c & r & E & Hc). rewrite slen_app, E in Hf. simpl in Hf.
    destruct fuel as [|fuel]; [lia|]. cbn [map encodeRunes fold_right]. fold (encodeRunes (map f rs)).
    destruct (Z.ltb_spec n 128) as [Hn|Hn].
    + unfold validRune in Hv. rewrite encodeRune_ascii in * by lia. injection E as <- <-.
      rewrite sapp_cons, sapp_nil_l. cbn [mapRunes]. rewrite byteZ_byteOf by lia.
      destruct (Z.ltb_spec n 128); [|lia]. rewrite IH by lia. done.
    + pose proof (decodeRune_encodeRune n s Hv Hn) as D. rewrite E in D |- *. rewrite sapp_cons in D |- *.
      cbn [mapRunes]. destruct (Z.ltb_spec (byteZ c) 128); [lia|]. rewrite D.
      rewrite <- sapp_cons, sdrop_app, IH by lia. done.
  - simpl in Hf. destruct fuel as [|fuel]; [lia|]. cbn [mapRunes map encodeRunes fold_right].
    destruct (Z.ltb_spec (byteZ c) 128) as [Hc|Hc].
    { exfalso. pose proof (byteZ_range c). apply (Hno (byteZ c) s); [left; lia|].
      rewrite encodeRune_ascii by lia. by rewrite byteOf_byteZ. }
    destruct (decodeRune (String c s)) as [[n w]|] eqn:E.
    { exfalso. apply decodeRune_sound in E as (Hv & _ & E & _). by apply Hno in E. }
    rewrite IH by lia. done.
Qed.

Lemma mapRunes_ascii f g s : isASCII s = true ->
  (forall c, byteZ c < 128 -> encodeRune (f (byteZ c)) = String (g c) "") ->
  forall fuel, (String.length s <= fuel)%nat -> mapRunes fuel f s = smap g s.
Proof.
  intros Ha Hg. induction s as [|c s IH]; intros fuel Hf; [by destruct fuel|]. simpl in Hf.
  destruct fuel as [|fuel]; [lia|]. unfold isASCII in Ha. simpl in Ha. apply andb_true_iff in Ha as [Hc Ha].
  cbn [mapRunes smap]. rewrite Hc. apply Z.ltb_lt in Hc. rewrite (Hg c Hc), IH by (done || lia). done.
Qed.

Lemma lowerRune_byte c : byteZ c < 128 -> encodeRune (lowerRune (byteZ c)) = String (lowerByte c) "".
Proof. destruct c as [[] [] [] [] [] [] [] []]; intros H; vm_compute in H |- *; done. Qed.

(** [ToLower] maps the runes one by one. *)
Lemma ToLower_spells s rs : spells s rs -> ToLower s = encodeRunes (map lowerRune rs).
Proof.
  intros H. rewrite <- (mapRunes_spells lowerRune _ _ H (String.length s)) by lia. unfold ToLower.
  destruct (isASCII s) eqn:E; [|done]. symmetry. apply mapRunes_ascii; [done|apply lowerRune_byte|lia].
Qed.

(** Every string spells something. *)
Lemma spells_total s : exists rs, spells s rs.
Proof.
  induction s as [s IH] using (induction_ltof1 _ String.length). destruct s as [|c s]; [exists []; constructor|].
  pose proof (byteZ_range c) as Hb. destruct (Z.ltb_spec (byteZ c) 128) as [Hc|Hc].
  { destruct (IH s) as [rs Hrs]; [unfold ltof; simpl; lia|]. exists (byteZ c :: rs).
    pose proof (spells_rune (byteZ c) s rs ltac:(left; lia) Hrs) as H.
    by rewrite encodeRune_ascii, byteOf_byteZ in H by lia. }
  destruct (decodeRune (String c s)) as [[n w]|] eqn:E.
  - apply decodeRune_sound in E as (Hv & Hn & Es & ->).
    destruct (encodeRune_first n Hv) as (a & r & Ea & _).
    destruct (IH (sdrop (String.length (encodeRune n)) (String c s))) as [rs Hrs].
    { unfold ltof. rewrite sdrop_length, Ea. simpl. lia. }
    exists (n :: rs). rewrite Es. by constructor.
  - destruct (IH s) as [rs Hrs]; [unfold ltof; simpl; lia|]. exists (RuneError :: rs). constructor; [|done].
    intros n r Hv Es. destruct (Z.ltb_spec n 128) as [Hn|Hn].
    + unfold validRune in Hv. rewrite encodeRune_ascii in Es by lia. injection Es as -> _.
      rewrite byteZ_byteOf in Hc by lia. lia.
    + rewrite Es, decodeRune_encodeRune in E by done. done.
Qed.

(** [stake] with an integer bound: what a limited reader delivers. *)
Fixpoint stakeZ (n : Z) (s : string) : string :=
  match s with
  | String c s' => if 0 <? n then String c (stakeZ (n - 1) s') else ""
  | "" => ""
  end.

Lemma stakeZ_stakeZ n s : stakeZ n (stakeZ n s) = stakeZ n s.
Proof.
  revert n. induction s as [|c s IH]; intros n; simpl; [done|].
  destruct (0 <? n) eqn:E; simpl; [by rewrite E, IH|done].
Qed.

Lemma stakeZ_len n s : 0 <= n -> len (stakeZ n s) <= n.
Proof.
  unfold len. revert n. induction s as [|c s IH]; intros n Hn; simpl; [lia|].
  destruct (Z.ltb_spec 0 n); simpl; [|lia]. specialize (IH (n - 1) ltac:(lia)). lia.
Qed.

Lemma stakeZ_all n s : len s <= n -> stakeZ n s = s.
Proof.
  unfold len. revert n. induction s as [|c s IH]; intros n; simpl; [done|]. intros H.
  destruct (Z.ltb_spec 0 n); [|lia]. rewrite IH by lia. done.
Qed.

(** ** Decimal numbers are digits *)

Lemma pretty_N_char_digit (d : N) : (d < 10)%N -> isDigit (pretty_N_char d) = true.
Proof.
  intros Hd. assert (Hall : forallb (fun n => isDigit (pretty_N_char (N.of_nat n))) (List.seq 0 10) = true)
    by (vm_compute; done).
  rewrite forallb_forall in Hall. specialize (Hall (N.to_nat d)). rewrite N2Nat.id in Hall.
  apply Hall, in_seq. lia.
Qed.

Lemma pretty_N_go_digits x : forall s, sforall isDigit s = true -> sforall isDigit (pretty_N_go x s) = true.
Proof.
  induction (N.lt_wf_0 x) as [x _ IH]. intros s Hs.
  destruct (decide (x = 0%N)) as [->|Hx]; [by rewrite pretty_N_go_0|].
  rewrite pretty_N_go_step by lia. apply IH; [apply N.div_lt; lia|].
  cbn [sforall]. rewrite Hs, andb_true_r. apply pretty_N_char_digit, N.mod_lt. lia.
Qed.

Lemma pretty_N_digits (x : N) : sforall isDigit (pretty x) = true.
Proof. unfold pretty, pretty_N. destruct (decide _); [done|]. by apply pretty_N_go_digits. Qed.

Lemma pretty_N_go_app x : forall s r, pretty_N_go x s +:+ r = pretty_N_go x (s +:+ r).
Proof.
  induction (N.lt_wf_0 x) as [x _ IH]. intros s r.
  destruct (decide (x = 0%N)) as [->|Hx]; [by rewrite !pretty_N_go_0|].
  rewrite (pretty_N_go_step x s), (pretty_N_go_step x (s +:+ r)) by lia.
  rewrite IH by (apply N.div_lt; lia). reflexivity.
Qed.

Lemma Itoa_nonneg n : 0 <= n -> Itoa n = pretty (Z.to_N n).
Proof. by destruct n. Qed.
