(* ===== verification/Http.v ===== *)
(** * Requests, response writers, handlers, and the SDK's error responses

    The [net/http] values the middlewares work on (headers, URL, body,
    context, response writer), the SDK's request context
    (src/http/context), its error codes and error responses
    (src/api/errors), the response-writer wrapper (src/api/response) and the
    middleware chain (src/api/middleware/chain). *)

From S2P Require Import Prelude GoStrings.

Open Scope string_scope.
Open Scope Z_scope.

(** ** Headers: [http.Header] with canonical keys *)

Abbreviation headers := (gmap string (list string)).

Definition tokenByte (c : ascii) : bool :=
  isDigit c || isUpper c || isLower c ||
  existsb (Ascii.eqb c) ["!"; "#"; "$"; "%"; "&"; "'"; "*"; "+"; "-"; "."; "^"; "_"; "`"; "|"; "~"]%char.

Fixpoint canonicalGo (upper : bool) (s : string) : string :=
  match s with
  | "" => ""
  | String c s' =>
      String (if upper then upperByte c else lowerByte c) (canonicalGo (Ascii.eqb c "-") s')
  end.
(** [textproto.CanonicalMIMEHeaderKey]. *)
Definition CanonicalKey (k : string) : string :=
  if sforall tokenByte k then canonicalGo true k else k.

Definition hget (h : headers) (k : string) : string :=
  match h !! CanonicalKey k with Some (v :: _) => v | _ => "" end.
Definition hset (h : headers) (k v : string) : headers := <[CanonicalKey k := [v]]> h.

Lemma hget_hset_eq h k v : hget (hset h k v) k = v.
Proof. unfold hget, hset. by rewrite lookup_insert_eq. Qed.

Lemma hget_hset_ne h k k' v :
  CanonicalKey k <> CanonicalKey k' -> hget (hset h k v) k' = hget h k'.
Proof. intros. unfold hget, hset. by rewrite lookup_insert_ne. Qed.

(** ** Request context (src/http/context) *)

Inductive ctxval : Type :=
  | CStr (s : string)
  | CBool (b : bool)
  | CStrs (l : list string)
  | CMap (m : gmap string string).

(** Newest binding first; [ctx.Value] finds the newest binding of a key. *)
Definition context : Type := list (string * ctxval).
Definition WithValue (ctx : context) (k : string) (v : ctxval) : context := (k, v) :: ctx.
Fixpoint Value (ctx : context) (k : string) : option ctxval :=
  match ctx with
  | [] => None
  | (k', v) :: ctx' => if String.eqb k' k then Some v else Value ctx' k
  end.

Definition VERSION_KEY := "version".
Definition URI_KEY := "uri".
Definition PATH_PARAMS_KEY := "path_params".
Definition QUERY_PARAMS_KEY := "query_params".
Definition REQUEST_ID_KEY := "request_id".
Definition CLIENT_IP_KEY := "client_ip".
Definition CLIENT_TYPE_KEY := "client_type".
Definition USER_AGENT_KEY := "user_agent".
Definition METHOD_KEY := "method".
Definition AUTH_VALID_KEY := "auth_valid".
Definition SESSION_ID_KEY := "session_id".
Definition SESSION_VALID_KEY := "session_valid".
Definition USER_ID_KEY := "user_id".
Definition REQUEST_TYPE_KEY := "request_type".
Definition SCOPES_KEY := "scopes".
Definition IS_ADMIN_KEY := "is_admin".
Definition IDEMPOTENCY_KEY := "idempotency_key".
Definition IDEMPOTENCY_VALID_KEY := "idempotency_key_valid".
Definition CORRELATION_ID_KEY := "correlation_id".
Definition CSRF_TOKEN_KEY := "csrf_token".
Definition CSRF_VALID_KEY := "csrf_token_valid".

Definition stringValue (ctx : context) (k : string) : string :=
  match Value ctx k with Some (CStr s) => s | _ => "" end.
Definition boolValue (ctx : context) (k : string) : bool :=
  match Value ctx k with Some (CBool b) => b | _ => false end.

Definition ctxGetRequestID ctx := stringValue ctx REQUEST_ID_KEY.
Definition GetCorrelationID ctx := stringValue ctx CORRELATION_ID_KEY.
Definition GetUserID ctx := stringValue ctx USER_ID_KEY.
Definition GetSessionID ctx := stringValue ctx SESSION_ID_KEY.
Definition ctxGetClientType ctx := stringValue ctx CLIENT_TYPE_KEY.
Definition GetRequestType ctx := stringValue ctx REQUEST_TYPE_KEY.
Definition GetClientIP ctx := stringValue ctx CLIENT_IP_KEY.
Definition GetUserAgent ctx := stringValue ctx USER_AGENT_KEY.
Definition GetMethod ctx := stringValue ctx METHOD_KEY.
Definition GetURI ctx := stringValue ctx URI_KEY.
Definition GetVersion ctx := stringValue ctx VERSION_KEY.
Definition GetCSRFToken ctx := stringValue ctx CSRF_TOKEN_KEY.
Definition GetIdempotencyKey ctx := stringValue ctx IDEMPOTENCY_KEY.
(** [nil] and the empty slice behave alike for the callers: both have length 0. *)
Definition GetScopes (ctx : context) : list string :=
  match Value ctx SCOPES_KEY with Some (CStrs l) => l | _ => [] end.
Definition ctxGetPathParams (ctx : context) : option (gmap string string) :=
  match Value ctx PATH_PARAMS_KEY with Some (CMap m) => Some m | _ => None end.
Definition ctxGetQueryParams (ctx : context) : option (gmap string string) :=
  match Value ctx QUERY_PARAMS_KEY with Some (CMap m) => Some m | _ => None end.
Definition IsAuthValid ctx := boolValue ctx AUTH_VALID_KEY.
Definition IsAdmin ctx := boolValue ctx IS_ADMIN_KEY.
Definition IsSessionValid ctx := boolValue ctx SESSION_VALID_KEY.
Definition IsCSRFValid ctx := boolValue ctx CSRF_VALID_KEY.
Definition IsIdempotencyValid ctx := boolValue ctx IDEMPOTENCY_VALID_KEY.

Definition WithRequestID ctx id := WithValue ctx REQUEST_ID_KEY (CStr id).
Definition WithCorrelationID ctx id := WithValue ctx CORRELATION_ID_KEY (CStr id).
Definition WithUserID ctx id := WithValue ctx USER_ID_KEY (CStr id).
Definition WithSessionID ctx id := WithValue ctx SESSION_ID_KEY (CStr id).
Definition WithClientType ctx t := WithValue ctx CLIENT_TYPE_KEY (CStr t).
Definition WithRequestType ctx t := WithValue ctx REQUEST_TYPE_KEY (CStr t).
Definition WithClientIP ctx ip := WithValue ctx CLIENT_IP_KEY (CStr ip).
Definition WithCSRFToken ctx t := WithValue ctx CSRF_TOKEN_KEY (CStr t).
Definition WithScopes ctx l := WithValue ctx SCOPES_KEY (CStrs l).
Definition WithAuthValid ctx b := WithValue ctx AUTH_VALID_KEY (CBool b).
Definition WithAdmin ctx b := WithValue ctx IS_ADMIN_KEY (CBool b).
Definition WithCSRFValid ctx b := WithValue ctx CSRF_VALID_KEY (CBool b).
Definition WithIdempotencyValid ctx b := WithValue ctx IDEMPOTENCY_VALID_KEY (CBool b).

Lemma Value_WithValue_eq ctx k v : Value (WithValue ctx k v) k = Some v.
Proof. simpl. by rewrite String.eqb_refl. Qed.

Lemma Value_WithValue_ne ctx k k' v : k <> k' -> Value (WithValue ctx k v) k' = Value ctx k'.
Proof. intros H. simpl. apply String.eqb_neq in H. by rewrite H. Qed.

(** ** Requests *)

Record URL := { Path : string; RawQuery : string }.

(** A request body: the bytes the reader delivers and how reading ends
    ([None] is a clean end of file). *)
Record Body := { BodyBytes : string; BodyErr : option error }.

Record Request := mkRequest {
  Method : string;
  ReqURL : option URL;
  Header : headers;
  RemoteAddr : string;
  ContentLength : Z;
  ReqBody : option Body;
  RequestURI : string;
  ReqPattern : string;                   (* the route pattern that matched *)
  PathValues : gmap string string;       (* the wildcards' values *)
  Ctx : context;
}.

Definition WithContext (r : Request) (c : context) : Request :=
  {| Method := Method r; ReqURL := ReqURL r; Header := Header r; RemoteAddr := RemoteAddr r;
     ContentLength := ContentLength r; ReqBody := ReqBody r;
     RequestURI := RequestURI r; ReqPattern := ReqPattern r; PathValues := PathValues r; Ctx := c |}.
Definition withHeader (r : Request) (h : headers) : Request :=
  {| Method := Method r; ReqURL := ReqURL r; Header := h; RemoteAddr := RemoteAddr r;
     ContentLength := ContentLength r; ReqBody := ReqBody r;
     RequestURI := RequestURI r; ReqPattern := ReqPattern r; PathValues := PathValues r; Ctx := Ctx r |}.
Definition withURL (r : Request) (u : option URL) : Request :=
  {| Method := Method r; ReqURL := u; Header := Header r; RemoteAddr := RemoteAddr r;
     ContentLength := ContentLength r; ReqBody := ReqBody r;
     RequestURI := RequestURI r; ReqPattern := ReqPattern r; PathValues := PathValues r; Ctx := Ctx r |}.
Definition withMethod (r : Request) (m : string) : Request :=
  {| Method := m; ReqURL := ReqURL r; Header := Header r; RemoteAddr := RemoteAddr r;
     ContentLength := ContentLength r; ReqBody := ReqBody r;
     RequestURI := RequestURI r; ReqPattern := ReqPattern r; PathValues := PathValues r; Ctx := Ctx r |}.
Definition withBody (r : Request) (b : option Body) (n : Z) : Request :=
  {| Method := Method r; ReqURL := ReqURL r; Header := Header r; RemoteAddr := RemoteAddr r;
     ContentLength := n; ReqBody := b;
     RequestURI := RequestURI r; ReqPattern := ReqPattern r; PathValues := PathValues r; Ctx := Ctx r |}.

(** [httpReq.GetRequestID] (src/api/request/utils.go). *)
Definition GetRequestID (r : Request) : string :=
  let rid := stringValue (Ctx r) REQUEST_ID_KEY in
  if negb (String.eqb rid "") then rid else
  let rid := hget (Header r) "X-Request-ID" in
  if negb (String.eqb rid "") then rid else "unknown".

(** ** Error codes (src/api/errors/codes.go, ranges.go, client.go) *)

Record ErrorCode := mkErrorCode {
  ID : string; Status : Z; Message : string; Detail : string
}.
Definition code (id : string) (status : Z) (msg : string) : ErrorCode :=
  {| ID := id; Status := status; Message := msg; Detail := "" |}.

Record GlobalErrors := {
  BadRequest : ErrorCode; Unauthorized : ErrorCode; PaymentRequired : ErrorCode;
  Forbidden : ErrorCode; NotFound : ErrorCode; MethodNotAllowed : ErrorCode; Conflict : ErrorCode;
  UnprocessableEntity : ErrorCode; TooManyRequests : ErrorCode; Internal : ErrorCode;
  NotImplemented : ErrorCode; BadGateway : ErrorCode; ServiceUnavailable : ErrorCode;
  GatewayTimeout : ErrorCode;
}.
Definition Global : GlobalErrors := {|
  BadRequest := code "10001" 400 "Bad request";
  Unauthorized := code "10002" 401 "Unauthorized";
  PaymentRequired := code "10003" 402 "Payment required";
  Forbidden := code "10004" 403 "Forbidden";
  NotFound := code "10005" 404 "Not found";
  MethodNotAllowed := code "10006" 405 "Method not allowed";
  Conflict := code "10007" 409 "Conflict";
  UnprocessableEntity := code "10008" 422 "Unprocessable entity";
  TooManyRequests := code "10009" 429 "Too many requests";
  Internal := code "10010" 500 "Internal server error";
  NotImplemented := code "10011" 501 "Not implemented";
  BadGateway := code "10012" 502 "Bad gateway";
  ServiceUnavailable := code "10013" 503 "Service unavailable";
  GatewayTimeout := code "10014" 504 "Gateway timeout";
|}.
Definition Global_all : list ErrorCode :=
  map (fun f => f Global) [BadRequest; Unauthorized; PaymentRequired; Forbidden; NotFound;
    MethodNotAllowed; Conflict; UnprocessableEntity; TooManyRequests; Internal; NotImplemented;
    BadGateway; ServiceUnavailable; GatewayTimeout].

Record DBErrors := {
  ConnectionFailed : ErrorCode; QueryFailed : ErrorCode; TransactionFailed : ErrorCode;
  RecordNotFound : ErrorCode; DuplicateEntry : ErrorCode;
}.
Definition DB : DBErrors := {|
  ConnectionFailed := code "11001" 500 "Database connection failed";
  QueryFailed := code "11002" 500 "Database query failed";
  TransactionFailed := code "11003" 500 "Database transaction failed";
  RecordNotFound := code "11004" 404 "Record not found";
  DuplicateEntry := code "11005" 409 "Duplicate entry";
|}.
Definition DB_all : list ErrorCode :=
  map (fun f => f DB) [ConnectionFailed; QueryFailed; TransactionFailed; RecordNotFound;
    DuplicateEntry].

Record AuthErrors := {
  InvalidClientCredentials : ErrorCode; InvalidGrantType : ErrorCode; InvalidScope : ErrorCode;
  InvalidToken : ErrorCode; InvalidKey : ErrorCode; ExpiredToken : ErrorCode;
  UnauthorizedClient : ErrorCode; UnsupportedGrantType : ErrorCode;
  UnsupportedResponseType : ErrorCode; InvalidRedirectURI : ErrorCode; AccessDenied : ErrorCode;
  InsufficientScope : ErrorCode;
}.
Definition Auth : AuthErrors := {|
  InvalidClientCredentials := code "20001" 401 "Invalid client credentials";
  InvalidGrantType := code "20002" 400 "Invalid grant type";
  InvalidScope := code "20003" 400 "Invalid scope";
  InvalidToken := code "20004" 401 "Invalid token";
  InvalidKey := code "20005" 401 "Invalid auth key";
  ExpiredToken := code "20006" 401 "Token expired";
  UnauthorizedClient := code "20007" 401 "Unauthorized client";
  UnsupportedGrantType := code "20008" 400 "Unsupported grant type";
  UnsupportedResponseType := code "20009" 400 "Unsupported response type";
  InvalidRedirectURI := code "20010" 400 "Invalid redirect URI";
  AccessDenied := code "20011" 403 "Access denied";
  InsufficientScope := code "20012" 403 "Insufficient scope";
|}.
Definition Auth_all : list ErrorCode :=
  map (fun f => f Auth) [InvalidClientCredentials; InvalidGrantType; InvalidScope; InvalidToken;
    InvalidKey; ExpiredToken; UnauthorizedClient; UnsupportedGrantType; UnsupportedResponseType;
    InvalidRedirectURI; AccessDenied; InsufficientScope].

Definition RangeGlobal : Z := 10.
Definition RangeDB : Z := 11.
Definition RangeAuth : Z := 20.
(** The remaining range roots of ranges.go, in source order. *)
Definition serviceRanges : list Z :=
  [21; 22; 30; 31; 40; 41; 42; 43; 44; 45; 50; 60; 61; 70; 71; 80; 81; 90; 91].

(** [%03d]: at least three digits, zero-padded; the sign counts as a column. *)
Fixpoint zeros (n : nat) : string :=
  match n with O => "" | S n' => String "0" (zeros n') end.
Definition pad3 (n : Z) : string :=
  if n <? 0 then "-" +:+ zeros (2 - String.length (Itoa (- n))) +:+ Itoa (- n)
  else zeros (3 - String.length (Itoa n)) +:+ Itoa n.
Definition CodeID (rangeRoot offset : Z) : string := Itoa rangeRoot +:+ pad3 offset.

Record APIError := {
  aeService : string; aeStatus : Z; aeCode : string;
  aeMessage : string; aeDetail : string; aeRequestID : string
}.
(** The [Error] method of [APIError]. *)
Definition APIError_Error (e : APIError) : string :=
  if negb (String.eqb (aeDetail e) "")
  then aeService e +:+ " [" +:+ aeCode e +:+ "] " +:+ aeMessage e +:+ ": " +:+ aeDetail e
  else aeService e +:+ " [" +:+ aeCode e +:+ "] " +:+ aeMessage e.

(** ** Response writers

    [http.ResponseWriter] of the server: the first final [WriteHeader] fixes
    the status and the headers that are sent; a [Write] before it sends 200.
    An informational status (1xx other than 101) is sent at once and does not
    count as the response's status. *)

Record ErrorResponse := {
  erStatus : Z; erMessage : string; erCode : string; erDetail : string;
  erRequestId : string; erTimestamp : Z
}.
Inductive chunk : Type :=
  | ChErr (r : ErrorResponse)
  | ChText (s : string).

Record Writer := mkWriter {
  WHeader : headers;              (* the map [Header()] returns *)
  WStatus : option Z;             (* final status sent, once WriteHeader ran *)
  WInfo : list Z;                 (* informational statuses sent *)
  WSent : headers;                (* header snapshot that was sent *)
  WBody : list chunk;
}.
Definition newWriter : Writer := {| WHeader := ∅; WStatus := None; WInfo := []; WSent := ∅; WBody := [] |}.

Definition setHeader (w : Writer) (k v : string) : Writer :=
  {| WHeader := hset (WHeader w) k v; WStatus := WStatus w; WInfo := WInfo w;
     WSent := WSent w; WBody := WBody w |}.
Definition informational (status : Z) : bool :=
  (100 <=? status) && (status <=? 199) && negb (status =? 101).
Definition WriteHeader (w : Writer) (status : Z) : Writer :=
  match WStatus w with
  | Some _ => w
  | None =>
      if informational status
      then {| WHeader := WHeader w; WStatus := None; WInfo := (WInfo w ++ [status])%list;
              WSent := WSent w; WBody := WBody w |}
      else {| WHeader := WHeader w; WStatus := Some status; WInfo := WInfo w;
              WSent := WHeader w; WBody := WBody w |}
  end.
Definition Write (w : Writer) (b : chunk) : Writer :=
  let w := WriteHeader w 200 in
  {| WHeader := WHeader w; WStatus := WStatus w; WInfo := WInfo w; WSent := WSent w;
     WBody := (WBody w ++ [b])%list |}.

(** ** Error responses (src/api/errors/responses.go) *)

Record ErrorOverride := { ovMessage : option string; ovDetail : option string; ovStatus : option Z }.
Definition WithMessage (m : string) := {| ovMessage := Some m; ovDetail := None; ovStatus := None |}.
Definition WithDetail (d : string) := {| ovMessage := None; ovDetail := Some d; ovStatus := None |}.
Definition WithStatus (s : Z) := {| ovMessage := None; ovDetail := None; ovStatus := Some s |}.
Definition WithOverrides (m d : string) (s : Z) :=
  {| ovMessage := Some m; ovDetail := Some d; ovStatus := Some s |}.

(** Only the first override is applied. [t] is the current time. *)
Definition SendError (t : Z) (wtr : Writer) (req : Request) (errCode : ErrorCode)
    (overrides : list ErrorOverride) : Writer :=
  let wtr := setHeader wtr "Content-Type" "application/json" in
  let '(status, message, detail) :=
    match overrides with
    | [] => (Status errCode, Message errCode, "")
    | o :: _ => (default (Status errCode) (ovStatus o),
                 default (Message errCode) (ovMessage o),
                 default "" (ovDetail o))
    end in
  let wtr := WriteHeader wtr status in
  Write wtr (ChErr {| erStatus := status; erMessage := message; erCode := ID errCode;
                      erDetail := detail; erRequestId := GetRequestID req; erTimestamp := t |}).

Definition SendCustomError (t : Z) (wtr : Writer) (req : Request) (status : Z)
    (message detail id : string) : Writer :=
  SendError t wtr req {| ID := id; Status := status; Message := message; Detail := "" |}
    [WithDetail detail].

(** ** Handlers and middlewares

    A handler serves a request in a world [W]; it may panic. *)

Inductive exit : Type := Returned | Panicked (msg : string).

Definition handler (W : Type) : Type := Request -> Writer -> W -> W * Writer * exit.
Definition middleware (W : Type) : Type := handler W -> handler W.

(** Answer with an error and return. *)
Definition reject {W} `{Clock W} (c : ErrorCode) (o : list ErrorOverride) : handler W :=
  fun req wtr w => (w, SendError (now w) wtr req c o, Returned).

(** [mwchain.Chain]: the loop runs from the last middleware to the first. *)
Definition Chain {W} (f : handler W) (mw : list (middleware W)) : handler W :=
  fold_left (fun c m => m c) (rev mw) f.

(** [cors.CORSMiddleware]: not implemented yet, passes every request on. *)
Definition CORSMiddleware {W} : middleware W := fun next req wtr w => next req wtr w.

(** ** The recording response writer (src/api/response/response.go) *)

Record ResponseWriter := {
  Under : Writer; rwStatus : Z; BytesWritten : Z; WroteHeader : bool
}.
Definition wrapWriter (w : Writer) : ResponseWriter :=
  {| Under := w; rwStatus := 0; BytesWritten := 0; WroteHeader := false |}.
Definition rwWriteHeader (w : ResponseWriter) (status : Z) : ResponseWriter :=
  {| Under := WriteHeader (Under w) status;
     rwStatus := if WroteHeader w then rwStatus w else status;
     BytesWritten := BytesWritten w;
     WroteHeader := true |}.
(** [num] is the byte count the underlying [Write] returns. *)
Definition rwWrite (w : ResponseWriter) (b : chunk) (num : Z) : ResponseWriter :=
  let w := if WroteHeader w then w else rwWriteHeader w 200 in
  {| Under := Write (Under w) b; rwStatus := rwStatus w;
     BytesWritten := wrap64 (BytesWritten w + num); WroteHeader := WroteHeader w |}.
Definition Unwrap (w : ResponseWriter) : Writer := Under w.

Definition IsSuccess (status : Z) : bool := (200 <=? status) && (status <? 300).
Definition IsError (status : Z) : bool := (400 <=? status) && (status <? 600).
Definition IsRedirect (status : Z) : bool := (300 <=? status) && (status <? 400).
Definition IsInformational (status : Z) : bool := (100 <=? status) && (status <? 200).

(** What a handler can do to the wrapper. *)
Inductive rwop : Type :=
  | OpWriteHeader (status : Z)
  | OpWrite (b : chunk) (num : Z).
Definition rwapply (w : ResponseWriter) (o : rwop) : ResponseWriter :=
  match o with
  | OpWriteHeader s => rwWriteHeader w s
  | OpWrite b n => rwWrite w b n
  end.
Definition rwrun (w : ResponseWriter) (ops : list rwop) : ResponseWriter := fold_left rwapply ops w.

(** ** Properties *)

Lemma WriteHeader_committed w s s' : WStatus w = Some s -> WriteHeader w s' = w.
Proof. unfold WriteHeader. by intros ->. Qed.

Lemma WriteHeader_fresh w s :
  WStatus w = None -> informational s = false -> WStatus (WriteHeader w s) = Some s.
Proof. unfold WriteHeader. by intros -> ->. Qed.

Lemma Write_status w b : WStatus w <> None -> WStatus (Write w b) = WStatus w.
Proof. unfold Write, WriteHeader. by destruct (WStatus w) eqn:E; [simpl; rewrite E|]. Qed.

(** On a response not started yet, an error response has its code's status or
    the status of the first override. *)
Lemma SendError_status t w req c o s :
  WStatus w = None ->
  s = match o with [] => Status c | o :: _ => default (Status c) (ovStatus o) end ->
  informational s = false -> WStatus (SendError t w req c o) = Some s.
Proof.
  intros Hw Hs Hi. unfold SendError. cbv zeta.
  destruct o as [|o os]; rewrite <- Hs;
    rewrite Write_status by (rewrite (WriteHeader_fresh _ s); done); by apply WriteHeader_fresh.
Qed.

Lemma reject_run {W} `{Clock W} c o req wtr (w : W) :
  reject c o req wtr w = (w, SendError (now w) wtr req c o, Returned).
Proof. reflexivity. Qed.

Lemma Chain_cons {W} (f : handler W) m mw : Chain f (m :: mw) = m (Chain f mw).
Proof. unfold Chain. simpl. by rewrite fold_left_app. Qed.

Lemma Chain_app {W} (f : handler W) l1 l2 : Chain f (l1 ++ l2)%list = Chain (Chain f l2) l1.
Proof. induction l1 as [|m l1 IH]; [done|]. by rewrite <- app_comm_cons, !Chain_cons, IH. Qed.

(** [Chain f mw] runs the first listed middleware outermost: a middleware
    at any position that answers without calling its next handler makes the
    result independent of everything listed after it and of the final handler. *)
Theorem Chain_rejects {W} (pre post post' : list (middleware W)) (m : middleware W)
    (f f' : handler W) (req : Request) (wtr : Writer) (w : W)
    (Hrej : forall n n' req wtr w, m n req wtr w = m n' req wtr w)
    (Hpre : Forall (fun p : middleware W => forall n n',
              (forall r x v, n r x v = n' r x v) -> forall r x v, p n r x v = p n' r x v) pre) :
  Chain f (pre ++ m :: post)%list req wtr w = Chain f' (pre ++ m :: post')%list req wtr w.
Proof.
  rewrite !Chain_app, !Chain_cons. revert req wtr w.
  induction Hpre as [|p pre Hp Hpre IH]; intros req wtr w; [apply Hrej|].
  rewrite !Chain_cons. by apply Hp.
Qed.

Definition rw_ok (w : ResponseWriter) : Prop :=
  match WStatus (Under w) with
  | Some s => WroteHeader w = true /\ rwStatus w = s
  | None => WroteHeader w = false /\ rwStatus w = 0
  end.
Definition op_final (o : rwop) : Prop :=
  match o with OpWriteHeader s => informational s = false | _ => True end.

Lemma rw_ok_apply w o : op_final o -> rw_ok w -> rw_ok (rwapply w o).
Proof.
  unfold rw_ok. destruct o as [s|b n]; simpl; intros Ho Hw.
  - destruct (WStatus (Under w)) as [s'|] eqn:E.
    + destruct Hw as [-> <-]. by rewrite (WriteHeader_committed _ _ _ E), E.
    + destruct Hw as [-> _]. by rewrite WriteHeader_fresh.
  - unfold rwWrite, rwWriteHeader.
    destruct (WStatus (Under w)) as [s'|] eqn:E; destruct Hw as [Hh Hs]; rewrite Hh;
      cbn [Under rwStatus WroteHeader BytesWritten].
    + by rewrite (WriteHeader_committed _ _ _ E), E.
    + pose proof (WriteHeader_fresh _ 200 E eq_refl) as Hf.
      by rewrite (WriteHeader_committed _ _ _ Hf), Hf.
Qed.

(** Whatever a handler does with final status codes, the recorded status is
    the one the client was sent, 0 meaning that nothing has been sent yet. *)
Theorem ResponseWriter_records_status (ops : list rwop) (Hops : Forall op_final ops) :
  let w := rwrun (wrapWriter newWriter) ops in
  rwStatus w = default 0 (WStatus (Under w)) /\
  WroteHeader w = bool_decide (is_Some (WStatus (Under w))).
Proof.
  assert (H : forall ops w, Forall op_final ops -> rw_ok w -> rw_ok (rwrun w ops)).
  { clear. induction ops as [|o ops IH]; intros w Hf Hw; [done|].
    inversion Hf; subst. simpl. apply IH; [done|]. by apply rw_ok_apply. }
  specialize (H ops (wrapWriter newWriter) Hops (conj eq_refl eq_refl)).
  cbv zeta. unfold rw_ok in H. destruct (WStatus _); destruct H as [-> ->]; simpl; auto.
Qed.

(** With an informational status the record goes wrong: after 103 Early
    Hints the wrapper keeps reporting 103 whatever final status is sent. *)
Theorem ResponseWriter_early_hints_misreported (s : Z) (Hs : informational s = false) :
  let w := rwrun (wrapWriter newWriter) [OpWriteHeader 103; OpWriteHeader s] in
  WStatus (Under w) = Some s /\ rwStatus w = 103.
Proof. cbv zeta. simpl. unfold WriteHeader at 1. simpl. by rewrite Hs. Qed.

Definition code_ids : list string := map ID (Global_all ++ DB_all ++ Auth_all)%list.

(** The decimal reading of an error id. *)
Definition id_ok (root : Z) (c : nat * ErrorCode) : bool :=
  String.eqb (ID (snd c)) (CodeID root (Z.of_nat (fst c))) && IsError (Status (snd c)).

(** The ids of the three error families are exactly the ids their range root
    generates from 1 on, in order, every status is a 4xx or 5xx, and no two
    codes share an id. *)
Theorem error_codes_well_formed :
  Forall (fun c => id_ok RangeGlobal c = true) (imap (fun i c => (S i, c)) Global_all) /\
  Forall (fun c => id_ok RangeDB c = true) (imap (fun i c => (S i, c)) DB_all) /\
  Forall (fun c => id_ok RangeAuth c = true) (imap (fun i c => (S i, c)) Auth_all) /\
  NoDup code_ids.
Proof.
  repeat split; try (apply Forall_forall; intros x Hx;
    repeat (apply elem_of_cons in Hx as [->|Hx]; [by vm_compute|]); by apply elem_of_nil in Hx).
  apply (bool_decide_unpack _). by vm_compute.
Qed.

Definition demo_req : Request :=
  {| Method := "GET"; ReqURL := Some {| Path := "/v1/orders"; RawQuery := "" |}; Header := ∅;
     RemoteAddr := "10.0.0.7:5123"; ContentLength := 0; ReqBody := None;
     RequestURI := ""; ReqPattern := ""; PathValues := ∅; Ctx := [] |}.
#[export] Instance clock_Z : Clock Z := fun t => t.
Definition deny : middleware Z := fun _ => reject (Forbidden Global) [].
Definition pass : handler Z := fun req wtr w => (w, Write wtr (ChText "ok"), Returned).

Lemma Chain_rejects_witness :
  Chain pass ([CORSMiddleware] ++ deny :: [])%list demo_req newWriter 7 =
  Chain pass ([CORSMiddleware] ++ deny :: [CORSMiddleware; deny])%list demo_req newWriter 7.
Proof.
  apply (Chain_rejects [CORSMiddleware] [] [CORSMiddleware; deny] deny pass pass demo_req newWriter 7).
  - reflexivity.
  - repeat constructor. intros n n' H r x v. apply H.
Defined.

Lemma ResponseWriter_records_status_witness :
  rwStatus (rwrun (wrapWriter newWriter) [OpWriteHeader 404; OpWrite (ChText "no") 2]) = 404.
Proof.
  refine (eq_trans (proj1 (ResponseWriter_records_status
    [OpWriteHeader 404; OpWrite (ChText "no") 2] _)) eq_refl).
  repeat constructor.
Defined.

Lemma ResponseWriter_early_hints_misreported_witness :
  rwStatus (rwrun (wrapWriter newWriter) [OpWriteHeader 103; OpWriteHeader 200]) = 103.
Proof. exact (proj2 (ResponseWriter_early_hints_misreported 200 eq_refl)). Defined.
