(* ===== verification/Breaker.v ===== *)
(** * The circuit breaker (src/http/client/circuitbreaker.go)

    The per-host state machine, [execute] as the two critical sections around
    the call it protects, the host table with its cap, and the interleavings
    of any number of concurrent calls and prunes. *)

From S2P Require Import Prelude GoStrings.

Open Scope string_scope.
Open Scope Z_scope.

Definition ErrOpen : error := Sentinel "circuit breaker is open".

Inductive BreakerState : Type := BreakerClosed | BreakerOpen | BreakerHalfOpen.
#[export] Instance BreakerState_eq_dec : EqDecision BreakerState.
Proof. solve_decision. Defined.

(** [BreakerState.String] on the three declared values. *)
Definition BreakerState_String (s : BreakerState) : string :=
  match s with
  | BreakerClosed => "Closed" | BreakerOpen => "Open" | BreakerHalfOpen => "HalfOpen"
  end.

(** [OnStateChange] is observed through the list of notifications it gets. *)
Record BreakerConfig := {
  FailureThreshold : Z;
  SuccessThreshold : Z;
  OpenTimeout : Z;
  MaxHalfOpenRequests : Z;
  MaxHosts : Z;
}.

Record breakerState := {
  state : BreakerState;
  failures : Z;
  successes : Z;
  halfOpenInFlight : Z;
  openedAt : Z;
}.
#[export] Instance breakerState_eq_dec : EqDecision breakerState.
Proof. solve_decision. Defined.

(** [&breakerEntry{}]: the zero value. *)
Definition newEntry : breakerState :=
  {| state := BreakerClosed; failures := 0; successes := 0; halfOpenInFlight := 0;
     openedAt := zeroTime |}.

Definition DefaultMaxHosts : Z := 1024.
Definition newBreaker (cfg : BreakerConfig) : BreakerConfig :=
  if MaxHosts cfg =? 0 then
    {| FailureThreshold := FailureThreshold cfg; SuccessThreshold := SuccessThreshold cfg;
       OpenTimeout := OpenTimeout cfg; MaxHalfOpenRequests := MaxHalfOpenRequests cfg;
       MaxHosts := DefaultMaxHosts |}
  else cfg.

Definition notification : Type := BreakerState * BreakerState.

(** [transition]: every counter restarts; [t] is the time it runs at. *)
Definition transition (t : Z) (s : breakerState) (to : BreakerState)
  : breakerState * list notification :=
  ({| state := to; failures := 0; successes := 0; halfOpenInFlight := 0;
      openedAt := if bool_decide (to = BreakerOpen) then t else openedAt s |},
   [(state s, to)]).

Definition with_inflight (s : breakerState) (n : Z) : breakerState :=
  {| state := state s; failures := failures s; successes := successes s;
     halfOpenInFlight := n; openedAt := openedAt s |}.
Definition with_successes (s : breakerState) (n : Z) : breakerState :=
  {| state := state s; failures := failures s; successes := n;
     halfOpenInFlight := halfOpenInFlight s; openedAt := openedAt s |}.
Definition with_failures (s : breakerState) (n : Z) : breakerState :=
  {| state := state s; failures := n; successes := successes s;
     halfOpenInFlight := halfOpenInFlight s; openedAt := openedAt s |}.

(** ** [execute]: the two critical sections

    [begin_exec] runs under the entry's lock up to the call of [fn];
    [end_probe] and [end_closed] run under the lock after it. *)

Inductive admission : Type := Rejected | Probe | Normal.
#[export] Instance admission_eq_dec : EqDecision admission.
Proof. solve_decision. Defined.

Definition begin_half_open (cfg : BreakerConfig) (s : breakerState) : breakerState * admission :=
  if MaxHalfOpenRequests cfg <=? halfOpenInFlight s then (s, Rejected)
  else (with_inflight s (halfOpenInFlight s + 1), Probe).

Definition begin_exec (cfg : BreakerConfig) (t : Z) (s : breakerState)
  : breakerState * admission * list notification :=
  match state s with
  | BreakerOpen =>
      if timeSub t (openedAt s) <? OpenTimeout cfg then (s, Rejected, [])
      else let '(s, ns) := transition t s BreakerHalfOpen in
           (begin_half_open cfg s, ns)
  | BreakerHalfOpen => (begin_half_open cfg s, [])
  | BreakerClosed => (s, Normal, [])
  end.

Definition end_probe (cfg : BreakerConfig) (t : Z) (s : breakerState) (err : option error)
  : breakerState * list notification :=
  let s := with_inflight s (halfOpenInFlight s - 1) in
  match err with
  | Some _ => transition t s BreakerOpen
  | None =>
      let s := with_successes s (successes s + 1) in
      if SuccessThreshold cfg <=? successes s then transition t s BreakerClosed else (s, [])
  end.

Definition end_closed (cfg : BreakerConfig) (t : Z) (s : breakerState) (err : option error)
  : breakerState * list notification :=
  match err with
  | None => (s, [])
  | Some _ =>
      let s := with_failures s (failures s + 1) in
      if FailureThreshold cfg <=? failures s then transition t s BreakerOpen else (s, [])
  end.

Definition end_exec (cfg : BreakerConfig) (t : Z) (a : admission) (s : breakerState)
    (err : option error) : breakerState * list notification :=
  match a with
  | Rejected => (s, [])
  | Probe => end_probe cfg t s err
  | Normal => end_closed cfg t s err
  end.

(** The part of a call after its first critical section: [fn] returns [err] at
    [t2].  The boolean says whether [fn] was called. *)
Definition finish_exec (cfg : BreakerConfig) (t2 : Z) (err : option error)
    (p : breakerState * admission) : breakerState * bool * option error :=
  match p.2 with
  | Rejected => (p.1, false, Some ErrOpen)
  | a => ((end_exec cfg t2 a p.1 err).1, true, err)
  end.

(** One call with nothing interleaved, started at [t1]. *)
Definition execute (cfg : BreakerConfig) (t1 t2 : Z) (s : breakerState) (err : option error)
  : breakerState * bool * option error :=
  finish_exec cfg t2 err (begin_exec cfg t1 s).1.

(** [Prune]'s test. *)
Definition removable (s : breakerState) : bool :=
  bool_decide (state s = BreakerClosed) && (failures s =? 0).

(** ** Specification: the three-state automaton a breaker is documented to be *)

Inductive bspec : Type :=
  | SClosed (fails : Z)
  | SOpen (since : Z)
  | SHalfOpen (oks : Z).

Definition spec_half (cfg : BreakerConfig) (t2 : Z) (oks : Z) (err : option error)
  : bspec * bool * option error :=
  if MaxHalfOpenRequests cfg <=? 0 then (SHalfOpen oks, false, Some ErrOpen)
  else match err with
       | Some _ => (SOpen t2, true, err)
       | None => (if SuccessThreshold cfg <=? oks + 1 then SClosed 0 else SHalfOpen (oks + 1), true, err)
       end.
Definition spec_execute (cfg : BreakerConfig) (t1 t2 : Z) (s : bspec) (err : option error)
  : bspec * bool * option error :=
  match s with
  | SClosed f =>
      match err with
      | None => (s, true, err)
      | Some _ => (if FailureThreshold cfg <=? f + 1 then SOpen t2 else SClosed (f + 1), true, err)
      end
  | SOpen t => if timeSub t1 t <? OpenTimeout cfg then (s, false, Some ErrOpen)
               else spec_half cfg t2 0 err
  | SHalfOpen n => spec_half cfg t2 n err
  end.

Definition refines (s : breakerState) (a : bspec) : Prop :=
  match a with
  | SClosed f => state s = BreakerClosed /\ failures s = f /\ successes s = 0 /\ halfOpenInFlight s = 0
  | SOpen t => state s = BreakerOpen /\ openedAt s = t /\ failures s = 0 /\ successes s = 0 /\
               halfOpenInFlight s = 0
  | SHalfOpen n => state s = BreakerHalfOpen /\ successes s = n /\ failures s = 0 /\
                   halfOpenInFlight s = 0
  end.

(** A history of calls: start time, end time, outcome of [fn] if it is called. *)
Definition call : Type := Z * Z * option error.
Fixpoint run_calls {S} (step : Z -> Z -> S -> option error -> S * bool * option error)
    (s : S) (cs : list call) : S * list (bool * option error) :=
  match cs with
  | [] => (s, [])
  | (t1, t2, err) :: cs' =>
      let '(s', called, res) := step t1 t2 s err in
      let '(s'', out) := run_calls step s' cs' in (s'', (called, res) :: out)
  end.

Lemma refines_half cfg t2 s n err :
  refines s (SHalfOpen n) ->
  exists s' a' called res,
    finish_exec cfg t2 err (begin_half_open cfg s) = (s', called, res) /\
    spec_half cfg t2 n err = (a', called, res) /\ refines s' a'.
Proof.
  simpl. intros (Hst & Hsu & Hf & Hh). unfold begin_half_open, spec_half, finish_exec. rewrite Hh.
  destruct (MaxHalfOpenRequests cfg <=? 0); simpl.
  - repeat eexists; simpl; auto.
  - unfold end_probe; simpl. destruct err as [e|]; [repeat eexists; simpl; auto|].
    rewrite Hsu. destruct (SuccessThreshold cfg <=? n + 1); repeat eexists; simpl; auto.
Qed.

Lemma execute_refines cfg t1 t2 s a err :
  refines s a ->
  exists s' a' called res,
    execute cfg t1 t2 s err = (s', called, res) /\
    spec_execute cfg t1 t2 a err = (a', called, res) /\ refines s' a'.
Proof.
  intros R. unfold execute, begin_exec, spec_execute. destruct a as [f|t|n].
  - destruct R as (Hst & Hf & Hsu & Hh). rewrite Hst. unfold finish_exec; simpl. unfold end_closed.
    destruct err as [e|]; simpl; [rewrite Hf; destruct (_ <=? _)|];
      repeat eexists; simpl; auto.
  - destruct R as (Hst & Ht & Hf & Hsu & Hh). rewrite Hst, Ht.
    destruct (timeSub t1 t <? OpenTimeout cfg); [repeat eexists; simpl; auto|].
    simpl. by apply refines_half.
  - pose proof R as (Hst & _). rewrite Hst. by apply refines_half.
Qed.

(** (C1) The breaker refines its three-state specification: for any sequence of
    calls one after the other, at any times and with any outcomes, the entry
    answers exactly what the automaton closed/open-since/half-open answers
    (which calls reach [fn], which get [ErrOpen]), and ends in the state the
    automaton ends in. *)
Theorem breaker_refines_spec (cfg : BreakerConfig) (cs : list call) :
  (run_calls (execute cfg) newEntry cs).2 = (run_calls (spec_execute cfg) (SClosed 0) cs).2 /\
  refines (run_calls (execute cfg) newEntry cs).1 (run_calls (spec_execute cfg) (SClosed 0) cs).1.
Proof.
  assert (R : refines newEntry (SClosed 0)) by (simpl; auto).
  revert R. generalize newEntry (SClosed 0). induction cs as [|[[t1 t2] err] cs IH]; intros s a R.
  - auto.
  - destruct (execute_refines cfg t1 t2 s a err R) as (s' & a' & c & r & E1 & E2 & R').
    simpl. rewrite E1, E2. destruct (IH _ _ R') as [Ho HR].
    destruct (run_calls (execute cfg) s' cs), (run_calls (spec_execute cfg) a' cs).
    simpl in *. by rewrite Ho.
Qed.

(** ** When a closed breaker trips *)

Definition failed (c : call) : nat := match c.2 with Some _ => 1 | None => 0 end.

(** A closed breaker counts failures over its whole closed period: successes
    in between do not reset the count.  As long as fewer than
    [FailureThreshold] of the calls have failed, every call reaches [fn] and
    the entry is closed with that count; the call whose failure makes the
    count reach the threshold opens it, at the time that call returned. *)
Theorem breaker_trips_on_cumulative_failures (cfg : BreakerConfig) (cs : list call)
    (H : Z.of_nat (sum_list_with failed cs) < FailureThreshold cfg) :
  let r := run_calls (execute cfg) newEntry cs in
  Forall (fun o => o.1 = true) r.2 /\
  state r.1 = BreakerClosed /\ failures r.1 = Z.of_nat (sum_list_with failed cs) /\
  (forall t1 t2 e, failures r.1 + 1 = FailureThreshold cfg ->
     let s' := (execute cfg t1 t2 r.1 (Some e)).1.1 in
     state s' = BreakerOpen /\ openedAt s' = t2).
Proof.
  cbv zeta.
  assert (G : forall cs s n, state s = BreakerClosed -> failures s = Z.of_nat n ->
    Z.of_nat (n + sum_list_with failed cs) < FailureThreshold cfg ->
    let r := run_calls (execute cfg) s cs in
    Forall (fun o => o.1 = true) r.2 /\ state r.1 = BreakerClosed /\
    failures r.1 = Z.of_nat (n + sum_list_with failed cs)).
  { clear. induction cs as [|[[t1 t2] err] cs IH]; intros s n Hs Hf Hn; simpl in *.
    - rewrite Nat.add_0_r. auto.
    - unfold execute, begin_exec. rewrite Hs. unfold finish_exec; simpl. unfold end_closed.
      unfold failed in *; simpl in *. destruct err as [e|]; simpl.
      + destruct (Z.leb_spec (FailureThreshold cfg) (failures s + 1)); [lia|].
        specialize (IH (with_failures s (failures s + 1)) (S n) Hs ltac:(simpl; lia) ltac:(lia)).
        destruct (run_calls _ _ cs); simpl in *. rewrite Nat.add_succ_r.
        split; [constructor|]; tauto.
      + specialize (IH s n Hs Hf ltac:(lia)). destruct (run_calls _ _ cs); simpl in *.
        split; [constructor|]; tauto. }
  destruct (G cs newEntry 0%nat eq_refl eq_refl H) as (H1 & H2 & H3). do 3 (split; [done|]).
  revert H2. generalize (run_calls (execute cfg) newEntry cs).1. intros st H2 t1 t2 e Hth.
  unfold execute, begin_exec. rewrite H2.
  unfold finish_exec; simpl. unfold end_closed; simpl.
  rewrite Hth, Z.leb_refl. simpl. auto.
Qed.

Definition demo_cfg : BreakerConfig :=
  {| FailureThreshold := 3; SuccessThreshold := 1; OpenTimeout := 60 * Second;
     MaxHalfOpenRequests := 2; MaxHosts := 1 |}.

Lemma breaker_trips_on_cumulative_failures_witness :
  let cs := [(0, 1, Some (Errorf "e")); (1, 2, None); (2, 3, Some (Errorf "e"))] in
  Z.of_nat (sum_list_with failed cs) < FailureThreshold demo_cfg /\
  state (run_calls (execute demo_cfg) newEntry cs).1 = BreakerClosed.
Proof.
  split; [vm_compute; reflexivity|].
  exact (proj1 (proj2 (breaker_trips_on_cumulative_failures demo_cfg
    [(0, 1, Some (Errorf "e")); (1, 2, None); (2, 3, Some (Errorf "e"))] ltac:(vm_compute; reflexivity)))).
Defined.

(** ** Concurrent calls and prunes

    The host table maps a host to its entry; entries live in a heap, because a
    call keeps using an entry that a prune has unlinked.  Each phase of a
    thread is one atomic step of the code: a [sync.Map] operation or one
    critical section. *)

Record shared := mkShared {
  hosts : gmap string nat;
  heap : gmap nat breakerState;
  freshEntry : nat;
  hostCount : Z;
}.

Inductive phase : Type :=
  (* entryFor *)
  | PLoad (k : string)             (* hosts.Load *)
  | PCap (k : string)              (* the hostMu section *)
  | PStore (k : string)            (* hosts.LoadOrStore *)
  | PDec (e : nat)                 (* the decrement after a lost race *)
  (* execute *)
  | PBegin (e : nat)
  | PRun (e : nat) (a : admission) (* fn is running *)
  | PBypass                        (* host cap exceeded: fn runs unguarded *)
  | PDone
  (* Prune *)
  | RIdle                          (* Range picks the next key *)
  | RTest (k : string) (e : nat)
  | RDel (k : string)
  | RDec.

(** What the environment decides: [fn]'s outcome, the key [Range] visits. *)
Record input := { inErr : option error; inKey : string }.

Definition sh_heap (s : shared) (e : nat) (st : breakerState) : shared :=
  {| hosts := hosts s; heap := <[e := st]> (heap s); freshEntry := freshEntry s; hostCount := hostCount s |}.
Definition sh_count (s : shared) (n : Z) : shared :=
  {| hosts := hosts s; heap := heap s; freshEntry := freshEntry s; hostCount := n |}.
Definition sh_store (s : shared) (k : string) : shared :=
  {| hosts := <[k := freshEntry s]> (hosts s); heap := <[freshEntry s := newEntry]> (heap s);
     freshEntry := S (freshEntry s); hostCount := hostCount s |}.
Definition sh_delete (s : shared) (k : string) : shared :=
  {| hosts := delete k (hosts s); heap := heap s; freshEntry := freshEntry s; hostCount := hostCount s |}.

(** [entryFor]: one atomic step per phase. *)
Definition entryFor_step (cfg : BreakerConfig) (s : shared) (p : phase) : option (shared * phase) :=
  match p with
  | PLoad k =>
      match hosts s !! k with
      | Some e => Some (s, PBegin e)
      | None => Some (s, if 0 <? MaxHosts cfg then PCap k else PStore k)
      end
  | PCap k =>
      if MaxHosts cfg <=? hostCount s then Some (s, PBypass)
      else Some (sh_count s (hostCount s + 1), PStore k)
  | PStore k =>
      match hosts s !! k with
      | Some e => Some (s, if 0 <? MaxHosts cfg then PDec e else PBegin e)
      | None => Some (sh_store s k, PBegin (freshEntry s))
      end
  | PDec e => Some (sh_count s (hostCount s - 1), PBegin e)
  | _ => None
  end.

Definition execute_step (cfg : BreakerConfig) (t : Z) (s : shared) (p : phase) (i : input)
  : option (shared * phase) :=
  match p with
  | PBegin e =>
      st ← heap s !! e;
      let '(st', a, _) := begin_exec cfg t st in
      Some (sh_heap s e st', match a with Rejected => PDone | _ => PRun e a end)
  | PRun e a =>
      st ← heap s !! e;
      Some (sh_heap s e (end_exec cfg t a st (inErr i)).1, PDone)
  | PBypass => Some (s, PDone)
  | _ => None
  end.

Definition prune_step (cfg : BreakerConfig) (s : shared) (p : phase) (i : input)
  : option (shared * phase) :=
  match p with
  | RIdle => e ← hosts s !! inKey i; Some (s, RTest (inKey i) e)
  | RTest k e => st ← heap s !! e; Some (s, if removable st then RDel k else RIdle)
  | RDel k => Some (sh_delete s k, if 0 <? MaxHosts cfg then RDec else RIdle)
  | RDec => Some (sh_count s (hostCount s - 1), RIdle)
  | _ => None
  end.

Definition is_pruner (p : phase) : nat :=
  match p with RIdle | RTest _ _ | RDel _ | RDec => 1 | _ => 0 end.

Definition thread_step (cfg : BreakerConfig) (t : Z) (s : shared) (p : phase) (i : input)
  : option (shared * phase) :=
  match p with
  | PLoad _ | PCap _ | PStore _ | PDec _ => entryFor_step cfg s p
  | PBegin _ | PRun _ _ | PBypass => execute_step cfg t s p i
  | RIdle | RTest _ _ | RDel _ | RDec => prune_step cfg s p i
  | PDone => None
  end.

Record sys := { mem : shared; threads : list phase }.

(** Thread [n] makes its next step at time [t]. *)
Definition sys_step (cfg : BreakerConfig) (y : sys) (n : nat) (t : Z) (i : input) : option sys :=
  p ← threads y !! n;
  '(s', p') ← thread_step cfg t (mem y) p i;
  Some {| mem := s'; threads := <[n := p']> (threads y) |}.

Definition emptyShared : shared :=
  {| hosts := ∅; heap := ∅; freshEntry := 0; hostCount := 0 |}.
Definition start_phase (p : phase) : Prop := (exists k, p = PLoad k) \/ p = RIdle.

Inductive reachable (cfg : BreakerConfig) : sys -> Prop :=
  | reach_init ts : Forall start_phase ts -> reachable cfg {| mem := emptyShared; threads := ts |}
  | reach_step y n t i y' : reachable cfg y -> sys_step cfg y n t i = Some y' -> reachable cfg y'.

Fixpoint sys_run (cfg : BreakerConfig) (y : sys) (es : list (nat * Z * input)) : option sys :=
  match es with
  | [] => Some y
  | (n, t, i) :: es' => y' ← sys_step cfg y n t i; sys_run cfg y' es'
  end.

Lemma sys_run_reachable cfg y es y' :
  reachable cfg y -> sys_run cfg y es = Some y' -> reachable cfg y'.
Proof.
  revert y. induction es as [|[[n t] i] es IH]; intros y Hr; simpl; [by intros [= <-]|].
  destruct (sys_step cfg y n t i) as [y1|] eqn:E; simpl; [|done].
  apply IH. by eapply reach_step.
Qed.

(** *** The host cap *)

(** Increments of [hostCount] not yet matched by a stored host, and removals
    not yet matched by a decrement. *)
Definition pending (p : phase) : nat :=
  match p with PStore _ | PDec _ | RDec => 1 | _ => 0 end.
(** The key a prune has found in the table and may still delete. *)
Definition pruned_key (p : phase) : option string :=
  match p with RTest k _ | RDel k => Some k | _ => None end.

Record cap_inv (cfg : BreakerConfig) (y : sys) : Prop := {
  cap_count : hostCount (mem y) =
    Z.of_nat (size (hosts (mem y)) + sum_list_with pending (threads y));
  cap_bound : hostCount (mem y) <= MaxHosts cfg;
  cap_keys : forall n p k, threads y !! n = Some p -> pruned_key p = Some k ->
    is_Some (hosts (mem y) !! k);
}.

Lemma thread_step_pruner cfg t s p i s' p' :
  thread_step cfg t s p i = Some (s', p') -> is_pruner p' = is_pruner p.
Proof.
  destruct p; simpl; intros H; repeat (case_match || simplify_option_eq); simplify_eq; done.
Qed.

(** What one step does to the host table and its counter, when hosts are capped. *)
Lemma thread_step_count cfg t s p i s' p' :
  0 < MaxHosts cfg -> thread_step cfg t s p i = Some (s', p') ->
  hostCount s <= MaxHosts cfg ->
  (forall k, p = RDel k -> is_Some (hosts s !! k)) ->
  hostCount s' <= MaxHosts cfg /\
  hostCount s' - Z.of_nat (size (hosts s')) - Z.of_nat (pending p') =
  hostCount s - Z.of_nat (size (hosts s)) - Z.of_nat (pending p).
Proof.
  intros Hmax. apply Z.ltb_lt in Hmax as Hb.
  destruct p; simpl; rewrite ?Hb; intros H Hle Hk;
    repeat (case_match || simplify_option_eq); simplify_eq; simpl; try lia.
  - rewrite map_size_insert_None by done. lia.
  - destruct (Hk k eq_refl) as [e He]. rewrite map_size_delete, He.
    assert (size (hosts s) <> 0%nat) by (intros E; apply map_size_empty_inv in E; by rewrite E in He).
    simpl. lia.
Qed.

Lemma thread_step_keys cfg t s p i s' p' k :
  thread_step cfg t s p i = Some (s', p') ->
  (is_Some (hosts s !! k) -> is_pruner p = 0%nat -> is_Some (hosts s' !! k)) /\
  (pruned_key p' = Some k ->
   (forall k', pruned_key p = Some k' -> is_Some (hosts s !! k')) -> is_Some (hosts s' !! k)).
Proof.
  destruct p; simpl; intros H; repeat (case_match || simplify_option_eq); simplify_eq; simpl;
    split; intros; simplify_eq; eauto; try (eexists; eassumption).
  destruct (decide (k0 = k)) as [->|]; [rewrite lookup_insert_eq|rewrite lookup_insert_ne]; eauto.
Qed.

Lemma cap_inv_step cfg y n t i y' :
  0 < MaxHosts cfg -> (sum_list_with is_pruner (threads y) <= 1)%nat ->
  cap_inv cfg y -> sys_step cfg y n t i = Some y' -> cap_inv cfg y'.
Proof.
  intros Hmax Hone [Hc Hb Hk] Hs. unfold sys_step in Hs.
  destruct (threads y !! n) as [p|] eqn:Hp; simplify_option_eq.
  destruct (thread_step cfg t (mem y) p i) as [[s' p']|] eqn:Hstep; simplify_option_eq.
  destruct (thread_step_count _ _ _ _ _ _ _ Hmax Hstep Hb) as [Hb' Hc'].
  { intros k ->. by eapply Hk. }
  pose proof (sum_list_with_insert pending _ _ _ p' Hp) as Hsum.
  split; simpl; [lia|done|].
  intros m q k Hm Hq. destruct (decide (m = n)) as [->|Hne].
  - rewrite list_lookup_insert_eq in Hm by (by eapply lookup_lt_Some).
    simplify_eq. apply (proj2 (thread_step_keys _ _ _ _ _ _ _ k Hstep)); eauto.
  - rewrite list_lookup_insert_ne in Hm by done.
    apply (proj1 (thread_step_keys _ _ _ _ _ _ _ k Hstep)); [by eapply Hk|].
    pose proof (sum_list_with_two is_pruner _ n m p q ltac:(done) Hp Hm).
    assert (is_pruner q = 1%nat) by (by destruct q). lia.
Qed.

Lemma pruners_step cfg y n t i y' :
  sys_step cfg y n t i = Some y' ->
  sum_list_with is_pruner (threads y') = sum_list_with is_pruner (threads y).
Proof.
  unfold sys_step. intros Hs.
  destruct (threads y !! n) as [p|] eqn:Hp; simplify_option_eq.
  destruct (thread_step cfg t (mem y) p i) as [[s' p']|] eqn:Hstep; simplify_option_eq.
  pose proof (sum_list_with_insert is_pruner _ _ _ p' Hp).
  apply thread_step_pruner in Hstep. lia.
Qed.

Lemma start_pending ts : Forall start_phase ts ->
  sum_list_with pending ts = 0%nat /\
  forall n p k, ts !! n = Some p -> pruned_key p = Some k -> False.
Proof.
  intros H. split.
  - induction H as [|p ts [[k ->]| ->] _ IH]; simpl; auto.
  - intros n p k Hn Hk. eapply Forall_lookup in H; [|exact Hn].
    by destruct H as [[k' ->]| ->].
Qed.

(** (C23) Under any interleaving of any number of calls with at most one [Prune]
    running at a time, the breaker never tracks more than [MaxHosts] hosts. *)
Theorem host_cap_respected (cfg : BreakerConfig) (y : sys)
    (Hmax : 0 < MaxHosts cfg) (Hr : reachable cfg y)
    (Hone : (sum_list_with is_pruner (threads y) <= 1)%nat) :
  Z.of_nat (size (hosts (mem y))) <= MaxHosts cfg.
Proof.
  enough (cap_inv cfg y) as [Hc Hb _] by lia.
  induction Hr as [ts Hts|y n t i y' Hr IH Hs].
  - destruct (start_pending ts Hts) as [Hp Hk].
    split; simpl; [rewrite Hp; done|lia|]. intros n p k Hn Hpk. exfalso. by eapply Hk.
  - rewrite (pruners_step _ _ _ _ _ _ Hs) in Hone. eapply cap_inv_step; eauto.
Qed.

(** *** Half-open probes *)

Definition inflight_ok (cfg : BreakerConfig) (st : breakerState) : Prop :=
  halfOpenInFlight st <= Z.max 0 (MaxHalfOpenRequests cfg).

Lemma begin_exec_inflight cfg t st st' a ns :
  inflight_ok cfg st -> begin_exec cfg t st = (st', a, ns) -> inflight_ok cfg st'.
Proof.
  unfold inflight_ok, begin_exec, begin_half_open, transition. intros H E.
  repeat case_match; simplify_eq; simpl in *; bool_to_prop; lia.
Qed.

Lemma end_exec_inflight cfg t a st err :
  inflight_ok cfg st -> inflight_ok cfg (end_exec cfg t a st err).1.
Proof.
  unfold inflight_ok, end_exec, end_probe, end_closed. intros H.
  repeat case_match; simpl; lia.
Qed.

Lemma thread_step_inflight cfg t s p i s' p' :
  thread_step cfg t s p i = Some (s', p') ->
  map_Forall (fun _ => inflight_ok cfg) (heap s) -> map_Forall (fun _ => inflight_ok cfg) (heap s').
Proof.
  intros H Hall. destruct p; simpl in H; repeat (case_match || simplify_option_eq);
    simplify_eq; simpl; try done; apply map_Forall_insert_2; try done.
  all: first [by apply Z.le_max_l
             |by apply end_exec_inflight; eapply Hall
             |eapply begin_exec_inflight; [by eapply Hall|eassumption]].
Qed.

(** In every reachable state of every entry, under any interleaving, the
    counter of half-open probes is at most [MaxHalfOpenRequests], and a call
    that is admitted as a probe found the counter strictly below it. *)
Theorem half_open_counter_bounded (cfg : BreakerConfig) (y : sys) (e : nat) (st : breakerState)
    (Hr : reachable cfg y) (He : heap (mem y) !! e = Some st) :
  halfOpenInFlight st <= Z.max 0 (MaxHalfOpenRequests cfg) /\
  (forall t st' ns, begin_exec cfg t st = (st', Probe, ns) ->
     halfOpenInFlight st' <= MaxHalfOpenRequests cfg).
Proof.
  assert (H : map_Forall (fun _ => inflight_ok cfg) (heap (mem y))).
  { clear He. induction Hr as [ts Hts|y n t i y' Hr IH Hs]; [apply map_Forall_empty|].
    unfold sys_step in Hs. destruct (threads y !! n) as [p|]; simplify_option_eq.
    destruct (thread_step cfg t (mem y) p i) as [[s' p']|] eqn:Hstep; simplify_option_eq.
    by eapply thread_step_inflight. }
  split; [by eapply H|]. intros t st' ns. unfold begin_exec, begin_half_open, transition.
  repeat case_match; intros; simplify_eq; simpl in *; bool_to_prop; lia.
Qed.

Definition ok_in : input := {| inErr := None; inKey := "" |}.
Definition err_in : input := {| inErr := Some (Errorf "upstream returned 500"); inKey := "" |}.
Definition key_in (k : string) : input := {| inErr := None; inKey := k |}.
Definition probe_cfg : BreakerConfig :=
  {| FailureThreshold := 1; SuccessThreshold := 1; OpenTimeout := 10;
     MaxHalfOpenRequests := 2; MaxHosts := 1024 |}.
Definition probing (p : phase) : nat := match p with PRun _ Probe => 1 | _ => 0 end.

(** Call 0 trips the breaker, calls 1 and 2 are probes of the first half-open
    period, call 1 fails and re-opens it. *)
Definition stale_probe_prefix : list (nat * Z * input) :=
  [(0%nat, 0, ok_in); (0%nat, 0, ok_in); (0%nat, 0, ok_in); (0%nat, 0, ok_in); (0%nat, 1, err_in);
   (1%nat, 11, ok_in); (1%nat, 11, ok_in); (2%nat, 11, ok_in); (2%nat, 11, ok_in);
   (1%nat, 12, err_in)].
Definition five_calls : sys :=
  {| mem := emptyShared; threads := replicate 5 (PLoad "api.internal") |}.

Lemma five_calls_reachable cfg es y : sys_run cfg five_calls es = Some y -> reachable cfg y.
Proof.
  apply sys_run_reachable, reach_init, Forall_replicate. left; eauto.
Qed.

(** The counter is not the number of probes in flight: re-opening resets it
    while probes of the previous half-open period are still running, so that
    three probes run at once with [MaxHalfOpenRequests] = 2. *)
Theorem half_open_limit_exceeded :
  exists y, reachable probe_cfg y /\
    Z.of_nat (sum_list_with probing (threads y)) > MaxHalfOpenRequests probe_cfg.
Proof.
  destruct (sys_run probe_cfg five_calls (stale_probe_prefix ++
    [(3%nat, 22, ok_in); (3%nat, 22, ok_in); (4%nat, 22, ok_in); (4%nat, 22, ok_in)])%list)
    as [y|] eqn:E; [|by vm_compute in E].
  exists y. split; [by eapply five_calls_reachable|]. vm_compute in E. injection E as <-.
  by vm_compute.
Qed.

(** A probe left over from an earlier half-open period closes an open
    breaker: its success takes the entry from Open to Closed one nanosecond
    after it opened, although [OpenTimeout] is 10. *)
Theorem stale_probe_closes_open_breaker :
  exists y y' st st', reachable probe_cfg y /\
    heap (mem y) !! 0%nat = Some st /\ state st = BreakerOpen /\
    sys_step probe_cfg y 2 13 ok_in = Some y' /\
    heap (mem y') !! 0%nat = Some st' /\ state st' = BreakerClosed /\
    timeSub 13 (openedAt st) < OpenTimeout probe_cfg.
Proof.
  destruct (sys_run probe_cfg five_calls stale_probe_prefix) as [y|] eqn:E; [|by vm_compute in E].
  pose proof (five_calls_reachable _ _ _ E) as Hr. vm_compute in E. injection E as <-.
  do 4 eexists. split; [exact Hr|]. repeat split; vm_compute; reflexivity.
Qed.

(** Two concurrent [Prune]s break the host cap: both find the same entry
    removable and both decrement the counter for it, after which a breaker
    capped at one host tracks two. *)
Theorem concurrent_prunes_break_host_cap :
  exists y, reachable demo_cfg y /\ Z.of_nat (size (hosts (mem y))) > MaxHosts demo_cfg.
Proof.
  pose (y0 := {| mem := emptyShared; threads := [PLoad "a"; RIdle; RIdle; PLoad "b"; PLoad "c"] |}).
  pose (es := ([(0, 0, ok_in); (0, 0, ok_in); (0, 0, ok_in); (1, 0, key_in "a"); (2, 0, key_in "a");
    (1, 0, ok_in); (2, 0, ok_in); (1, 0, ok_in); (2, 0, ok_in); (1, 0, ok_in); (2, 0, ok_in);
    (3, 0, ok_in); (3, 0, ok_in); (3, 0, ok_in); (4, 0, ok_in); (4, 0, ok_in); (4, 0, ok_in)]%nat
    : list (nat * nat * input))).
  destruct (sys_run demo_cfg y0 (map (fun e => (e.1.1, Z.of_nat e.1.2, e.2)) es)) as [y|] eqn:E;
    [|by vm_compute in E].
  exists y. split.
  - eapply sys_run_reachable; [|exact E]. apply reach_init.
    repeat (apply Forall_cons_2; [unfold start_phase; eauto|]). apply Forall_nil_2.
  - vm_compute in E. injection E as <-. by vm_compute.
Qed.

Lemma host_cap_respected_witness :
  Z.of_nat (size (hosts (mem five_calls))) <= MaxHosts probe_cfg.
Proof.
  apply (host_cap_respected probe_cfg five_calls).
  - vm_compute. reflexivity.
  - apply (five_calls_reachable probe_cfg [] five_calls). reflexivity.
  - vm_compute. apply Nat.le_0_l.
Defined.

Definition probing_sys : sys := default five_calls (sys_run probe_cfg five_calls stale_probe_prefix).
Definition probing_entry : breakerState := default newEntry (heap (mem probing_sys) !! 0%nat).

Lemma half_open_counter_bounded_witness :
  halfOpenInFlight probing_entry <= Z.max 0 (MaxHalfOpenRequests probe_cfg).
Proof.
  apply (half_open_counter_bounded probe_cfg probing_sys 0 probing_entry).
  - apply (five_calls_reachable probe_cfg stale_probe_prefix). vm_compute. reflexivity.
  - vm_compute. reflexivity.
Defined.
