(* ===== verification/Regex.v ===== *)
(** * Regular expressions, as far as the SDK's own patterns need them

    Byte-level expressions matched by derivatives.  The patterns of the SDK use
    classes, repetition and alternation on ASCII bytes; a pattern anchored by
    ^ and $ is a match of the whole string. *)

From S2P Require Import Prelude GoStrings.

Open Scope string_scope.
Open Scope Z_scope.

Inductive re : Type :=
  | Empty
  | Eps
  | Cls (p : ascii -> bool)
  | Seq (r s : re)
  | Alt (r s : re)
  | Star (r : re).

Definition Plus (r : re) : re := Seq r (Star r).
Definition Opt (r : re) : re := Alt Eps r.
(** [r{n}], [r{m,n}]. *)
Fixpoint Times (n : nat) (r : re) : re :=
  match n with O => Eps | S n => Seq r (Times n r) end.
Fixpoint UpTo (n : nat) (r : re) : re :=
  match n with O => Eps | S n => Opt (Seq r (UpTo n r)) end.
Definition Between (m n : nat) (r : re) : re := Seq (Times m r) (UpTo (n - m) r).
Fixpoint Lit (s : string) : re :=
  match s with "" => Eps | String c s => Seq (Cls (Ascii.eqb c)) (Lit s) end.

Fixpoint nullable (r : re) : bool :=
  match r with
  | Empty | Cls _ => false
  | Eps | Star _ => true
  | Seq r s => nullable r && nullable s
  | Alt r s => nullable r || nullable s
  end.

(** Smart constructors keep derivatives small. *)
Definition seq (r s : re) : re :=
  match r with Empty => Empty | Eps => s | _ => match s with Empty => Empty | _ => Seq r s end end.
Definition alt (r s : re) : re :=
  match r with Empty => s | _ => match s with Empty => r | _ => Alt r s end end.

Fixpoint deriv (c : ascii) (r : re) : re :=
  match r with
  | Empty | Eps => Empty
  | Cls p => if p c then Eps else Empty
  | Seq r s => if nullable r then alt (seq (deriv c r) s) (deriv c s) else seq (deriv c r) s
  | Alt r s => alt (deriv c r) (deriv c s)
  | Star r => seq (deriv c r) (Star r)
  end.
Fixpoint fullMatch (r : re) (s : string) : bool :=
  match s with
  | "" => nullable r
  | String c s' => fullMatch (deriv c r) s'
  end.

(** ** The language of an expression *)

Inductive lang : re -> string -> Prop :=
  | lang_eps : lang Eps ""
  | lang_cls p c : p c = true -> lang (Cls p) (String c "")
  | lang_seq r s x y : lang r x -> lang s y -> lang (Seq r s) (x +:+ y)
  | lang_altl r s x : lang r x -> lang (Alt r s) x
  | lang_altr r s x : lang s x -> lang (Alt r s) x
  | lang_nil r : lang (Star r) ""
  | lang_star r x y : lang r x -> lang (Star r) y -> lang (Star r) (x +:+ y).
#[export] Hint Constructors lang : core.

Lemma lang_seq_smart r s x : lang (seq r s) x <-> lang (Seq r s) x.
Proof.
  destruct r; simpl; try done.
  - split; intros H; inversion H; subst; by match goal with H : lang Empty _ |- _ => inversion H end.
  - split; [intros H; by apply (lang_seq Eps s "" x)|].
    intros H; inversion H; subst. by match goal with H : lang Eps _ |- _ => inversion H; subst end.
  - destruct s; try done. split; intros H; inversion H; subst; by match goal with H : lang Empty _ |- _ => inversion H end.
  - destruct s; try done. split; intros H; inversion H; subst; by match goal with H : lang Empty _ |- _ => inversion H end.
  - destruct s; try done. split; intros H; inversion H; subst; by match goal with H : lang Empty _ |- _ => inversion H end.
  - destruct s; try done. split; intros H; inversion H; subst; by match goal with H : lang Empty _ |- _ => inversion H end.
Qed.

Lemma lang_alt_smart r s x : lang (alt r s) x <-> lang r x \/ lang s x.
Proof.
  assert (E : forall y, ~ lang Empty y) by (intros y H; inversion H).
  assert (A : lang (Alt r s) x <-> lang r x \/ lang s x).
  { split; [intros H; inversion H; auto|intros [?|?]; auto]. }
  unfold alt. destruct r; try (destruct s; rewrite ?A; try done; split; [auto|]; intros [?|?]; [auto|by apply E in H]).
  split; [auto|]. intros [H|H]; [by apply E in H|done].
Qed.

Lemma lang_Seq_inv r s w :
  lang (Seq r s) w -> exists x y, w = x +:+ y /\ lang r x /\ lang s y.
Proof. intros H. inversion H; subst. eauto. Qed.

Lemma sapp_eq_nil a b : a +:+ b = "" -> a = "" /\ b = "".
Proof. destruct a; [by destruct b|]. by rewrite sapp_cons. Qed.

Lemma nullable_spec r : nullable r = true <-> lang r "".
Proof.
  induction r as [| |p|r IHr s IHs|r IHr s IHs|r IHr]; simpl.
  - split; [done|intros H; inversion H].
  - split; auto.
  - split; [done|intros H; inversion H].
  - rewrite andb_true_iff, IHr, IHs. split.
    + intros [? ?]. by apply (lang_seq r s "" "").
    + intros (x & y & E & Hx & Hy)%lang_Seq_inv. symmetry in E.
      by apply sapp_eq_nil in E as [-> ->].
  - rewrite orb_true_iff, IHr, IHs. split; [intros [?|?]; auto|intros H; inversion H; auto].
  - split; auto.
Qed.

(** A word of a repetition that is not empty starts with a non-empty word. *)
Lemma star_cons r c x : lang (Star r) (String c x) ->
  exists y z, x = y +:+ z /\ lang r (String c y) /\ lang (Star r) z.
Proof.
  intros H. remember (Star r) as q eqn:Eq. remember (String c x) as w eqn:Ew.
  induction H as [| | | | | |r' u v Hu _ Hv IH]; try discriminate. injection Eq as ->.
  destruct u as [|a u].
  - apply IH; [done|]. by rewrite sapp_nil_l in Ew.
  - rewrite sapp_cons in Ew. injection Ew as -> <-. eauto.
Qed.

Lemma deriv_spec c r x : lang (deriv c r) x <-> lang r (String c x).
Proof.
  revert x. induction r as [| |p|r IHr s IHs|r IHr s IHs|r IHr]; intros x; simpl.
  - split; intros H; inversion H.
  - split; intros H; inversion H.
  - destruct (p c) eqn:E; split; intros H; inversion H; subst; auto; congruence.
  - assert (S : lang (Seq (deriv c r) s) x <-> exists y z, x = y +:+ z /\ lang r (String c y) /\ lang s z).
    { split.
      - intros (y & z & -> & H1 & H2)%lang_Seq_inv. exists y, z. by rewrite <- IHr.
      - intros (y & z & -> & H1 & H2). constructor; [by apply IHr|done]. }
    assert (Q : lang (Seq r s) (String c x) <->
      (exists y z, x = y +:+ z /\ lang r (String c y) /\ lang s z) \/ (lang r "" /\ lang s (String c x))).
    { split.
      - intros (u & v & E & Hu & Hv)%lang_Seq_inv. destruct u as [|a u].
        + rewrite sapp_nil_l in E. subst. auto.
        + rewrite sapp_cons in E. injection E as <- ->. left. eauto.
      - intros [(y & z & -> & H1 & H2)|[H1 H2]].
        + rewrite <- sapp_cons. by constructor.
        + by apply (lang_seq r s "" (String c x)). }
    rewrite Q. destruct (nullable r) eqn:En.
    + rewrite lang_alt_smart, lang_seq_smart, S, IHs. apply nullable_spec in En. tauto.
    + rewrite lang_seq_smart, S. assert (~ lang r "") by (by rewrite <- nullable_spec, En). tauto.
  - rewrite lang_alt_smart, IHr, IHs. split; [intros [?|?]; auto|intros H; inversion H; auto].
  - rewrite lang_seq_smart. split.
    + intros (u & v & -> & Hu & Hv)%lang_Seq_inv.
      rewrite <- sapp_cons. constructor; [by apply IHr|done].
    + intros (y & z & -> & H1 & H2)%star_cons. constructor; [by apply IHr|done].
Qed.

(** The matcher decides the language. *)
Lemma fullMatch_spec r s : fullMatch r s = true <-> lang r s.
Proof.
  revert r. induction s as [|c s IH]; intros r; simpl; [apply nullable_spec|].
  by rewrite IH, deriv_spec.
Qed.

(** ** Character classes *)

Definition oneOf (l : list ascii) (c : ascii) : bool := existsb (Ascii.eqb c) l.
Definition alnum (c : ascii) : bool := isUpper c || isLower c || isDigit c.
Definition notNewline (c : ascii) : bool := negb (Ascii.eqb c "010").

Lemma lang_Cls_inv p s : lang (Cls p) s -> exists c, s = String c "" /\ p c = true.
Proof. intros H. inversion H; subst. eauto. Qed.

Lemma lang_Times_len p n s : lang (Times n (Cls p)) s -> String.length s = n /\ sforall p s = true.
Proof.
  revert s. induction n as [|n IH]; intros s H; inversion H; subst; [done|].
  match goal with H : lang (Cls _) _ |- _ => apply lang_Cls_inv in H as (c & -> & Hc) end.
  match goal with H : lang (Times _ _) _ |- _ => apply IH in H as [<- Hs] end.
  rewrite sapp_cons, sapp_nil_l. simpl. by rewrite Hc, Hs.
Qed.

Lemma lang_UpTo_len p n s : lang (UpTo n (Cls p)) s -> (String.length s <= n)%nat /\ sforall p s = true.
Proof.
  revert s. induction n as [|n IH]; intros s H; inversion H; subst; simpl; auto with lia.
  - match goal with H : lang Eps _ |- _ => inversion H; subst end. simpl. auto with lia.
  - match goal with H : lang (Seq _ _) _ |- _ => inversion H; subst end.
    match goal with H : lang (Cls _) _ |- _ => apply lang_Cls_inv in H as (c & -> & Hc) end.
    match goal with H : lang (UpTo _ _) _ |- _ => apply IH in H as [Hl Hs] end.
    rewrite sapp_cons, sapp_nil_l. simpl. rewrite Hc, Hs. auto with lia.
Qed.

Lemma lang_Between_len p m n s :
  lang (Between m n (Cls p)) s -> (m <= String.length s <= m + (n - m))%nat /\ sforall p s = true.
Proof.
  intros H. inversion H; subst.
  match goal with H : lang (Times _ _) _ |- _ => apply lang_Times_len in H as [<- Hs] end.
  match goal with H : lang (UpTo _ _) _ |- _ => apply lang_UpTo_len in H as [Hl Hs'] end.
  rewrite slen_app, sforall_app, Hs, Hs'. split; [lia|done].
Qed.

Lemma lang_Plus_all p s : lang (Plus (Cls p)) s -> s <> "" /\ sforall p s = true.
Proof.
  intros H. inversion H; subst.
  match goal with H : lang (Cls _) _ |- _ => apply lang_Cls_inv in H as (c & -> & Hc) end.
  match goal with H : lang (Star _) _ |- _ => rename H into Hs end.
  rewrite sapp_cons, sapp_nil_l. split; [done|]. simpl. rewrite Hc. simpl.
  clear H. remember (Star (Cls p)) as q eqn:Eq. induction Hs as [| | | | | |r x y Hx _ Hy IH]; try discriminate; [done|].
  injection Eq as ->. apply lang_Cls_inv in Hx as (d & -> & Hd). rewrite sapp_cons, sapp_nil_l. simpl.
  rewrite Hd. by apply IH.
Qed.
