(* ===== verification/Net.v ===== *)
(** * Addresses and URLs: the parts of Go's [net], [net/netip] and [net/url]

    IP addresses are 128-bit integers; an IPv4 address is kept, as [net.ParseIP]
    keeps it, in its IPv4-mapped form ::ffff:a.b.c.d.  A network is a masked
    address with its prefix length counted on 128 bits, so that the network
    a.b.c.d/n has prefix length 96 + n. *)

From S2P Require Import Prelude GoStrings.

Open Scope string_scope.
Open Scope Z_scope.

(** ** Cutting strings *)

(** [strings.Cut] on one byte: the parts around its first occurrence. *)
Fixpoint cutByte (c : ascii) (s : string) : option (string * string) :=
  match s with
  | "" => None
  | String a s' =>
      if Ascii.eqb a c then Some ("", s')
      else match cutByte c s' with Some (l, r) => Some (String a l, r) | None => None end
  end.
(** The parts around the last occurrence. *)
Definition cutLast (c : ascii) (s : string) : option (string * string) :=
  match cutByte c (srev s) with Some (r, l) => Some (srev l, srev r) | None => None end.
Definition hasByte (c : ascii) (s : string) : bool :=
  match cutByte c s with Some _ => true | None => false end.

Lemma cutByte_Some c s l r : cutByte c s = Some (l, r) -> s = l +:+ String c r /\ cutByte c l = None.
Proof.
  revert l r. induction s as [|a s IH]; intros l r; simpl; [done|].
  destruct (Ascii.eqb_spec a c) as [->|Hne]; [intros [= <- <-]; done|].
  destruct (cutByte c s) as [[l' r']|]; [|done]. intros [= <- <-].
  destruct (IH l' r' eq_refl) as [-> Hl]. split; [done|]. simpl.
  apply Ascii.eqb_neq in Hne. by rewrite Hne, Hl.
Qed.

(** ** [netip.ParseAddr] *)

(** One decimal octet: no leading zero, at most 255. *)
Definition octet (s : string) : option Z :=
  match s with
  | "" => None
  | String "0" (String _ _) => None
  | _ => match digits s 0 with
         | Some n => if n <=? 255 then Some n else None
         | None => None
         end
  end.
Definition parseIPv4 (s : string) : option Z :=
  match map octet (Split s ".") with
  | [Some a; Some b; Some c; Some d] => Some (((a * 256 + b) * 256 + c) * 256 + d)
  | _ => None
  end.

Definition hexVal (c : ascii) : option Z :=
  if isDigit c then Some (byteZ c - 48)
  else if in_range "a" "f" c then Some (byteZ c - 87)
  else if in_range "A" "F" c then Some (byteZ c - 55)
  else None.
(** The leading hex digits, at most [n] of them: value, digits read, rest. *)
Fixpoint hexGroup (n : nat) (s : string) (acc : Z) (k : nat) : Z * nat * string :=
  match n, s with
  | S n', String c s' =>
      match hexVal c with
      | Some d => hexGroup n' s' (16 * acc + d) (S k)
      | None => (acc, k, s)
      end
  | _, _ => (acc, k, s)
  end.

(** The groups of an IPv6 address and the position of its ellipsis.  Every
    round but the last consumes a group, so eight rounds are all. *)
Fixpoint ipv6Loop (fuel : nat) (s : string) (groups : list Z) (ellipsis : option nat)
  : option (list Z * option nat) :=
  match fuel with
  | O => None
  | S fuel' =>
      let '(acc, k, s1) := hexGroup 5 s 0 0 in
      if (k =? 0)%nat || (4 <? k)%nat then None else
      match s1 with
      | String "." _ =>
          (* a trailing IPv4 address *)
          if (match ellipsis with None => negb (length groups =? 6)%nat | Some _ => (6 <? length groups)%nat end)
          then None
          else match parseIPv4 s with
               | Some a => Some ((groups ++ [a / 65536; a mod 65536])%list, ellipsis)
               | None => None
               end
      | "" => Some ((groups ++ [acc])%list, ellipsis)
      | String ":" "" => None
      | String ":" (String ":" s2) =>
          match ellipsis with
          | Some _ => None
          | None =>
              let groups := (groups ++ [acc])%list in
              match s2 with
              | "" => Some (groups, Some (length groups))
              | _ => if (length groups =? 8)%nat then None
                     else ipv6Loop fuel' s2 groups (Some (length groups))
              end
          end
      | String ":" s2 =>
          let groups := (groups ++ [acc])%list in
          if (length groups =? 8)%nat then None else ipv6Loop fuel' s2 groups ellipsis
      | _ => None
      end
  end.
Definition groupsToZ (l : list Z) : Z := fold_left (fun a g => a * 65536 + g) l 0.
Definition expand (groups : list Z) (ellipsis : option nat) : option Z :=
  match ellipsis with
  | None => if (length groups =? 8)%nat then Some (groupsToZ groups) else None
  | Some e =>
      if (length groups <? 8)%nat
      then Some (groupsToZ (take e groups ++ replicate (8 - length groups) 0 ++ drop e groups)%list)
      else None
  end.
Definition parseIPv6 (s : string) : option Z :=
  match s with
  | String ":" (String ":" "") => Some 0
  | String ":" (String ":" s') =>
      match ipv6Loop 8 s' [] (Some 0%nat) with Some (g, e) => expand g e | None => None end
  | _ => match ipv6Loop 8 s [] None with Some (g, e) => expand g e | None => None end
  end.

Definition v4prefix : Z := 65535 * 2 ^ 32.
(** The first '.' or ':' decides the family; [true] is IPv4. *)
Fixpoint family (s : string) : option bool :=
  match s with
  | "" => None
  | String c s' =>
      if Ascii.eqb c "." then Some true
      else if Ascii.eqb c ":" then Some false
      else if Ascii.eqb c "%" then None
      else family s'
  end.
(** The address and whether it was written in IPv4 form; a zone is refused,
    as [net.ParseIP] and [net.ParseCIDR] refuse it. *)
Definition ParseAddr (s : string) : option (Z * bool) :=
  if hasByte "%" s then None else
  match family s with
  | Some true => match parseIPv4 s with Some a => Some (v4prefix + a, true) | None => None end
  | Some false => match parseIPv6 s with Some a => Some (a, false) | None => None end
  | None => None
  end.

(** ** [net.IP], [net.IPNet] *)

Abbreviation IP := Z (only parsing).
Definition ParseIP (s : string) : option IP := option_map fst (ParseAddr s).
Definition is4 (ip : IP) : bool := ip / 2 ^ 32 =? 65535.

Record IPNet := { netBase : Z; netLen : Z }.
Definition mask (ip plen : Z) : Z := ip / 2 ^ (128 - plen) * 2 ^ (128 - plen).
(** [net.ParseCIDR], the network it returns. *)
Definition ParseCIDR (s : string) : option IPNet :=
  match cutByte "/" s with
  | None => None
  | Some (addr, m) =>
      match ParseAddr addr, m with
      | None, _ | _, "" => None
      | Some (ip, v4), _ =>
          match digits m 0 with
          | None => None
          | Some n =>
              if n <=? (if v4 : bool then 32 else 128)
              then let plen := if v4 then 96 + n else n in
                   Some {| netBase := mask ip plen; netLen := plen |}
              else None
          end
      end
  end.
(** The [Contains] method of [IPNet]: an IPv4 network holds only IPv4 addresses and an IPv6
    network only the others. *)
Definition NetContains (n : IPNet) (ip : IP) : bool :=
  Bool.eqb (is4 (netBase n)) (is4 ip) && (mask ip (netLen n) =? mask (netBase n) (netLen n)).

(** ** [net.SplitHostPort] *)

Definition SplitHostPort (hp : string) : option (string * string) :=
  match cutLast ":" hp with
  | None => None
  | Some (pre, port) =>
      match hp with
      | String "[" rest =>
          match cutByte "]" rest with
          | None => None
          | Some (host, after) =>
              match after with
              | String ":" port' =>
                  if String.eqb port' port && negb (hasByte "[" rest) && negb (hasByte "]" after)
                  then Some (host, port) else None
              | _ => None
              end
          end
      | _ => if hasByte ":" pre || hasByte "[" hp || hasByte "]" hp then None else Some (pre, port)
      end
  end.

(** ** [net/url] queries *)

Fixpoint QueryUnescape (s : string) : option string :=
  match s with
  | "" => Some ""
  | String "%" (String a (String b s')) =>
      match hexVal a, hexVal b, QueryUnescape s' with
      | Some x, Some y, Some r => Some (String (ascii_of_N (Z.to_N (16 * x + y))) r)
      | _, _, _ => None
      end
  | String "%" _ => None
  | String "+" s' => option_map (String " ") (QueryUnescape s')
  | String c s' => option_map (String c) (QueryUnescape s')
  end.
(** [url.ParseQuery]: the pairs in order; [None] when any pair is malformed. *)
Definition queryPair (p : string) : option (list (string * string)) :=
  if hasByte ";" p then None
  else if String.eqb p "" then Some []
  else let '(k, v) := default (p, "") (cutByte "=" p) in
       match QueryUnescape k, QueryUnescape v with
       | Some k, Some v => Some [(k, v)]
       | _, _ => None
       end.
Definition ParseQuery (q : string) : option (list (string * string)) :=
  option_map (@List.concat _) (mapM queryPair (Split q "&")).

(** [url.URL.Query]: the well-formed pairs, by key in order of appearance. *)
Definition values := gmap string (list string).
Definition Add (m : values) (k v : string) : values := <[k := (default [] (m !! k) ++ [v])%list]> m.
Definition Query (q : string) : values :=
  fold_left (fun m kv => Add m kv.1 kv.2)
    (List.concat (map (fun p => default [] (queryPair p)) (Split q "&"))) ∅.

Definition hexDigit (n : Z) : ascii :=
  ascii_of_N (Z.to_N (if n <? 10 then 48 + n else 55 + n)).
Definition unreserved (c : ascii) : bool :=
  isDigit c || isUpper c || isLower c || existsb (Ascii.eqb c) ["-"; "_"; "."; "~"]%char.
Fixpoint QueryEscape (s : string) : string :=
  match s with
  | "" => ""
  | String c s' =>
      if unreserved c then String c (QueryEscape s')
      else if Ascii.eqb c " " then String "+" (QueryEscape s')
      else String "%" (String (hexDigit (byteZ c / 16)) (String (hexDigit (byteZ c mod 16))
             (QueryEscape s')))
  end.
Definition encodePairs (l : list (string * string)) : string :=
  Join (map (fun kv => QueryEscape kv.1 +:+ "=" +:+ QueryEscape kv.2) l) "&".
(** [url.Values.Encode]: by increasing key. *)
Fixpoint insertKey (k : string) (l : list string) : list string :=
  match l with [] => [k] | x :: r => if String.leb k x then k :: l else x :: insertKey k r end.
Definition sortedKeys (m : values) : list string := foldr insertKey [] (map fst (map_to_list m)).
Definition Encode (m : values) : string :=
  encodePairs (List.concat (map (fun k => map (pair k) (default [] (m !! k))) (sortedKeys m))).

(** ** Round trip of query strings *)

Lemma hexVal_hexDigit n : 0 <= n < 16 -> hexVal (hexDigit n) = Some n.
Proof.
  intros H. assert (E : forallb (fun k => bool_decide (hexVal (hexDigit (Z.of_nat k)) = Some (Z.of_nat k))) (List.seq 0 16) = true)
    by (vm_compute; reflexivity).
  rewrite forallb_forall in E. specialize (E (Z.to_nat n) ltac:(apply in_seq; lia)).
  apply bool_decide_eq_true in E. by rewrite Z2Nat.id in E by lia.
Qed.

Lemma byte_nibbles c : 0 <= byteZ c / 16 < 16 /\ 0 <= byteZ c mod 16 < 16.
Proof.
  pose proof (byteZ_range c). split; [|by apply Z.mod_pos_bound].
  split; [apply Z.div_pos|apply Z.div_lt_upper_bound]; lia.
Qed.

(** Reserved bytes are written as a plus sign or as an escape. *)
Lemma unreserved_plain c : unreserved c = true -> c <> "%"%char /\ c <> "+"%char.
Proof. intros H. split; intros ->; vm_compute in H; discriminate. Qed.

Lemma QueryUnescape_plain c s : c <> "%"%char -> c <> "+"%char ->
  QueryUnescape (String c s) = option_map (String c) (QueryUnescape s).
Proof. intros H1 H2. by destruct c as [[] [] [] [] [] [] [] []]. Qed.

Lemma QueryUnescape_Escape s : QueryUnescape (QueryEscape s) = Some s.
Proof.
  induction s as [|c s IH]; [reflexivity|]. cbn [QueryEscape]. destruct (unreserved c) eqn:Eu.
  { apply unreserved_plain in Eu as [H1 H2]. by rewrite QueryUnescape_plain, IH. }
  destruct (Ascii.eqb_spec c " ") as [->|Hne]; [by cbn; rewrite IH|].
  cbn [QueryUnescape]. rewrite !hexVal_hexDigit, IH by apply byte_nibbles.
  do 2 f_equal. rewrite <- Z.div_mod by done. unfold byteZ. by rewrite N2Z.id, ascii_N_embedding.
Qed.

(** What separates pairs does not occur in an escaped text. *)
Lemma QueryEscape_plain s c : In c ["&"; "="; ";"]%char -> ~ sIn c (QueryEscape s).
Proof.
  intros Hc. induction s as [|a s IH]; [intros []|]. cbn [QueryEscape].
  assert (Hh : forall n, 0 <= n < 16 -> hexDigit n <> c).
  { intros n Hn E. pose proof (hexVal_hexDigit n Hn) as E2. rewrite E in E2.
    by destruct Hc as [<-|[<-|[<-|[]]]]. }
  destruct (unreserved a) eqn:Eu; [|destruct (Ascii.eqb_spec a " ")]; simpl; intros H.
  - destruct H as [<-|H]; [|done]. by destruct Hc as [<-|[<-|[<-|[]]]].
  - destruct H as [<-|H]; [|done]. by destruct Hc as [[=]|[[=]|[[=]|[]]]].
  - destruct H as [<-|[H|[H|H]]]; [|by apply Hh in H; [|apply byte_nibbles]|by apply Hh in H; [|apply byte_nibbles]|done].
    by destruct Hc as [[=]|[[=]|[[=]|[]]]].
Qed.

Lemma hasByte_notIn c s : ~ sIn c s -> cutByte c s = None.
Proof.
  induction s as [|a s IH]; simpl; [done|]. intros H. destruct (Ascii.eqb_spec a c); [tauto|].
  rewrite IH; tauto.
Qed.
Lemma cutByte_app c a b : ~ sIn c a -> cutByte c (a +:+ String c b) = Some (a, b).
Proof.
  induction a as [|x a IH]; simpl; intros H; [by rewrite Ascii.eqb_refl|].
  destruct (Ascii.eqb_spec x c); [tauto|]. rewrite IH; tauto.
Qed.

Lemma queryPair_escaped k v : queryPair (QueryEscape k +:+ "=" +:+ QueryEscape v) = Some [(k, v)].
Proof.
  unfold queryPair. assert (Hk : forall c, In c ["&"; "="; ";"]%char -> ~ sIn c (QueryEscape k)) by (intros; by apply QueryEscape_plain).
  assert (Hs : ~ sIn ";" (QueryEscape k +:+ "=" +:+ QueryEscape v)).
  { rewrite sIn_app. intros [H|[[=]|H]]; by apply QueryEscape_plain in H; [|simpl; tauto]. }
  unfold hasByte. rewrite (hasByte_notIn _ _ Hs).
  destruct (String.eqb_spec (QueryEscape k +:+ "=" +:+ QueryEscape v) "") as [E|_]; [by destruct (QueryEscape k)|].
  change ("=" +:+ ?x) with (String "=" x). rewrite cutByte_app by (apply Hk; simpl; tauto). cbn [default from_option]. unfold id. by rewrite !QueryUnescape_Escape.
Qed.

(** [Encode] and [ParseQuery] are inverse. *)
Lemma ParseQuery_encodePairs l : l <> [] -> ParseQuery (encodePairs l) = Some l.
Proof.
  intros Hl. unfold ParseQuery, encodePairs.
  assert (H : mapM queryPair (Split (Join (map (fun kv => QueryEscape kv.1 +:+ "=" +:+ QueryEscape kv.2) l) "&") "&") =
    Some (map (fun kv => [kv]) l)).
  { induction l as [|[k v] l IH]; [done|].
    assert (Hp : ~ sIn "&" (QueryEscape k +:+ "=" +:+ QueryEscape v)).
    { rewrite sIn_app. intros [H|[[=]|H]]; by apply QueryEscape_plain in H; [|simpl; tauto]. }
    destruct l as [|p l].
    - cbn [map Join fst snd]. rewrite Split_plain by done. cbn [mapM]. by rewrite queryPair_escaped.
    - cbn [map] in *. rewrite Join_cons by done. change ("&" +:+ ?x) with (String "&" x).
      rewrite Split_app, Split_plain by done. cbn [app mapM fst snd]. rewrite queryPair_escaped. cbn [mbind option_bind].
      by rewrite IH. }
  rewrite H. cbn [option_map]. f_equal. clear. induction l as [|x l IH]; [done|]. simpl. by rewrite IH.
Qed.

(** ** Sanity of the address model *)

Example ParseIP_v4 : ParseIP "192.168.0.1" = Some (v4prefix + 3232235521).
Proof. reflexivity. Qed.
Example ParseIP_leading_zero : ParseIP "192.168.00.1" = None.
Proof. reflexivity. Qed.
Example ParseIP_v6 : ParseIP "2001:db8::1" = Some (0x20010db8000000000000000000000001).
Proof. reflexivity. Qed.
Example ParseIP_mapped : ParseIP "::ffff:10.0.0.1" = ParseIP "10.0.0.1".
Proof. reflexivity. Qed.
Example ParseIP_bad : map ParseIP ["::1::"; "1:2:3:4:5:6:7:8:9"; "12345::"; "fe80::1%eth0"; "1:2:3:4:5:6:7:8::"] =
  [None; None; None; None; None].
Proof. reflexivity. Qed.
Example SplitHostPort_demo : map SplitHostPort ["10.0.0.1:80"; "[::1]:80"; "::1"; "host"; "[::1]"] =
  [Some ("10.0.0.1", "80"); Some ("::1", "80"); None; None; None].
Proof. reflexivity. Qed.

(** A masked address is in the network it spans; two addresses in one network
    share its prefix. *)
Lemma mask_mask ip n : n <= 128 -> mask (mask ip n) n = mask ip n.
Proof.
  intros Hn. unfold mask.
  rewrite Z.div_mul by (apply Z.pow_nonzero; lia). done.
Qed.

Lemma octet_range s n : octet s = Some n -> 0 <= n <= 255.
Proof.
  assert (D : forall s acc m, 0 <= acc -> digits s acc = Some m -> 0 <= m).
  { clear. induction s as [|c s IH]; intros acc m Ha; simpl; [intros [= <-]; done|].
    unfold isDigit, in_range, byteZ. destruct (_ && _) eqn:E; [|done]. bool_to_prop.
    intros H'. eapply IH; [|exact H']. change (Z.of_N (N_of_ascii "0")) with 48 in *. lia. }
  unfold octet. destruct s as [|c s]; [done|]. intros H.
  assert (H' : exists m, digits (String c s) 0 = Some m /\ (if m <=? 255 then Some m else None) = Some n).
  { remember (digits (String c s) 0) as d. destruct d as [m|]; [exists m; split; [done|]|];
      repeat case_match; congruence. }
  destruct H' as (m & Hm & Hif). apply D in Hm; [|lia].
  destruct (Z.leb_spec m 255); simplify_eq; lia.
Qed.

Lemma parseIPv4_range s a : parseIPv4 s = Some a -> 0 <= a < 2 ^ 32.
Proof.
  unfold parseIPv4. intros H. repeat case_match; simplify_eq.
  assert (Hall : forall x, In (Some x) (map octet (Split s ".")) -> 0 <= x <= 255).
  { intros x (y & Hy & _)%in_map_iff. by apply octet_range in Hy. }
  rewrite H0 in Hall. simpl in Hall.

  pose proof (Hall _ (or_introl eq_refl)). pose proof (Hall _ (or_intror (or_introl eq_refl))).
  pose proof (Hall _ (or_intror (or_intror (or_introl eq_refl)))).
  pose proof (Hall _ (or_intror (or_intror (or_intror (or_introl eq_refl))))). lia.
Qed.
