(* ===== verification/Requests.v ===== *)
(** * Reading and building requests (src/api/request)

    Version and route extraction, query parameters, the client key behind
    trusted proxies (parser.go), the request-id and client-source middlewares
    (middleware.go), request building (builder.go).  [net/http]'s construction
    of a request from a parsed URL is [newRequestWithContext]. *)

From S2P Require Import Prelude GoStrings Http Net.

Open Scope string_scope.
Open Scope Z_scope.

(** ** Versions and routes *)

Definition firstMediaParam (p : string) : option string :=
  let param := TrimSpace p in
  match CutPrefix param "v=" with
  | Some v => Some ("/v" +:+ TrimSpace v)
  | None => match CutPrefix param "version=" with
            | Some v => Some ("/v" +:+ TrimSpace v)
            | None => None
            end
  end.
Fixpoint firstSome {A B} (f : A -> option B) (l : list A) : option B :=
  match l with
  | [] => None
  | x :: l' => match f x with Some y => Some y | None => firstSome f l' end
  end.
Definition extractVersionFromMediaType (mediaType : string) : string :=
  default "" (firstSome firstMediaParam (tail (Split mediaType ";"))).

Definition startsWithV (seg : string) : bool :=
  match seg with String "v" _ => true | _ => false end.

(** [None] is the nil request. *)
Definition GetAPIVersion (req : option Request) : string :=
  match req with
  | None => ""
  | Some req =>
      let v := extractVersionFromMediaType (hget (Header req) "Accept") in
      if negb (String.eqb (hget (Header req) "Accept") "") && negb (String.eqb v "") then v else
      let v := extractVersionFromMediaType (hget (Header req) "Content-Type") in
      if negb (String.eqb (hget (Header req) "Content-Type") "") && negb (String.eqb v "") then v else
      match ReqURL req with
      | None => ""
      | Some u =>
          match Split (TrimPrefix (Path u) "/") "/" with
          | seg :: _ => if startsWithV seg then "/" +:+ seg else ""
          | [] => ""
          end
      end
  end.

Definition GetAPIRoute (req : option Request) : string :=
  match req with
  | None => ""
  | Some req =>
      match ReqURL req with
      | None => ""
      | Some u =>
          let base := match Index (Path u) "?" with Some i => stake i (Path u) | None => Path u end in
          let segments := Split (TrimPrefix base "/") "/" in
          let pathSegments :=
            match segments with
            | seg :: rest => if startsWithV seg then rest else segments
            | [] => segments
            end in
          let route := "/" +:+ Join pathSegments "/" in
          if String.eqb route "//" then "/" else route
      end
  end.

Definition GetPathParams (req : option Request) : gmap string string := ∅.

(** Later pairs of a key do not replace its first value. *)
Definition GetQueryParams (req : option Request) : gmap string string :=
  match req with
  | None => ∅
  | Some req =>
      match ReqURL req with
      | None => ∅
      | Some u => match ParseQuery (RawQuery u) with
                  | Some kvs => list_to_map kvs
                  | None => ∅
                  end
      end
  end.

Definition IsValidAPIKey (apiKey : string) : bool := false.
Definition GetClientType (req : Request) : string :=
  let apiKey := hget (Header req) "X-API-Key" in
  if negb (String.eqb apiKey "") && IsValidAPIKey apiKey then "api" else "browser".

(** ** The client key *)

(** [proxyDepthLoadOnce] and [trustedProxyDepth]. *)
Record proxyState := { depthLoaded : bool; depth : Z }.
Definition SetTrustedProxyDepth (n : Z) (s : proxyState) : proxyState :=
  {| depthLoaded := true; depth := wrap32 (if n <? 0 then 0 else n) |}.
(** [env] is the value of TRUSTED_PROXY_DEPTH, "" when unset. *)
Definition clientTrustDepth (env : string) (s : proxyState) : proxyState :=
  if depthLoaded s then s else
  {| depthLoaded := true;
     depth := let v := TrimSpace env in
              if String.eqb v "" then depth s else
              match Atoi v with
              | Some n => if 0 <? n then wrap32 n else depth s
              | None => depth s
              end |}.

Definition peerHost (req : Request) : string :=
  match SplitHostPort (RemoteAddr req) with
  | Some (host, _) => if String.eqb host "" then RemoteAddr req else host
  | None => RemoteAddr req
  end.
Definition GetClientKey (depth : Z) (req : Request) : string :=
  let fallback := peerHost req in
  if 0 <? depth then
    let xf := hget (Header req) "X-Forwarded-For" in
    if String.eqb xf "" then fallback else
    let parts := Split xf "," in
    let idx := Z.of_nat (length parts) - depth in
    if (0 <=? idx) && (idx <? Z.of_nat (length parts)) then
      let ip := TrimSpace (nth (Z.to_nat idx) parts "") in
      if String.eqb ip "" then fallback else ip
    else fallback
  else fallback.

(** ** Middlewares *)

(** [GenerateRequestId]: the hex form of 12 random bytes, or the time when the
    random source fails. *)
Definition hexByte (b : Z) : string :=
  let d n := ascii_of_N (Z.to_N (if n <? 10 then 48 + n else 87 + n)) in
  String (d (b / 16)) (String (d (b mod 16)) "").
Definition GenerateRequestId (rand : option (list Z)) (t : Z) : string :=
  match rand with
  | Some bs => fold_right (fun b s => hexByte b +:+ s) "" bs
  | None => Itoa t
  end.

(** A world with a source of request ids. *)
Class Fresh (W : Type) := freshID : W -> string * W.

Definition RequestIDMiddleware {W} `{Fresh W} : middleware W := fun next req wtr w =>
  let rid := hget (Header req) "X-Request-ID" in
  let '(reqID, w) :=
    if negb (String.eqb rid "") then (rid, w)
    else let rid := stringValue (Ctx req) REQUEST_ID_KEY in
         if negb (String.eqb rid "") then (rid, w) else freshID w in
  let req := withHeader req (hset (Header req) "X-Request-ID" reqID) in
  let wtr := setHeader wtr "X-Request-ID" reqID in
  let ctx := WithRequestID (Ctx req) reqID in
  let cid := hget (Header req) "X-Correlation-ID" in
  if negb (String.eqb cid "")
  then next (WithContext req (WithCorrelationID ctx cid)) (setHeader wtr "X-Correlation-ID" cid) w
  else next (WithContext req ctx) wtr w.

Definition ClientTypeAPI : string := "api".
Definition ClientTypeBrowser : string := "browser".
Definition clientTypeOf (req : Request) : string :=
  let has h := negb (String.eqb (hget (Header req) h) "") in
  if has "Authorization" && negb (has "Referer") && negb (has "Cookie")
  then ClientTypeAPI else ClientTypeBrowser.
Definition ClientSourceMiddleware {W} : middleware W := fun next req wtr w =>
  next (WithContext req (WithClientType (Ctx req) (clientTypeOf req))) wtr w.

(** ** Building requests *)

(** The reader handed to [http.NewRequestWithContext]: no reader, a
    [*strings.Reader], a nil [*strings.Reader] in a non-nil interface, or the
    body of another request. *)
Inductive bodyReader : Type := NoReader | NilReader | Reader (s : string) | Stream (b : Body).

(** What building a request can do. *)
Inductive built : Type :=
  | Built (r : Request)
  | BuildErr (e : error)
  | BuildPanic.

Section Build.
(** [url.Parse]. *)
Context (parseURL : string -> result URL).

(** [http.NewRequestWithContext] for a valid method: it asks a
    [*strings.Reader] for its length, which a nil one answers by a nil
    dereference. *)
Definition newRequestWithContext (ctx : context) (method url : string) (b : bodyReader) : built :=
  match parseURL url with
  | Err e => BuildErr e
  | Ok u =>
      let req b n := Built {| Method := method; ReqURL := Some u; Header := ∅; RemoteAddr := "";
                              ContentLength := n; ReqBody := b;
                              RequestURI := ""; ReqPattern := ""; PathValues := ∅; Ctx := ctx |} in
      match b with
      | NilReader => BuildPanic
      | NoReader => req None 0
      | Reader s => req (Some {| BodyBytes := s; BodyErr := None |}) (len s)
      | Stream b => req (Some b) 0
      end
  end.

(** [body]: a string, or another value with its JSON encoding. *)
Definition NewRequest (method url : string) (body : string + result string)
    (hdrs : list (string * string)) (ctx : option context) : built :=
  if String.eqb url "" then BuildErr (Errorf "url is required") else
  let method := ToUpper method in
  let go b :=
    match newRequestWithContext (default [] ctx) method url b with
    | Built r => Built (withHeader r (fold_left (fun h kv => hset h kv.1 kv.2) hdrs (Header r)))
    | r => r
    end in
  if existsb (String.eqb method) ["POST"; "PUT"; "PATCH"] then
    match body with
    | inl s => go (Reader s)
    | inr (Ok s) => go (Reader s)
    | inr (Err e) => BuildErr (Errorf "error marshaling body")
    end
  else if existsb (String.eqb method) ["GET"; "DELETE"; "HEAD"; "OPTIONS"; "TRACE"; "CONNECT"]
  then go NilReader
  else BuildErr (Errorf ("invalid method: " +:+ method)).

(** [FromRequest]: method, URL, body and context are carried over, headers and
    content length are not.  [urlString] is [URL.String]. *)
Definition FromRequest (urlString : URL -> string) (req : option Request) : built :=
  match req with
  | None => BuildErr (Errorf "request is required")
  | Some r =>
      match ReqURL r with
      | None => BuildPanic
      | Some u => newRequestWithContext (Ctx r) (Method r) (urlString u)
                    (match ReqBody r with Some b => Stream b | None => NoReader end)
      end
  end.
End Build.

(** ** Properties *)

Lemma nth_app_at {A} (a b : list A) d : nth (length a) (a ++ b)%list d = nth 0 b d.
Proof. rewrite app_nth2 by lia. by rewrite Nat.sub_diag. Qed.

(** (C28) A client cannot choose its key.  When the proxies in front appended
    exactly [depth] entries to X-Forwarded-For and the first of them is not
    blank, the key is that entry, whatever the client sent before it. *)
Theorem GetClientKey_ignores_prefix (req : Request) (spoof h : string) (d : Z)
    (Hd : d = Z.of_nat (length (Split h ",")))
    (Hxf : hget (Header req) "X-Forwarded-For" = spoof +:+ "," +:+ h)
    (Hne : TrimSpace (nth 0 (Split h ",") "") <> "") :
  GetClientKey d req = TrimSpace (nth 0 (Split h ",") "").
Proof.
  pose proof (Split_nonempty h ",") as Hn. destruct (Split h ",") as [|x l] eqn:E; [done|].
  unfold GetClientKey. rewrite Hxf. change ("," +:+ h) with (String "," h).
  rewrite Split_app, E, length_app.
  destruct (Z.ltb_spec 0 d); [|simpl in Hd; lia].
  assert (Hs : String.eqb (spoof +:+ String "," h) "" = false).
  { apply String.eqb_neq. by destruct spoof. }
  rewrite Hs. replace (Z.of_nat (length (Split spoof ",") + length (x :: l)) - d)
    with (Z.of_nat (length (Split spoof ","))) by lia.
  rewrite (proj2 (Z.leb_le _ _)), (proj2 (Z.ltb_lt _ _)) by (simpl; lia).
  simpl. rewrite Nat2Z.id, nth_app_at. apply String.eqb_neq in Hne. simpl in *. by rewrite Hne.
Qed.

(** The header is read from its first line only: a client that sends its
    own X-Forwarded-For line before the proxy's line chooses its key. *)
Theorem GetClientKey_first_line_only (req : Request) (spoof : string) (others : list string)
    (Hh : Header req !! "X-Forwarded-For" = Some (spoof :: others))
    (Hs : spoof <> "" /\ ~ sIn "," spoof) (Hne : TrimSpace spoof <> "") :
  GetClientKey 1 req = TrimSpace spoof.
Proof.
  destruct Hs as [Hs Hc]. unfold GetClientKey, hget.
  change (CanonicalKey "X-Forwarded-For") with "X-Forwarded-For". rewrite Hh. cbn [Z.ltb Z.compare].
  assert (E : Split spoof "," = [spoof]).
  { clear - Hc. induction spoof as [|a s IH]; [done|]. simpl in Hc.
    destruct (Split_cons_ne a s "," ltac:(tauto)) as (h & t & E1 & E2).
    rewrite IH in E1 by tauto. by simplify_eq. }
  rewrite E. apply String.eqb_neq in Hs, Hne. rewrite Hs. simpl. by rewrite Hne.
Qed.

(** For the methods without a body [NewRequest] never returns a request:
    whenever the URL parses it panics. *)
Theorem NewRequest_bodyless_panics (parseURL : string -> result URL) (method url : string)
    (body : string + result string) (hdrs : list (string * string)) (ctx : option context) (u : URL)
    (Hm : In (ToUpper method) ["GET"; "DELETE"; "HEAD"; "OPTIONS"; "TRACE"; "CONNECT"])
    (Hu : url <> "") (Hp : parseURL url = Ok u) :
  NewRequest parseURL method url body hdrs ctx = BuildPanic.
Proof.
  unfold NewRequest. apply String.eqb_neq in Hu. rewrite Hu.
  unfold newRequestWithContext. rewrite Hp.
  destruct Hm as [<-|[<-|[<-|[<-|[<-|[<-|[]]]]]]]; reflexivity.
Qed.

(** The version segment's view of a path: what precedes and follows it. *)
Lemma Split_seg seg rest : ~ sIn "/" seg -> Split (seg +:+ "/" +:+ rest) "/" = seg :: Split rest "/".
Proof.
  intros Hs. change ("/" +:+ rest) with (String "/" rest). rewrite Split_app.
  assert (E : Split seg "/" = [seg]); [|by rewrite E].
  induction seg as [|a s IH]; [done|]. simpl in Hs.
  destruct (Split_cons_ne a s "/" ltac:(tauto)) as (h & t & E1 & E2).
  rewrite IH in E1 by tauto. by simplify_eq.
Qed.

(** Without a version in the media types, a first path segment that begins
    with 'v' is taken for the version, and version and route together are the
    whole path; any word does, so /vehicles/1 has version /vehicles. *)
Theorem version_and_route_split_path (req : Request) (seg rest q : string)
    (Ha : hget (Header req) "Accept" = "") (Hc : hget (Header req) "Content-Type" = "")
    (Hu : ReqURL req = Some {| Path := "/v" +:+ seg +:+ "/" +:+ rest; RawQuery := q |})
    (Hseg : ~ sIn "/" seg) (Hq : Index ("/v" +:+ seg +:+ "/" +:+ rest) "?" = None)
    (Hrest : rest <> "/") :
  GetAPIVersion (Some req) = "/v" +:+ seg /\
  GetAPIRoute (Some req) = "/" +:+ rest /\
  GetAPIVersion (Some req) +:+ GetAPIRoute (Some req) = "/v" +:+ seg +:+ "/" +:+ rest.
Proof.
  assert (HT : TrimPrefix ("/v" +:+ seg +:+ "/" +:+ rest) "/" = String "v" seg +:+ "/" +:+ rest).
  { unfold TrimPrefix.
    assert (E : CutPrefix ("/v" +:+ seg +:+ "/" +:+ rest) "/" = Some (String "v" seg +:+ "/" +:+ rest))
      by by apply CutPrefix_Some.
    by rewrite E. }
  assert (HS : Split (String "v" seg +:+ "/" +:+ rest) "/" = String "v" seg :: Split rest "/").
  { apply Split_seg. simpl. intros [?|?]; [done|auto]. }
  assert (HV : GetAPIVersion (Some req) = "/v" +:+ seg).
  { unfold GetAPIVersion. rewrite Ha, Hc, Hu. cbn [Path String.eqb negb andb].
    by rewrite HT, HS. }
  assert (HR : GetAPIRoute (Some req) = "/" +:+ rest).
  { unfold GetAPIRoute. rewrite Hu. cbn [Path]. rewrite Hq, HT, HS. cbn [startsWithV].
    rewrite (Join_Split rest "/"). destruct (String.eqb_spec ("/" +:+ rest) "//") as [E|]; [|done].
    exfalso. apply Hrest. destruct rest; [done|]. rewrite sapp_cons in E. by injection E as -> ->. }
  rewrite HV, HR. by rewrite sapp_assoc.
Qed.

(** The handler behind [RequestIDMiddleware] sees one id: the one the client
    sent, else the one already in the context, else a fresh one; it is in the
    context, in the request header and in the response header alike. *)
Theorem RequestIDMiddleware_one_id {W} `{Fresh W} (req : Request) (wtr : Writer) (w : W) :
  let sent := hget (Header req) "X-Request-ID" in
  let ctxID := stringValue (Ctx req) REQUEST_ID_KEY in
  let id := if negb (String.eqb sent "") then sent
            else if negb (String.eqb ctxID "") then ctxID else (freshID w).1 in
  exists req' wtr' w',
    (forall next, RequestIDMiddleware next req wtr w = next req' wtr' w') /\
    ctxGetRequestID (Ctx req') = id /\ hget (Header req') "X-Request-ID" = id /\
    hget (WHeader wtr') "X-Request-ID" = id /\ ReqBody req' = ReqBody req.
Proof.
  cbv zeta. unfold RequestIDMiddleware.
  set (p := if negb (String.eqb (hget (Header req) "X-Request-ID") "") then _ else _).
  assert (Hp : p.1 = (if negb (String.eqb (hget (Header req) "X-Request-ID") "")
    then hget (Header req) "X-Request-ID"
    else if negb (String.eqb (stringValue (Ctx req) REQUEST_ID_KEY) "")
         then stringValue (Ctx req) REQUEST_ID_KEY else (freshID w).1)).
  { subst p. by repeat case_match. }
  rewrite <- Hp. destruct p as [id w']. clear Hp. simpl fst.
  destruct (negb _).
  - do 3 eexists. split; [reflexivity|]. split_and!; try done;
      unfold setHeader; simpl; rewrite ?hget_hset_ne by done; apply hget_hset_eq.
  - do 3 eexists. split; [reflexivity|]. split_and!; try done; apply hget_hset_eq.
Qed.

(** ** Witnesses *)

Definition with_xff (lines : list string) : Request :=
  withHeader demo_req {["X-Forwarded-For" := lines]}.

Lemma GetClientKey_ignores_prefix_witness :
  GetClientKey 2 (with_xff ["6.6.6.6,1.2.3.4, 10.0.0.9"]) = "1.2.3.4".
Proof.
  exact (GetClientKey_ignores_prefix (with_xff ["6.6.6.6,1.2.3.4, 10.0.0.9"]) "6.6.6.6"
    "1.2.3.4, 10.0.0.9" 2 eq_refl eq_refl ltac:(discriminate)).
Defined.

Lemma GetClientKey_first_line_only_witness :
  GetClientKey 1 (with_xff ["6.6.6.6"; "1.2.3.4"]) = "6.6.6.6".
Proof.
  exact (GetClientKey_first_line_only (with_xff ["6.6.6.6"; "1.2.3.4"]) "6.6.6.6" ["1.2.3.4"] eq_refl
    ltac:(split; [discriminate|vm_compute; intuition discriminate]) ltac:(discriminate)).
Defined.

Lemma NewRequest_bodyless_panics_witness :
  NewRequest (fun s => Ok {| Path := s; RawQuery := "" |}) "get" "http://a/" (inl "") [] None = BuildPanic.
Proof.
  exact (NewRequest_bodyless_panics (fun s => Ok {| Path := s; RawQuery := "" |}) "get" "http://a/"
    (inl "") [] None {| Path := "http://a/"; RawQuery := "" |} (or_introl eq_refl)
    ltac:(discriminate) eq_refl).
Defined.

Lemma version_and_route_split_path_witness :
  GetAPIRoute (Some (withURL demo_req (Some {| Path := "/vehicles/1"; RawQuery := "" |}))) = "/1".
Proof.
  exact (proj1 (proj2 (version_and_route_split_path
    (withURL demo_req (Some {| Path := "/vehicles/1"; RawQuery := "" |})) "ehicles" "1" ""
    eq_refl eq_refl eq_refl ltac:(vm_compute; intuition discriminate) eq_refl
    ltac:(discriminate)))).
Defined.
