(* ===== verification/IPAccess.v ===== *)
(** * IP access control (src/api/ipaccess)

    Parsing allow and deny lists, evaluating an address against them, and the
    middleware that answers 403.  Log lines are left out. *)

From S2P Require Import Prelude GoStrings Http Net Requests.

Open Scope string_scope.
Open Scope Z_scope.

Record Lists := {
  WhitelistIPs : list IP;
  WhitelistNets : list IPNet;
  BlacklistIPs : list IP;
  BlacklistNets : list IPNet;
}.

Definition ipInList (ip : IP) (ips : list IP) (nets : list IPNet) : bool :=
  existsb (fun a => a =? ip) ips || existsb (fun n => NetContains n ip) nets.

(** [None] is the nil list. *)
Definition Evaluate (ip : IP) (lists : option Lists) : bool :=
  match lists with
  | None => true
  | Some l =>
      match WhitelistIPs l, WhitelistNets l with
      | [], [] => negb (ipInList ip (BlacklistIPs l) (BlacklistNets l))
      | ips, nets => ipInList ip ips nets
      end
  end.

(** One round of the loop over the entries. *)
Definition parseEntry (acc : list IP * list IPNet * list string) (p : string)
  : list IP * list IPNet * list string :=
  let '(ips, nets, invalid) := acc in
  let p := TrimSpace p in
  if String.eqb p "" then acc else
  match (if Contains p "/" then ParseCIDR p else None) with
  | Some network => (ips, (nets ++ [network])%list, invalid)
  | None =>
      match ParseIP p with
      | Some ip => ((ips ++ [ip])%list, nets, invalid)
      | None => (ips, nets, (invalid ++ [p])%list)
      end
  end.
Definition ParseListStrict (raw : string) : list IP * list IPNet * option error :=
  let '(ips, nets, invalid) := fold_left parseEntry (Split raw ",") ([], [], []) in
  (ips, nets,
   match invalid with
   | [] => None
   | _ => Some (Errorf ("ignored " +:+ Itoa (Z.of_nat (length invalid)) +:+ " invalid entries: " +:+
                        Join invalid ", "))
   end).
Definition ParseList (raw : string) : list IP * list IPNet := (ParseListStrict raw).1.
Definition ParseLists (whitelistRaw blacklistRaw : string) : Lists :=
  let '(wlIPs, wlNets, _) := ParseListStrict whitelistRaw in
  let '(blIPs, blNets, _) := ParseListStrict blacklistRaw in
  {| WhitelistIPs := wlIPs; WhitelistNets := wlNets; BlacklistIPs := blIPs; BlacklistNets := blNets |}.

(** The package's lists, parsed once from IP_WHITELIST and IP_BLACKLIST. *)
Definition loadLists (whitelistEnv blacklistEnv : string) : Lists :=
  let '(wlIPs, wlNets) := ParseList whitelistEnv in
  let '(blIPs, blNets) := ParseList blacklistEnv in
  {| WhitelistIPs := wlIPs; WhitelistNets := wlNets; BlacklistIPs := blIPs; BlacklistNets := blNets |}.

(** The address of the client key, with or without a port. *)
Definition clientIP (client : string) : option IP :=
  match ParseIP client with
  | Some ip => Some ip
  | None => match SplitHostPort client with Some (host, _) => ParseIP host | None => None end
  end.

(** [depth] is the trusted-proxy depth in force. *)
Definition IPAccessMiddleware {W} `{Clock W} (lists : Lists) (depth : Z) : middleware W :=
  fun next req wtr w =>
    let client := GetClientKey depth req in
    if String.eqb client ""
    then reject (Forbidden Global) [WithDetail "unable to determine client IP"] req wtr w
    else match clientIP client with
         | None => reject (Forbidden Global) [WithDetail "invalid client IP"] req wtr w
         | Some ip =>
             if Evaluate ip (Some lists) then next req wtr w
             else reject (Forbidden Global) [WithDetail "access denied for client IP"] req wtr w
         end.

(** ** Properties *)

(** What an entry of a list denotes. *)
Definition entryDenotes (p : string) (ip : IP) : Prop :=
  let p := TrimSpace p in
  p <> "" /\
  match (if Contains p "/" then ParseCIDR p else None) with
  | Some n => NetContains n ip = true
  | None => ParseIP p = Some ip
  end.
Definition entryInvalid (p : string) : Prop :=
  let p := TrimSpace p in
  p <> "" /\ (if Contains p "/" then ParseCIDR p else None) = None /\ ParseIP p = None.

Lemma ipInList_app ip i1 i2 n1 n2 :
  ipInList ip (i1 ++ i2) (n1 ++ n2) = ipInList ip i1 n1 || ipInList ip i2 n2.
Proof.
  unfold ipInList. rewrite !existsb_app.
  destruct (existsb _ i1), (existsb _ i2), (existsb _ n1), (existsb _ n2); done.
Qed.

(** The three outcomes of one entry. *)
Lemma parseEntry_cases ips nets inv p :
  let r := parseEntry (ips, nets, inv) p in
  (TrimSpace p = "" /\ r = (ips, nets, inv)) \/
  (TrimSpace p <> "" /\ exists n, r = (ips, (nets ++ [n])%list, inv) /\
     forall ip, entryDenotes p ip <-> NetContains n ip = true) \/
  (TrimSpace p <> "" /\ exists a, r = ((ips ++ [a])%list, nets, inv) /\
     forall ip, entryDenotes p ip <-> a = ip) \/
  (entryInvalid p /\ r = (ips, nets, (inv ++ [TrimSpace p])%list)).
Proof.
  unfold parseEntry, entryDenotes, entryInvalid. cbv zeta.
  destruct (String.eqb_spec (TrimSpace p) "") as [E|E]; [by left|]. right.
  destruct (if Contains (TrimSpace p) "/" then _ else _) as [n|].
  { left. split; [done|]. exists n. split; [done|]. tauto. }
  right. destruct (ParseIP (TrimSpace p)) as [a|].
  - left. split; [done|]. exists a. split; [done|]. intros ip. split; [intros [_ [=]]; done|]. by intros ->.
  - right. auto.
Qed.

Lemma denotes_valid p ip : entryDenotes p ip -> TrimSpace p <> "" /\ ~ entryInvalid p.
Proof.
  intros [Hp Hd]. split; [done|]. intros (_ & H1 & H2). cbv zeta in Hd. rewrite H1 in Hd. congruence.
Qed.

Lemma parseEntry_step acc p :
  let '(ips, nets, inv) := acc in
  let '(ips', nets', inv') := parseEntry acc p in
  (forall ip, ipInList ip ips' nets' = true <-> ipInList ip ips nets = true \/ entryDenotes p ip) /\
  (forall x, In x inv' <-> In x inv \/ (entryInvalid p /\ x = TrimSpace p)) /\
  (ips' = [] /\ nets' = [] <-> ips = [] /\ nets = [] /\ (TrimSpace p = "" \/ entryInvalid p)).
Proof.
  destruct acc as [[ips nets] inv].
  assert (Hi : entryInvalid p -> TrimSpace p <> "") by by intros [].
  destruct (parseEntry_cases ips nets inv p) as
    [[E ->]|[(E & n & -> & Hd)|[(E & a & -> & Hd)|[E ->]]]].
  - split_and!; [|tauto|tauto]. intros ip. split; [auto|]. intros [?|Hd%denotes_valid]; [done|tauto].
  - assert (Hni : ~ entryInvalid p).
    { intros (_ & H1 & H2). assert (Hc : entryDenotes p (netBase n)).
      { apply Hd. unfold NetContains. by rewrite Bool.eqb_reflx, Z.eqb_refl. }
      apply denotes_valid in Hc as [_ Hc]. by apply Hc. }
    split_and!; [|tauto|].
    + intros ip. rewrite <- (app_nil_r ips) at 1. rewrite ipInList_app, orb_true_iff, Hd.
      unfold ipInList at 2. simpl. by rewrite orb_false_r.
    + split; [intros [_ [_ [=]]%app_eq_nil]|tauto].
  - assert (Hni : ~ entryInvalid p).
    { intros Hc. by apply (denotes_valid p a) in Hc; [|apply Hd]. }
    split_and!; [|tauto|].
    + intros ip. rewrite <- (app_nil_r nets) at 1. rewrite ipInList_app, orb_true_iff, Hd.
      unfold ipInList at 2. simpl. by rewrite !orb_false_r, Z.eqb_eq.
    + split; [intros [[_ [=]]%app_eq_nil _]|tauto].
  - split_and!; [| |tauto].
    + intros ip. split; [auto|]. intros [?|Hd%denotes_valid]; [done|tauto].
    + intros x. rewrite in_app_iff. simpl. naive_solver.
Qed.

Lemma parse_fold l acc :
  let '(ips, nets, inv) := acc in
  let '(ips', nets', inv') := fold_left parseEntry l acc in
  (forall ip, ipInList ip ips' nets' = true <->
     ipInList ip ips nets = true \/ exists p, In p l /\ entryDenotes p ip) /\
  (forall x, In x inv' <-> In x inv \/ exists p, In p l /\ entryInvalid p /\ x = TrimSpace p) /\
  (ips' = [] /\ nets' = [] <->
     ips = [] /\ nets = [] /\ forall p, In p l -> TrimSpace p = "" \/ entryInvalid p).
Proof.
  revert acc. induction l as [|p l IH]; intros [[ips nets] inv]; cbn [fold_left].
  { split_and!; [intros ip|intros x|]; split; try (intros [?|(? & [] & _)]; done); try tauto.
    intros [-> ->]. split_and!; [done..|]. by intros p []. }
  pose proof (parseEntry_step (ips, nets, inv) p) as S.
  destruct (parseEntry (ips, nets, inv) p) as [[i1 n1] v1]. specialize (IH (i1, n1, v1)).
  destruct (fold_left parseEntry l (i1, n1, v1)) as [[i2 n2] v2].
  destruct S as (S1 & S2 & S3), IH as (I1 & I2 & I3). split_and!.
  - intros ip. rewrite I1, S1, ex_In_cons. tauto.
  - intros x. rewrite I2, S2, ex_In_cons. tauto.
  - rewrite I3, all_In_cons. tauto.
Qed.

(** [ParseListStrict] in terms of the raw list. *)
Lemma ParseListStrict_spec raw :
  let '(ips, nets, err) := ParseListStrict raw in
  (forall ip, ipInList ip ips nets = true <-> exists p, In p (Split raw ",") /\ entryDenotes p ip) /\
  (err = None <-> forall p, In p (Split raw ",") -> ~ entryInvalid p) /\
  (ips = [] /\ nets = [] <-> forall p, In p (Split raw ",") -> TrimSpace p = "" \/ entryInvalid p).
Proof.
  unfold ParseListStrict. pose proof (parse_fold (Split raw ",") ([], [], [])) as H.
  destruct (fold_left parseEntry _ _) as [[ips nets] inv]. destruct H as (H1 & H2 & H3).
  split_and!.
  - intros ip. rewrite H1. cbn. split; [intros [?|?]; done|auto].
  - destruct inv as [|x inv].
    + split; [|done]. intros _ p Hp Hi. destruct (proj2 (H2 (TrimSpace p))). right. eauto.
    + split; [done|]. intros Hno. destruct (proj1 (H2 x) (or_introl eq_refl)) as [[]|(p & Hp & Hi & _)].
      exfalso. by apply (Hno p).
  - rewrite H3. tauto.
Qed.

(** (C19) The middleware admits exactly the addresses the lists denote.  With the
    lists parsed from the raw allow and deny lists, a request whose client key
    is an address is passed on unchanged if some valid allow entry exists and
    one of the allow entries denotes the address, or no allow entry is valid
    and no deny entry denotes it; otherwise the answer is 403 and the rest of
    the chain is not run. *)
Theorem IPAccess_enforces_lists {W} `{Clock W} (wl bl : string) (depth : Z) (next : handler W)
    (req : Request) (wtr : Writer) (w : W) (ip : IP)
    (Hip : clientIP (GetClientKey depth req) = Some ip) (Hw : WStatus wtr = None) :
  let allowed :=
    ((exists p, In p (Split wl ",") /\ TrimSpace p <> "" /\ ~ entryInvalid p) /\
     (exists p, In p (Split wl ",") /\ entryDenotes p ip)) \/
    ((forall p, In p (Split wl ",") -> TrimSpace p = "" \/ entryInvalid p) /\
     ~ (exists p, In p (Split bl ",") /\ entryDenotes p ip)) in
  (allowed /\ IPAccessMiddleware (loadLists wl bl) depth next req wtr w = next req wtr w) \/
  (~ allowed /\ exists wtr', IPAccessMiddleware (loadLists wl bl) depth next req wtr w =
     (w, wtr', Returned) /\ WStatus wtr' = Some 403).
Proof.
  intros allowed.
  assert (Hne : String.eqb (GetClientKey depth req) "" = false).
  { apply String.eqb_neq. intros E. by rewrite E in Hip. }
  assert (E : Evaluate ip (Some (loadLists wl bl)) = true <-> allowed).
  { unfold loadLists, ParseList, Evaluate, allowed.
    pose proof (ParseListStrict_spec wl) as Hwl. pose proof (ParseListStrict_spec bl) as Hbl.
    destruct (ParseListStrict wl) as [[wi wn] we], (ParseListStrict bl) as [[bi bn] be]. simpl.
    destruct Hwl as (W1 & _ & W3), Hbl as (B1 & _ & _).
    destruct wi as [|i wi], wn as [|n wn].
    { rewrite negb_true_iff, <- not_true_iff_false, B1. naive_solver. }
    all: rewrite W1; split; [intros (p & Hp & Hd); left; pose proof (denotes_valid p ip Hd) as [? ?]; eauto 10|].
    all: intros [[_ ?]|[Hall _]]; [done|]; exfalso; by destruct (proj2 W3 Hall). }
  unfold IPAccessMiddleware. rewrite Hne, Hip.
  destruct (Evaluate ip _).
  - left. split; [by apply E|done].
  - right. split; [intros A; by apply E in A|]. unfold reject. eexists. split; [done|].
    by apply SendError_status.
Qed.

(** An allow list with no valid entry fails open: when every entry of
    IP_WHITELIST is malformed, every client that is not denied is let through. *)
Theorem malformed_whitelist_fails_open {W} `{Clock W} (wl : string) (depth : Z) (next : handler W)
    (req : Request) (wtr : Writer) (w : W) (ip : IP)
    (Hbad : Forall (fun p => entryInvalid p) (Split wl ","))
    (Hip : clientIP (GetClientKey depth req) = Some ip) :
  (exists e, (ParseListStrict wl).2 = Some e) /\
  IPAccessMiddleware (loadLists wl "") depth next req wtr w = next req wtr w.
Proof.
  rewrite Forall_forall in Hbad.
  assert (Hne : String.eqb (GetClientKey depth req) "" = false).
  { apply String.eqb_neq. intros E. by rewrite E in Hip. }
  pose proof (ParseListStrict_spec wl) as Hwl. unfold IPAccessMiddleware, loadLists, ParseList.
  destruct (ParseListStrict wl) as [[wi wn] we]. simpl. destruct Hwl as (_ & W2 & W3). split.
  - destruct we as [e|]; [eauto|]. exfalso. pose proof (Split_nonempty wl ",") as Hn.
    destruct (Split wl ",") as [|p l]; [done|].
    apply (proj1 W2 eq_refl p); [by left|]. apply Hbad. by left.
  - destruct (proj2 W3) as [-> ->].
    { intros p Hp. right. apply Hbad. by apply list_elem_of_In. }
    rewrite Hne, Hip. reflexivity.
Qed.

Definition from_addr (a : string) : Request :=
  {| Method := "GET"; ReqURL := None; Header := ∅; RemoteAddr := a; ContentLength := 0;
     ReqBody := None; RequestURI := ""; ReqPattern := ""; PathValues := ∅; Ctx := [] |}.

Lemma IPAccess_enforces_lists_witness :
  (IPAccessMiddleware (loadLists "10.0.0.0/8, 192.168.1.7" "") 0 pass (from_addr "10.2.3.4:99")
    newWriter 5).1.2 = (pass (from_addr "10.2.3.4:99") newWriter 5).1.2.
Proof.
  destruct (IPAccess_enforces_lists "10.0.0.0/8, 192.168.1.7" "" 0 pass (from_addr "10.2.3.4:99")
    newWriter 5 (v4prefix + 167904004) eq_refl eq_refl) as [[_ E]|[Hno _]].
  - exact (f_equal (fun x => x.1.2) E).
  - exfalso. apply Hno. left.
    assert (D : entryDenotes "10.0.0.0/8" (v4prefix + 167904004))
      by (split; [discriminate|reflexivity]).
    split; exists "10.0.0.0/8"; (split; [left; reflexivity|]); [|exact D].
    split; [discriminate|]. intros (_ & Hc & _). vm_compute in Hc. discriminate.
Defined.

Lemma malformed_whitelist_fails_open_witness :
  (IPAccessMiddleware (loadLists "10.0.0.0/33,office" "") 0 pass (from_addr "6.6.6.6:1") newWriter 5).1.2
  = (pass (from_addr "6.6.6.6:1") newWriter 5).1.2.
Proof.
  refine (f_equal (fun x => x.1.2) (proj2 (malformed_whitelist_fails_open "10.0.0.0/33,office" 0 pass
    (from_addr "6.6.6.6:1") newWriter 5 (v4prefix + 101058054) _ eq_refl))).
  repeat constructor; discriminate.
Defined.
