(* ===== verification/Jwt.v ===== *)
(** * Tokens and scopes (src/security/jwt, src/security/oauth, src/security/token)

    The JWT client: construction, signing, validation, and the extraction of
    the bearer token from a request; the OAuth scope and grant checks; random
    tokens.  Signing and parsing are those of the go-jwt library, which is a
    parameter: RSA keys, PEM parsing, [SignedString] and [ParseWithClaims]. *)

From S2P Require Import Prelude GoStrings Http Requests.

Open Scope string_scope.
Open Scope Z_scope.

Record CustomClaims := {
  Scopes : list string; IsAdmin : bool;
  Subject : string; Issuer : string; Audience : list string;
  ExpiresAt : option Z; IssuedAt : option Z; NotBefore : option Z; ClaimID : string;
}.

(** The parser options the SDK sets. *)
Record parserOptions := {
  validMethods : list string; optLeeway : Z;
  optIssuer : option string; optAudience : option string;
}.

Definition defaultLeeway : Z := 30 * Second.

Record Config := {
  PrivateKeyPEM : string; PublicKeyPEM : string; KID : string;
  cfgIssuer : string; cfgAudience : string; Leeway : Z;
  Secrets : option (string -> result string); PrivateKeyName : string;
}.

Section GoJWT.
Context {PubKey PrivKey : Type} `{EqDecision PubKey}.
Context (parsePub : string -> result PubKey) (parsePriv : string -> result PrivKey).
Context (pubOf : PrivKey -> PubKey).
(** [SignedString] of a token with the given kid header and claims. *)
Context (signRS256 : PrivKey -> string -> CustomClaims -> result string).
(** [ParseWithClaims] at a time: the key function gets the signing method
    ([true] for the RSA methods); the answer is [token.Valid] and the claims. *)
Context (parseWithClaims : parserOptions -> (bool -> result PubKey) -> Z -> string ->
           result (bool * CustomClaims)).

Record Client := {
  privateKey : option PrivKey; publicKey : PubKey; kid : string;
  iss : string; aud : string; leeway : Z;
}.

Definition New (cfg : Config) : result Client :=
  if String.eqb (PublicKeyPEM cfg) "" then Err (Errorf "missing public key") else
  if String.eqb (cfgIssuer cfg) "" then Err (Errorf "missing issuer") else
  if String.eqb (cfgAudience cfg) "" then Err (Errorf "missing audience") else
  match parsePub (PublicKeyPEM cfg) with
  | Err e => Err (Wrap "failed to parse public key" e)
  | Ok pub =>
      let privPEM :=
        match Secrets cfg with
        | Some get =>
            if String.eqb (PrivateKeyPEM cfg) "" && negb (String.eqb (PrivateKeyName cfg) "")
            then match get (PrivateKeyName cfg) with
                 | Ok p => Ok p
                 | Err e => Err (Wrap "failed to load private key from secrets" e)
                 end
            else Ok (PrivateKeyPEM cfg)
        | None => Ok (PrivateKeyPEM cfg)
        end in
      let? pem := privPEM in
      let priv :=
        if String.eqb pem "" then Ok None else
        match parsePriv pem with
        | Err e => Err (Wrap "failed to parse private key" e)
        | Ok k => if decide (pubOf k = pub) then Ok (Some k)
                  else Err (Errorf "private and public keys do not match")
        end in
      let? priv := priv in
      Ok {| privateKey := priv; publicKey := pub; kid := KID cfg; iss := cfgIssuer cfg;
            aud := cfgAudience cfg;
            leeway := if Leeway cfg =? 0 then defaultLeeway else Leeway cfg |}
  end.

(** [uuid.NewString] gives [id]; numeric dates are whole seconds. *)
Definition numericDate (t : Z) : Z := unixSec t * Second.
Definition SignToken (c : Client) (now : Z) (id : string) (issuer subject audience : string)
    (ttl : Z) (scopes : list string) : result string :=
  match privateKey c with
  | None => Err (Errorf "failed to sign token: no private key configured")
  | Some k =>
      if ttl <=? 0 then Err (Errorf "failed to sign token: ttl must be positive") else
      signRS256 k (kid c)
        {| Scopes := scopes; IsAdmin := false; Subject := subject; Issuer := issuer;
           Audience := [audience];
           ExpiresAt := Some (numericDate (now + wrap64 (ttl * Second)));
           IssuedAt := Some (numericDate now); NotBefore := Some (numericDate now); ClaimID := id |}
  end.

Definition keyFunc (c : Client) (isRSA : bool) : result PubKey :=
  if isRSA then Ok (publicKey c) else Err (Errorf "unexpected signing method").

Definition parse (c : Client) (now : Z) (tokenString : string) (checkIssAud : bool)
  : result (bool * CustomClaims) :=
  let opts := {| validMethods := ["RS256"]; optLeeway := leeway c;
                 optIssuer := if checkIssAud then Some (iss c) else None;
                 optAudience := if checkIssAud then Some (aud c) else None |} in
  match parseWithClaims opts (keyFunc c) now tokenString with
  | Err e => Err (Wrap "failed to verify token" e)
  | Ok r => Ok r
  end.
Definition ValidateToken (c : Client) (now : Z) (tokenString : string) : result bool :=
  rmap fst (parse c now tokenString true).
Definition ValidateAndParseClaims (c : Client) (now : Z) (tokenString : string) : result CustomClaims :=
  rmap snd (parse c now tokenString true).
Definition ParseClaims (c : Client) (now : Z) (tokenString : string) : result CustomClaims :=
  rmap snd (parse c now tokenString false).
End GoJWT.
Arguments Client : clear implicits.

Definition bearerPrefix : string := "bearer ".
Definition ExtractTokenFromRequest (req : Request) : result string :=
  let auth := TrimSpace (hget (Header req) "Authorization") in
  if (String.length auth <? String.length bearerPrefix)%nat ||
     negb (EqualFold (stake (String.length bearerPrefix) auth) bearerPrefix)
  then Err (Errorf "missing or invalid authorization header")
  else Ok (TrimSpace (sdrop (String.length bearerPrefix) auth)).

(** ** OAuth scopes (src/security/oauth/oauth.go) *)

Definition defaultAllowedScopes : list string :=
  ["read"; "write"; "admin"; "checkout:read"; "checkout:write"; "orders:read"; "users:profile"].

(** A [Validator] is its set of allowed scopes. *)
Definition NewValidator (allowedScopes : list string) : gset string :=
  list_to_set (match allowedScopes with [] => defaultAllowedScopes | _ => allowedScopes end).
Definition scopeFields (scope : string) : list string := Fields (ReplaceAll scope "," " ").
Definition scopeOK (v : gset string) (s : string) : bool :=
  HasPrefix s "svc:" || bool_decide (s ∈ v).
Definition IsValidScope (v : gset string) (scope : string) : bool :=
  if String.eqb scope "" then false else forallb (scopeOK v) (scopeFields scope).
Definition GetInvalidScopes (v : gset string) (scope : string) : list string :=
  List.filter (fun s => negb (scopeOK v s)) (scopeFields scope).
Definition IsValidGrantType (grantType : string) : bool :=
  existsb (String.eqb grantType) ["client_credentials"; "authorization_code"; "refresh_token"].

(** ** Random tokens (src/security/token/token.go) *)

Definition DefaultBytes : Z := 32.
(** [rand] is what the random source delivers for a length. *)
Definition Bytes (rand : Z -> result (list Z)) (n : Z) : result (list Z) :=
  if n <=? 0 then Err (Errorf ("requires a positive byte length, got " +:+ Itoa n)) else
  match rand n with
  | Ok b => Ok b
  | Err e => Err (Wrap "failed to read random bytes" e)
  end.
Definition Hex (rand : Z -> result (list Z)) (n : Z) : result string :=
  rmap (fold_right (fun b s => hexByte b +:+ s) "") (Bytes rand n).
(** [enc] is the unpadded URL-safe base64 encoding. *)
Definition URLSafe (enc : list Z -> string) (rand : Z -> result (list Z)) (n : Z) : result string :=
  rmap enc (Bytes rand n).
Definition APIKey (enc : list Z -> string) (rand : Z -> result (list Z)) (prefix : string) : result string :=
  let? s := URLSafe enc rand DefaultBytes in
  Ok (if String.eqb prefix "" then s else prefix +:+ "_" +:+ s).

(** ** Properties *)

Lemma EqualFold_length a b : EqualFold a b = true -> String.length a = String.length b.
Proof.
  unfold EqualFold. intros H%String.eqb_eq. unfold ToLower in H.
  by rewrite <- (smap_length lowerByte a), <- (smap_length lowerByte b), H.
Qed.

(** The seventh byte of a case-insensitive "bearer " is the space itself. *)
Lemma bearer_ends_in_space p : EqualFold p bearerPrefix = true -> exists q, p = q +:+ " ".
Proof.
  intros H. pose proof (EqualFold_length _ _ H) as Hl. unfold EqualFold in H.
  apply String.eqb_eq in H. unfold bearerPrefix in *.
  destruct p as [|a1 [|a2 [|a3 [|a4 [|a5 [|a6 [|a7 [|? ?]]]]]]]]; try discriminate.
  exists (String a1 (String a2 (String a3 (String a4 (String a5 (String a6 "")))))).
  injection H as _ _ _ _ _ _ H7. rewrite !sapp_cons, sapp_nil_l. do 6 f_equal.
  f_equal. unfold lowerByte in H7. destruct (isUpper a7) eqn:E; [|done].
  exfalso. revert H7 E. destruct a7 as [[] [] [] [] [] [] [] []]; vm_compute; discriminate.
Qed.

(** A request yields a bearer token exactly when its Authorization header
    is, up to surrounding white space, the word bearer in any case, a space,
    and more; the token is never empty and carries no surrounding white
    space. *)
Theorem ExtractToken_spec (req : Request) :
  let auth := TrimSpace (hget (Header req) "Authorization") in
  match ExtractTokenFromRequest req with
  | Ok tok => tok <> "" /\ trimmed tok /\
      exists p r, auth = p +:+ r /\ EqualFold p bearerPrefix = true /\ tok = TrimSpace r
  | Err _ => ~ exists p r, auth = p +:+ r /\ EqualFold p bearerPrefix = true
  end.
Proof.
  cbv zeta. unfold ExtractTokenFromRequest.
  set (auth := TrimSpace (hget (Header req) "Authorization")).
  pose proof (TrimSpace_trimmed (hget (Header req) "Authorization")) as [_ Htr]. fold auth in Htr.
  clearbody auth. destruct (_ || _) eqn:E.
  - intros (p & r & -> & Hp). pose proof (EqualFold_length _ _ Hp) as Hl.
    rewrite slen_app, <- Hl, stake_app, Hp in E. apply orb_true_iff in E as [E|E]; [|done].
    apply Nat.ltb_lt in E. lia.
  - apply orb_false_iff in E as [_ E]. apply negb_false_iff in E.
    pose proof (stake_sdrop (String.length bearerPrefix) auth) as Ea.
    set (p := stake _ auth) in *. set (r := sdrop _ auth) in *.
    split_and!; [|apply TrimSpace_trimmed|exists p, r; by rewrite Ea].
    intros H0. rewrite <- Ea, srev_app_distr in Htr.
    apply TrimSpace_nil in H0; [|by apply cutAny_app_None in Htr].
    rewrite H0 in Htr. destruct (bearer_ends_in_space p E) as [q Hq].
    rewrite Hq, sapp_nil_l, srev_app_distr in Htr.
    assert (Hsp : In " " rspaces) by (vm_compute; tauto).
    pose proof (proj1 (cutAny_None _ _) Htr _ Hsp) as Hn. change (srev " ") with " " in Hn.
    by rewrite HasPrefix_app in Hn.
Qed.

(** The two scope functions agree: no invalid scope is reported exactly for the
    scopes that are valid, the empty string apart. *)
Lemma scopes_agree v scope :
  IsValidScope v scope = true <-> scope <> "" /\ GetInvalidScopes v scope = [].
Proof.
  unfold IsValidScope, GetInvalidScopes. destruct (String.eqb_spec scope ""); [split; [done|tauto]|].
  generalize (scopeFields scope). intros l. induction l as [|s l IH]; simpl; [tauto|].
  destruct (scopeOK v s); simpl; [done|]. split; [done|]. by intros [_ [=]].
Qed.

(** A scope string of separators only is accepted. *)
Example blank_scope_is_valid : IsValidScope (NewValidator []) " , " = true.
Proof. reflexivity. Qed.
