(* ===== verification/Headers.v ===== *)
(** * Header validation and CSRF (src/api/headers, src/api/csrf)

    The validators of eval.go with their regular expressions, the content
    length limit, the security headers, cookies, and the double-submit CSRF
    check.  The JWT client of the authorization check is a parameter. *)

From S2P Require Import Prelude GoStrings Regex Net Http Requests Jwt.

Open Scope string_scope.
Open Scope Z_scope.

Definition HEADER_IDEMPOTENCY := "Idempotency-Key".
Definition HEADER_X_CSRF_TOKEN := "X-CSRF-Token".
Definition COOKIE_CSRF_TOKEN := "csrf_token".
Definition DEFAULT_MAX_CONTENT_LENGTH : Z := 4096.

(** [os.Getenv]. *)
Definition Env : Type := string -> string.

(** ** The patterns *)

(** [^[A-Za-z0-9\-\._ /(),:;]+$] *)
Definition userAgentRE : re :=
  Plus (Cls (fun c => alnum c || oneOf ["-"; "."; "_"; " "; "/"; "("; ")"; ","; ":"; ";"]%char c)).
(** http or https, a host of letters, digits and [-.%], optionally a port of one
    to five digits, optionally a slash and anything without a line break. *)
Definition urlOriginRE : re :=
  Seq (Lit "http") (Seq (Opt (Lit "s")) (Seq (Lit "://")
    (Seq (Plus (Cls (fun c => alnum c || oneOf ["-"; "."; "%"]%char c)))
      (Seq (Opt (Seq (Lit ":") (Between 1 5 (Cls isDigit))))
           (Opt (Seq (Lit "/") (Star (Cls notNewline)))))))).
(** [^[A-Za-z0-9_\-/]+$] *)
Definition requestedByRE : re := Plus (Cls (fun c => alnum c || oneOf ["_"; "-"; "/"]%char c)).
(** [^[A-Za-z0-9_\-]{8,64}$] *)
Definition idempotencyKeyRE : re := Between 8 64 (Cls (fun c => alnum c || oneOf ["_"; "-"]%char c)).

(** ** Cookies: [net/http]'s [Request.Cookie]

    The first cookie of the name in the Cookie headers.  Parts are separated
    by semicolons; a part without '=' has an empty value; surrounding quotes
    are removed; a part with an invalid name or value is skipped. *)

Definition asciiSpaces : list string :=
  Eval cbv in map (fun n => String (ascii_of_nat n) "") [32; 9; 10; 13]%nat.
Definition TrimString (s : string) : string :=
  let l := trimFuel (String.length s) asciiSpaces s in
  srev (trimFuel (String.length l) asciiSpaces (srev l)).
Definition dquote : ascii := "034".
Definition validCookieByte (c : ascii) : bool :=
  (32 <=? byteZ c) && (byteZ c <? 127) && negb (oneOf [dquote; ";"; "\"]%char c).
Definition stripQuotes (s : string) : string :=
  match s with
  | String a rest =>
      if Ascii.eqb a dquote then
        match srev rest with
        | String b mid => if Ascii.eqb b dquote then srev mid else s
        | "" => s
        end
      else s
  | "" => s
  end.
Definition isToken (s : string) : bool := negb (String.eqb s "") && sforall tokenByte s.
Definition cookiePart (name part : string) : option string :=
  let part := TrimString part in
  if String.eqb part "" then None else
  let '(n, v) := default (part, "") (cutByte "=" part) in
  let n := TrimString n in
  if negb (isToken n) || negb (String.eqb n name) then None else
  let v := stripQuotes v in
  if sforall validCookieByte v then Some v else None.
(** The value of the first cookie called [name]. *)
Definition Cookie (req : Request) (name : string) : option string :=
  firstSome (fun line => firstSome (cookiePart name) (Split (TrimString line) ";"))
    (default [] (Header req !! "Cookie")).

(** ** Validators *)

Definition isValidContentAcceptType (s : string) : bool :=
  HasPrefix s "application/json" || HasPrefix s "application/x-www-form-urlencoded" ||
  HasPrefix s "multipart/form-data".
Definition maxContentLength (e : Env) : Z :=
  let v := e "MAX_CONTENT_LENGTH" in
  if String.eqb v "" then DEFAULT_MAX_CONTENT_LENGTH else default DEFAULT_MAX_CONTENT_LENGTH (Atoi v).
Definition isValidContentLength (e : Env) (s : string) : bool :=
  if String.eqb s "" then false else
  match Atoi s with
  | None => false
  | Some v => (0 <? v) && (v <=? maxContentLength e)
  end.
Definition isValidCookie (s : string) : bool := negb (String.eqb s "").
Definition isValidUserAgent (s : string) : bool :=
  if String.eqb s "" then false else
  let s := TrimSpace s in
  if 256 <? len s then false else fullMatch userAgentRE s.
Definition isValidReferer (s : string) : bool := fullMatch urlOriginRE (TrimSpace s).
Definition isValidCacheControl (s : string) : bool :=
  existsb (String.eqb s) ["no-cache"; "no-store"; "must-revalidate"].
Definition isValidRequestedBy (s : string) : bool :=
  negb (String.eqb s "") && (len s <=? 64) && fullMatch requestedByRE s.
Definition isValidIdempotencyKey (s : string) : bool := fullMatch idempotencyKeyRE s.
Definition isValidCSRF (req : Request) (headerVal : string) : bool :=
  if String.eqb headerVal "" then false else
  match Cookie req COOKIE_CSRF_TOKEN with
  | None => false
  | Some v => if String.eqb v "" then false else String.eqb headerVal v
  end.
Definition isValidCORS (s : string) : bool :=
  if String.eqb s "" then false else
  if String.eqb s "*" then true else fullMatch urlOriginRE (TrimSpace s).

(** [jwt] is the package's JWT client by its [ValidateToken], if one was set. *)
Definition ValidateHeaderValue (e : Env) (jwt : option (string -> result bool)) (hdr : string)
    (req : Request) : result bool :=
  let val := hget (Header req) hdr in
  let h := ToLower hdr in
  if String.eqb h "access-control-allow-origin" then Ok (isValidCORS val)
  else if String.eqb h "authorization" then
    match ExtractTokenFromRequest req with
    | Err _ => Ok false
    | Ok tok => match jwt with
                | None => Err (Errorf "jwt client not configured")
                | Some validate => validate tok
                end
    end
  else if String.eqb h "cache-control" then Ok (isValidCacheControl val)
  else if String.eqb h "cookie" then Ok (isValidCookie val)
  else if String.eqb h "content-type" || String.eqb h "accept" then Ok (isValidContentAcceptType val)
  else if String.eqb h "content-length" then Ok (isValidContentLength e val)
  else if String.eqb h "idempotency-key" then Ok (isValidIdempotencyKey val)
  else if String.eqb h "referer" || String.eqb h "referrer" then Ok (isValidReferer val)
  else if String.eqb h "user-agent" then Ok (isValidUserAgent val)
  else if String.eqb h "x-csrf-token" then Ok (isValidCSRF req val)
  else if String.eqb h "x-requested-by" then Ok (isValidRequestedBy val)
  else Ok (negb (String.eqb val "")).
(** [ok && err == nil]. *)
Definition headerValid (e : Env) (jwt : option (string -> result bool)) (hdr : string) (req : Request) : bool :=
  match ValidateHeaderValue e jwt hdr req with Ok b => b | Err _ => false end.

(** ** Middlewares *)

Definition contentLimit (e : Env) (maxBytes : Z) : Z :=
  if 0 <? maxBytes then maxBytes else
  match parseInt64 (e "MAX_CONTENT_LENGTH") with
  | Some n => if 0 <? n then n else DEFAULT_MAX_CONTENT_LENGTH
  | None => DEFAULT_MAX_CONTENT_LENGTH
  end.
(** [http.MaxBytesReader]: at most [limit] bytes, then an error. *)
Definition MaxBytesReader (b : Body) (limit : Z) : Body :=
  if len (BodyBytes b) <=? limit then b
  else {| BodyBytes := stakeZ limit (BodyBytes b);
          BodyErr := Some (Errorf "http: request body too large") |}.
Definition MaxContentLengthMiddleware {W} `{Clock W} (e : Env) (maxBytes : Z) : middleware W :=
  let limit := contentLimit e maxBytes in
  fun next req wtr w =>
    if limit <? ContentLength req
    then reject (BadRequest Global)
           [WithStatus 413; WithMessage "Request entity too large";
            WithDetail "request body exceeds maximum allowed size"] req wtr w
    else next (withBody req ((fun b => MaxBytesReader b limit) <$> ReqBody req) (ContentLength req)) wtr w.

Definition SecurityHeadersMiddleware {W} : middleware W := fun next req wtr w =>
  let wtr := setHeader wtr "Strict-Transport-Security" "max-age=31536000; includeSubDomains; preload" in
  let wtr := setHeader wtr "X-Content-Type-Options" "nosniff" in
  let wtr := setHeader wtr "X-Frame-Options" "DENY" in
  let wtr := setHeader wtr "Referrer-Policy" "no-referrer" in
  let wtr := setHeader wtr "Permissions-Policy" "geolocation=(), camera=()" in
  let wtr := setHeader wtr "Cache-Control" "no-store" in
  next req wtr w.

(** ** CSRF (src/api/csrf) *)

(** The world's random source, asked for a token of [n] bytes in hex. *)
Class Random (W : Type) := randHex : Z -> W -> result string * W.

Definition GenerateToken {W} `{Random W} (w : W) : result string * W := randHex 32 w.
Definition addHeader (w : Writer) (k v : string) : Writer :=
  {| WHeader := <[CanonicalKey k := (default [] (WHeader w !! CanonicalKey k) ++ [v])%list]> (WHeader w);
     WStatus := WStatus w; WInfo := WInfo w; WSent := WSent w; WBody := WBody w |}.
Definition setCookie (wtr : Writer) (token : string) : Writer :=
  addHeader wtr "Set-Cookie" (COOKIE_CSRF_TOKEN +:+ "=" +:+ token +:+ "; Path=/; Secure; SameSite=Strict").
Definition ensureToken {W} `{Random W} (wtr : Writer) (req : Request) (w : W)
  : Writer * W * result string :=
  match Cookie req COOKIE_CSRF_TOKEN with
  | Some v =>
      if String.eqb v "" then
        let '(r, w) := GenerateToken w in
        match r with Err e => (wtr, w, Err e) | Ok t => (setCookie wtr t, w, Ok t) end
      else (wtr, w, Ok v)
  | None =>
      let '(r, w) := GenerateToken w in
      match r with Err e => (wtr, w, Err e) | Ok t => (setCookie wtr t, w, Ok t) end
  end.

Definition stateChanging (m : string) : bool :=
  existsb (String.eqb m) ["POST"; "PUT"; "PATCH"; "DELETE"].
Definition isAPIClient (ctx : context) : bool :=
  match Value ctx CLIENT_TYPE_KEY with Some (CStr s) => String.eqb s "api" | _ => false end.
Definition CSRFMiddleware {W} `{Random W, Clock W} (e : Env) (jwt : option (string -> result bool))
  : middleware W := fun next req wtr w =>
  let '(wtr, w, r) := ensureToken wtr req w in
  match r with
  | Err _ => reject (Internal Global) [WithDetail "failed to issue csrf token"] req wtr w
  | Ok token =>
      if stateChanging (Method req) && isAPIClient (Ctx req)
      then next (WithContext req (WithCSRFValid (WithCSRFToken (Ctx req) "api-client-exempt") true)) wtr w
      else if stateChanging (Method req) && negb (headerValid e jwt HEADER_X_CSRF_TOKEN req)
      then reject (BadRequest Global) [WithDetail "invalid CSRF token"] req wtr w
      else next (WithContext req (WithCSRFValid (WithCSRFToken (Ctx req) token) true)) wtr w
  end.

(** ** Properties *)

(** What the idempotency-key pattern means. *)
Lemma isValidIdempotencyKey_spec s :
  isValidIdempotencyKey s = true ->
  8 <= len s <= 64 /\ sforall (fun c => alnum c || oneOf ["_"; "-"]%char c) s = true.
Proof.
  unfold isValidIdempotencyKey. intros H%fullMatch_spec%lang_Between_len.
  unfold len. split; [lia|apply H].
Qed.

Lemma ensureToken_status {W} `{Random W} wtr req (w : W) :
  let '(wtr', _, r) := ensureToken wtr req w in WStatus wtr' = WStatus wtr.
Proof.
  unfold ensureToken. destruct (Cookie req _) as [v|]; [destruct (String.eqb v "")|];
    try destruct (GenerateToken w) as [[] ?]; done.
Qed.

Lemma ensureToken_info {W} `{Random W} wtr req (w : W) :
  let '(wtr', _, r) := ensureToken wtr req w in WInfo wtr' = WInfo wtr.
Proof.
  unfold ensureToken. destruct (Cookie req _) as [v|]; [destruct (String.eqb v "")|];
    try destruct (GenerateToken w) as [[] ?]; done.
Qed.

(** (C20) Double submit.  A state-changing request of a client that is not an
    API client reaches the handler only if its X-CSRF-Token header is not empty
    and equals its first csrf_token cookie; otherwise the answer is an error
    and the handler does not run. *)
Theorem CSRF_double_submit {W} `{Random W, Clock W} (e : Env) (jwt : option (string -> result bool))
    (f : handler W) (req : Request) (wtr : Writer) (w : W)
    (Hm : stateChanging (Method req) = true) (Hc : isAPIClient (Ctx req) = false)
    (Hw : WStatus wtr = None) :
  let sent := hget (Header req) HEADER_X_CSRF_TOKEN in
  (sent <> "" /\ Cookie req COOKIE_CSRF_TOKEN = Some sent /\
   CSRFMiddleware e jwt f req wtr w =
     f (WithContext req (WithCSRFValid (WithCSRFToken (Ctx req) sent) true)) wtr w) \/
  (~ (sent <> "" /\ Cookie req COOKIE_CSRF_TOKEN = Some sent) /\
   exists w' wtr', CSRFMiddleware e jwt f req wtr w = (w', wtr', Returned) /\
     (WStatus wtr' = Some 400 \/ WStatus wtr' = Some 500)).
Proof.
  cbv zeta. set (sent := hget (Header req) HEADER_X_CSRF_TOKEN).
  assert (HV : headerValid e jwt HEADER_X_CSRF_TOKEN req = isValidCSRF req sent) by reflexivity.
  assert (HI : isValidCSRF req sent = true <-> sent <> "" /\ Cookie req COOKIE_CSRF_TOKEN = Some sent).
  { unfold isValidCSRF. destruct (String.eqb_spec sent ""); [split; [done|tauto]|].
    destruct (Cookie req _) as [v|]; [|split; [done|by intros [_ [=]]]].
    destruct (String.eqb_spec v "") as [->|]; [split; [done|by intros [_ [= <-]]]|].
    rewrite String.eqb_eq. split; [by intros <-|by intros [_ [= ->]]]. }
  pose proof (ensureToken_status wtr req w) as Hst.
  unfold CSRFMiddleware. destruct (isValidCSRF req sent) eqn:EV.
  - left. destruct (proj1 HI eq_refl) as [Hne Hck]. split_and!; [done..|].
    unfold ensureToken. rewrite Hck. apply String.eqb_neq in Hne. rewrite Hne.
    by rewrite Hm, Hc, HV.
  - right. split; [intros X; by apply HI in X|].
    destruct (ensureToken wtr req w) as [[wtr' w'] r]. rewrite Hw in Hst.
    destruct r as [tok|err].
    + rewrite Hm, Hc, HV. do 2 eexists. split; [apply reject_run|]. left. by apply SendError_status.
    + do 2 eexists. split; [apply reject_run|]. right. by apply SendError_status.
Qed.

(** Behind [ClientSourceMiddleware] any Authorization header, valid or not,
    switches the CSRF check off: without Referer and Cookie headers the client
    counts as an API client, and a state-changing request with no CSRF token
    reaches the handler. *)
Theorem client_source_disables_csrf {W} `{Random W, Clock W} (e : Env)
    (jwt : option (string -> result bool)) (f : handler W) (req : Request) (wtr : Writer) (w : W)
    (t : string) (w' : W)
    (Hm : stateChanging (Method req) = true) (Ha : hget (Header req) "Authorization" <> "")
    (Hr : hget (Header req) "Referer" = "") (Hck : Header req !! "Cookie" = None)
    (Hrand : randHex 32 w = (Ok t, w')) :
  exists req' wtr', Chain f [ClientSourceMiddleware; CSRFMiddleware e jwt] req wtr w = f req' wtr' w' /\
    IsCSRFValid (Ctx req') = true /\ Header req' = Header req.
Proof.
  cbn. unfold ClientSourceMiddleware, CSRFMiddleware, ensureToken, Cookie, GenerateToken. cbn [Header WithContext].
  rewrite Hck. cbn [default from_option firstSome]. rewrite Hrand.
  change (Method (WithContext req _)) with (Method req). rewrite Hm.
  assert (Hcl : clientTypeOf req = "api").
  { unfold clientTypeOf. apply String.eqb_neq in Ha. rewrite Ha, Hr.
    unfold hget at 1. change (CanonicalKey "Cookie") with "Cookie". by rewrite Hck. }
  assert (Hapi : isAPIClient (Ctx (WithContext req (WithClientType (Ctx req) (clientTypeOf req)))) = true).
  { by rewrite Hcl. }
  rewrite Hapi. do 2 eexists. split; [reflexivity|]. done.
Qed.

(** Behind [MaxContentLengthMiddleware] a handler reads at most the limit:
    a request that declares more is answered 413, every other body is passed
    unchanged up to the limit and ends in an error beyond it. *)
Theorem content_length_limits {W} `{Clock W} (e : Env) (maxBytes : Z) (f : handler W)
    (req : Request) (b : Body) (wtr : Writer) (w : W)
    (Hb : ReqBody req = Some b) (Hw : WStatus wtr = None) :
  let limit := contentLimit e maxBytes in
  0 < limit /\
  ((limit < ContentLength req /\ exists wtr', MaxContentLengthMiddleware e maxBytes f req wtr w =
      (w, wtr', Returned) /\ WStatus wtr' = Some 413) \/
   (ContentLength req <= limit /\ exists b',
      MaxContentLengthMiddleware e maxBytes f req wtr w = f (withBody req (Some b') (ContentLength req)) wtr w /\
      len (BodyBytes b') <= limit /\
      (len (BodyBytes b) <= limit -> b' = b) /\ (limit < len (BodyBytes b) -> BodyErr b' <> None))).
Proof.
  cbv zeta. assert (Hl : 0 < contentLimit e maxBytes).
  { unfold contentLimit, DEFAULT_MAX_CONTENT_LENGTH. branch; lia. }
  split; [done|]. unfold MaxContentLengthMiddleware. set (limit := contentLimit e maxBytes) in *.
  destruct (Z.ltb_spec limit (ContentLength req)); [left; split; [done|]|right; split; [done|]].
  - eexists. split; [apply reject_run|]. by apply SendError_status.
  - rewrite Hb. eexists. split; [reflexivity|]. unfold MaxBytesReader.
    destruct (Z.leb_spec (len (BodyBytes b)) limit); split_and!; try done; try lia.
    cbn [BodyBytes]. apply stakeZ_len. lia.
Qed.

(** ** Witnesses *)

#[export] Instance random_Z : Random Z := fun _ w => (Ok "abcd", w).
Definition post_with (h : headers) : Request :=
  withMethod (withHeader demo_req h) "POST".

Lemma CSRF_double_submit_witness :
  WStatus (CSRFMiddleware (fun _ => "") None pass
    (post_with (<["X-Csrf-Token" := ["abc"]]> {["Cookie" := ["a=1; csrf_token=abd"]]})) newWriter 3).1.2 = Some 400.
Proof.
  destruct (CSRF_double_submit (fun _ => "") None pass
    (post_with (<["X-Csrf-Token" := ["abc"]]> {["Cookie" := ["a=1; csrf_token=abd"]]})) newWriter 3
    eq_refl eq_refl eq_refl) as [(_ & Hc & _)|(_ & w' & wtr' & E & _)].
  - vm_compute in Hc. discriminate.
  - reflexivity.
Defined.

Definition bogus_auth : Request := post_with {["Authorization" := ["nonsense"]]}.
Lemma client_source_disables_csrf_witness :
  (Chain pass [ClientSourceMiddleware; CSRFMiddleware (fun _ => "") None]
    bogus_auth newWriter 3).1.2 <> newWriter.
Proof.
  destruct (client_source_disables_csrf (fun _ => "") None pass
    bogus_auth newWriter 3 "abcd" 3 eq_refl ltac:(vm_compute; discriminate)
    eq_refl eq_refl eq_refl) as (req' & wtr' & E & _).
  rewrite E. unfold pass, Write, WriteHeader. simpl.
  destruct (WStatus wtr'); simpl; intros X; apply (f_equal WBody) in X; simpl in X;
    by destruct (WBody wtr').
Defined.

Lemma content_length_limits_witness :
  exists b', MaxContentLengthMiddleware (fun _ => "") 4 pass
    (withBody demo_req (Some {| BodyBytes := "abcdef"; BodyErr := None |}) (-1)) newWriter 3 =
    pass (withBody demo_req (Some b') (-1)) newWriter 3 /\ len (BodyBytes b') <= 4.
Proof.
  destruct (content_length_limits (fun _ => "") 4 pass
    (withBody demo_req (Some {| BodyBytes := "abcdef"; BodyErr := None |}) (-1))
    {| BodyBytes := "abcdef"; BodyErr := None |} newWriter 3 eq_refl eq_refl)
    as [_ [[Hlt _]|(_ & b' & E & Hl & _)]].
  - discriminate Hlt.
  - exists b'. split; [exact E|exact Hl].
Defined.
