(* ===== verification/Rules.v ===== *)
(** * Validation rules (src/rules, src/api/validation)

    The rule table: templates compiled to route patterns, their order of
    precedence, lookup; the evaluation of a rule on a request; the validation
    middleware.  YAML and JSON decoding and the compilation of the patterns a
    configuration contains are parameters.  A Go map is iterated in an
    arbitrary order: the configuration is the list of its entries in the order
    the loop visits them. *)

From S2P Require Import Prelude GoStrings Net Http Requests Jwt Headers.

Open Scope string_scope.
Open Scope Z_scope.

Definition LevelIgnore := "ignore".
Definition LevelLenient := "lenient".
Definition LevelStrict := "strict".

(** [Value] is the configured value if it is a string. *)
Record FieldSpec := {
  Type_ : string; Required : bool; Value_ : option string; Pattern : string;
  Enum : list string; MinLen : Z; MaxLen : Z;
  compiled : option (string -> bool);
  enumSet : option (gset string);
}.
Abbreviation fields := (gmap string FieldSpec).
Record EvalRule := {
  Level : string; rHeaders : fields; rPathParams : fields; rQueryParams : fields; rBody : fields;
  RequiredVersion : Z;
}.
Abbreviation methods := (gmap string EvalRule).
Definition RuleConfig : Type := list (string * methods).

(** ** Templates *)

(** One part of a template's regular expression: a quoted literal, a named
    group of anything but '/', or anything but a line break. *)
Inductive segment : Type :=
  | SLit (s : string)
  | SParam (key : string)
  | SWild.

Definition isBraced (p : string) : bool := HasPrefix p "{" && HasSuffix p "}".
Definition segmentOf (p : string) : segment :=
  if String.eqb p "*" then SWild else
  match CutPrefix p ":" with
  | Some key => SParam key
  | None => if isBraced p then SParam (TrimSuffix (TrimPrefix p "{") "}") else SLit p
  end.
Definition cutQuery (s : string) : string :=
  match Index s "?" with Some i => stake i s | None => s end.
Definition templateToRegex (tpl : string) : list segment :=
  let tpl := TrimSuffix (cutQuery tpl) "/" in
  map segmentOf (Split (TrimPrefix tpl "/") "/").

(** A group name [regexp.Compile] accepts. *)
Definition wordByte (c : ascii) : bool := isUpper c || isLower c || isDigit c || Ascii.eqb c "_".
Definition segmentCompiles (g : segment) : bool :=
  match g with
  | SParam k => negb (String.eqb k "") && sforall wordByte k
  | _ => true
  end.

(** The bytes up to the next '/'. *)
Fixpoint span (s : string) : string * string :=
  match s with
  | "" => ("", "")
  | String c s' => if Ascii.eqb c "/" then ("", s) else let '(a, b) := span s' in (String c a, b)
  end.
(** The match of "^/seg/.../seg$" with its groups, first alternative first: a
    group must end before a '/' or the end, so only the longest one can; a wild
    card gives back one byte at a time. *)
Definition noNewline (s : string) : bool := sforall (fun c => negb (Ascii.eqb c "010")) s.
Fixpoint matchSegs (gs : list segment) (s : string) : option (list (string * string)) :=
  match gs with
  | [] => None
  | g :: rest =>
      let cont s' :=
        match rest with
        | [] => if String.eqb s' "" then Some [] else None
        | _ => match s' with
               | String c s'' => if Ascii.eqb c "/" then matchSegs rest s'' else None
               | "" => None
               end
        end in
      match g with
      | SLit l => match CutPrefix s l with Some s' => cont s' | None => None end
      | SParam k =>
          let '(v, s') := span s in
          if String.eqb v "" then None else
          match cont s' with Some m => Some ((k, v) :: m) | None => None end
      | SWild =>
          firstSome (fun n => if noNewline (stake n s) then cont (sdrop n s) else None)
            (rev (List.seq 0 (S (String.length s))))
      end
  end.
Definition matchPattern (gs : list segment) (s : string) : option (list (string * string)) :=
  match s with
  | String c r => if Ascii.eqb c "/" then matchSegs gs r else None
  | "" => None
  end.

Record routePattern := { template : string; re_ : list segment; rpMethods : methods }.

Definition specificityScore (tpl : string) : Z :=
  let parts := Split (TrimPrefix tpl "/") "/" in
  let wildPart p := String.eqb p "*" || HasPrefix p ":" || isBraced p in
  let wild := length (List.filter wildPart parts) in
  let literal := length (List.filter (fun p => negb (wildPart p) && negb (String.eqb p "")) parts) in
  Z.of_nat literal * 10 - Z.of_nat wild.

(** [sort.SliceStable] by decreasing score. *)
Fixpoint insertPattern (p : routePattern) (l : list routePattern) : list routePattern :=
  match l with
  | [] => [p]
  | q :: l' =>
      if specificityScore (template q) <? specificityScore (template p) then p :: l
      else q :: insertPattern p l'
  end.
Definition sortPatterns (l : list routePattern) : list routePattern :=
  fold_left (fun acc p => insertPattern p acc) l [].

Definition isPattern (tpl : string) : bool :=
  Contains tpl ":" || Contains tpl "{" || Contains tpl "*".
(** The patterns in the order the configuration is iterated; [None] when one
    does not compile. *)
Definition collectPatterns (cfg : RuleConfig) : option (list routePattern) :=
  mapM (fun '(tpl, ms) =>
          let gs := templateToRegex tpl in
          if forallb segmentCompiles gs
          then Some {| template := tpl; re_ := gs; rpMethods := ms |} else None)
       (List.filter (fun kv => isPattern kv.1) cfg).

(** ** Loading *)

Record ruleState := { ruleMap : option RuleConfig; patternRoutes : list routePattern; configLoaded : bool }.
Definition unloaded : ruleState := {| ruleMap := None; patternRoutes := []; configLoaded := false |}.

Section Load.
(** [yaml.Unmarshal] of the [rules] key, [None] being the nil map;
    [regexp.Compile] and its [MatchString]. *)
Context (unmarshal : string -> result (option RuleConfig)).
Context (compile : string -> option (string -> bool)).

Definition prepare (spec : FieldSpec) : option FieldSpec :=
  let enumSet := match Enum spec with [] => enumSet spec | l => Some (list_to_set l) end in
  let with_re c :=
    {| Type_ := Type_ spec; Required := Required spec; Value_ := Value_ spec; Pattern := Pattern spec;
       Enum := Enum spec; MinLen := MinLen spec; MaxLen := MaxLen spec; compiled := c;
       enumSet := enumSet |} in
  if String.eqb (Pattern spec) "" then Some (with_re (compiled spec))
  else match compile (Pattern spec) with Some m => Some (with_re (Some m)) | None => None end.
(** [None] when a pattern does not compile. *)
Definition prepareFields (f : fields) : option fields :=
  if forallb (fun kv => bool_decide (is_Some (prepare kv.2))) (map_to_list f)
  then Some (omap prepare f) else None.
Definition prepareRule (r : EvalRule) : option EvalRule :=
  match prepareFields (rHeaders r), prepareFields (rPathParams r),
        prepareFields (rQueryParams r), prepareFields (rBody r) with
  | Some h, Some p, Some q, Some b =>
      Some {| Level := Level r; rHeaders := h; rPathParams := p; rQueryParams := q; rBody := b;
              RequiredVersion := RequiredVersion r |}
  | _, _, _, _ => None
  end.
Definition prepareMethods (ms : methods) : option methods :=
  if forallb (fun kv => bool_decide (is_Some (prepareRule kv.2))) (map_to_list ms)
  then Some (omap prepareRule ms) else None.
(** The rules are updated in the maps the patterns share. *)
Definition prepareFieldSpecs (cfg : RuleConfig) : option RuleConfig :=
  mapM (fun '(tpl, ms) => option_map (pair tpl) (prepareMethods ms)) cfg.

Definition parseConfigFromData (data : string) : result (option RuleConfig * list routePattern) :=
  match unmarshal data with
  | Err e => Err (Wrap "invalid yaml" e)
  | Ok None => Ok (None, [])
  | Ok (Some cfg) =>
      match collectPatterns cfg with
      | None => Err (Errorf "invalid route pattern")
      | Some _ =>
          match prepareFieldSpecs cfg with
          | None => Err (Errorf "invalid field pattern")
          | Some cfg' =>
              match collectPatterns cfg' with
              | Some ps => Ok (Some cfg', sortPatterns ps)
              | None => Err (Errorf "invalid route pattern")
              end
          end
      end
  end.

Definition LoadConfigWithData (data : string) (s : ruleState) : ruleState * bool :=
  if configLoaded s then (s, true) else
  match parseConfigFromData data with
  | Err _ => (s, false)
  | Ok (cfg, ps) => ({| ruleMap := cfg; patternRoutes := ps; configLoaded := true |}, true)
  end.
(** [readFile] is [os.ReadFile]; the path argument comes first, then EVAL_RULES_PATH. *)
Definition LoadConfig (readFile : string -> option string) (path : option string) (e : Env) (s : ruleState)
  : ruleState * bool :=
  if configLoaded s then (s, true) else
  let source := match path with
                | Some p => if String.eqb p "" then e "EVAL_RULES_PATH" else p
                | None => e "EVAL_RULES_PATH"
                end in
  if String.eqb source "" then (s, false) else
  match readFile source with
  | None => (s, false)
  | Some data => LoadConfigWithData data s
  end.
End Load.

Definition IsConfigLoaded (s : ruleState) : bool := configLoaded s && bool_decide (is_Some (ruleMap s)).
Definition ResetForTesting (s : ruleState) : ruleState := unloaded.
Definition GetRules (s : ruleState) : option RuleConfig := ruleMap s.

(** ** Lookup *)

Definition versionSegment (seg : string) : bool :=
  match seg with
  | String c (String d _) => Ascii.eqb c "v" && isDigit d
  | _ => false
  end.
Definition normalizePath (p : string) : string :=
  if String.eqb p "" then p else
  let p := TrimSpace (cutQuery p) in
  if String.eqb p "" then "/" else
  let p := if (1 <? len p) && HasSuffix p "/" then TrimSuffix p "/" else p in
  let segs := Split (TrimPrefix p "/") "/" in
  let p := match segs with
           | seg :: rest => if versionSegment seg then "/" +:+ Join rest "/" else p
           | [] => p
           end in
  if HasPrefix p "/" then p else "/" +:+ p.

Definition params : Type := option (gmap string string).

Definition exactRule (cfg : RuleConfig) (np method : string) : option EvalRule :=
  ms ← (list_to_map cfg : gmap string methods) !! np; ms !! method.
(** A later group of a name replaces an earlier one. *)
Definition patternRule (np method : string) (rp : routePattern) : option (EvalRule * params) :=
  match matchPattern (re_ rp) np with
  | None => None
  | Some groups =>
      match rpMethods rp !! method with
      | None => None
      | Some rule => Some (rule, Some (list_to_map (rev groups)))
      end
  end.
Definition GetRule (s : ruleState) (pKey method : string) : option (EvalRule * params) :=
  match ruleMap s with
  | None => None
  | Some cfg =>
      if String.eqb pKey "" || String.eqb method "" then None else
      let np := normalizePath pKey in
      match exactRule cfg np method with
      | Some rule => Some (rule, None)
      | None => firstSome (patternRule np method) (patternRoutes s)
      end
  end.

(** ** Evaluation *)

Definition validateFieldValue (spec : FieldSpec) (val : string) : bool :=
  (match compiled spec with Some m => m val | None => true end) &&
  (match enumSet spec with Some s => bool_decide (val ∈ s) | None => true end) &&
  negb ((0 <? MinLen spec) && (len val <? MinLen spec)) &&
  negb ((0 <? MaxLen spec) && (MaxLen spec <? len val)) &&
  (if String.eqb (Type_ spec) "int" then bool_decide (is_Some (Atoi val))
   else if String.eqb (Type_ spec) "bool" then String.eqb val "true" || String.eqb val "false"
   else true).

Definition isValidVersion (req : Request) (rule : EvalRule) : bool :=
  if String.eqb (Level rule) LevelLenient then true else
  if RequiredVersion rule <=? 0 then false else
  let versionStr := GetAPIVersion (Some req) in
  if String.eqb versionStr "" then false else
  match Atoi (TrimPrefix versionStr "/v") with
  | None => false
  | Some v => v =? RequiredVersion rule
  end.

(** The configured value, a trailing '*' asking for a prefix only. *)
Definition valueMatches (spec : FieldSpec) (val : string) : bool :=
  match Value_ spec with
  | None => true
  | Some v =>
      if String.eqb v "" then true else
      match srev v with
      | String c r => if Ascii.eqb c "*" then HasPrefix val (srev r) else String.eqb val v
      | "" => true
      end
  end.
Definition headerOK (e : Env) (jwt : option (string -> result bool)) (req : Request)
    (kv : string * FieldSpec) : bool :=
  let '(hName, spec) := kv in
  let val := hget (Header req) hName in
  if String.eqb val "" then negb (Required spec)
  else valueMatches spec val && validateFieldValue spec val && headerValid e jwt hName req.
Definition areValidHeaders (e : Env) (jwt : option (string -> result bool)) (req : Request)
    (rule : EvalRule) : bool :=
  forallb (headerOK e jwt req) (map_to_list (rHeaders rule)).

Definition paramOK (m : gmap string string) (kv : string * FieldSpec) : bool :=
  let '(name, spec) := kv in
  match m !! name with
  | Some val => if String.eqb val "" then negb (Required spec) else validateFieldValue spec val
  | None => negb (Required spec)
  end.
Definition areValidPathParams (rule : EvalRule) (p : params) : bool :=
  match p with
  | None => forallb (fun kv => negb (Required kv.2)) (map_to_list (rPathParams rule))
  | Some m => forallb (paramOK m) (map_to_list (rPathParams rule))
  end.
Definition areValidQueryParams (req : Request) (rule : EvalRule) : bool :=
  forallb (paramOK (GetQueryParams (Some req))) (map_to_list (rQueryParams rule)).

(** A decoded JSON value: its dynamic type, its text (the string itself,
    [FormatFloat] or [FormatBool]), and its [fmt.Sprint]. *)
Inductive jkind : Type := JString | JNumber | JBool | JOther.
Record jval := { jKind : jkind; jText : string; jSprint : string }.

Definition maxBody : Z := 2 ^ 20.
Definition bodyFieldOK (m : gmap string jval) (kv : string * FieldSpec) : bool :=
  let '(name, spec) := kv in
  match m !! name with
  | None => negb (Required spec)
  | Some v =>
      let t := Type_ spec in
      if String.eqb t "" || String.eqb t "string" then
        match jKind v with JString => validateFieldValue spec (jText v) | _ => false end
      else if String.eqb t "int" then
        match jKind v with JNumber => validateFieldValue spec (jText v) | _ => false end
      else if String.eqb t "bool" then
        match jKind v with JBool => validateFieldValue spec (jText v) | _ => false end
      else validateFieldValue spec (jSprint v)
  end.

Section Evaluate.
(** The first JSON object of a text. *)
Context (decodeBody : string -> option (gmap string jval)).
Context (e : Env) (jwt : option (string -> result bool)).

(** The body is read up to [maxBody] and replaced by what was read.  A server
    request always has a body; reading a nil one, which would panic, is taken
    as reading nothing here, and the theorems ask for a body. *)
Definition isValidBody (req : Request) (rule : EvalRule) : bool * Request :=
  if existsb (String.eqb (Method req)) ["GET"; "HEAD"; "OPTIONS"] then (true, req) else
  if bool_decide (rBody rule = ∅) then (true, req) else
  let b := default {| BodyBytes := ""; BodyErr := None |} (ReqBody req) in
  if (len (BodyBytes b) <? maxBody) && bool_decide (is_Some (BodyErr b)) then (false, req) else
  let bodyBytes := stakeZ maxBody (BodyBytes b) in
  let req := withBody req (Some {| BodyBytes := bodyBytes; BodyErr := None |}) (ContentLength req) in
  if String.eqb bodyBytes "" then
    (forallb (fun kv => negb (Required kv.2)) (map_to_list (rBody rule)), req)
  else match decodeBody bodyBytes with
       | None => (false, req)
       | Some m => (forallb (bodyFieldOK m) (map_to_list (rBody rule)), req)
       end.

Definition IsRuleValid (req : Request) (rule : EvalRule) (p : params) : bool * Request :=
  if String.eqb (Level rule) LevelIgnore then (true, req) else
  if isValidVersion req rule && areValidHeaders e jwt req rule && areValidPathParams rule p &&
     areValidQueryParams req rule
  then isValidBody req rule else (false, req).

(** ** The middleware (src/api/validation/middleware.go) *)

Definition ValidationMiddleware {W} `{Clock W} (rejectUnmapped : bool) (s : ruleState) : middleware W :=
  fun next req wtr w =>
    match ReqURL req with
    | None => (w, wtr, Panicked "nil URL")
    | Some u =>
        match GetRule s (Path u) (Method req) with
        | None => if rejectUnmapped
                  then reject (BadRequest Global) [WithDetail "failed to validate request"] req wtr w
                  else next req wtr w
        | Some (rule, p) =>
            let '(ok, req) := IsRuleValid req rule p in
            if ok then next req wtr w
            else reject (BadRequest Global) [WithDetail "request contents invalid"] req wtr w
        end
    end.
Definition RuleValidationMiddleware {W} `{Clock W} (s : ruleState) : middleware W :=
  ValidationMiddleware true s.
End Evaluate.

(** ** Precedence of routes *)

Abbreviation score p := (specificityScore (template p)).

(** Scores do not increase along the list. *)
Fixpoint descending (l : list routePattern) : Prop :=
  match l with
  | [] => True
  | p :: l => (forall q, In q l -> score q <= score p) /\ descending l
  end.

Lemma insertPattern_In p l q : In q (insertPattern p l) <-> q = p \/ In q l.
Proof.
  induction l as [|x l IH]; simpl; [intuition congruence|].
  destruct (_ <? _); simpl; [intuition congruence|]. rewrite IH. intuition congruence.
Qed.

Lemma insertPattern_descending p l : descending l -> descending (insertPattern p l).
Proof.
  induction l as [|x l IH]; simpl; [by split; [intros ? []|]|]. intros [Hx Hl].
  destruct (Z.ltb_spec (score x) (score p)) as [Hlt|Hge]; simpl.
  - split; [|by split]. intros q [<-|Hq]; [lia|]. specialize (Hx q Hq). lia.
  - split; [|by apply IH]. intros q [->|Hq]%insertPattern_In; [done|auto].
Qed.

Lemma sortPatterns_spec l :
  descending (sortPatterns l) /\ forall q, In q (sortPatterns l) <-> In q l.
Proof.
  unfold sortPatterns.
  assert (G : forall l acc, descending acc ->
    descending (fold_left (fun acc p => insertPattern p acc) l acc) /\
    forall q, In q (fold_left (fun acc p => insertPattern p acc) l acc) <-> In q acc \/ In q l).
  { clear. induction l as [|p l IH]; intros acc Ha; simpl; [tauto|].
    destruct (IH (insertPattern p acc)) as [H1 H2]; [by apply insertPattern_descending|].
    split; [done|]. intros q. rewrite H2, insertPattern_In. intuition congruence. }
  destruct (G l [] I) as [H1 H2]. split; [done|]. intros q. rewrite H2. simpl. tauto.
Qed.

(** The first success in a list of descending scores has the greatest score. *)
Lemma firstSome_best {B} (f : routePattern -> option B) l b :
  descending l -> firstSome f l = Some b ->
  exists p, In p l /\ f p = Some b /\ forall q, In q l -> f q <> None -> score q <= score p.
Proof.
  induction l as [|p l IH]; simpl; [done|]. intros [Hp Hl].
  destruct (f p) as [b'|] eqn:E; [intros [= ->]|].
  - exists p. split_and!; auto. intros q [->|Hq] _; [lia|auto].
  - intros H. destruct (IH Hl H) as (q & Hq & Hf & Hbest). exists q. split_and!; auto.
    intros r [->|Hr]; [by rewrite E|auto].
Qed.

Lemma firstSome_None {A B} (f : A -> option B) l : firstSome f l = None <-> forall x, In x l -> f x = None.
Proof.
  induction l as [|x l IH]; simpl; [naive_solver|].
  destruct (f x) eqn:E; [split; [done|intros H; specialize (H x); naive_solver]|]. rewrite IH. naive_solver.
Qed.

(** The state a configuration leaves. *)
Definition loadedState (cfg : option RuleConfig) (ps : list routePattern) : ruleState :=
  {| ruleMap := cfg; patternRoutes := ps; configLoaded := true |}.

(** ** What a template stands for

    Written from the documentation of the templates, without the matcher and
    the sort. *)

Definition isTemplate (tpl : string) : Prop := sIn ":" tpl \/ sIn "{" tpl \/ sIn "*" tpl.
(** ":name" and "{name}". *)
Definition names (part key : string) : Prop := part = ":" +:+ key \/ part = "{" +:+ key +:+ "}".

(** The text every part of a template stands for, and the parameters it binds. *)
Inductive fills : list string -> list string -> list (string * string) -> Prop :=
  | fills_nil : fills [] [] []
  | fills_wild ps vs m v :
      sforall (fun c => negb (Ascii.eqb c "010")) v = true -> fills ps vs m -> fills ("*" :: ps) (v :: vs) m
  | fills_param part key ps vs m v :
      part <> "*" -> names part key -> v <> "" -> ~ sIn "/" v -> fills ps vs m ->
      fills (part :: ps) (v :: vs) ((key, v) :: m)
  | fills_literal part ps vs m :
      part <> "*" -> (forall key, ~ names part key) -> fills ps vs m -> fills (part :: ps) (part :: vs) m.
(** The parts of a template, without its query and one slash at either end. *)
Definition templateParts (tpl : string) : list string :=
  Split (TrimPrefix (TrimSuffix (hd "" (Split tpl "?")) "/") "/") "/".
Definition matches (tpl path : string) (m : list (string * string)) : Prop :=
  exists vs, fills (templateParts tpl) vs m /\ path = "/" +:+ Join vs "/".

(** How specific a template is: ten for a literal part, minus one for a part
    that varies. *)
Inductive rates : list string -> Z -> Prop :=
  | rates_nil : rates [] 0
  | rates_wild part ps n : part = "*" \/ (exists key, names part key) ->
      rates ps n -> rates (part :: ps) (n - 1)
  | rates_empty ps n : rates ps n -> rates ("" :: ps) n
  | rates_literal part ps n : part <> "" -> part <> "*" -> (forall key, ~ names part key) ->
      rates ps n -> rates (part :: ps) (n + 10).
Definition specificity (tpl : string) : Z -> Prop := rates (Split (TrimPrefix tpl "/") "/").

(** The path the rules speak of: no query, no white space, no trailing slash,
    no version segment. *)
Definition versions : list string := ["v0"; "v1"; "v2"; "v3"; "v4"; "v5"; "v6"; "v7"; "v8"; "v9"].
Definition canonical (path : string) : string :=
  let t := TrimSpace (hd "" (Split path "?")) in
  let segs := Split (TrimPrefix (if String.eqb t "/" then t else TrimSuffix t "/") "/") "/" in
  "/" +:+ Join (if existsb (HasPrefix (hd "" segs)) versions then tl segs else segs) "/".

(** A rule of the configuration as it was read. *)
Definition configured (raw : RuleConfig) (tpl method : string) (r : EvalRule) : Prop :=
  exists ms : methods, In (tpl, ms) raw /\ ms !! method = Some r.

(** *** The code computes these *)

Lemma cutQuery_hd s : cutQuery s = hd "" (Split s "?").
Proof.
  unfold cutQuery. induction s as [|c s IH]; [done|]. destruct (Ascii.eqb_spec c "?") as [->|Hc].
  - rewrite Split_cons_eq. cbn [Index]. by rewrite (HasPrefix_app "?" s : HasPrefix (String "?" s) "?" = true).
  - destruct (Split_cons_ne c s "?" Hc) as (h & t & E1 & E2). rewrite E1 in IH. rewrite E2. cbn [hd Index] in *.
    assert (HasPrefix (String c s) "?" = false) as ->.
    { apply not_true_iff_false. intros [r Hr]%HasPrefix_spec. by injection Hr. }
    destruct (Index s "?"); cbn [stake]; by rewrite IH.
Qed.

Lemma TrimSuffix_app a b : TrimSuffix (a +:+ b) b = a.
Proof.
  unfold TrimSuffix, HasSuffix. rewrite srev_app_distr, HasPrefix_app, slen_app.
  replace (_ + _ - _)%nat with (String.length a) by lia. apply stake_app.
Qed.

Lemma TrimPrefix_app a b : TrimPrefix (a +:+ b) a = b.
Proof. unfold TrimPrefix, CutPrefix. by rewrite HasPrefix_app, sdrop_app. Qed.

Lemma isBraced_spec p : isBraced p = true <-> exists key, p = "{" +:+ key +:+ "}".
Proof.
  unfold isBraced, HasSuffix. rewrite andb_true_iff, !HasPrefix_spec. split.
  - intros [[r ->] [q Hq]]. apply (f_equal srev) in Hq. rewrite srev_involutive, srev_app_distr in Hq.
    change (srev (srev "}")) with "}" in Hq. destruct (srev q) as [|c k] eqn:E; [done|].
    rewrite sapp_cons in Hq. injection Hq as <- Hq. exists k. by f_equal.
  - intros [key ->]. split; [by eexists|]. exists (srev ("{" +:+ key)). by rewrite <- sapp_assoc, srev_app_distr.
Qed.

(** The segment of a part, by what the part is. *)
Lemma segmentOf_spec p :
  (p = "*" /\ segmentOf p = SWild) \/
  (p <> "*" /\ exists key, names p key /\ segmentOf p = SParam key) \/
  (p <> "*" /\ (forall key, ~ names p key) /\ segmentOf p = SLit p).
Proof.
  unfold segmentOf. destruct (String.eqb_spec p "*") as [->|Hp]; [by left|right].
  destruct (CutPrefix p ":") as [key|] eqn:Ec.
  { apply CutPrefix_Some in Ec. left. split; [done|]. exists key. split; [by left|done]. }
  destruct (isBraced p) eqn:Eb.
  - left. split; [done|]. apply isBraced_spec in Eb as [key ->]. exists key. split; [by right|].
    by rewrite TrimPrefix_app, TrimSuffix_app.
  - right. split; [done|]. split; [|done]. intros key [->| ->].
    + assert (CutPrefix (":" +:+ key) ":" = Some key) by (by apply CutPrefix_Some). congruence.
    + assert (isBraced ("{" +:+ key +:+ "}") = true) by (apply isBraced_spec; by eexists). congruence.
Qed.

Lemma templateToRegex_parts tpl : templateToRegex tpl = map segmentOf (templateParts tpl).
Proof. unfold templateToRegex, templateParts. by rewrite cutQuery_hd. Qed.

Lemma span_app v r : ~ sIn "/" v -> (r = "" \/ exists r', r = String "/" r') -> span (v +:+ r) = (v, r).
Proof.
  intros Hv Hr. induction v as [|c v IH].
  - rewrite sapp_nil_l. by destruct Hr as [->|[r' ->]].
  - rewrite sapp_cons. cbn [span]. destruct (Ascii.eqb_spec c "/") as [->|]; [exfalso; apply Hv; by left|].
    rewrite IH; [done|]. intros H. apply Hv. by right.
Qed.

Lemma span_spec s : forall v r, span s = (v, r) ->
  s = v +:+ r /\ ~ sIn "/" v.
Proof.
  induction s as [|c s IH]; simpl; intros v r.
  { intros [= <- <-]. split; [done|auto]. }
  destruct (Ascii.eqb_spec c "/") as [->|Hc]; [intros [= <- <-]; by split; [|auto]|].
  destruct (span s) as [a b]. intros [= <- <-]. destruct (IH a b eq_refl) as [-> H]. split; [done|].
  simpl. intros [?|?]; auto.
Qed.

(** What remains of a match behind one part. *)
Definition restText (vs : list string) : string := match vs with [] => "" | _ => String "/" (Join vs "/") end.
Lemma Join_rest v vs : Join (v :: vs) "/" = v +:+ restText vs.
Proof. destruct vs as [|u vs]; [by rewrite sapp_nil_r|]. by rewrite Join_cons. Qed.
Lemma restText_slash vs : restText vs = "" \/ exists r, restText vs = String "/" r.
Proof. destruct vs; [by left|right; by eexists]. Qed.

Definition contSegs (rest : list segment) (s' : string) : option (list (string * string)) :=
  match rest with
  | [] => if String.eqb s' "" then Some [] else None
  | _ => match s' with
         | String c s'' => if Ascii.eqb c "/" then matchSegs rest s'' else None
         | "" => None
         end
  end.
Lemma matchSegs_cons g rest s : matchSegs (g :: rest) s =
  match g with
  | SLit l => match CutPrefix s l with Some s' => contSegs rest s' | None => None end
  | SParam k => let '(v, s') := span s in if String.eqb v "" then None else
                match contSegs rest s' with Some m => Some ((k, v) :: m) | None => None end
  | SWild => firstSome (fun n => if noNewline (stake n s) then contSegs rest (sdrop n s) else None)
               (rev (List.seq 0 (S (String.length s))))
  end.
Proof. by destruct rest. Qed.

Lemma firstSome_Some {A B} (f : A -> option B) l b : firstSome f l = Some b -> exists x, In x l /\ f x = Some b.
Proof.
  induction l as [|x l IH]; simpl; [done|]. destruct (f x) eqn:E; [intros [= ->]; eauto|].
  intros (y & ? & ?)%IH. eauto.
Qed.

Lemma fills_length ps vs m : fills ps vs m -> length ps = length vs.
Proof. induction 1; simpl; auto. Qed.

Lemma matchSegs_sound ps : forall s m, matchSegs (map segmentOf ps) s = Some m ->
  exists vs, fills ps vs m /\ s = Join vs "/".
Proof.
  induction ps as [|p ps IH]; intros s m; [done|]. cbn [map]. rewrite matchSegs_cons.
  assert (C : forall s' m, contSegs (map segmentOf ps) s' = Some m -> exists vs, fills ps vs m /\ s' = restText vs).
  { intros s' m'. unfold contSegs. destruct ps as [|p' ps']; cbn [map].
    - destruct (String.eqb_spec s' "") as [->|]; [|done]. intros [= <-]. exists []. split; [constructor|done].
    - destruct s' as [|c s']; [done|]. destruct (Ascii.eqb_spec c "/") as [->|]; [|done].
      intros (vs & Hf & ->)%IH. exists vs. split; [done|]. apply fills_length in Hf. by destruct vs. }
  destruct (segmentOf_spec p) as [[-> ->]|[(Hp & key & Hn & ->)|(Hp & Hn & ->)]].
  - intros (n & _ & H)%firstSome_Some. destruct (noNewline (stake n s)) eqn:En; [|done].
    apply C in H as (vs & Hf & E). exists (stake n s :: vs). split; [by constructor|].
    by rewrite Join_rest, <- E, stake_sdrop.
  - destruct (span s) as [v r] eqn:Es. apply span_spec in Es as [-> Hv].
    destruct (String.eqb_spec v "") as [|Hv']; [done|]. destruct (contSegs _ _) as [m'|] eqn:E; [|done].
    intros [= <-]. apply C in E as (vs & Hf & ->). exists (v :: vs). split; [by constructor|].
    by rewrite Join_rest.
  - destruct (CutPrefix s p) as [r|] eqn:Ec; [|done]. apply CutPrefix_Some in Ec as ->.
    intros (vs & Hf & ->)%C. exists (p :: vs). split; [by constructor|]. by rewrite Join_rest.
Qed.

Lemma matchSegs_complete ps vs m : fills ps vs m -> ps <> [] ->
  matchSegs (map segmentOf ps) (Join vs "/") <> None.
Proof.
  induction 1 as [|ps vs m v Hv Hf IH|p key ps vs m v Hp Hn Hv Hs Hf IH|p ps vs m Hp Hn Hf IH]; [done|..]; intros _;
    cbn [map]; rewrite matchSegs_cons, Join_rest;
    (assert (C : contSegs (map segmentOf ps) (restText vs) <> None);
      [unfold contSegs; apply fills_length in Hf; destruct ps, vs; try done; cbn [map restText]; by apply IH|]).
  - change (segmentOf "*") with SWild. cbv beta iota. rewrite firstSome_None. intros H.
    specialize (H (String.length v)). rewrite stake_app, sdrop_app in H. unfold noNewline in H. rewrite Hv in H.
    apply C, H. rewrite <- in_rev, in_seq, slen_app. lia.
  - destruct (segmentOf_spec p) as [[-> ?]|[(_ & key' & Hn' & ->)|(_ & Hn' & _)]]; [done| |by apply Hn' in Hn].
    rewrite span_app by auto using restText_slash. apply String.eqb_neq in Hv. rewrite Hv.
    by destruct (contSegs _ _).
  - destruct (segmentOf_spec p) as [[-> ?]|[(_ & key' & Hn' & _)|(_ & _ & ->)]]; [done|by apply Hn in Hn'|].
    assert (CutPrefix (p +:+ restText vs) p = Some (restText vs)) as -> by (by apply CutPrefix_Some). done.
Qed.

(** The route pattern of a template matches what the template stands for. *)
Lemma matchPattern_sound tpl path m : matchPattern (templateToRegex tpl) path = Some m -> matches tpl path m.
Proof.
  rewrite templateToRegex_parts. unfold matchPattern. destruct path as [|c r]; [done|].
  destruct (Ascii.eqb_spec c "/") as [->|]; [|done]. intros (vs & Hf & ->)%matchSegs_sound. by exists vs.
Qed.
Lemma matchPattern_complete tpl path m : matches tpl path m -> matchPattern (templateToRegex tpl) path <> None.
Proof.
  intros (vs & Hf & ->). rewrite templateToRegex_parts. change ("/" +:+ ?x) with (String "/" x). simpl.
  eapply matchSegs_complete; [done|]. apply Split_nonempty.
Qed.

Lemma sIn_split c s : sIn c s <-> exists p q, s = p +:+ String c q.
Proof.
  induction s as [|a s IH]; simpl; split; try done.
  - by intros ([] & q & H).
  - intros [->|(p & q & ->)%IH]; [by exists "", s|by exists (String a p), q].
  - intros ([|b p] & q & H); [left; by injection H|right; apply IH]. rewrite sapp_cons in H. injection H as -> ->. eauto.
Qed.
Lemma isPattern_spec tpl : isPattern tpl = true <-> isTemplate tpl.
Proof.
  unfold isPattern, isTemplate. rewrite !orb_true_iff, !Contains_spec, !sIn_split.
  split; [intros [[H|H]|H]|intros [H|[H|H]]]; auto.
Qed.

Lemma specificityScore_spec tpl : specificity tpl (specificityScore tpl).
Proof.
  unfold specificity, specificityScore. induction (Split (TrimPrefix tpl "/") "/") as [|p ps IH]; [constructor|].
  cbn [List.filter]. destruct (segmentOf_spec p) as [[-> _]|[(Hp & key & Hn & _)|(Hp & Hn & _)]].
  - eapply eq_rect; [apply rates_wild; [by left|exact IH]|]. cbn [String.eqb orb negb andb]. simpl. lia.
  - eapply eq_rect; [apply rates_wild; [right; by eexists|exact IH]|].
    assert (String.eqb p "*" || HasPrefix p ":" || isBraced p = true) as ->.
    { destruct Hn as [->| ->]; [by rewrite HasPrefix_app, orb_true_r|].
      rewrite (proj2 (isBraced_spec _)) by eauto. by rewrite orb_true_r. }
    simpl. lia.
  - assert (String.eqb p "*" || HasPrefix p ":" || isBraced p = false) as ->.
    { apply String.eqb_neq in Hp. rewrite Hp. simpl. apply orb_false_iff. split.
      - apply not_true_iff_false. intros (r & ->)%HasPrefix_spec. by apply (Hn r); left.
      - apply not_true_iff_false. intros (r & ->)%isBraced_spec. by apply (Hn r); right. }
    simpl. destruct (String.eqb_spec p "") as [->|Hne]; [by constructor|].
    eapply eq_rect; [by apply rates_literal, IH|]. simpl. lia.
Qed.

Lemma rates_functional ps n n' : rates ps n -> rates ps n' -> n = n'.
Proof.
  intros H. revert n'. induction H; intros n' H'; inversion H'; subst; try done;
    repeat match goal with
    | IH : forall n, rates ?ps n -> _, H : rates ?ps _ |- _ => apply IH in H; subst
    | H : _ \/ _ |- _ => destruct H as [H|[? H]]
    | H : names "" _ |- _ => by destruct H
    | H : forall k, ~ names ?p k, H' : names ?p _ |- _ => by apply H in H'
    end; try done; lia.
Qed.

Lemma versionSegment_spec seg : versionSegment seg = existsb (HasPrefix seg) versions.
Proof.
  destruct seg as [|c [|d r]]; [done|by destruct c as [[] [] [] [] [] [] [] []]|].
  cbn [versionSegment]. destruct (Ascii.eqb_spec c "v") as [->|Hc].
  - destruct d as [[] [] [] [] [] [] [] []]; vm_compute; try reflexivity; by destruct r.
  - symmetry. apply not_true_iff_false. intros (v & Hin & (q & Hq)%HasPrefix_spec)%existsb_exists.
    apply Hc. unfold versions in Hin. simpl in Hin. repeat (destruct Hin as [<-|Hin]; [by injection Hq|]). done.
Qed.

Lemma TrimSuffix_none s p : HasSuffix s p = false -> TrimSuffix s p = s.
Proof. unfold TrimSuffix. by intros ->. Qed.

Lemma normalizePath_canonical path : path <> "" -> normalizePath path = canonical path.
Proof.
  intros Hne. unfold normalizePath, canonical. apply String.eqb_neq in Hne. rewrite Hne, cutQuery_hd. cbv zeta.
  destruct (String.eqb_spec (TrimSpace (hd "" (Split path "?"))) "") as [->|Ht]; [done|].
  set (t := TrimSpace _) in *.
  assert ((if (1 <? len t) && HasSuffix t "/" then TrimSuffix t "/" else t) =
          (if String.eqb t "/" then t else TrimSuffix t "/")) as ->.
  { destruct (String.eqb_spec t "/") as [->|Hs]; [done|]. destruct (HasSuffix t "/") eqn:E.
    - destruct (Z.ltb_spec 1 (len t)) as [|Hl]; [done|]. destruct t as [|c [|d r]]; [done| |unfold len in Hl; simpl in Hl; lia].
      exfalso. apply Hs. apply HasPrefix_spec in E as [r Hr]. by injection Hr as ->.
    - by rewrite andb_false_r, TrimSuffix_none. }
  set (p := if String.eqb t "/" then t else TrimSuffix t "/"). clearbody p. clear.
  pose proof (Join_Split (TrimPrefix p "/") "/") as J. change (String "/" "") with "/" in J.
  assert (E : (if HasPrefix p "/" then p else "/" +:+ p) = "/" +:+ TrimPrefix p "/").
  { destruct (HasPrefix p "/") eqn:E; [|by unfold TrimPrefix, CutPrefix; rewrite E].
    apply HasPrefix_spec in E as [r ->]. by rewrite TrimPrefix_app. }
  destruct (Split (TrimPrefix p "/") "/") as [|seg rest]; [by rewrite E, <- J|]. rewrite versionSegment_spec.
  destruct (existsb _ _); [by rewrite HasPrefix_app|]. by rewrite E, <- J.
Qed.

(** *** The configuration the table is built from *)

Section Configured.
Context (compile : string -> option (string -> bool)).

Lemma prepareMethods_lookup (ms ms' : methods) k : prepareMethods compile ms = Some ms' ->
  ms' !! k = ms !! k ≫= prepareRule compile /\ (forall r, ms !! k = Some r -> is_Some (prepareRule compile r)).
Proof.
  unfold prepareMethods. destruct (forallb _ _) eqn:E; [|done]. intros [= <-]. rewrite lookup_omap. split; [done|].
  intros r Hr. rewrite forallb_forall in E. specialize (E (k, r)). apply bool_decide_eq_true in E; [done|].
  apply list_elem_of_In. by apply elem_of_map_to_list.
Qed.

Lemma prepareFieldSpecs_spec raw cfg : prepareFieldSpecs compile raw = Some cfg ->
  Forall2 (fun x y => x.1 = y.1 /\ prepareMethods compile x.2 = Some y.2) raw cfg.
Proof.
  intros H%mapM_Some. eapply Forall2_impl; [exact H|]. intros [t ms] [t' ms']. cbn.
  destruct (prepareMethods compile ms); [|done]. cbn. by intros [= -> ->].
Qed.

(** The prepared configuration has the prepared rules, and no others. *)
Lemma configured_prepared raw cfg tpl method rule : prepareFieldSpecs compile raw = Some cfg ->
  (configured cfg tpl method rule <-> exists r, configured raw tpl method r /\ prepareRule compile r = Some rule).
Proof.
  intros H%prepareFieldSpecs_spec. unfold configured. split.
  - intros (ms' & Hin & Hm). apply list_elem_of_In in Hin. apply list_elem_of_lookup in Hin as [i Hi].
    destruct (Forall2_lookup_r _ _ _ _ _ H Hi) as ([t ms] & Hi' & Ht & Hp). simpl in *. subst t.
    destruct (prepareMethods_lookup _ _ method Hp) as [E _]. rewrite Hm in E. symmetry in E.
    apply bind_Some in E as (r & Hr & E). exists r. split; [|done]. exists ms. split; [|done].
    apply list_elem_of_In. by eapply list_elem_of_lookup_2.
  - intros (r & (ms & Hin & Hm) & Hr). apply list_elem_of_In in Hin. apply list_elem_of_lookup in Hin as [i Hi].
    destruct (Forall2_lookup_l _ _ _ _ _ H Hi) as ([t ms'] & Hi' & Ht & Hp). simpl in *. subst t.
    destruct (prepareMethods_lookup _ _ method Hp) as [E _]. exists ms'. rewrite E, Hm. split; [|done].
    apply list_elem_of_In. by eapply list_elem_of_lookup_2.
Qed.
Lemma configured_ready raw cfg tpl method r : prepareFieldSpecs compile raw = Some cfg ->
  configured raw tpl method r -> exists rule, prepareRule compile r = Some rule.
Proof.
  intros H%prepareFieldSpecs_spec (ms & Hin & Hm). apply list_elem_of_In in Hin. apply list_elem_of_lookup in Hin as [i Hi].
  destruct (Forall2_lookup_l _ _ _ _ _ H Hi) as ([t ms'] & Hi' & Ht & Hp).
  destruct (prepareMethods_lookup _ _ method Hp) as [_ E]. by destruct (E r Hm) as [rule ?]; eauto.
Qed.

Lemma exactRule_configured (cfg : RuleConfig) np method rule : NoDup (map fst cfg) ->
  (exactRule cfg np method = Some rule <-> configured cfg np method rule).
Proof.
  intros Hnd. unfold exactRule, configured. rewrite bind_Some. split; intros (ms & H & Hm); exists ms; (split; [|done]).
  - apply list_elem_of_In. by eapply elem_of_list_to_map_2.
  - apply elem_of_list_to_map_1; [done|]. by apply list_elem_of_In.
Qed.

Lemma collectPatterns_spec cfg ps rp : collectPatterns cfg = Some ps ->
  (In rp ps <-> isTemplate (template rp) /\ In (template rp, rpMethods rp) cfg /\ re_ rp = templateToRegex (template rp)).
Proof.
  intros H%mapM_Some. rewrite <- isPattern_spec.
  assert (G : Forall2 (fun kv rp => rp = {| template := kv.1; re_ := templateToRegex kv.1; rpMethods := kv.2 |})
                (List.filter (fun kv => isPattern kv.1) cfg) ps).
  { eapply Forall2_impl; [exact H|]. intros [t ms] q. cbn. destruct (forallb _ _); [|done]. by intros [= <-]. }
  clear H. rewrite <- !list_elem_of_In. split.
  - intros [i Hi]%list_elem_of_lookup. destruct (Forall2_lookup_r _ _ _ _ _ G Hi) as ([t ms] & Hk & ->). simpl.
    apply list_elem_of_lookup_2 in Hk. apply list_elem_of_In, filter_In in Hk as [Hk Ht]. rewrite list_elem_of_In. auto.
  - intros (Ht & Hin & Hr). assert (Hk : (template rp, rpMethods rp) ∈ List.filter (fun kv => isPattern kv.1) cfg).
    { apply list_elem_of_In, filter_In. split; [by apply list_elem_of_In|done]. }
    apply list_elem_of_lookup in Hk as [i Hi]. destruct (Forall2_lookup_l _ _ _ _ _ G Hi) as (q & Hq & Eq).
    assert (rp = q) as ->; [|by eapply list_elem_of_lookup_2]. destruct rp; simpl in *. by subst.
Qed.

(** What loading a configuration leaves. *)
Lemma load_spec unmarshal data raw s : unmarshal data = Ok (Some raw) ->
  LoadConfigWithData unmarshal compile data unloaded = (s, true) ->
  exists cfg ps, s = {| ruleMap := Some cfg; patternRoutes := sortPatterns ps; configLoaded := true |} /\
    prepareFieldSpecs compile raw = Some cfg /\ collectPatterns cfg = Some ps.
Proof.
  intros Hu. unfold LoadConfigWithData, parseConfigFromData. rewrite Hu. simpl.
  destruct (collectPatterns raw); [|done]. destruct (prepareFieldSpecs compile raw) as [cfg|]; [|done].
  destruct (collectPatterns cfg) as [ps|] eqn:E; [|done]. intros [= <-]. eauto 6.
Qed.

(** A pattern that applies is a template that matches, with a configured rule. *)
Lemma patternRule_spec cfg ps np method rp : collectPatterns cfg = Some ps -> In rp ps ->
  match patternRule np method rp with
  | Some (rule, m) => exists binds, matches (template rp) np binds /\ configured cfg (template rp) method rule /\
                        m = Some (list_to_map (rev binds))
  | None => forall binds rule, matches (template rp) np binds -> rpMethods rp !! method <> Some rule
  end.
Proof.
  intros Hc Hin. apply (collectPatterns_spec _ _ _ Hc) in Hin as (Ht & Hin & Hr). unfold patternRule. rewrite Hr.
  destruct (matchPattern _ np) as [g|] eqn:Eg.
  - destruct (rpMethods rp !! method) as [rule|] eqn:Em; [|done]. exists g.
    split; [by apply matchPattern_sound|]. split; [by exists (rpMethods rp)|done].
  - intros binds rule Hm%matchPattern_complete. done.
Qed.
End Configured.

(** (C6) The rule that applies is the most specific one.  After a configuration
    was loaded, for every path and method: a rule found without parameters is the
    prepared rule configured for the canonical path itself; a rule found with
    parameters is the prepared rule of a configured template that stands for the
    path, with the texts its parameters stand for, no template for that method that
    stands for the path is more specific, and the path itself has no rule; and when
    nothing is found, neither the path nor any template for it has a rule. *)
Theorem GetRule_most_specific (unmarshal : string -> result (option RuleConfig))
    (compile : string -> option (string -> bool)) (data : string) (raw : RuleConfig)
    (s : ruleState) (path method : string)
    (Hu : unmarshal data = Ok (Some raw)) (Hnd : NoDup (map fst raw))
    (Hl : LoadConfigWithData unmarshal compile data unloaded = (s, true))
    (Hp : path <> "") (Hm : method <> "") :
  let np := canonical path in
  match GetRule s path method with
  | Some (rule, None) => exists r, configured raw np method r /\ prepareRule compile r = Some rule
  | Some (rule, Some m) => (forall r, ~ configured raw np method r) /\
      exists tpl r binds n, isTemplate tpl /\ configured raw tpl method r /\ prepareRule compile r = Some rule /\
        matches tpl np binds /\ m = list_to_map (rev binds) /\ specificity tpl n /\
        forall tpl' r' binds' n', isTemplate tpl' -> configured raw tpl' method r' -> matches tpl' np binds' ->
          specificity tpl' n' -> n' <= n
  | None => (forall r, ~ configured raw np method r) /\
      forall tpl r binds, isTemplate tpl -> configured raw tpl method r -> ~ matches tpl np binds
  end.
Proof.
  cbv zeta. rewrite <- normalizePath_canonical by done. set (np := normalizePath path).
  destruct (load_spec _ _ _ _ _ Hu Hl) as (cfg & ps & -> & Hf & Hc).
  assert (Hnd' : NoDup (map fst cfg)).
  { replace (map fst cfg) with (map fst raw); [done|]. pose proof (prepareFieldSpecs_spec _ _ _ Hf) as H.
    clear -H. induction H as [|x y l l' [E _] _ IH]; simpl; congruence. }
  unfold GetRule. simpl. apply String.eqb_neq in Hp, Hm. rewrite Hp, Hm. simpl. fold np.
  destruct (exactRule cfg np method) as [rule|] eqn:Ex.
  { apply exactRule_configured in Ex; [|done]. by apply (configured_prepared _ _ _ _ _ _ Hf). }
  assert (Hno : forall r, ~ configured raw np method r).
  { intros r Hr. destruct (configured_ready _ _ _ _ _ _ Hf Hr) as [rule Hrule].
    assert (configured cfg np method rule) as H by (apply (configured_prepared _ _ _ _ _ _ Hf); eauto).
    apply exactRule_configured in H; [|done]. congruence. }
  (* a configured template that matches is a pattern that applies *)
  assert (Hall : forall tpl r binds, isTemplate tpl -> configured raw tpl method r -> matches tpl np binds ->
    exists rp, In rp (sortPatterns ps) /\ template rp = tpl /\ patternRule np method rp <> None).
  { intros tpl r binds Ht Hr Hb. destruct (configured_ready _ _ _ _ _ _ Hf Hr) as [rule Hrule].
    assert (configured cfg tpl method rule) as (ms & Hin & Hms) by (apply (configured_prepared _ _ _ _ _ _ Hf); eauto).
    pose (rp := {| template := tpl; re_ := templateToRegex tpl; rpMethods := ms |}). exists rp.
    assert (In rp ps) as Hrp by by apply (collectPatterns_spec _ _ _ Hc).
    split; [by apply sortPatterns_spec|]. split; [done|]. pose proof (patternRule_spec _ _ np method _ Hc Hrp) as H.
    intros E. rewrite E in H. by apply (H binds rule). }
  destruct (sortPatterns_spec ps) as [Hd Hin].
  destruct (firstSome _ (sortPatterns ps)) as [[rule m]|] eqn:Ef.
  - destruct (firstSome_best _ _ _ Hd Ef) as (rp & Hrp & Hr & Hbest). apply Hin in Hrp.
    pose proof (patternRule_spec _ _ np method _ Hc Hrp) as H. rewrite Hr in H. destruct H as (binds & Hb & Hcf & ->).
    split; [done|]. apply (configured_prepared _ _ _ _ _ _ Hf) in Hcf as (r & Hr' & Hpr).
    exists (template rp), r, binds, (specificityScore (template rp)).
    split_and!; try done; [by apply (collectPatterns_spec _ _ _ Hc)|apply specificityScore_spec|].
    intros tpl' r' binds' n' Ht' Hc' Hm' Hn'. destruct (Hall _ _ _ Ht' Hc' Hm') as (rp' & Hi & <- & Hne).
    rewrite (rates_functional _ _ _ Hn' (specificityScore_spec _)). by apply Hbest.
  - split; [done|]. intros tpl r binds Ht Hr Hb. destruct (Hall _ _ _ Ht Hr Hb) as (rp & Hi & _ & Hne).
    rewrite firstSome_None in Ef. by apply Hne, Ef.
Qed.

(** ** Equal scores *)

Definition emptyRule (version : Z) : EvalRule :=
  {| Level := "strict"; rHeaders := ∅; rPathParams := ∅; rQueryParams := ∅; rBody := ∅;
     RequiredVersion := version |}.
Definition tied : RuleConfig :=
  [("/orders/:id", {["GET" := emptyRule 1]}); ("/:kind/latest", {["GET" := emptyRule 2]})].

(** The order of templates with equal scores is the iteration order of a
    map: the same configuration, visited in two orders, applies two different
    rules to one path. *)
Theorem equal_scores_are_ambiguous :
  exists cfg cfg', Permutation cfg cfg' /\
    forall compile, exists ps ps' r r' m m',
      parseConfigFromData (fun _ => Ok (Some cfg)) compile "" = Ok (Some cfg, ps) /\
      parseConfigFromData (fun _ => Ok (Some cfg')) compile "" = Ok (Some cfg', ps') /\
      GetRule (loadedState (Some cfg) ps) "/orders/latest" "GET" = Some (r, m) /\
      GetRule (loadedState (Some cfg') ps') "/orders/latest" "GET" = Some (r', m') /\
      RequiredVersion r <> RequiredVersion r'.
Proof.
  exists tied, (rev tied). split; [apply perm_swap|]. intros compile.
  do 6 eexists. split; [vm_compute; reflexivity|]. split; [vm_compute; reflexivity|].
  split; [vm_compute; reflexivity|]. split; [vm_compute; reflexivity|]. vm_compute. discriminate.
Qed.

(** ** What a valid request satisfies *)

(** What a value has to be, read off the specification as it is configured. *)
Definition conforms (compile : string -> option (string -> bool)) (spec : FieldSpec) (v : string) : Prop :=
  (Pattern spec <> "" -> exists matcher, compile (Pattern spec) = Some matcher /\ matcher v = true) /\
  (Enum spec <> [] -> In v (Enum spec)) /\
  (0 < MinLen spec -> MinLen spec <= len v) /\
  (0 < MaxLen spec -> len v <= MaxLen spec) /\
  (Type_ spec = "int" -> exists n, Atoi v = Some n) /\
  (Type_ spec = "bool" -> v = "true" \/ v = "false").
(** A required value is there; one that is there conforms.  An empty value
    counts as absent. *)
Definition satisfies (compile : string -> option (string -> bool)) (spec : FieldSpec) (val : option string) : Prop :=
  (Required spec = true -> exists v, val = Some v /\ v <> "") /\
  forall v, val = Some v -> v <> "" -> conforms compile spec v.
(** The text a header must have, or start with. *)
Definition headerValue (spec : FieldSpec) (v : string) : Prop :=
  forall want, Value_ spec = Some want -> want <> "" ->
    (forall prefix, want = prefix +:+ "*" -> exists rest, v = prefix +:+ rest) /\
    ((forall prefix, want <> prefix +:+ "*") -> v = want).
(** A field of a body has the kind its type asks for, and its text conforms. *)
Definition fits (compile : string -> option (string -> bool)) (spec : FieldSpec) (v : jval) : Prop :=
  (Type_ spec = "" \/ Type_ spec = "string" -> jKind v = JString) /\
  (Type_ spec = "int" -> jKind v = JNumber) /\
  (Type_ spec = "bool" -> jKind v = JBool) /\
  conforms compile spec (if bool_decide (Type_ spec ∈ ["" ; "string"; "int"; "bool"]) then jText v else jSprint v).
(** An empty text has no fields; otherwise it decodes to an object. *)
Definition textConforms (compile : string -> option (string -> bool))
    (decodeBody : string -> option (gmap string jval)) (raw : EvalRule) (text : string) : Prop :=
  if String.eqb text "" then forall k spec, rBody raw !! k = Some spec -> Required spec = false
  else exists m, decodeBody text = Some m /\
       forall k spec, rBody raw !! k = Some spec ->
         (Required spec = true -> exists v, m !! k = Some v) /\ forall v, m !! k = Some v -> fits compile spec v.
Definition bodyConforms (compile : string -> option (string -> bool))
    (decodeBody : string -> option (gmap string jval)) (raw : EvalRule) (b : Body) : Prop :=
  (BodyErr b = None \/ 2 ^ 20 <= len (BodyBytes b)) /\
  textConforms compile decodeBody raw (stakeZ (2 ^ 20) (BodyBytes b)).

(** The unexported fields of a specification are not part of a configuration. *)
Definition unprepared (spec : FieldSpec) : Prop := compiled spec = None /\ enumSet spec = None.

Lemma forallb_map {A} (f : string * A -> bool) (m : gmap string A) :
  forallb f (map_to_list m) = true <-> forall k v, m !! k = Some v -> f (k, v) = true.
Proof.
  rewrite forallb_forall. split.
  - intros H k v Hk. apply H. apply list_elem_of_In. by apply elem_of_map_to_list.
  - intros H [k v] Hk. apply H. apply elem_of_map_to_list. by apply list_elem_of_In.
Qed.

Section Prepared.
Context (compile : string -> option (string -> bool)).

Lemma validate_prepared spec spec' v : unprepared spec -> prepare compile spec = Some spec' ->
  (validateFieldValue spec' v = true <-> conforms compile spec v).
Proof.
  intros [Hc He] Hp. assert (HT : Type_ spec' = Type_ spec /\ MinLen spec' = MinLen spec /\ MaxLen spec' = MaxLen spec /\
    enumSet spec' = match Enum spec with [] => None | l => Some (list_to_set l) end /\
    compiled spec' = if String.eqb (Pattern spec) "" then None else compile (Pattern spec)).
  { unfold prepare in Hp. rewrite Hc, He in Hp. destruct (String.eqb _ ""); [by injection Hp as <-|].
    destruct (compile _); [by injection Hp as <-|done]. }
  destruct HT as (HT & Hmin & Hmax & Hen & Hco). unfold validateFieldValue, conforms. rewrite HT, Hmin, Hmax, Hen, Hco.
  rewrite !andb_true_iff, !negb_true_iff, !andb_false_iff, !Z.ltb_ge.
  assert (P : match (if String.eqb (Pattern spec) "" then None else compile (Pattern spec)) with
              | Some m => m v | None => true end = true <->
              (Pattern spec <> "" -> exists matcher, compile (Pattern spec) = Some matcher /\ matcher v = true)).
  { destruct (String.eqb_spec (Pattern spec) "") as [E|E]; [by split|].
    destruct (compile (Pattern spec)) as [m|] eqn:Em; [split; eauto; intros H; destruct (H E) as (? & [= <-] & ?); done|].
    exfalso. unfold prepare in Hp. apply String.eqb_neq in E. by rewrite E, Em in Hp. }
  assert (E : match match Enum spec with [] => None | l => Some (list_to_set l : gset string) end with
              | Some s => bool_decide (v ∈ s) | None => true end = true <-> (Enum spec <> [] -> In v (Enum spec))).
  { destruct (Enum spec) as [|x l]; [by split|]. rewrite bool_decide_eq_true, elem_of_list_to_set, list_elem_of_In.
    split; [auto|]. intros H. by apply H. }
  assert (T : (if String.eqb (Type_ spec) "int" then bool_decide (is_Some (Atoi v))
               else if String.eqb (Type_ spec) "bool" then String.eqb v "true" || String.eqb v "false" else true) = true <->
              ((Type_ spec = "int" -> exists n, Atoi v = Some n) /\ (Type_ spec = "bool" -> v = "true" \/ v = "false"))).
  { destruct (String.eqb_spec (Type_ spec) "int") as [->|Hi].
    - rewrite bool_decide_eq_true. unfold is_Some. naive_solver.
    - destruct (String.eqb_spec (Type_ spec) "bool") as [->|Hb]; [|naive_solver].
      rewrite orb_true_iff, !String.eqb_eq. naive_solver. }
  rewrite P, E, T. clear P E T. destruct (Z.ltb_spec 0 (MinLen spec)), (Z.ltb_spec 0 (MaxLen spec));
    rewrite ?Z.ltb_ge; intuition lia.
Qed.

Lemma prepare_Required spec spec' : prepare compile spec = Some spec' ->
  Required spec' = Required spec /\ Value_ spec' = Value_ spec /\ Type_ spec' = Type_ spec.
Proof. unfold prepare. by repeat case_match; intros [= <-]. Qed.

Lemma satisfies_prepared spec spec' (m : gmap string string) k : unprepared spec -> prepare compile spec = Some spec' ->
  (paramOK m (k, spec') = true <-> satisfies compile spec (m !! k)).
Proof.
  intros Hu Hp. destruct (prepare_Required _ _ Hp) as (HR & _). unfold paramOK, satisfies. rewrite HR.
  pose proof (fun v => validate_prepared spec spec' v Hu Hp) as HV. destruct (m !! k) as [v|].
  - destruct (String.eqb_spec v "") as [->|Hv].
    + destruct (Required spec); simpl; [|naive_solver]. split; [done|]. intros [H _]. by destruct (H eq_refl) as (? & [= <-] & ?).
    + rewrite HV. naive_solver.
  - destruct (Required spec); simpl; [|naive_solver]. split; [done|]. intros [H _]. by destruct (H eq_refl) as (? & [=] & _).
Qed.

(** Checking the prepared fields is checking the configured ones. *)
Lemma forall_prepared (f f' : fields) (ok : string * FieldSpec -> bool) (P : string -> FieldSpec -> Prop) :
  prepareFields compile f = Some f' ->
  (forall k spec spec', f !! k = Some spec -> prepare compile spec = Some spec' -> (ok (k, spec') = true <-> P k spec)) ->
  (forallb ok (map_to_list f') = true <-> forall k spec, f !! k = Some spec -> P k spec).
Proof.
  unfold prepareFields. destruct (forallb _ _) eqn:E; [|done]. intros [= <-] H. rewrite forallb_map. rewrite forallb_map in E.
  split.
  - intros Hok k spec Hk. specialize (E k spec Hk). apply bool_decide_eq_true in E as [spec' Hp].
    apply (H k spec spec' Hk Hp), Hok. rewrite lookup_omap, Hk. exact Hp.
  - intros Hok k spec' Hk. rewrite lookup_omap in Hk. apply bind_Some in Hk as (spec & Hk & Hp). by apply (H k spec spec' Hk Hp), Hok.
Qed.
End Prepared.

Lemma valueMatches_spec spec v : valueMatches spec v = true <-> headerValue spec v.
Proof.
  unfold valueMatches, headerValue. destruct (Value_ spec) as [want|]; [|naive_solver].
  destruct (String.eqb_spec want "") as [->|Hw]; [naive_solver|].
  destruct (srev want) as [|c r] eqn:E; [exfalso; apply Hw; by rewrite <- (srev_involutive want), E|].
  assert (Hwant : want = srev r +:+ String c "") by (rewrite <- (srev_involutive want), E; apply srev_cons).
  clear E. subst want. destruct (Ascii.eqb_spec c "*") as [->|Hc].
  - rewrite HasPrefix_spec. split.
    + intros (rest & ->) w [= <-] _. split; [|intros H; by destruct (H (srev r))].
      intros q Hq. apply (f_equal (fun x => TrimSuffix x "*")) in Hq. cbv beta in Hq. rewrite !TrimSuffix_app in Hq.
      subst q. by eexists.
    + intros H. by apply (H _ eq_refl).
  - rewrite String.eqb_eq. split.
    + intros -> w [= <-] _. split; [|done]. intros q Hq. exfalso. apply Hc.
      apply (f_equal srev) in Hq. rewrite !srev_app_distr in Hq. by injection Hq.
    + intros H. apply (H _ eq_refl); [done|]. intros q Hq. apply Hc.
      apply (f_equal srev) in Hq. rewrite !srev_app_distr in Hq. by injection Hq.
Qed.

Lemma prepareFields_empty compile f f' : prepareFields compile f = Some f' -> (f' = ∅ <-> f = ∅).
Proof.
  unfold prepareFields. destruct (forallb _ _) eqn:E; [|done]. intros [= <-]. rewrite forallb_map in E. split.
  - intros H. apply map_empty. intros k. destruct (f !! k) as [spec|] eqn:Hk; [|done].
    specialize (E k spec Hk). apply bool_decide_eq_true in E as [spec' Hp].
    assert (omap (prepare compile) f !! k = None) as Hn by (by rewrite H, lookup_empty). rewrite lookup_omap, Hk in Hn.
    change (prepare compile spec = None) in Hn. cbn [snd] in Hp. congruence.
  - intros ->. apply omap_empty.
Qed.

Lemma bodyFieldOK_spec compile spec spec' m k : unprepared spec -> prepare compile spec = Some spec' ->
  (bodyFieldOK m (k, spec') = true <->
   (Required spec = true -> exists v, m !! k = Some v) /\ forall v, m !! k = Some v -> fits compile spec v).
Proof.
  intros Hu Hp. destruct (prepare_Required compile _ _ Hp) as (HR & _ & HT). unfold bodyFieldOK. rewrite HR, HT.
  pose proof (fun v => validate_prepared compile spec spec' v Hu Hp) as HV. destruct (m !! k) as [v|].
  2:{ destruct (Required spec); simpl; [|naive_solver]. split; [done|]. intros [H _]. by destruct (H eq_refl). }
  transitivity (fits compile spec v); [|naive_solver]. unfold fits. rewrite <- !HV. clear HV.
  destruct (String.eqb_spec (Type_ spec) "") as [->|H1]; [destruct (jKind v); simpl; naive_solver|].
  destruct (String.eqb_spec (Type_ spec) "string") as [->|H2]; [destruct (jKind v); simpl; naive_solver|].
  destruct (String.eqb_spec (Type_ spec) "int") as [->|H3]; [destruct (jKind v); simpl; naive_solver|].
  destruct (String.eqb_spec (Type_ spec) "bool") as [->|H4]; [destruct (jKind v); simpl; naive_solver|].
  simpl. rewrite bool_decide_false by set_solver. naive_solver.
Qed.

Section Accepted.
Context (compile : string -> option (string -> bool)).

Lemma version_spec req rule : Level rule <> LevelLenient ->
  (isValidVersion req rule = true <->
   0 < RequiredVersion rule /\ Atoi (TrimPrefix (GetAPIVersion (Some req)) "/v") = Some (RequiredVersion rule)).
Proof.
  intros Hn. unfold isValidVersion. apply String.eqb_neq in Hn. rewrite Hn.
  destruct (Z.leb_spec (RequiredVersion rule) 0); [split; [done|lia]|].
  destruct (String.eqb_spec (GetAPIVersion (Some req)) "") as [->|]; [split; [done|by intros [_ ?]]|].
  destruct (Atoi _) as [v|]; [|split; [done|by intros [_ ?]]]. rewrite Z.eqb_eq. naive_solver.
Qed.

Lemma headers_spec e jwt req (raw rule : EvalRule) :
  prepareFields compile (rHeaders raw) = Some (rHeaders rule) ->
  (forall k spec, rHeaders raw !! k = Some spec -> unprepared spec) ->
  (areValidHeaders e jwt req rule = true <->
   forall h spec, rHeaders raw !! h = Some spec ->
     let v := hget (Header req) h in
     (Required spec = true -> v <> "") /\
     (v <> "" -> headerValue spec v /\ conforms compile spec v /\ headerValid e jwt h req = true)).
Proof.
  intros Hp Hu. unfold areValidHeaders. apply (forall_prepared compile _ _ _ _ Hp). intros h spec spec' Hk Hs. cbv zeta.
  destruct (prepare_Required compile _ _ Hs) as (HR & HV & _). unfold headerOK. rewrite HR.
  destruct (String.eqb_spec (hget (Header req) h) "") as [->|Hv].
  - destruct (Required spec); simpl; naive_solver.
  - rewrite !andb_true_iff, (validate_prepared compile spec spec' _ (Hu _ _ Hk) Hs).
    assert (valueMatches spec' (hget (Header req) h) = valueMatches spec (hget (Header req) h)) as ->
      by (unfold valueMatches; by rewrite HV). rewrite valueMatches_spec. naive_solver.
Qed.

Lemma pathParams_spec (raw rule : EvalRule) (p : params) :
  prepareFields compile (rPathParams raw) = Some (rPathParams rule) ->
  (forall k spec, rPathParams raw !! k = Some spec -> unprepared spec) ->
  (areValidPathParams rule p = true <->
   forall k spec, rPathParams raw !! k = Some spec -> satisfies compile spec (m ← p; m !! k)).
Proof.
  intros Hp Hu. unfold areValidPathParams. destruct p as [m|]; cbn [mbind option_bind];
    apply (forall_prepared compile _ _ _ _ Hp); intros k spec spec' Hk Hs.
  - by apply satisfies_prepared; [eapply Hu|].
  - cbn [snd]. destruct (prepare_Required compile _ _ Hs) as (-> & _). unfold satisfies.
    destruct (Required spec); simpl; [|naive_solver]. split; [done|]. intros [H _]. by destruct (H eq_refl) as (? & ? & ?).
Qed.

Lemma queryParams_spec req (raw rule : EvalRule) :
  prepareFields compile (rQueryParams raw) = Some (rQueryParams rule) ->
  (forall k spec, rQueryParams raw !! k = Some spec -> unprepared spec) ->
  (areValidQueryParams req rule = true <->
   forall q spec, rQueryParams raw !! q = Some spec -> satisfies compile spec (GetQueryParams (Some req) !! q)).
Proof.
  intros Hp Hu. unfold areValidQueryParams. apply (forall_prepared compile _ _ _ _ Hp).
  intros k spec spec' Hk Hs. by apply satisfies_prepared; [eapply Hu|].
Qed.

Lemma text_spec decodeBody (req : Request) (raw rule : EvalRule) text :
  prepareFields compile (rBody raw) = Some (rBody rule) ->
  (forall k spec, rBody raw !! k = Some spec -> unprepared spec) ->
  ((if String.eqb text "" then (forallb (fun kv => negb (Required kv.2)) (map_to_list (rBody rule)), req)
    else match decodeBody text with
         | None => (false, req)
         | Some m => (forallb (bodyFieldOK m) (map_to_list (rBody rule)), req)
         end).1 = true <-> textConforms compile decodeBody raw text).
Proof.
  intros Hp Hu. unfold textConforms. destruct (String.eqb text ""); cbn [fst].
  - apply (forall_prepared compile _ _ _ (fun _ spec => Required spec = false) Hp). intros k spec spec' Hk Hs. cbn [snd].
    destruct (prepare_Required compile _ _ Hs) as (-> & _). by rewrite negb_true_iff.
  - destruct (decodeBody text) as [m|]; cbn [fst]; [|split; [done|by intros (? & ? & _)]].
    transitivity (forall k spec, rBody raw !! k = Some spec ->
      (Required spec = true -> exists v, m !! k = Some v) /\ forall v, m !! k = Some v -> fits compile spec v); [|naive_solver].
    apply (forall_prepared compile _ _ _ _ Hp). intros k spec spec' Hk Hs. apply bodyFieldOK_spec; eauto.
Qed.

Lemma body_spec decodeBody req (raw rule : EvalRule) b :
  prepareFields compile (rBody raw) = Some (rBody rule) -> ReqBody req = Some b ->
  (forall k spec, rBody raw !! k = Some spec -> unprepared spec) ->
  ((isValidBody decodeBody req rule).1 = true <->
   In (Method req) ["GET"; "HEAD"; "OPTIONS"] \/ rBody raw = ∅ \/ bodyConforms compile decodeBody raw b).
Proof.
  intros Hp Hb Hu. unfold isValidBody. destruct (existsb _ _) eqn:Em.
  { split; [|done]. intros _. left. apply existsb_exists in Em as (m & Hm & Heq). apply String.eqb_eq in Heq. by subst. }
  assert (Hm : ~ In (Method req) ["GET"; "HEAD"; "OPTIONS"]).
  { intros H. apply not_true_iff_false in Em. apply Em, existsb_exists. exists (Method req). by rewrite String.eqb_refl. }
  pose proof (prepareFields_empty _ _ _ Hp) as Hem. case_bool_decide as He; [naive_solver|].
  rewrite Hb. cbn [default from_option]. unfold bodyConforms, maxBody, id. cbv zeta.
  pose proof (text_spec decodeBody (withBody req (Some {| BodyBytes := stakeZ (2 ^ 20) (BodyBytes b); BodyErr := None |}) (ContentLength req))
    raw rule (stakeZ (2 ^ 20) (BodyBytes b)) Hp Hu) as HT.
  destruct (Z.ltb_spec (len (BodyBytes b)) (2 ^ 20)) as [Hlt|Hge]; cbn [andb]; [|rewrite HT; tauto].
  case_bool_decide as Herr; [|apply eq_None_not_Some in Herr; rewrite HT; tauto].
  cbn [fst]. split; [done|]. intros [?|[?|[[E|?] _]]]; [done|tauto| |lia].
  destruct Herr as [? ?]. congruence.
Qed.
End Accepted.

(** No specification of a rule has been prepared. *)
Definition asConfigured (raw : EvalRule) : Prop :=
  forall k spec, rHeaders raw !! k = Some spec \/ rPathParams raw !! k = Some spec \/
    rQueryParams raw !! k = Some spec \/ rBody raw !! k = Some spec -> unprepared spec.

(** (C7) A strict rule accepts exactly the requests that satisfy it as it is
    configured: the version is the required one; every header is there if required
    and, if there, has the configured text or prefix, conforms, and passes the header
    check; every path and query parameter is there if required and conforms if
    there, a path matched without parameters having none; and unless the method has
    no body or the rule no body fields, the first 2^20 bytes of the body could be
    read and decode to an object whose fields are there if required, of the right
    kind, and conform. *)
Theorem strict_rule_enforced (compile : string -> option (string -> bool))
    (decodeBody : string -> option (gmap string jval)) (e : Env)
    (jwt : option (string -> result bool)) (req : Request) (raw rule : EvalRule) (b : Body) (p : params)
    (Hraw : asConfigured raw) (Hr : prepareRule compile raw = Some rule) (Hb : ReqBody req = Some b)
    (Hl : Level raw <> LevelIgnore /\ Level raw <> LevelLenient) :
  (IsRuleValid decodeBody e jwt req rule p).1 = true <->
  (0 < RequiredVersion raw /\
   Atoi (TrimPrefix (GetAPIVersion (Some req)) "/v") = Some (RequiredVersion raw)) /\
  (forall h spec, rHeaders raw !! h = Some spec ->
     let v := hget (Header req) h in
     (Required spec = true -> v <> "") /\
     (v <> "" -> headerValue spec v /\ conforms compile spec v /\ headerValid e jwt h req = true)) /\
  (forall k spec, rPathParams raw !! k = Some spec -> satisfies compile spec (m ← p; m !! k)) /\
  (forall q spec, rQueryParams raw !! q = Some spec ->
     satisfies compile spec (GetQueryParams (Some req) !! q)) /\
  (In (Method req) ["GET"; "HEAD"; "OPTIONS"] \/ rBody raw = ∅ \/ bodyConforms compile decodeBody raw b).
Proof.
  destruct Hl as [Hi Hn]. unfold prepareRule in Hr.
  destruct (prepareFields compile (rHeaders raw)) as [hs|] eqn:EH; [|done].
  destruct (prepareFields compile (rPathParams raw)) as [pp|] eqn:EP; [|done].
  destruct (prepareFields compile (rQueryParams raw)) as [qs|] eqn:EQ; [|done].
  destruct (prepareFields compile (rBody raw)) as [bs|] eqn:EB; [|done]. injection Hr as <-.
  unfold IsRuleValid. cbn [Level]. apply String.eqb_neq in Hi, Hn. rewrite Hi.
  rewrite (surjective_pairing (isValidBody _ _ _)).
  set (rule := {| Level := _ |}).
  transitivity (isValidVersion req rule = true /\ areValidHeaders e jwt req rule = true /\ areValidPathParams rule p = true /\
    areValidQueryParams req rule = true /\ (isValidBody decodeBody req rule).1 = true).
  { destruct (isValidVersion _ _), (areValidHeaders _ _ _ _), (areValidPathParams _ _), (areValidQueryParams _ _); simpl; naive_solver. }
  rewrite (version_spec req rule) by (cbn; by apply String.eqb_neq).
  rewrite (headers_spec compile e jwt req raw rule) by (try exact EH; intros; eapply Hraw; eauto).
  rewrite (pathParams_spec compile raw rule p) by (try exact EP; intros; eapply Hraw; eauto).
  rewrite (queryParams_spec compile req raw rule) by (try exact EQ; intros; eapply Hraw; eauto).
  rewrite (body_spec compile decodeBody req raw rule b) by (try exact EB; try exact Hb; intros; eapply Hraw; eauto 6).
  done.
Qed.

(** The middleware hands on a shortened body.  Under a rule with a body
    schema, an accepted request reaches the handler with at most the first
    2^20 bytes of its body, without any error, and with its old content
    length. *)
Theorem validated_body_truncated (decodeBody : string -> option (gmap string jval)) {W} `{Clock W}
    (e : Env) (jwt : option (string -> result bool)) (s : ruleState) (f : handler W) (req : Request)
    (u : URL) (b : Body) (rule : EvalRule) (p : params) (wtr : Writer) (w : W)
    (Hu : ReqURL req = Some u) (Hb : ReqBody req = Some b) (Hr : GetRule s (Path u) (Method req) = Some (rule, p))
    (Hs : Level rule <> LevelIgnore) (Hbody : rBody rule <> ∅)
    (Hm : In (Method req) ["POST"; "PUT"; "PATCH"; "DELETE"])
    (Hv : (IsRuleValid decodeBody e jwt req rule p).1 = true) :
  RuleValidationMiddleware decodeBody e jwt s f req wtr w =
  f (withBody req (Some {| BodyBytes := stakeZ maxBody (BodyBytes b); BodyErr := None |})
       (ContentLength req)) wtr w.
Proof.
  unfold RuleValidationMiddleware, ValidationMiddleware. rewrite Hu, Hr.
  assert (E : (IsRuleValid decodeBody e jwt req rule p).2 =
    withBody req (Some {| BodyBytes := stakeZ maxBody (BodyBytes b); BodyErr := None |})
      (ContentLength req)).
  { unfold IsRuleValid in *. apply String.eqb_neq in Hs. rewrite Hs in *.
    destruct (_ && _ && _ && _); [|done]. unfold isValidBody in *.
    destruct (existsb _ _) eqn:Em.
    { apply existsb_exists in Em as (m & Hin & Heq). apply String.eqb_eq in Heq. subst m.
      simpl in Hin, Hm. exfalso. by intuition congruence. }
    rewrite bool_decide_false in * by done. rewrite Hb in *. cbn [default from_option] in *. unfold id in *.
    destruct (_ && _); [done|]. destruct (String.eqb _ ""); [done|]. by destruct (decodeBody _). }
  destruct (IsRuleValid decodeBody e jwt req rule p) as [ok req']. simpl in *. by subst.
Qed.

(** ** Witnesses *)

Definition specific : RuleConfig :=
  [("/orders/*", {["GET" := emptyRule 1]}); ("/orders/:id", {["GET" := emptyRule 2]});
   ("/orders/{id}/items", {["GET" := emptyRule 3]})].
Definition no_regexp (_ : string) : option (string -> bool) := None.

Definition specific_state : ruleState :=
  fst (LoadConfigWithData (fun _ => Ok (Some specific)) no_regexp "" unloaded).

(** The items of an order fall under the more specific rule, not under "*". *)
Lemma GetRule_most_specific_witness :
  GetRule specific_state "/v1/orders/7/items?all" "GET" = Some (emptyRule 3, Some {["id" := "7"]}) /\
  (forall r, ~ configured specific "/orders/7/items" "GET" r).
Proof.
  pose proof (GetRule_most_specific (fun _ => Ok (Some specific)) no_regexp "" specific specific_state
    "/v1/orders/7/items?all" "GET" eq_refl
    ltac:(apply (bool_decide_unpack _); vm_compute; exact I)
    ltac:(vm_compute; reflexivity) ltac:(discriminate) ltac:(discriminate)) as H.
  split; [vm_compute; reflexivity|]. exact (proj1 H).
Defined.

Definition ofType (t : string) (required : bool) (enum : list string) (maxLen : Z) : FieldSpec :=
  {| Type_ := t; Required := required; Value_ := None; Pattern := ""; Enum := enum; MinLen := 0; MaxLen := maxLen;
     compiled := None; enumSet := None |}.
Definition limited : EvalRule :=
  {| Level := "strict"; rHeaders := ∅; rPathParams := {["id" := ofType "int" true [] 0]};
     rQueryParams := {["limit" := ofType "int" true ["5"; "10"] 2]};
     rBody := {["open" := ofType "bool" true [] 0]}; RequiredVersion := 1 |}.
Definition limited_ready : EvalRule := default limited (prepareRule no_regexp limited).
Definition limited_req : Request :=
  {| Method := "POST"; ReqURL := Some {| Path := "/v1/orders/7"; RawQuery := "limit=5" |}; Header := ∅;
     RemoteAddr := ""; ContentLength := 2; ReqBody := Some {| BodyBytes := "{}"; BodyErr := None |};
     RequestURI := ""; ReqPattern := ""; PathValues := ∅; Ctx := [] |}.
Definition one_field (_ : string) : option (gmap string jval) :=
  Some {["open" := {| jKind := JBool; jText := "true"; jSprint := "true" |}]}.
Lemma limited_unprepared : asConfigured limited.
Proof.
  intros k spec [H|[H|[H|H]]]; cbn in H; [done|..];
    apply lookup_singleton_Some in H as [_ <-]; done.
Qed.
Lemma strict_rule_enforced_witness :
  satisfies no_regexp (ofType "int" true ["5"; "10"] 2) (Some "5") /\
  (IsRuleValid one_field (fun _ => "") None limited_req limited_ready None).1 <> true.
Proof.
  split.
  - exact (proj1 (proj2 (proj2 (proj2 (proj1 (strict_rule_enforced no_regexp one_field (fun _ => "") None
      limited_req limited limited_ready {| BodyBytes := "{}"; BodyErr := None |} (Some {["id" := "7"]})
      limited_unprepared ltac:(vm_compute; reflexivity) eq_refl ltac:(split; discriminate))
      ltac:(vm_compute; reflexivity))))) "limit" (ofType "int" true ["5"; "10"] 2) eq_refl).
  - vm_compute. discriminate.
Defined.

Definition named : EvalRule :=
  {| Level := "lenient"; rHeaders := ∅; rPathParams := ∅; rQueryParams := ∅;
     rBody := {["name" := {| Type_ := "string"; Required := false; Value_ := None; Pattern := "";
       Enum := []; MinLen := 0; MaxLen := 0; compiled := None; enumSet := None |}]};
     RequiredVersion := 0 |}.
Definition named_state : ruleState :=
  {| ruleMap := Some [("/orders", {["POST" := named]})]; patternRoutes := []; configLoaded := true |}.
Definition named_req : Request :=
  {| Method := "POST"; ReqURL := Some {| Path := "/v1/orders"; RawQuery := "" |}; Header := ∅;
     RemoteAddr := ""; ContentLength := 3; ReqBody := Some {| BodyBytes := "{}x"; BodyErr := None |};
     RequestURI := ""; ReqPattern := ""; PathValues := ∅; Ctx := [] |}.
Lemma validated_body_truncated_witness :
  RuleValidationMiddleware (fun _ => Some ∅) (fun _ => "") None named_state pass named_req newWriter 3 =
  pass (withBody named_req (Some {| BodyBytes := "{}x"; BodyErr := None |}) 3) newWriter 3.
Proof.
  exact (validated_body_truncated (fun _ => Some ∅) (fun _ => "") None named_state pass named_req
    {| Path := "/v1/orders"; RawQuery := "" |} {| BodyBytes := "{}x"; BodyErr := None |} named None
    newWriter 3 eq_refl eq_refl ltac:(vm_compute; reflexivity) ltac:(discriminate)
    ltac:(discriminate) (or_introl eq_refl) ltac:(vm_compute; reflexivity)).
Defined.
