(* ===== verification/Float64.v ===== *)
(** * Go's [float64] on the values the SDK computes with

    A finite [float64] is the rational number it denotes; every arithmetic
    operation is the exact one followed by [fround], rounding to 53
    significant bits, to nearest, ties to even (IEEE 754 binary64).  Overflow
    to infinity and subnormal numbers are outside the model: the SDK's
    quantities (durations in nanoseconds or seconds, token counts) stay far
    from both. *)

From S2P Require Import Prelude GoStrings.
From Stdlib Require Export QArith Qabs Qround Qminmax Lqa.

Open Scope string_scope.
Open Scope Z_scope.

(** ** Rounding *)

(** [n / d] to the nearest integer, ties to even. *)
Definition nearest (n d : Z) : Z :=
  let q := n / d in
  match 2 * (n mod d) ?= d with
  | Lt => q
  | Gt => q + 1
  | Eq => if Z.even q then q else q + 1
  end.

(** [n / d / 2^e] as a fraction. *)
Definition scaleN (n e : Z) : Z := if 0 <=? e then n else n * 2 ^ (- e).
Definition scaleD (d e : Z) : Z := if 0 <=? e then d * 2 ^ e else d.
Definition pow2 (e : Z) : Q :=
  if 0 <=? e then inject_Z (2 ^ e) else 1 # Z.to_pos (2 ^ (- e)).

(** The exponent that leaves 53 significant bits of [n / d]. *)
Definition fexp (n d : Z) : Z :=
  let e := Z.log2 n - Z.log2 d - 53 in
  if 2 ^ 53 * scaleD d e <=? scaleN n e then e + 1 else e.

Definition fround_pos (n d : Z) : Q :=
  let e := fexp n d in
  (inject_Z (nearest (scaleN n e) (scaleD d e)) * pow2 e)%Q.

Definition fround (x : Q) : Q :=
  let x := Qred x in
  match Qnum x with
  | Z0 => 0%Q
  | Zpos n => Qred (fround_pos (Zpos n) (Zpos (Qden x)))
  | Zneg n => Qred (- fround_pos (Zpos n) (Zpos (Qden x)))
  end.

(** ** Operations *)

Definition fadd (x y : Q) : Q := fround (x + y).
Definition fsub (x y : Q) : Q := fround (x - y).
Definition fmul (x y : Q) : Q := fround (x * y).
Definition fdiv (x y : Q) : Q := fround (x / y).
Definition float64 (n : Z) : Q := fround (inject_Z n).
(** Conversion to an integer type truncates towards zero. *)
Definition ftrunc (x : Q) : Z := if Qle_bool 0 x then Qfloor x else - Qfloor (- x).

(** ** Rounding error *)

Lemma pow2_pos e : (0 < pow2 e)%Q.
Proof.
  unfold pow2. destruct (Z.leb_spec 0 e).
  - change 0%Q with (inject_Z 0). rewrite <- Zlt_Qlt. apply Z.pow_pos_nonneg; lia.
  - reflexivity.
Qed.

Lemma nearest_error n d : 0 < d -> 0 <= n -> - d <= 2 * (nearest n d * d - n) <= d.
Proof.
  intros Hd Hn. unfold nearest. pose proof (Z.div_mod n d ltac:(lia)) as E.
  pose proof (Z.mod_pos_bound n d Hd). set (q := n / d) in *. set (r := n mod d) in *.
  destruct (Z.compare_spec (2 * r) d); [destruct (Z.even q)| |]; nia.
Qed.

Lemma scale_pos n d e : 0 < n -> 0 < d -> 0 < scaleN n e /\ 0 < scaleD d e.
Proof.
  intros. unfold scaleN, scaleD. destruct (Z.leb_spec 0 e); split; lia.
Qed.

(** [scaleN / scaleD * 2^e] is the fraction itself. *)
Lemma scale_eq n d e : 0 < d ->
  (inject_Z (scaleN n e) * pow2 e == inject_Z (scaleD d e) * (n # Z.to_pos d))%Q.
Proof.
  intros Hd. destruct d as [|d|d]; try lia. unfold scaleN, scaleD, pow2.
  destruct (Z.leb_spec 0 e); unfold Qeq, Qmult, inject_Z; cbn [Qnum Qden Z.to_pos]; [lia|].
  pose proof (Z.pow_pos_nonneg 2 (- e) ltac:(lia) ltac:(lia)).
  rewrite !Pos2Z.inj_mul, Z2Pos.id by done. lia.
Qed.

(** The scaled fraction lies below 2^53 and not below 2^52. *)
Lemma fexp_lower n d : 0 < n -> 0 < d ->
  2 ^ 52 * scaleD d (fexp n d) <= scaleN n (fexp n d).
Proof.
  intros Hn Hd. unfold fexp. set (a := Z.log2 n). set (b := Z.log2 d).
  pose proof (Z.log2_spec n Hn) as [Ha1 Ha2]. pose proof (Z.log2_spec d Hd) as [Hb1 Hb2].
  fold a in Ha1, Ha2. fold b in Hb1, Hb2.
  pose proof (Z.log2_nonneg n). pose proof (Z.log2_nonneg d). fold a in H. fold b in H0.
  set (e := a - b - 53).
  destruct (Z.leb_spec (2 ^ 53 * scaleD d e) (scaleN n e)) as [Hle|Hlt].
  - assert (S1 : 2 * scaleN n (e + 1) * scaleD d e = scaleN n e * scaleD d (e + 1)).
    { unfold scaleN, scaleD. destruct (Z.leb_spec 0 e), (Z.leb_spec 0 (e + 1)); try lia.
      - rewrite Z.pow_add_r by lia. lia.
      - assert (e = -1) as -> by lia. simpl. lia.
      - replace (- e) with (- (e + 1) + 1) by lia. rewrite Z.pow_add_r by lia. lia. }
    destruct (scale_pos n d e Hn Hd), (scale_pos n d (e + 1) Hn Hd). nia.
  - unfold scaleN, scaleD. destruct (Z.leb_spec 0 e).
    + assert (E : 2 ^ a = 2 ^ 52 * (2 ^ (b + 1) * 2 ^ e)).
      { rewrite <- !Z.pow_add_r by lia. f_equal. lia. }
      pose proof (Z.pow_pos_nonneg 2 e). nia.
    + assert (E : 2 ^ a * 2 ^ (- e) = 2 ^ 52 * 2 ^ (b + 1)).
      { rewrite <- !Z.pow_add_r by lia. f_equal. lia. }
      pose proof (Z.pow_pos_nonneg 2 (- e)). nia.
Qed.

Lemma fround_pos_error n d : 0 < n -> 0 < d ->
  (- (n # Z.to_pos d) <= (9007199254740992 # 1) * (fround_pos n d - (n # Z.to_pos d)) <= n # Z.to_pos d)%Q.
Proof.
  intros Hn Hd. unfold fround_pos. set (e := fexp n d).
  pose proof (scale_pos n d e Hn Hd) as [HN HD].
  pose proof (nearest_error (scaleN n e) (scaleD d e) HD ltac:(lia)) as Herr.
  pose proof (fexp_lower n d Hn Hd) as Hlow. fold e in Hlow.
  pose proof (scale_eq n d e Hd) as Heq. pose proof (pow2_pos e) as Hp.
  set (k := nearest _ _) in *. set (N := scaleN n e) in *. set (D := scaleD d e) in *.
  set (x := (n # Z.to_pos d)%Q) in *. set (p := pow2 e) in *.
  assert (E1 : (- inject_Z D <= inject_Z 2 * (inject_Z k * inject_Z D - inject_Z N) <= inject_Z D)%Q).
  { rewrite <- inject_Z_opp, <- !inject_Z_mult. unfold Qminus.
    rewrite <- inject_Z_opp, <- inject_Z_plus, <- inject_Z_mult, <- !Zle_Qle. lia. }
  assert (E2 : (inject_Z (2 ^ 52) * inject_Z D <= inject_Z N)%Q).
  { rewrite <- inject_Z_mult, <- Zle_Qle. lia. }
  assert (HDq : (0 < inject_Z D)%Q) by (change 0%Q with (inject_Z 0); by rewrite <- Zlt_Qlt).
  change (inject_Z (2 ^ 52)) with (inject_Z 4503599627370496) in E2.
  change (inject_Z 2) with (2 # 1)%Q in E1.
  change (inject_Z 4503599627370496) with (4503599627370496 # 1)%Q in E2.
  set (kq := inject_Z k) in *. set (Nq := inject_Z N) in *. set (Dq := inject_Z D) in *.
  clearbody kq Nq Dq x p. clear - E1 E2 Heq Hp HDq. destruct E1 as [E1a E1b].
  split; apply (Qmult_le_l _ _ Dq HDq).
  - nra.
  - nra.
Qed.

(** Relative error of one rounding: at most 2^-53. *)
Lemma fround_error x : (0 <= x)%Q ->
  (- x <= (9007199254740992 # 1) * (fround x - x) <= x)%Q.
Proof.
  intros Hx. unfold fround. pose proof (Qred_correct x) as E. revert E.
  destruct (Qred x) as [[|n|n] d]; cbn [Qnum Qden]; intros E.
  - assert (E0 : (0 # d == 0)%Q) by reflexivity. rewrite E0 in E. lra.
  - set (f := fround_pos _ _). pose proof (Qred_correct f) as Ef.
    pose proof (fround_pos_error (Zpos n) (Zpos d) eq_refl eq_refl) as H.
    cbn [Z.to_pos] in H. fold f in H. lra.
  - rewrite <- E in Hx. unfold Qle in Hx. simpl in Hx. lia.
Qed.

Lemma fround_nonneg x : (0 <= x)%Q -> (0 <= fround x)%Q.
Proof. intros Hx. pose proof (fround_error x Hx). lra. Qed.

#[export] Instance fround_proper : Proper (Qeq ==> eq) fround.
Proof. intros x y H. unfold fround. by rewrite (Qred_complete x y H). Qed.

Lemma nearest_ge n d k : 0 < d -> k * d <= n -> k <= nearest n d.
Proof.
  intros Hd Hk. unfold nearest. assert (k <= n / d) by (apply Z.div_le_lower_bound; lia).
  destruct (_ ?= _); [destruct (Z.even _)| |]; lia.
Qed.

(** Rounding does not take a number below one. *)
Lemma fround_ge_1 x : (1 <= x)%Q -> (1 <= fround x)%Q.
Proof.
  intros Hx. unfold fround. pose proof (Qred_correct x) as E. rewrite <- E in Hx. revert Hx. clear E.
  destruct (Qred x) as [[|n|n] d]; cbn [Qnum Qden]; intros Hx;
    [unfold Qle in Hx; simpl in Hx; lia| |unfold Qle in Hx; simpl in Hx; lia].
  assert (Hnd : Zpos d <= Zpos n) by (unfold Qle in Hx; simpl in Hx; lia).
  rewrite Qred_correct. unfold fround_pos.
  pose proof (scale_pos (Zpos n) (Zpos d) (fexp (Zpos n) (Zpos d)) eq_refl eq_refl) as [Hn Hd].
  pose proof (fexp_lower (Zpos n) (Zpos d) eq_refl eq_refl) as Hl.
  set (e := fexp _ _) in *. unfold pow2. destruct (Z.leb_spec 0 e) as [He|He].
  - assert (H1 : 1 <= nearest (scaleN (Zpos n) e) (scaleD (Zpos d) e)) by (apply nearest_ge; lia).
    pose proof (Z.pow_pos_nonneg 2 e ltac:(lia) He) as H2.
    change 1%Q with (inject_Z 1). rewrite <- inject_Z_mult, <- Zle_Qle. nia.
  - assert (Hp : 0 < 2 ^ (- e)) by (apply Z.pow_pos_nonneg; lia).
    assert (H1 : 2 ^ (- e) <= nearest (scaleN (Zpos n) e) (scaleD (Zpos d) e)).
    { apply nearest_ge; [done|]. unfold scaleN, scaleD. destruct (Z.leb_spec 0 e); [lia|]. nia. }
    set (m := nearest _ _) in *. set (p := 2 ^ (- e)) in *. clearbody m p.
    unfold Qle, Qmult, inject_Z. cbn [Qnum Qden]. rewrite Pos.mul_1_l, Z2Pos.id by done. lia.
Qed.

Lemma Qred_inject_Z n : Qred (inject_Z n) = inject_Z n.
Proof.
  unfold Qred, inject_Z. pose proof (Z.ggcd_gcd n 1) as Hg.
  pose proof (Z.ggcd_correct_divisors n 1) as Hd.
  destruct (Z.ggcd n 1) as [g [a b]]; simpl in *. rewrite Z.gcd_1_r in Hg. subst g.
  destruct Hd as [-> Hb]. f_equal; [lia|]. replace b with 1 by lia. done.
Qed.

(** Integers below 2^53 are represented exactly. *)
Lemma float64_exact n : 0 <= n < 2 ^ 53 -> (float64 n == inject_Z n)%Q.
Proof.
  intros [H0 Hn]. unfold float64, fround. rewrite Qred_inject_Z. cbn [Qnum Qden inject_Z].
  destruct n as [|n|n]; try done. rewrite Qred_correct. unfold fround_pos.
  set (e := fexp (Zpos n) 1).
  assert (He : e <= 0 /\ scaleD 1 e = 1).
  { assert (Z.log2 (Zpos n) <= 52) by (apply Z.lt_succ_r, Z.log2_lt_pow2; lia).
    assert (e <= 0).
    { unfold e, fexp. change (Z.log2 1) with 0. destruct (_ <=? _) eqn:E; [|lia].
      apply Z.leb_le in E. lia. }
    split; [done|]. unfold scaleD. destruct (Z.leb_spec 0 e); [|done].
    by replace e with 0 by lia. }
  destruct He as [He HD]. rewrite HD.
  assert (Hnear : nearest (scaleN (Zpos n) e) 1 = scaleN (Zpos n) e).
  { unfold nearest. by rewrite Z.div_1_r, Z.mod_1_r. }
  rewrite Hnear. rewrite (scale_eq (Zpos n) 1 e eq_refl), HD. simpl. unfold Qeq; simpl. lia.
Qed.

Lemma ftrunc_bounds x : (0 <= x)%Q -> (inject_Z (ftrunc x) <= x < inject_Z (ftrunc x + 1))%Q.
Proof.
  intros Hx. unfold ftrunc. rewrite (proj2 (Qle_bool_iff 0 x) Hx).
  split; [apply Qfloor_le|apply Qlt_floor].
Qed.

Lemma ftrunc_nonneg x : (0 <= x)%Q -> 0 <= ftrunc x.
Proof.
  intros Hx. unfold ftrunc. rewrite (proj2 (Qle_bool_iff 0 x) Hx).
  change 0 with (Qfloor 0). by apply Qfloor_resp_le.
Qed.

#[export] Hint Resolve fround_nonneg ftrunc_nonneg : goint.

(** ** Comparison, durations in seconds *)

Definition qltb (x y : Q) : bool := negb (Qle_bool y x).
Lemma qltb_true x y : qltb x y = true <-> (x < y)%Q.
Proof.
  unfold qltb. rewrite negb_true_iff, <- not_true_iff_false, Qle_bool_iff.
  split; [apply Qnot_le_lt|apply Qlt_not_le].
Qed.
Lemma qltb_false x y : qltb x y = false <-> (y <= x)%Q.
Proof. unfold qltb. by rewrite negb_false_iff, Qle_bool_iff. Qed.

(** [time.Duration.Seconds]. *)
Definition seconds (d : Z) : Q :=
  fadd (float64 (Z.quot d Second)) (fdiv (float64 (Z.rem d Second)) (float64 Second)).

(** The exact value. *)
Definition secs (d : Z) : Q := inject_Z d / inject_Z Second.

#[export] Instance fadd_proper : Proper (Qeq ==> Qeq ==> eq) fadd.
Proof. intros x x' Hx y y' Hy. unfold fadd. by rewrite Hx, Hy. Qed.
#[export] Instance fsub_proper : Proper (Qeq ==> Qeq ==> eq) fsub.
Proof. intros x x' Hx y y' Hy. unfold fsub. by rewrite Hx, Hy. Qed.
#[export] Instance fmul_proper : Proper (Qeq ==> Qeq ==> eq) fmul.
Proof. intros x x' Hx y y' Hy. unfold fmul. by rewrite Hx, Hy. Qed.
#[export] Instance fdiv_proper : Proper (Qeq ==> Qeq ==> eq) fdiv.
Proof. intros x x' Hx y y' Hy. unfold fdiv. by rewrite Hx, Hy. Qed.

Lemma inject_Z_nonneg n : 0 <= n -> (0 <= inject_Z n)%Q.
Proof. intros. change 0%Q with (inject_Z 0). by rewrite <- Zle_Qle. Qed.

Lemma secs_nonneg d : 0 <= d -> (0 <= secs d)%Q.
Proof. intros. unfold secs. apply Qle_shift_div_l; [reflexivity|]. rewrite Qmult_0_l. by apply inject_Z_nonneg. Qed.

Lemma secs_split d :
  (secs d == inject_Z (Z.quot d Second) + inject_Z (Z.rem d Second) / inject_Z Second)%Q.
Proof.
  unfold secs. rewrite (Z.quot_rem' d Second) at 1. rewrite inject_Z_plus, inject_Z_mult.
  field. discriminate.
Qed.

(** The error of [Seconds] on a non-negative duration. *)
Lemma seconds_error d : 0 <= d <= int64_max ->
  (- (3 # 1) * secs d <= (9007199254740992 # 1) * (seconds d - secs d) <= (3 # 1) * secs d)%Q.
Proof.
  intros [Hd Hm]. unfold seconds.
  assert (Hq : 0 <= Z.quot d Second <= 9223372037).
  { rewrite Z.quot_div_nonneg by (unfold Second; lia). unfold Second, int64_max in *.
    split; [apply Z.div_pos; lia|]. apply Z.lt_succ_r, Z.div_lt_upper_bound; lia. }
  assert (Hr : 0 <= Z.rem d Second < Second) by (apply Z.rem_bound_pos; unfold Second; lia).
  rewrite !float64_exact by (unfold Second in *; lia).
  rewrite (secs_split d).
  set (a := inject_Z (Z.quot d Second)). set (r := (inject_Z (Z.rem d Second) / inject_Z Second)%Q).
  assert (Ha : (0 <= a)%Q) by (apply inject_Z_nonneg; lia).
  assert (Hr0 : (0 <= r)%Q) by (apply (secs_nonneg (Z.rem d Second)); lia).
  unfold fdiv. fold r. pose proof (fround_error r Hr0) as E1. set (r' := fround r) in *.
  assert (Hr1 : (0 <= r')%Q) by lra.
  unfold fadd. pose proof (fround_error (a + r') ltac:(lra)) as E2. lra.
Qed.

(** ** Reading a number: [strconv.ParseFloat] on decimal literals

    Sign, digits, optional fraction, optional exponent.  Hexadecimal literals,
    infinities and NaN are outside the model. *)
Definition pow10 (e : Z) : Q :=
  if 0 <=? e then inject_Z (10 ^ e) else 1 # Z.to_pos (10 ^ (- e)).
Fixpoint takeDigits (s : string) (acc : Z) (n : Z) : Z * Z * string :=
  match s with
  | String c s' => if isDigit c then takeDigits s' (10 * acc + (byteZ c - 48)) (n + 1) else (acc, n, s)
  | "" => (acc, n, "")
  end.
(** The digits of a printed number are read back. *)
Lemma pretty_N_char_value (d : N) : (d < 10)%N -> byteZ (pretty_N_char d) - 48 = Z.of_N d.
Proof.
  intros Hd. assert (Hall : forallb (fun n => byteZ (pretty_N_char (N.of_nat n)) - 48 =? Z.of_nat n) (List.seq 0 10) = true)
    by (vm_compute; done).
  rewrite forallb_forall in Hall. specialize (Hall (N.to_nat d)). rewrite N2Nat.id in Hall.
  rewrite (proj1 (Z.eqb_eq _ _) (Hall ltac:(apply in_seq; lia))). lia.
Qed.

Lemma takeDigits_go x : forall s acc n, exists k, 0 <= k /\ ((0 < x)%N -> 0 < k) /\
  takeDigits (pretty_N_go x s) acc n = takeDigits s (acc * 10 ^ k + Z.of_N x) (n + k).
Proof.
  induction (N.lt_wf_0 x) as [x _ IH]. intros s acc n.
  destruct (decide (x = 0%N)) as [->|Hx].
  { exists 0. split; [done|]. split; [done|]. rewrite pretty_N_go_0. f_equal; lia. }
  rewrite pretty_N_go_step by lia.
  destruct (IH (x / 10)%N ltac:(apply N.div_lt; lia) (String (pretty_N_char (x mod 10)) s) acc n) as (k & Hk & _ & E).
  assert (Hm : (x mod 10 < 10)%N) by (apply N.mod_lt; lia).
  exists (k + 1). split; [lia|]. split; [lia|]. rewrite E. cbn [takeDigits].
  rewrite pretty_N_char_digit, pretty_N_char_value by done. f_equal; [|lia].
  rewrite Z.pow_add_r by lia. pose proof (N.div_mod x 10 ltac:(lia)) as Hd. lia.
Qed.

Lemma takeDigits_Itoa n r :
  0 <= n -> match r with String c _ => isDigit c = false | "" => True end ->
  exists k, 0 < k /\ takeDigits (Itoa n +:+ r) 0 0 = (n, k, r).
Proof.
  intros Hn Hr. rewrite Itoa_nonneg by done.
  assert (Hstop : forall a k, takeDigits r a k = (a, k, r)).
  { intros a k. destruct r as [|c r]; [done|]. cbn [takeDigits]. by rewrite Hr. }
  destruct (decide (n = 0)) as [->|Hne].
  - exists 1. split; [done|]. change (pretty (Z.to_N 0)) with "0". rewrite sapp_cons, sapp_nil_l.
    cbn [takeDigits]. change (isDigit "0") with true. cbv iota. by rewrite Hstop.
  - unfold pretty, pretty_N. destruct (decide _) as [H0|_]; [lia|]. rewrite pretty_N_go_app, sapp_nil_l.
    destruct (takeDigits_go (Z.to_N n) r 0 0) as (k & _ & Hk & E). exists k. split; [apply Hk; lia|].
    rewrite E, Hstop. f_equal. f_equal; lia.
Qed.

Definition ParseFloat (s : string) : option Q :=
  let '(neg, s) := match s with
                   | String "-" s' => (true, s')
                   | String "+" s' => (false, s')
                   | _ => (false, s)
                   end in
  let '(ip, n1, s) := takeDigits s 0 0 in
  let '(m, n2, s) := match s with String "." s' => takeDigits s' ip 0 | _ => (ip, 0, s) end in
  let exponent := match s with
                  | "" => Some 0
                  | String c s' => if Ascii.eqb (lowerByte c) "e" then parseInt64 s' else None
                  end in
  match exponent with
  | Some e => if n1 + n2 =? 0 then None
              else let x := fround (inject_Z m * pow10 (e - n2)) in
                   Some (if neg then (- x)%Q else x)
  | None => None
  end.

Example ParseFloat_demo :
  ParseFloat "2.5" = Some (5 # 2) /\ ParseFloat "1e1" = Some 10%Q /\ ParseFloat "x" = None.
Proof. vm_compute. auto. Qed.

(** ** [time.ParseDuration] *)

(** The leading digits; [None] when they exceed 2^63. *)
Fixpoint leadingInt (s : string) (x : Z) : option (Z * string) :=
  match s with
  | String c s' =>
      if isDigit c then
        if 2 ^ 63 / 10 <? x then None else
        let x := 10 * x + (byteZ c - 48) in
        if 2 ^ 63 <? x then None else leadingInt s' x
      else Some (x, s)
  | "" => Some (x, "")
  end.
(** Digits that would overflow are dropped. *)
Fixpoint leadingFraction (s : string) (x : Z) (scale : Q) (overflow : bool) : Z * Q * string :=
  match s with
  | String c s' =>
      if isDigit c then
        if overflow then leadingFraction s' x scale true else
        if (2 ^ 63 - 1) / 10 <? x then leadingFraction s' x scale true else
        let y := 10 * x + (byteZ c - 48) in
        if 2 ^ 63 <? y then leadingFraction s' x scale true
        else leadingFraction s' y (fmul scale 10) false
      else (x, scale, s)
  | "" => (x, scale, "")
  end.
Fixpoint takeUnit (s : string) : string * string :=
  match s with
  | String c s' =>
      if isDigit c || Ascii.eqb c "." then ("", s)
      else let '(u, r) := takeUnit s' in (String c u, r)
  | "" => ("", "")
  end.
(** The micro sign and the Greek mu are the UTF-8 strings C2 B5 and CE BC. *)
Definition unitOf (u : string) : option Z :=
  if String.eqb u "ns" then Some 1
  else if String.eqb u "us" || String.eqb u (b2 194 181 +:+ "s") || String.eqb u (b2 206 188 +:+ "s")
  then Some 1000
  else if String.eqb u "ms" then Some Millisecond
  else if String.eqb u "s" then Some Second
  else if String.eqb u "m" then Some Minute
  else if String.eqb u "h" then Some (60 * Minute) else None.
Fixpoint durationTerms (fuel : nat) (s : string) (d : Z) : option Z :=
  match fuel, s with
  | _, "" => Some d
  | O, _ => None
  | S fuel, _ =>
      match leadingInt s 0 with
      | None => None
      | Some (v, s1) =>
          let pre := negb (String.eqb s1 s) in
          let '(f, scale, s2, post) :=
            match s1 with
            | String "." r => let '(f, sc, r') := leadingFraction r 0 1 false in
                              (f, sc, r', negb (String.eqb r' r))
            | _ => (0, 1%Q, s1, false)
            end in
          if negb pre && negb post then None else
          let '(u, rest) := takeUnit s2 in
          if String.eqb u "" then None else
          match unitOf u with
          | None => None
          | Some unit =>
              if 2 ^ 63 / unit <? v then None else
              let v := v * unit in
              let v := if 0 <? f then v + ftrunc (fmul (float64 f) (fdiv (float64 unit) scale)) else v in
              if 2 ^ 63 <? v then None else
              if 2 ^ 63 <? d + v then None else durationTerms fuel rest (d + v)
          end
      end
  end.
(** Every term consumes at least one byte. *)
Definition ParseDuration (s : string) : option Z :=
  let '(neg, s) := match s with
                   | String "-" r => (true, r) | String "+" r => (false, r) | _ => (false, s)
                   end in
  if String.eqb s "0" then Some 0 else
  if String.eqb s "" then None else
  match durationTerms (String.length s) s 0 with
  | Some d => if neg then Some (- d) else if 2 ^ 63 - 1 <? d then None else Some d
  | None => None
  end.

Example ParseDuration_demo :
  map ParseDuration ["300s"; "1m30s"; "0.5s"; "5ms"; "s"; "1.5h"; "-2s"; "1x"; "99999999999s"] =
  [Some (300 * Second); Some (90 * Second); Some (500 * Millisecond); Some (5 * Millisecond); None;
   Some (90 * Minute); Some (- (2 * Second)); None; None].
Proof. vm_compute. reflexivity. Qed.
