(* ===== verification/RateLimit.v ===== *)
(** * The rate limiter (src/api/ratelimit)

    Token buckets in [float64] arithmetic, their configuration from the
    environment, idle eviction, and the middleware.  [redis.API] is an
    interface of the code: its [AllowDistributed], an operation on the state [R] of
    the server behind it, is a value of the limiter's state here and is implemented
    in the Redis component.  On amd64 each operation rounds once;
    fused multiply-add, which other targets may use, is not modelled. *)

From S2P Require Import Prelude GoStrings Http Float64 Net Requests.

Open Scope string_scope.
Open Scope Z_scope.

Record bucket := { tokens : Q; last : Z; created : Z }.
Record Config := { RPS : Q; Burst : Q; BucketTTLSecond : Z; FailOpen : option bool }.
Record rlCfg := { rps : Q; burst : Q }.
Record envCfg := { env : string; ttlSec : Z }.

(** [os.Getenv]. *)
Definition Env : Type := string -> string.

(** The method of [redis.API] the limiter calls: key, rate, burst, bucket TTL.  It acts
    on the server. *)
Definition redisAPI (R : Type) : Type := string -> Q -> Q -> Z -> R -> R * result (bool * Z).

(** The package-level state.  [failOpenVal]: 0 not loaded, 1 open, 2 closed. *)
Record rlState (R : Type) := {
  cfgPtr : option rlCfg;
  cfgLoaded : bool;
  envPtr : option envCfg;
  buckets : gmap string bucket;
  redisClient : option (redisAPI R);
  failOpenVal : Z;
}.
Arguments Build_rlState {R}.
Arguments cfgPtr {R}.
Arguments cfgLoaded {R}.
Arguments envPtr {R}.
Arguments buckets {R}.
Arguments redisClient {R}.
Arguments failOpenVal {R}.
Definition initial {R} : rlState R :=
  {| cfgPtr := None; cfgLoaded := false; envPtr := None; buckets := ∅; redisClient := None;
     failOpenVal := 0 |}.
Definition with_buckets {R} (s : rlState R) (b : gmap string bucket) : rlState R :=
  {| cfgPtr := cfgPtr s; cfgLoaded := cfgLoaded s; envPtr := envPtr s; buckets := b;
     redisClient := redisClient s; failOpenVal := failOpenVal s |}.
Definition with_cfg {R} (s : rlState R) (c : option rlCfg) (loaded : bool) : rlState R :=
  {| cfgPtr := c; cfgLoaded := loaded; envPtr := envPtr s; buckets := buckets s;
     redisClient := redisClient s; failOpenVal := failOpenVal s |}.

Definition SetRedisClient {R} (c : redisAPI R) (s : rlState R) : rlState R :=
  {| cfgPtr := cfgPtr s; cfgLoaded := cfgLoaded s; envPtr := envPtr s; buckets := buckets s;
     redisClient := Some c; failOpenVal := failOpenVal s |}.
Definition loadRedis {R} (s : rlState R) : option (redisAPI R) := redisClient s.

(** ** Configuration *)

Definition envFloat (e : Env) (key : string) (dflt : Q) : Q :=
  let v := TrimSpace (e key) in
  if String.eqb v "" then dflt else
  match ParseFloat v with
  | Some f => if qltb 0 f then f else dflt
  | None => dflt
  end.
(** The body of [cfgOnce], then the load of the pointer. *)
Definition loadCfg {R} (e : Env) (s : rlState R) : rlState R * rlCfg :=
  let s :=
    if cfgLoaded s then s else
    match cfgPtr s with
    | Some _ => with_cfg s (cfgPtr s) true
    | None =>
        let r := envFloat e "RATE_LIMIT_RPS" 10 in
        let b := envFloat e "RATE_LIMIT_BURST" 20 in
        with_cfg s (Some {| rps := r; burst := if qltb b 1 then 20%Q else b |}) true
    end in
  (s, default {| rps := 10; burst := 20 |} (cfgPtr s)).
Definition rateConfig {R} (e : Env) (s : rlState R) : rlState R * (Q * Q) :=
  let '(s, c) := loadCfg e s in (s, (rps c, burst c)).

Definition LoadConfig {R} (e : Env) (cfg : Config) (s : rlState R) : rlState R :=
  let '(s, current) := loadCfg e s in
  with_cfg s (Some {| rps := if qltb 0 (RPS cfg) then RPS cfg else rps current;
                      burst := if qltb 0 (Burst cfg) then Burst cfg else burst current |})
             (cfgLoaded s).

Definition loadEnv {R} (e : Env) (s : rlState R) : rlState R * envCfg :=
  match envPtr s with
  | Some c => (s, c)
  | None =>
      let v := TrimSpace (e "RATE_LIMIT_BUCKET_TTL_SEC") in
      let c := {| env := ToLower (TrimSpace (e "ENV"));
                  ttlSec := if String.eqb v "" then 0 else default 0 (Atoi v) |} in
      ({| cfgPtr := cfgPtr s; cfgLoaded := cfgLoaded s; envPtr := Some c; buckets := buckets s;
          redisClient := redisClient s; failOpenVal := failOpenVal s |}, c)
  end.

Definition ShouldFailOpen {R} (e : Env) (s : rlState R) : rlState R * bool :=
  let s :=
    if failOpenVal s =? 0 then
      let v := ToLower (TrimSpace (e "RATE_LIMIT_FAIL_OPEN")) in
      let open := existsb (String.eqb v) [""; "true"; "1"; "yes"] in
      {| cfgPtr := cfgPtr s; cfgLoaded := cfgLoaded s; envPtr := envPtr s; buckets := buckets s;
         redisClient := redisClient s; failOpenVal := if open then 1 else 2 |}
    else s in
  (s, failOpenVal s =? 1).

(** ** Buckets *)

(** [min(tokens + elapsed * rps, burst)]; a bucket never used is full. *)
Definition refill (cfg : rlCfg) (now : Z) (b : bucket) : Q :=
  if isZero (last b) then burst cfg else
  let elapsed := seconds (timeSub now (last b)) in
  if qltb 0 elapsed then
    let t := fadd (tokens b) (fmul elapsed (rps cfg)) in
    if qltb (burst cfg) t then burst cfg else t
  else tokens b.

Definition waitFor (cfg : rlCfg) (deficit : Q) : Z :=
  ftrunc (fmul (fdiv deficit (rps cfg)) (float64 Second)).

(** [bucket.allow] run at time [now]. *)
Definition allow (cfg : rlCfg) (now : Z) (b : bucket) : bucket * (bool * Z) :=
  let t := refill cfg now b in
  if Qle_bool 1 t then ({| tokens := fsub t 1; last := now; created := created b |}, (true, 0))
  else
    let deficit := fsub 1 t in
    let b := {| tokens := t; last := now; created := created b |} in
    if Qle_bool deficit 0 || Qle_bool (rps cfg) 0 then (b, (false, Second))
    else (b, (false, waitFor cfg deficit)).

Definition retryAfter (cfg : rlCfg) (b : bucket) : Z :=
  if Qle_bool (rps cfg) 0 then Second else
  let deficit := fsub 1 (tokens b) in
  if Qle_bool deficit 0 then 0 else waitFor cfg deficit.

Definition newBucket (now : Z) : bucket := {| tokens := 0; last := zeroTime; created := now |}.
Definition getBucket {R} (now : Z) (key : string) (s : rlState R) : rlState R * bucket :=
  match buckets s !! key with
  | Some b => (s, b)
  | None => (with_buckets s (<[key := newBucket now]> (buckets s)), newBucket now)
  end.

(** One tick of the evictor started by [startBucketEvictor]. *)
Definition evictTTL (c : envCfg) : Z := wrap64 ((if ttlSec c <=? 0 then 300 else ttlSec c) * Second).
Definition lastActive (b : bucket) : Z := if isZero (last b) then created b else last b.
Definition evictTick {R} (ttl now : Z) (s : rlState R) : rlState R :=
  with_buckets s (filter (fun kb => (timeSub now (lastActive kb.2) <=? ttl) = true) (buckets s)).

(** ** The exported operations *)

Definition Allow {R} (e : Env) (now : Z) (key : string) (s : rlState R) (r : R)
  : rlState R * R * result (bool * Z) :=
  let '(s, ec) := loadEnv e s in
  if String.eqb (env ec) "prod" || String.eqb (env ec) "staging" then
    match loadRedis s with
    | None => (s, r, Err (Errorf "no distributed client configured"))
    | Some rc =>
        let '(s, cfg) := loadCfg e s in
        let '(r, res) := rc key (rps cfg) (burst cfg) (ttlSec ec) r in
        (s, r, res)
    end
  else
    let '(s, b) := getBucket now key s in
    let '(s, cfg) := loadCfg e s in
    let '(b, res) := allow cfg now b in
    (with_buckets s (<[key := b]> (buckets s)), r, Ok res).

(** Used, remaining, reset. *)
Definition GetUsage {R} (e : Env) (now : Z) (key : string) (s : rlState R) : rlState R * (Z * Z * Z) :=
  let '(s, b) := getBucket now key s in
  let '(s, cfg) := loadCfg e s in
  let usedF := fsub (burst cfg) (tokens b) in
  (s, (ftrunc (if qltb usedF 0 then 0%Q else usedF), ftrunc (tokens b), now + retryAfter cfg b)).

Definition Reset {R} (key : string) (s : rlState R) : rlState R := with_buckets s (delete key (buckets s)).

(** ** The middleware *)

(** The Retry-After header's value. *)
Definition retrySeconds (wait : Z) : Z := ftrunc (fadd (seconds wait) (1 # 2)).

Definition RateLimiterMiddleware {R W} `{Lens (rlState R) W, Lens R W, Clock W} (e : Env) (depth : Z)
  : middleware W :=
  fun next req wtr w =>
    let key := GetClientKey depth req in
    let '(s, redis, r) := Allow e (now w) key (view w) (view w) in
    let w := over redis (over s w) in
    match r with
    | Err _ =>
        let '(s, open) := ShouldFailOpen (R := R) e (view w) in
        let w := over s w in
        if open then next req wtr w
        else reject (Internal Global) [WithDetail "internal rate limiter error"] req wtr w
    | Ok (true, _) => next req wtr w
    | Ok (false, wait) =>
        let wtr := if 0 <? wait then setHeader wtr "Retry-After" (Itoa (retrySeconds wait)) else wtr in
        reject (TooManyRequests Global) [WithDetail "rate limit exceeded"] req wtr w
    end.

(** ** Token accounting *)

(** A burst of at least one and at most 2^53 tokens. *)
Definition sane (cfg : rlCfg) : Prop :=
  (0 <= rps cfg)%Q /\ (1 <= burst cfg <= 9007199254740992 # 1)%Q.
Definition bucket_ok (cfg : rlCfg) (b : bucket) : Prop := (0 <= tokens b <= burst cfg)%Q.
Definition spent (r : bool * Z) : Q := if r.1 then 1 else 0.
(** The rounding slack of one call. *)
Definition slack (cfg : rlCfg) : Q := (1 # 1125899906842624) * burst cfg.

Lemma timeSub_le a b : 0 <= a - b -> 0 <= timeSub a b <= a - b.
Proof. unfold timeSub, saturate64, int64_min, int64_max. lia. Qed.

Lemma secs_mono a b : a <= b -> (secs a <= secs b)%Q.
Proof.
  intros. unfold secs, Qdiv. apply Qmult_le_compat_r; [by rewrite <- Zle_Qle|]. discriminate.
Qed.

(** What a refill can reach, up to rounding. *)
Lemma refill_bound cfg now b :
  sane cfg -> bucket_ok cfg b -> isZero (last b) = false -> last b <= now ->
  (0 <= refill cfg now b <= burst cfg)%Q /\
  (refill cfg now b <= tokens b + rps cfg * secs (now - last b) +
     (7 # 9007199254740992) * burst cfg)%Q.
Proof.
  intros [Hr Hb] [Ht0 Ht1] Hz Hle. unfold refill. rewrite Hz.
  pose proof (timeSub_le now (last b) ltac:(lia)) as [Hd0 Hd1].
  assert (Hd : timeSub now (last b) <= int64_max) by by apply saturate64_range.
  pose proof (seconds_error _ (conj Hd0 Hd)) as Hs.
  pose proof (secs_mono _ _ Hd1) as Hm. pose proof (secs_nonneg _ Hd0) as Hn.
  set (s := seconds (timeSub now (last b))) in *. set (x := secs (timeSub now (last b))) in *.
  set (y := secs (now - last b)) in *. clearbody s x y.
  assert (Hrx : (0 <= rps cfg * x)%Q) by nra.
  assert (Hrxy : (rps cfg * x <= rps cfg * y)%Q) by nra.
  destruct (qltb 0 s) eqn:Es.
  2: { split; [lra|]. lra. }
  assert (Hs0 : (0 <= s)%Q) by lra.
  assert (Hsr : (0 <= s * rps cfg)%Q) by nra.
  unfold fmul, fadd. pose proof (fround_error _ Hsr) as E1. set (m := fround (s * rps cfg)) in *.
  assert (Hm0 : (0 <= m)%Q) by lra.
  assert (Hmx : ((9007199254740992 # 1) * (s * rps cfg - rps cfg * x) <= (3 # 1) * (rps cfg * x))%Q) by nra.
  pose proof (fround_error (tokens b + m) ltac:(lra)) as E2.
  set (t := fround (tokens b + m)) in *. clearbody t m.
  destruct (qltb (burst cfg) t) eqn:Et; [apply qltb_true in Et|apply qltb_false in Et].
  - split; [lra|]. destruct (Qlt_le_dec (burst cfg) (tokens b + rps cfg * x)) as [H|H]; [lra|]. lra.
  - split; [lra|]. destruct (Qlt_le_dec (burst cfg) (tokens b + rps cfg * x)) as [H|H]; [lra|]. lra.
Qed.

Lemma refill_fresh cfg now b : isZero (last b) = true -> refill cfg now b = burst cfg.
Proof. unfold refill. by intros ->. Qed.

(** One call spends what it grants. *)
Lemma allow_spends cfg now b :
  let t := refill cfg now b in
  let '(b', r) := allow cfg now b in
  (0 <= t <= burst cfg)%Q -> (1 <= burst cfg <= 9007199254740992 # 1)%Q ->
  bucket_ok cfg b' /\ last b' = now /\
  (tokens b' + spent r <= t + (1 # 9007199254740992) * burst cfg)%Q.
Proof.
  unfold allow, bucket_ok, spent. set (t := refill cfg now b). cbv zeta.
  destruct (Qle_bool 1 t) eqn:E.
  - intros Ht Hb. apply Qle_bool_iff in E. simpl. unfold fsub.
    pose proof (fround_error (t - 1) ltac:(lra)). split_and!; [lra|lra|done|lra].
  - destruct (_ || _); intros Ht Hb; simpl; split_and!; try done; lra.
Qed.

(** A sequence of calls at the given times. *)
Fixpoint allow_run (cfg : rlCfg) (b : bucket) (ts : list Z) : bucket * list bool :=
  match ts with
  | [] => (b, [])
  | t :: ts => let '(b1, r) := allow cfg t b in
               let '(b2, out) := allow_run cfg b1 ts in (b2, r.1 :: out)
  end.
Definition granted (out : list bool) : Z := Z.of_nat (length (filter (fun x => x = true) out)).

Fixpoint increasing (t : Z) (ts : list Z) : Prop :=
  match ts with [] => True | t' :: ts => t <= t' /\ increasing t' ts end.
Fixpoint lastOf (t : Z) (ts : list Z) : Z := match ts with [] => t | t' :: ts => lastOf t' ts end.

Lemma lastOf_ge t ts : increasing t ts -> t <= lastOf t ts.
Proof. revert t. induction ts as [|t' ts IH]; simpl; [lia|]. intros t [H1 H2%IH]. lia. Qed.

Lemma granted_cons x out : (inject_Z (granted (x :: out)) == spent (x, 0%Z) + inject_Z (granted out))%Q.
Proof.
  unfold granted, spent. destruct x; cbn [fst].
  - rewrite filter_cons_True by done. cbn [List.length]. rewrite Nat2Z.inj_succ. unfold Z.succ.
    rewrite inject_Z_plus. change (inject_Z 1) with 1%Q. ring.
  - rewrite filter_cons_False by done. ring.
Qed.

Lemma secs_plus a b : (secs (a + b) == secs a + secs b)%Q.
Proof. unfold secs. rewrite inject_Z_plus. field. discriminate. Qed.

Lemma allow_run_bound cfg ts b :
  sane cfg -> bucket_ok cfg b -> zeroTime < last b -> increasing (last b) ts ->
  let '(b', out) := allow_run cfg b ts in
  bucket_ok cfg b' /\
  (tokens b' + inject_Z (granted out) <=
     tokens b + rps cfg * secs (lastOf (last b) ts - last b) +
     inject_Z (Z.of_nat (length ts)) * slack cfg)%Q.
Proof.
  intros Hs. revert b. induction ts as [|t ts IH]; intros b Hb Hz Hi; cbn [allow_run].
  - split; [done|]. simpl. rewrite Z.sub_diag. assert (E0 : (secs 0 == 0)%Q) by reflexivity. rewrite E0.
    change (inject_Z (granted [])) with 0%Q. change (inject_Z (Z.of_nat 0)) with 0%Q. lra.
  - destruct Hi as [Hle Hi].
    assert (Hnz : isZero (last b) = false) by (unfold isZero; apply Z.eqb_neq; lia).
    destruct (refill_bound cfg t b Hs Hb Hnz Hle) as [Hr1 Hr2].
    pose proof (allow_spends cfg t b) as Ha. destruct (allow cfg t b) as [b1 r].
    destruct (Ha Hr1 (proj2 Hs)) as (Hb1 & Hl & Hsp).
    specialize (IH b1 Hb1 ltac:(lia) ltac:(by rewrite Hl)).
    destruct (allow_run cfg b1 ts) as [b2 out]. destruct IH as [Hb2 IH]. split; [done|].
    rewrite granted_cons. change (spent (r.1, 0)) with (spent r).
    cbn [lastOf List.length]. rewrite Hl in IH.
    replace (lastOf t ts - last b) with ((lastOf t ts - t) + (t - last b)) by lia.
    rewrite secs_plus, Nat2Z.inj_succ. unfold Z.succ. rewrite inject_Z_plus.
    change (inject_Z 1) with 1%Q. unfold slack in *.
    set (n := inject_Z (Z.of_nat (length ts))) in *.
    set (u := secs (lastOf t ts - t)) in *. set (v := secs (t - last b)) in *. lra.
Qed.

(** A bucket a run can be in: never used, or used at [last]. *)
Definition ready (cfg : rlCfg) (t : Z) (b : bucket) : Prop :=
  last b = zeroTime \/ (bucket_ok cfg b /\ zeroTime < last b <= t).

Lemma ready_refill cfg t b :
  sane cfg -> ready cfg t b -> (0 <= refill cfg t b <= burst cfg)%Q.
Proof.
  intros Hs [Hz|[Hb Ht]].
  - rewrite refill_fresh by (unfold isZero; rewrite Hz; apply Z.eqb_refl). destruct Hs. lra.
  - apply refill_bound; try done; [|lia]. unfold isZero. apply Z.eqb_neq. lia.
Qed.

Lemma ready_run cfg t b ts :
  sane cfg -> zeroTime < t -> ready cfg t b -> increasing t ts ->
  ready cfg (lastOf t ts) (allow_run cfg b ts).1.
Proof.
  intros Hs. revert t b. induction ts as [|u ts IH]; intros t b Hz Hr Hi; simpl; [done|].
  destruct Hi as [Htu Hi].
  assert (Hru : ready cfg u b) by (destruct Hr as [|[? ?]]; [by left|right; split; [done|lia]]).
  pose proof (allow_spends cfg u b) as Ha. destruct (allow cfg u b) as [b1 r].
  destruct (Ha (ready_refill _ _ _ Hs Hru) (proj2 Hs)) as (Hb1 & Hl & _).
  specialize (IH u b1 ltac:(lia) ltac:(right; split; [done|lia]) Hi).
  by destruct (allow_run cfg b1 ts).
Qed.

(** (C2) The limiter keeps its promise in every window.  After any calls on a
    bucket at increasing times, the calls of a window that follows are granted
    at most [burst] plus [rps] times the seconds between the window's first
    and last call, up to a relative rounding slack of 2^-50 per call. *)
Theorem allow_window_bound (cfg : rlCfg) (now0 t0 t : Z) (before ts : list Z)
    (Hs : sane cfg) (Hz : zeroTime < t0) (Hi : increasing t0 before)
    (Ht : lastOf t0 before <= t) (Hw : increasing t ts) :
  let b := (allow_run cfg (newBucket now0) before).1 in
  let out := (allow_run cfg b (t :: ts)).2 in
  (inject_Z (granted out) <=
     burst cfg + rps cfg * secs (lastOf t ts - t) +
     inject_Z (Z.of_nat (S (length ts))) * slack cfg)%Q.
Proof.
  cbv zeta. pose proof (ready_run cfg t0 (newBucket now0) before Hs Hz ltac:(by left) Hi) as Hr.
  pose proof (lastOf_ge t0 before Hi) as Hge.
  set (b := (allow_run cfg (newBucket now0) before).1) in *. clearbody b.
  assert (Hrt : ready cfg t b) by (destruct Hr as [|[? ?]]; [by left|right; split; [done|lia]]).
  cbn [allow_run]. pose proof (allow_spends cfg t b) as Ha. destruct (allow cfg t b) as [b1 r].
  pose proof (ready_refill _ _ _ Hs Hrt) as Hf.
  destruct (Ha Hf (proj2 Hs)) as (Hb1 & Hl & Hsp).
  pose proof (allow_run_bound cfg ts b1 Hs Hb1 ltac:(lia) ltac:(by rewrite Hl)) as H.
  destruct (allow_run cfg b1 ts) as [b2 out]. simpl. destruct H as [[Hb2 _] H].
  rewrite granted_cons. change (spent (r.1, 0)) with (spent r). rewrite Hl in H.
  rewrite Nat2Z.inj_succ. unfold Z.succ. rewrite inject_Z_plus. change (inject_Z 1) with 1%Q.
  unfold slack in *. set (n := inject_Z (Z.of_nat (length ts))) in *. lra.
Qed.

(** ** Eviction *)

(** A bucket idle for longer than [ttl] is full again. *)
Definition refills_within (cfg : rlCfg) (ttl : Z) : Prop :=
  ((1125899906842624 # 1) * burst cfg <= (1125899906842623 # 1) * (rps cfg * secs ttl))%Q.

Lemma refill_idle cfg now b ttl :
  sane cfg -> bucket_ok cfg b -> 0 <= ttl -> refills_within cfg ttl ->
  ttl < timeSub now (last b) -> isZero (last b) = false -> refill cfg now b = burst cfg.
Proof.
  intros [Hr Hb] [Ht0 Ht1] Httl Hf Hidle Hz. unfold refill. rewrite Hz. unfold refills_within in Hf.
  assert (Hd : 0 <= timeSub now (last b) <= int64_max)
    by (pose proof (saturate64_range (now - last b)); unfold timeSub, int64_ok in *; lia).
  pose proof (seconds_error _ Hd) as Hs. pose proof (secs_mono ttl (timeSub now (last b)) ltac:(lia)) as Hm.
  pose proof (secs_nonneg _ Httl) as Hn.
  set (s := seconds (timeSub now (last b))) in *. set (x := secs (timeSub now (last b))) in *.
  set (y := secs ttl) in *. clearbody s x y.
  assert (Hrxy : (rps cfg * y <= rps cfg * x)%Q) by nra.
  assert (Hry : (0 < rps cfg * y)%Q) by lra.
  assert (Hx : (0 < x)%Q) by nra.
  assert (Es : qltb 0 s = true) by (apply qltb_true; lra). rewrite Es.
  assert (Hmx : (- (3 # 1) * (rps cfg * x) <= (9007199254740992 # 1) * (s * rps cfg - rps cfg * x))%Q) by nra.
  unfold fmul, fadd. pose proof (fround_error (s * rps cfg) ltac:(nra)) as E1.
  set (m := fround (s * rps cfg)) in *.
  pose proof (fround_error (tokens b + m) ltac:(lra)) as E2.
  set (t := fround (tokens b + m)) in *. clearbody t m.
  assert (Et : qltb (burst cfg) t = true) by (apply qltb_true; lra). by rewrite Et.
Qed.

Lemma refills_within_pos cfg ttl : sane cfg -> refills_within cfg ttl -> 0 < ttl.
Proof.
  intros [Hr Hb] Hf. unfold refills_within in Hf. destruct (Z.lt_ge_cases 0 ttl) as [|Hle]; [done|].
  pose proof (secs_mono ttl 0 Hle) as Hm. change (secs 0) with (inject_Z 0 / inject_Z 1000000000)%Q in Hm.
  assert (H0 : (secs ttl <= 0)%Q) by (eapply Qle_trans; [exact Hm|discriminate]).
  assert (rps cfg * secs ttl <= 0)%Q by nra. lra.
Qed.

(** A call depends on what the bucket is refilled to, and forgets everything else but
    the time it was created. *)
Lemma allow_refill cfg now b b' :
  refill cfg now b = refill cfg now b' ->
  (allow cfg now b).2 = (allow cfg now b').2 /\ tokens (allow cfg now b).1 = tokens (allow cfg now b').1 /\
  last (allow cfg now b).1 = now /\ last (allow cfg now b').1 = now.
Proof. unfold allow. intros ->. by repeat case_match. Qed.

Lemma timeSub_mono a a' b : a <= a' -> timeSub a b <= timeSub a' b.
Proof. intros. apply saturate64_mono. lia. Qed.

Section Eviction.
Context {R : Type} (e : Env).
Implicit Types s : rlState R.

(** Configuration and environment do not depend on the buckets. *)
Definition sameSettings s s' : Prop :=
  cfgPtr s = cfgPtr s' /\ cfgLoaded s = cfgLoaded s' /\ envPtr s = envPtr s'.

Lemma loadCfg_settings s s' : sameSettings s s' ->
  (loadCfg e s).2 = (loadCfg e s').2 /\ sameSettings (loadCfg e s).1 (loadCfg e s').1 /\
  buckets (loadCfg e s).1 = buckets s.
Proof.
  intros (H1 & H2 & H3). unfold sameSettings, loadCfg. rewrite H2. destruct (cfgLoaded s') eqn:El; simpl.
  - rewrite H1, H2, El. by split_and!.
  - rewrite H1. destruct (cfgPtr s') eqn:Ec; simpl; by split_and!.
Qed.
Lemma loadEnv_settings s s' : sameSettings s s' ->
  (loadEnv e s).2 = (loadEnv e s').2 /\ sameSettings (loadEnv e s).1 (loadEnv e s').1 /\
  buckets (loadEnv e s).1 = buckets s.
Proof.
  intros (H1 & H2 & H3). unfold sameSettings, loadEnv. rewrite H3. destruct (envPtr s') eqn:Ee; simpl; rewrite ?Ee; by split_and!.
Qed.
(** Loading is idempotent, and the two do not disturb each other. *)
Lemma load_stable s :
  (loadCfg e (loadCfg e s).1).2 = (loadCfg e s).2 /\ (loadEnv e (loadCfg e s).1).2 = (loadEnv e s).2 /\
  (loadCfg e (loadEnv e s).1).2 = (loadCfg e s).2 /\ (loadEnv e (loadEnv e s).1).2 = (loadEnv e s).2.
Proof.
  unfold loadCfg, loadEnv.
  destruct (cfgLoaded s) eqn:El, (cfgPtr s) eqn:Ec, (envPtr s) eqn:Ee; simpl; rewrite ?El, ?Ec, ?Ee; by split_and!.
Qed.

(** What is called, and the evictor's ticks. *)
Inductive rlStep : Type :=
  | StepAllow (key : string) | StepUsage (key : string) | StepReset (key : string) | StepTick.
(** The answers of [Allow] in a run of steps, with the evictor or without. *)
Fixpoint rlRun (evict : bool) (steps : list (Z * rlStep)) s (r : R) : list (result (bool * Z)) :=
  match steps with
  | [] => []
  | (t, StepAllow key) :: steps => let '(s, r, a) := Allow e t key s r in a :: rlRun evict steps s r
  | (t, StepUsage key) :: steps => rlRun evict steps (GetUsage e t key s).1 r
  | (t, StepReset key) :: steps => rlRun evict steps (Reset key s) r
  | (t, StepTick) :: steps =>
      rlRun evict steps (if evict then evictTick (evictTTL (loadEnv e s).2) t s else s) r
  end.

Variables (cfg : rlCfg) (ec : envCfg).
Abbreviation ttl := (evictTTL ec).

(** A bucket that was used was used by [t] and holds no more than the burst. *)
Definition used (t : Z) (b : bucket) : Prop := bucket_ok cfg b /\ zeroTime < last b <= t.
(** At [t] the next call finds the whole burst: no bucket, one never used, or one idle for
    longer than the time to live. *)
Definition full (t : Z) (o : option bucket) : Prop :=
  match o with
  | None => True
  | Some b => last b = zeroTime \/ (used t b /\ ttl < timeSub t (last b))
  end.
(** The two runs' buckets of a key are used alike, or both full. *)
Definition alike (t : Z) (o o' : option bucket) : Prop :=
  (exists b b', o = Some b /\ o' = Some b' /\ tokens b = tokens b' /\ last b = last b' /\ used t b) \/
  (full t o /\ full t o').
Definition simulates (t : Z) s s' : Prop :=
  sameSettings s s' /\ (loadCfg e s).2 = cfg /\ (loadEnv e s).2 = ec /\
  forall key, alike t (buckets s !! key) (buckets s' !! key).

Lemma full_later t t' o : t <= t' -> full t o -> full t' o.
Proof.
  intros Ht. unfold full, used. destruct o as [b|]; [|done]. intros [?|[[? ?] ?]]; [by left|right].
  pose proof (timeSub_mono t t' (last b) Ht). split; [split; [done|]|]; lia.
Qed.
Lemma alike_later t t' o o' : t <= t' -> alike t o o' -> alike t' o o'.
Proof.
  intros Ht [(b & b' & H1 & H2 & H3 & H4 & H5 & H6)|[H1 H2]].
  - left. exists b, b'. unfold used. split_and!; try done; lia.
  - right. split; by eapply full_later.
Qed.

Hypothesis Hsane : sane cfg.
Hypothesis Hcap : refills_within cfg ttl.

Lemma full_refill t o now0 : full t o -> refill cfg t (default (newBucket now0) o) = burst cfg.
Proof.
  pose proof (refills_within_pos _ _ Hsane Hcap) as Hpos.
  destruct o as [b|]; simpl; [|by intros _; apply refill_fresh]. intros [Hz|[[Hok Hl] Hi]].
  - apply refill_fresh. unfold isZero. by rewrite Hz.
  - apply (refill_idle _ _ _ ttl); try done; [lia|]. unfold isZero. apply Z.eqb_neq. lia.
Qed.
Lemma alike_refill t o o' now0 : alike t o o' ->
  refill cfg t (default (newBucket now0) o) = refill cfg t (default (newBucket now0) o') /\
  (0 <= refill cfg t (default (newBucket now0) o) <= burst cfg)%Q.
Proof.
  intros [(b & b' & -> & -> & Ht & Hl & Hu)|[H1 H2]].
  - simpl. split; [unfold refill; by rewrite Ht, Hl|]. apply ready_refill; [done|by right].
  - rewrite !full_refill by done. destruct Hsane. split; [done|lra].
Qed.

(** Outside prod and staging a call is one call on the key's bucket. *)
Lemma Allow_local t key s r : env (loadEnv e s).2 <> "prod" -> env (loadEnv e s).2 <> "staging" ->
  (loadCfg e s).2 = cfg ->
  exists s', Allow e t key s r = (s', r, Ok (allow cfg t (default (newBucket t) (buckets s !! key))).2) /\
    sameSettings s' (loadCfg e (loadEnv e s).1).1 /\
    buckets s' = <[key := (allow cfg t (default (newBucket t) (buckets s !! key))).1]> (buckets s).
Proof.
  intros He1 He2 Hc. destruct (load_stable s) as (_ & _ & Hcs & _).
  destruct (loadEnv_settings s s) as (_ & _ & Hb); [done|].
  unfold Allow. destruct (loadEnv e s) as [s1 ec1]. cbn [fst snd] in *.
  apply String.eqb_neq in He1, He2. rewrite He1, He2. cbn [orb]. unfold getBucket. rewrite Hb.
  destruct (buckets s !! key) as [b|] eqn:Eb; cbn [default from_option]; unfold id.
  - destruct (loadCfg_settings s1 s1) as (_ & _ & Hb2); [done|]. destruct (loadCfg e s1) as [s2 c]. cbn [fst snd] in *.
    rewrite Hcs, Hc. destruct (allow cfg t b) as [b1 res]. eexists. split; [done|]. cbn [fst]. rewrite Hb2, Hb. by split.
  - destruct (loadCfg_settings (with_buckets s1 (<[key := newBucket t]> (buckets s))) s1) as (Hc2 & Hs2 & Hb2); [done|].
    destruct (loadCfg e (with_buckets s1 _)) as [s2 c]. cbn [fst snd] in *. rewrite Hc2, Hcs, Hc.
    destruct (allow cfg t (newBucket t)) as [b1 res]. eexists. split; [done|]. cbn [fst buckets with_buckets].
    split; [exact Hs2|]. rewrite Hb2. apply insert_insert_eq.
Qed.

Lemma simulates_loaded t s s' s1 s1' :
  simulates t s s' -> sameSettings s1 (loadCfg e (loadEnv e s).1).1 -> sameSettings s1' (loadCfg e (loadEnv e s').1).1 ->
  (forall key, alike t (buckets s1 !! key) (buckets s1' !! key)) -> simulates t s1 s1'.
Proof.
  intros (Hs & Hc & He & _) H1 H1' Hb. destruct (loadEnv_settings _ _ Hs) as (_ & Hse & _).
  destruct (loadCfg_settings _ _ Hse) as (_ & Hsc & _). destruct (load_stable s) as (C1 & C2 & C3 & C4).
  destruct (load_stable (loadEnv e s).1) as (D1 & D2 & _ & _).
  destruct (loadCfg_settings _ _ H1) as (E1 & _ & _), (loadEnv_settings _ _ H1) as (E2 & _ & _).
  unfold simulates. split_and!; [|congruence..|done].
  destruct H1 as (? & ? & ?), H1' as (? & ? & ?), Hsc as (? & ? & ?). split_and!; congruence.
Qed.

Lemma alike_insert t (m m' : gmap string bucket) key b b' key' :
  (forall k, alike t (m !! k) (m' !! k)) -> alike t (Some b) (Some b') ->
  alike t (<[key := b]> m !! key') (<[key := b']> m' !! key').
Proof. intros Hm Hb. destruct (decide (key = key')) as [<-|Hne]; [by rewrite !lookup_insert_eq|by rewrite !lookup_insert_ne]. Qed.

(** Each step keeps the two runs alike. *)
Lemma allow_step t key s s' r : zeroTime < t -> simulates t s s' -> env ec <> "prod" -> env ec <> "staging" ->
  exists s1 s1' a, Allow e t key s r = (s1, r, a) /\ Allow e t key s' r = (s1', r, a) /\ simulates t s1 s1'.
Proof.
  intros Hz Hsim He1 He2. pose proof Hsim as (Hs & Hc & He & Hb).
  destruct (loadEnv_settings _ _ Hs) as (Hee & _ & _), (loadCfg_settings _ _ Hs) as (Hcc & _ & _).
  destruct (Allow_local t key s r) as (s1 & -> & H1 & B1); [congruence..|].
  destruct (Allow_local t key s' r) as (s1' & -> & H1' & B1'); [congruence..|].
  destruct (alike_refill t _ _ t (Hb key)) as [Hr Hrb].
  destruct (allow_refill _ _ _ _ Hr) as (Ha & Ht & Hl & Hl').
  pose proof (allow_spends cfg t (default (newBucket t) (buckets s !! key))) as Hsp.
  destruct (allow cfg t (default (newBucket t) (buckets s !! key))) as [b1 a1],
    (allow cfg t (default (newBucket t) (buckets s' !! key))) as [b1' a1']. cbn [fst snd] in *. subst a1'.
  exists s1, s1', (Ok a1). split_and!; [done..|]. apply (simulates_loaded t s s'); try done.
  intros k. rewrite B1, B1'. apply alike_insert; [done|]. left. exists b1, b1'. split_and!; try done; [congruence|].
  destruct (Hsp Hrb (proj2 Hsane)) as (Hok & _ & _). split; [done|]. rewrite Hl. lia.
Qed.

Lemma usage_step t key s s' : simulates t s s' -> simulates t (GetUsage e t key s).1 (GetUsage e t key s').1.
Proof.
  intros (Hs & Hc & He & Hb).
  assert (G : forall x, sameSettings (GetUsage e t key x).1 (loadCfg e x).1 /\
    buckets (GetUsage e t key x).1 = <[key := default (newBucket t) (buckets x !! key)]> (buckets x)).
  { intros x. unfold GetUsage, getBucket. destruct (buckets x !! key) as [b|] eqn:E.
    - destruct (loadCfg_settings x x) as (_ & _ & Hx); [done|]. destruct (loadCfg e x) as [x1 c]. cbn [fst snd default from_option] in *.
      split; [done|]. rewrite Hx. unfold id. by rewrite insert_id.
    - destruct (loadCfg_settings (with_buckets x (<[key := newBucket t]> (buckets x))) x) as (_ & Hx & Hb'); [done|].
      by destruct (loadCfg e (with_buckets x _)) as [x1 c]. }
  destruct (G s) as [G1 G2], (G s') as [G1' G2']. destruct (loadCfg_settings _ _ Hs) as (Hcc & Hsc & _).
  destruct (load_stable s) as (C1 & C2 & _ & _). destruct (loadCfg_settings _ _ G1) as (E1 & _ & _), (loadEnv_settings _ _ G1) as (E2 & _ & _).
  unfold simulates. split_and!; [|congruence..|].
  { destruct G1 as (? & ? & ?), G1' as (? & ? & ?), Hsc as (? & ? & ?). split_and!; congruence. }
  intros k. rewrite G2, G2'. apply alike_insert; [done|]. destruct (Hb key) as [(b & b' & Hk & Hk' & H)|[F F']].
  - rewrite Hk, Hk'. left. by exists b, b'.
  - right. by destruct (buckets s !! key), (buckets s' !! key); split; try done; left.
Qed.

Lemma loads_buckets s m :
  (loadCfg e (with_buckets s m)).2 = (loadCfg e s).2 /\ (loadEnv e (with_buckets s m)).2 = (loadEnv e s).2.
Proof. split; [by apply loadCfg_settings|by apply loadEnv_settings]. Qed.

Lemma simulates_buckets t s s' m m' : simulates t s s' ->
  (forall k, alike t (m !! k) (m' !! k)) -> simulates t (with_buckets s m) (with_buckets s' m').
Proof.
  intros (Hs & Hc & He & _) Hm. destruct (loads_buckets s m) as [E1 E2]. unfold simulates. rewrite E1, E2. by split_and!.
Qed.

Lemma reset_step t key s s' : simulates t s s' -> simulates t (Reset key s) (Reset key s').
Proof.
  intros Hsim. pose proof Hsim as (_ & _ & _ & Hb). apply (simulates_buckets _ _ _ _ _ Hsim). intros k.
  destruct (decide (key = k)) as [<-|Hne]; [rewrite !lookup_delete_eq; by right|by rewrite !lookup_delete_ne].
Qed.

Lemma tick_step t s s' : simulates t s s' -> simulates t (evictTick ttl t s) s'.
Proof.
  intros Hsim. pose proof Hsim as (_ & _ & _ & Hb).
  replace s' with (with_buckets s' (buckets s')) by by destruct s'. apply (simulates_buckets _ _ _ _ _ Hsim). intros k.
  destruct (buckets s !! k) as [b|] eqn:Eb.
  2: { rewrite map_lookup_filter_None_2 by by left. rewrite <- Eb. apply Hb. }
  pose proof (Hb k) as Ha. rewrite Eb in Ha. destruct (timeSub t (lastActive b) <=? ttl) eqn:El.
  - by rewrite (map_lookup_filter_Some_2 _ _ _ b).
  - rewrite map_lookup_filter_None_2 by (right; intros b' Hb'; simplify_eq; simpl; by rewrite El).
    right. split; [done|]. destruct Ha as [(b0 & b' & [= <-] & -> & Ht & Hl & Hok & Hu)|[_ F]]; [|done].
    right. unfold lastActive, isZero in El. destruct (Z.eqb_spec (last b) zeroTime); [lia|]. apply Z.leb_gt in El.
    rewrite <- Hl. split; [|done]. unfold used, bucket_ok in *. rewrite <- Ht, <- Hl. split; [done|lia].
Qed.

Fixpoint timed (t : Z) (steps : list (Z * rlStep)) : Prop :=
  match steps with [] => True | (t', _) :: steps => t <= t' /\ timed t' steps end.

Lemma rlRun_simulates t steps s s' r : zeroTime < t -> timed t steps -> simulates t s s' ->
  env ec <> "prod" -> env ec <> "staging" -> rlRun true steps s r = rlRun false steps s' r.
Proof.
  intros Hz Ht Hsim He1 He2. revert t s s' Hz Ht Hsim. induction steps as [|[t' st] steps IH]; intros t s s' Hz Ht Hsim; [done|].
  destruct Ht as [Hle Ht]. assert (Hs : simulates t' s s').
  { destruct Hsim as (H1 & H2 & H3 & H4). unfold simulates. split_and!; try done. intros k. by eapply alike_later. }
  destruct st as [key|key|key|]; cbn [rlRun].
  - destruct (allow_step t' key s s' r ltac:(lia) Hs He1 He2) as (s1 & s1' & a & -> & -> & H1).
    f_equal. apply (IH t'); [lia|done|done].
  - apply (IH t'); [lia|done|by apply usage_step].
  - apply (IH t'); [lia|done|by apply reset_step].
  - apply (IH t'); [lia|done|]. pose proof Hs as (_ & _ & -> & _). by apply tick_step.
Qed.
End Eviction.

(** (C22) Evicting idle buckets is not observable when the bucket TTL, as the evictor
    computes it, suffices to refill a bucket: whatever calls of Allow, GetUsage and Reset
    and whatever ticks of the evictor follow each other in time, every answer of Allow
    is the one it would have been without the evictor. *)
Theorem eviction_unobservable {R} (e : Env) (s : rlState R) (r : R) (t : Z) (steps : list (Z * rlStep))
    (Henv : env (loadEnv e s).2 <> "prod" /\ env (loadEnv e s).2 <> "staging")
    (Hcfg : sane (loadCfg e s).2)
    (Hok : forall key b, buckets s !! key = Some b -> last b = zeroTime \/ used (loadCfg e s).2 t b)
    (Hcap : refills_within (loadCfg e s).2 (evictTTL (loadEnv e s).2))
    (Hz : zeroTime < t) (Ht : timed t steps) :
  rlRun e true steps s r = rlRun e false steps s r.
Proof.
  apply (rlRun_simulates e (loadCfg e s).2 (loadEnv e s).2 Hcfg Hcap t); try done; [|apply Henv..].
  unfold simulates. split_and!; try done. intros key.
  destruct (buckets s !! key) as [b|] eqn:Eb; [|by right]. destruct (Hok key b Eb) as [H|H]; [by right; split; left|].
  left. by exists b, b.
Qed.

(** A TTL beyond the range of Duration, 9223372037 seconds for one, is negative for the
    evictor: each tick deletes every bucket, and all clients start with a full burst. *)
Lemma evictTTL_overflow_clears {R} (now : Z) (s : rlState R) :
  (forall key b, buckets s !! key = Some b -> lastActive b <= now) ->
  buckets (evictTick (evictTTL {| env := ""; ttlSec := 9223372037 |}) now s) = ∅.
Proof.
  intros H. apply map_empty. intros key. apply map_lookup_filter_None_2.
  destruct (buckets s !! key) as [b|] eqn:Eb; [right|by left]. intros b' Hb'. simplify_eq. simpl. apply not_true_iff_false, Z.leb_gt.
  pose proof (H _ _ Eb). pose proof (timeSub_le now (lastActive b') ltac:(lia)).
  assert (evictTTL {| env := ""; ttlSec := 9223372037 |} < 0) by reflexivity. lia.
Qed.

(** ** Where the limiter falls short *)

(** [n] rounds of two calls whose times were read in one order and whose
    critical sections ran in the other. *)
Fixpoint stale_rounds (t : Z) (n : nat) : list Z :=
  match n with O => [] | S n => (t + Second) :: t :: stale_rounds t n end.
Definition one_per_second : rlCfg := {| rps := 1; burst := 1 |}.

(** [allow] reads the clock before it takes the bucket's lock and stores
    that reading: calls that overtake each other move [last] backwards and the
    same second is refilled again.  With one token per second and no time
    passing beyond that second, any number of calls is granted. *)
Theorem stale_reading_refills_again (t : Z) (n : nat) (Hz : zeroTime < t) :
  granted (allow_run one_per_second {| tokens := 0; last := t; created := t |} (stale_rounds t n)).2
  = Z.of_nat n.
Proof.
  set (b := {| tokens := 0; last := t; created := t |}).
  assert (E1 : allow one_per_second (t + Second) b =
    ({| tokens := 0; last := t + Second; created := t |}, (true, 0))).
  { unfold allow, refill. cbn [last tokens b].
    assert (Hnz : isZero t = false) by (apply Z.eqb_neq; lia). rewrite Hnz.
    unfold timeSub. replace (t + Second - t) with Second by lia. by vm_compute. }
  assert (E2 : exists w, allow one_per_second t {| tokens := 0; last := t + Second; created := t |} =
    (b, (false, w))).
  { unfold allow, refill. cbn [last tokens].
    assert (Hnz : isZero (t + Second) = false) by (apply Z.eqb_neq; unfold Second; lia). rewrite Hnz.
    unfold timeSub. replace (t - (t + Second)) with (- Second) by lia. eexists. vm_compute. done. }
  destruct E2 as [w E2].
  assert (H : (allow_run one_per_second b (stale_rounds t n)).1 = b /\
    granted (allow_run one_per_second b (stale_rounds t n)).2 = Z.of_nat n).
  { induction n as [|n [IH1 IH2]]; [done|]. cbn [stale_rounds allow_run]. rewrite E1, E2.
    destruct (allow_run _ b _) as [b' out]. simpl in *. subst. split; [done|].
    unfold granted in *. rewrite filter_cons_True, filter_cons_False by done.
    cbn [List.length]. lia. }
  apply H.
Qed.

(** A client never seen has its whole burst, but is reported to have used it. *)
Lemma GetUsage_fresh_reports_exhausted :
  let '(used, remaining, _) := (GetUsage (R := unit) (fun _ => "") 0 "new" initial).2 in
  used = 20 /\ remaining = 0 /\
  (Allow (fun _ => "") 0 "new" initial tt).2 = Ok (true, 0).
Proof. vm_compute. auto. Qed.

(** At the default ten requests per second a rejected client is told to retry
    after zero seconds. *)
Lemma default_retry_after_is_zero :
  let b := {| tokens := 0; last := Second; created := 0 |} in
  let '(_, (ok, wait)) := allow {| rps := 10; burst := 20 |} Second b in
  ok = false /\ wait = 100 * Millisecond /\ retrySeconds wait = 0.
Proof. vm_compute. auto. Qed.

(** [LoadConfig] accepts a burst below one token, with which nothing is ever
    granted; the environment's burst is checked. *)
Lemma sub_unit_burst_denies now b :
  sane {| rps := 10; burst := 1 |} -> isZero (last b) = true ->
  (allow {| rps := 10; burst := 1 # 2 |} now b).2.1 = false.
Proof. intros _ Hz. unfold allow. rewrite refill_fresh by done. reflexivity. Qed.

(** ** Witnesses *)

Lemma allow_window_bound_witness :
  (inject_Z (granted (allow_run {| rps := 1; burst := 2 |}
     (allow_run {| rps := 1; burst := 2 |} (newBucket 0) [1; 2]%Z).1
     [60 * Second; 60 * Second; 60 * Second; 61 * Second]%Z).2) <= 4 # 1)%Q.
Proof.
  pose proof (allow_window_bound {| rps := 1; burst := 2 |} 0 1 (60 * Second) [1; 2]
    [60 * Second; 60 * Second; 61 * Second]
    ltac:(split; [|split]; discriminate) ltac:(reflexivity) ltac:(repeat split; discriminate)
    ltac:(vm_compute; discriminate) ltac:(repeat split; discriminate)) as H.
  eapply Qle_trans; [exact H|]. vm_compute. discriminate.
Defined.

Definition idle_state : rlState unit :=
  with_buckets initial {["k" := {| tokens := 1 # 2; last := 0; created := 0 |}]}.
Definition idle_steps : list (Z * rlStep) :=
  [(360 * Second, StepTick); (400 * Second, StepAllow "k"); (400 * Second, StepUsage "new");
   (420 * Second, StepTick); (421 * Second, StepAllow "k")].
Lemma eviction_unobservable_witness :
  rlRun (fun _ => "") true idle_steps idle_state tt = rlRun (fun _ => "") false idle_steps idle_state tt /\
  rlRun (fun _ => "") true idle_steps idle_state tt = [Ok (true, 0); Ok (true, 0)] /\
  buckets (evictTick (evictTTL (loadEnv (fun _ => "") idle_state).2) (360 * Second) idle_state) = ∅.
Proof.
  split; [|split; vm_compute; reflexivity].
  refine (eviction_unobservable (fun _ => "") idle_state tt 1 idle_steps _ _ _ _ _ _).
  - split; discriminate.
  - split; [|split]; discriminate.
  - intros k b Hb. unfold idle_state in Hb. cbn [buckets with_buckets] in Hb.
    apply lookup_singleton_Some in Hb as [_ <-]. right. split; [split; discriminate|split; [reflexivity|discriminate]].
  - vm_compute. discriminate.
  - reflexivity.
  - repeat split; discriminate.
Defined.

Lemma stale_reading_refills_again_witness :
  granted (allow_run one_per_second {| tokens := 0; last := 0; created := 0 |} (stale_rounds 0 5)).2 = 5.
Proof. exact (stale_reading_refills_again 0 5 eq_refl). Defined.
