(* ===== verification/Idempotency.v ===== *)
(** * Idempotency keys (src/api/idempotency)

    The [Cache] interface with its local and its Redis implementation, the
    [Store] on top, the middleware, and the interleavings of concurrent
    [StoreIfAbsent] calls with the evictor.  [redis.API] is an interface of the
    code; the four methods used here are the class [RedisKV]. *)

From S2P Require Import Prelude GoStrings Float64 Http Requests Jwt Headers.

Open Scope string_scope.
Open Scope Z_scope.

Definition DEFAULT_IDEM_TTL_SEC : Z := 300.

(** A value of type [any]: the callers distinguish [int64] from the rest. *)
Inductive cval : Type := CInt (z : Z) | COther.

(** ** The interface *)

Class Cache (W : Type) := {
  Load : string -> W -> option cval;
  StoreValue : string -> cval -> Z -> W -> W * option error;
  (** The time the implementation reads. *)
  StoreIfAbsent : Z -> string -> cval -> Z -> W -> W * result bool;
  Delete : string -> W -> W;
}.

(** [Store.Check], [Set], [CheckAndSet], [Delete] of a store with time to live
    [ttl], at time [t]. *)
Section Store.
Context {W : Type} `{Cache W}.

Definition Check (t : Z) (key : string) (w : W) : W * bool :=
  match Load key w with
  | Some (CInt until) => if unixSec t <? until then (w, false) else (Delete key w, true)
  | Some COther => (Delete key w, true)
  | None => (w, true)
  end.
Definition Set_ (t ttl : Z) (key : string) (w : W) : W * option error :=
  StoreValue key (CInt (wrap64 (unixSec t + ttl))) ttl w.
Definition CheckAndSet (t ttl : Z) (key : string) (w : W) : W * result bool :=
  StoreIfAbsent t key (CInt (wrap64 (unixSec t + ttl))) ttl w.
Definition storeDelete (key : string) (w : W) : W := Delete key w.
End Store.

(** [env] is the value of IDEMPOTENCY_TTL_SEC. *)
Definition getIdemTTL (env : string) : Z :=
  if String.eqb env "" then DEFAULT_IDEM_TTL_SEC else
  match ParseDuration (env +:+ "s") with
  | Some dur => if dur <=? 0 then DEFAULT_IDEM_TTL_SEC else ftrunc (seconds dur)
  | None => DEFAULT_IDEM_TTL_SEC
  end.
(** The time to live of [NewStore] and [NewDistributedStore]. *)
Definition storeTTL (env : string) (ttl : Z) : Z := if ttl =? 0 then getIdemTTL env else ttl.

(** ** The local cache *)

Abbreviation localCache := (gmap string cval).

Definition expired (t : Z) (v : cval) : bool :=
  match v with CInt until => until <=? unixSec t | COther => false end.
(** One tick of the evictor. *)
Definition evictExpired (t : Z) (s : localCache) : localCache :=
  filter (fun kv => expired t kv.2 = false) s.

(** [StoreIfAbsent] with nothing interleaved: the compare-and-swap succeeds. *)
Definition localStoreIfAbsent (t : Z) (key : string) (v : cval) (s : localCache) : localCache * bool :=
  match s !! key with
  | None => (<[key := v]> s, true)
  | Some (CInt until) => if unixSec t <? until then (s, false) else (<[key := v]> s, true)
  | Some COther => (<[key := v]> s, true)
  end.
#[export] Instance LocalCache : Cache localCache := {
  Load := fun k s => s !! k;
  StoreValue := fun k v _ s => (<[k := v]> s, None);
  StoreIfAbsent := fun t k v _ s => let '(s, b) := localStoreIfAbsent t k v s in (s, Ok b);
  Delete := fun k s => delete k s;
}.

(** ** The distributed cache *)

Class RedisKV (W : Type) := {
  Exists : string -> W -> result bool;
  SetKV : string -> string -> Z -> W -> W * option error;
  SetNX : string -> string -> Z -> W -> W * result bool;
  Del : string -> W -> W;
}.
(** [fmt.Sprint] of the stored value. *)
Definition sprint (v : cval) : string := match v with CInt z => Itoa z | COther => "true" end.

Record redisWorld (W : Type) := { kv : W }.
Arguments kv {W}.
#[export] Instance DistributedCache {W} `{RedisKV W} : Cache (redisWorld W) := {
  Load := fun k w => match Exists k (kv w) with Ok true => Some COther | _ => None end;
  StoreValue := fun k v ttl w => let '(w, e) := SetKV k (sprint v) ttl (kv w) in ({| kv := w |}, e);
  StoreIfAbsent := fun _ k v ttl w => let '(w, r) := SetNX k (sprint v) ttl (kv w) in ({| kv := w |}, r);
  Delete := fun k w => {| kv := Del k (kv w) |};
}.

(** ** The middleware *)

Definition safeMethod (m : string) : bool := existsb (String.eqb m) ["GET"; "HEAD"; "OPTIONS"].
Definition IdempotencyMiddleware {S W} `{Lens S W, Cache S, Clock W} (e : Env)
    (jwt : option (string -> result bool)) (ttl : Z) : middleware W := fun next req wtr w =>
  if safeMethod (Method req) then next req wtr w else
  if isAPIClient (Ctx req)
  then next (WithContext req (WithIdempotencyValid (Ctx req) true)) wtr w else
  let key := hget (Header req) "Idempotency-Key" in
  if negb (headerValid e jwt HEADER_IDEMPOTENCY req)
  then reject (BadRequest Global) [WithDetail "invalid idempotency key"] req wtr w
  else
    let '(s, r) := CheckAndSet (now w) ttl key (view w) in
    let w := over s w in
    match r with
    | Err _ => reject (Internal Global) [WithDetail "idempotency check failed"] req wtr w
    | Ok false =>
        reject (Conflict Global) [WithDetail "duplicate request"] req
          (setHeader wtr "Idempotency-Replayed" "true") w
    | Ok true => next (WithContext req (WithIdempotencyValid (Ctx req) true)) wtr w
    end.

(** ** Concurrent claims

    A claim is one call of [StoreIfAbsent] with an expiry computed before; the
    evictor's goroutine tests an entry and then deletes its key.  One step is
    one operation on the [sync.Map]. *)

Inductive phase : Type :=
  | CLoad (k : string) (until : Z)                  (* LoadOrStore *)
  | CTest (k : string) (until actual : Z)           (* actual > now? *)
  | CSwap (k : string) (until actual : Z)           (* CompareAndSwap *)
  | CDone (won : bool)
  | EScan                                            (* Range visits the next key *)
  | EDelete (k : string).                            (* store.Delete(k) *)

(** A successful claim: key, expiry, and the second it was decided in. *)
Record claim := { clKey : string; clUntil : Z; clAt : Z }.
Record sys := { entries : gmap string Z; threads : list phase; claims : list claim; clock : Z }.

(** One step at second [t]; [k] is the key the evictor visits. *)
Definition phase_step (t : Z) (k : string) (m : gmap string Z) (p : phase)
  : option (gmap string Z * phase * list claim) :=
  match p with
  | CLoad key until =>
      match m !! key with
      | None => Some (<[key := until]> m, CDone true, [{| clKey := key; clUntil := until; clAt := t |}])
      | Some a => Some (m, CTest key until a, [])
      end
  | CTest key until a => Some (m, if t <? a then CDone false else CSwap key until a, [])
  | CSwap key until a =>
      if bool_decide (m !! key = Some a)
      then Some (<[key := until]> m, CDone true, [{| clKey := key; clUntil := until; clAt := t |}])
      else Some (m, CLoad key until, [])
  | EScan => a ← m !! k; Some (m, if a <=? t then EDelete k else EScan, [])
  | EDelete key => Some (delete key m, EScan, [])
  | CDone _ => None
  end.
(** Thread [i] steps at second [t], not before the clock. *)
Definition sys_step (s : sys) (i : nat) (t : Z) (k : string) : option sys :=
  if t <? clock s then None else
  p ← threads s !! i;
  '(m, p', c) ← phase_step t k (entries s) p;
  Some {| entries := m; threads := <[i := p']> (threads s); claims := (claims s ++ c)%list; clock := t |}.

Inductive reachable (ps : list phase) : sys -> Prop :=
  | reach_init t0 : reachable ps {| entries := ∅; threads := ps; claims := []; clock := t0 |}
  | reach_step s i t k s' : reachable ps s -> sys_step s i t k = Some s' -> reachable ps s'.

Fixpoint run (s : sys) (steps : list (nat * Z * string)) : option sys :=
  match steps with
  | [] => Some s
  | (i, t, k) :: l => s ← sys_step s i t k; run s l
  end.
Lemma run_reachable ps s steps s' : reachable ps s -> run s steps = Some s' -> reachable ps s'.
Proof.
  revert s. induction steps as [|[[i t] k] l IH]; intros s R H; simpl in H; [by simplify_eq|].
  destruct (sys_step s i t k) as [s1|] eqn:E; simpl in H; [|done]. eapply IH; [|exact H]. by eapply reach_step.
Qed.

(** ** Properties *)

Definition isClaim (p : phase) : Prop := match p with CLoad _ _ => True | _ => False end.
Definition noEvictor (p : phase) : Prop := match p with EScan | EDelete _ => False | _ => True end.

(** A claim is live as long as the map holds it. *)
Definition held (s : sys) (c : claim) : Prop :=
  clUntil c <= clock s \/ entries s !! clKey c = Some (clUntil c).
Definition tested (t : Z) (p : phase) : Prop := match p with CSwap _ _ a => a <= t | _ => True end.
(** Later claims of a key are decided when the earlier ones have expired. *)
Fixpoint exclusive (l : list claim) : Prop :=
  match l with
  | [] => True
  | c :: l => (forall d, In d l -> clKey d = clKey c -> clUntil c <= clAt d) /\ exclusive l
  end.

Lemma exclusive_snoc l d :
  exclusive l -> (forall c, In c l -> clKey d = clKey c -> clUntil c <= clAt d) -> exclusive (l ++ [d])%list.
Proof.
  induction l as [|c l IH]; simpl; intros Hx Hd; [by split; [intros ? []|]|].
  destruct Hx as [Hc Hx]. split.
  - intros d' [H|[<-|[]]]%in_app_or; auto.
  - apply IH; [done|]. auto.
Qed.

Record inv (s : sys) : Prop := {
  inv_held : forall c, In c (claims s) -> held s c;
  inv_tested : Forall (tested (clock s)) (threads s);
  inv_noev : Forall noEvictor (threads s);
  inv_exclusive : exclusive (claims s);
}.

Lemma tested_mono t t' p : t <= t' -> tested t p -> tested t' p.
Proof. destruct p; simpl; lia. Qed.

(** The claim a step adds comes after every earlier claim of its key expired,
    and the map keeps the other claims. *)
Lemma phase_step_inv t k s p m p' c :
  (forall c, In c (claims s) -> held s c) -> clock s <= t -> tested t p -> noEvictor p ->
  phase_step t k (entries s) p = Some (m, p', c) ->
  tested t p' /\ noEvictor p' /\
  (forall d, In d (claims s ++ c)%list -> clUntil d <= t \/ m !! clKey d = Some (clUntil d)) /\
  (forall d e, In d (claims s) -> In e c -> clKey e = clKey d -> clUntil d <= clAt e) /\
  (c = [] \/ exists e, c = [e]).
Proof.
  intros Hh Ht Htp Hn H.
  assert (Hold : forall d, In d (claims s) -> clUntil d <= t \/ entries s !! clKey d = Some (clUntil d)).
  { intros d Hd. destruct (Hh d Hd); [left; lia|by right]. }
  assert (Hins : forall key until e,
    (forall a, entries s !! key = Some a -> a <= t) -> e = {| clKey := key; clUntil := until; clAt := t |} ->
    (forall d, In d (claims s ++ [e])%list -> clUntil d <= t \/ <[key := until]> (entries s) !! clKey d = Some (clUntil d)) /\
    (forall d e', In d (claims s) -> In e' [e] -> clKey e' = clKey d -> clUntil d <= clAt e')).
  { intros key until e Ha ->. split.
    - intros d [Hd|[<-|[]]]%in_app_or; [|right; apply lookup_insert_eq].
      destruct (Hold d Hd) as [?|Hd']; [by left|]. destruct (decide (clKey d = key)) as [<-|Hne].
      + left. by apply Ha.
      + right. by rewrite lookup_insert_ne.
    - intros d e' Hd [<-|[]] Hk. simpl in *. subst key. destruct (Hold d Hd) as [?|Hd']; [done|]. by apply Ha. }
  destruct p as [key until|key until a|key until a|b| |key]; simpl in H, Hn, Htp; try done.
  - destruct (entries s !! key) as [a|] eqn:Ea; simplify_eq.
    + split_and!; simpl; try done; [|auto]. intros d Hd. rewrite app_nil_r in Hd. auto.
    + destruct (Hins key until _ ltac:(by rewrite Ea) eq_refl) as [H1 H2]. split_and!; simpl; eauto.
  - destruct (Z.ltb_spec t a); simplify_eq; (split_and!; simpl; try done; [|auto]);
      intros d Hd; rewrite app_nil_r in Hd; auto.
  - case_bool_decide as Ea; simplify_eq.
    + destruct (Hins key until _ ltac:(intros ? ?; simplify_eq; lia) eq_refl) as [H1 H2].
      split_and!; simpl; eauto.
    + split_and!; simpl; try done; [|auto]. intros d Hd. rewrite app_nil_r in Hd. auto.
Qed.

Lemma reachable_inv ps s : Forall isClaim ps -> reachable ps s -> inv s.
Proof.
  intros Hps R. induction R as [t0|s i t k s' R IH Hstep].
  - split; simpl; try done; eapply Forall_impl; try exact Hps; by intros [].
  - destruct IH as [I1 I2 I3 I4]. unfold sys_step in Hstep.
    destruct (Z.ltb_spec t (clock s)) as [|Ht]; [done|].
    destruct (threads s !! i) as [p|] eqn:Ep; simpl in Hstep; [|done].
    destruct (phase_step t k (entries s) p) as [[[m p'] c]|] eqn:Eq; simpl in Hstep; [|done].
    simplify_eq.
    assert (Htp : tested t p) by (eapply tested_mono; [exact Ht|]; by eapply Forall_lookup_1 in I2).
    assert (Hnp : noEvictor p) by by eapply Forall_lookup_1 in I3.
    destruct (phase_step_inv _ _ _ _ _ _ _ I1 Ht Htp Hnp Eq) as (H1 & H2 & H3 & H4 & H5).
    split; simpl.
    + exact H3.
    + apply Forall_insert; [|done]. eapply Forall_impl; [exact I2|]. intros q. by apply tested_mono.
    + by apply Forall_insert.
    + destruct H5 as [->|[e ->]]; [by rewrite app_nil_r|]. apply exclusive_snoc; [done|].
      intros d Hd Hk. apply (H4 d e); simpl; auto.
Qed.

(** (C16) A key is claimed once per lifetime.  Whatever the interleaving of any
    number of concurrent claims, of two successful claims of one key the later
    one is decided when the earlier one has expired. *)
Theorem claims_exclusive (ps : list phase) (s : sys) (i j : nat) (c d : claim)
    (Hps : Forall isClaim ps) (R : reachable ps s) (Hij : (i < j)%nat)
    (Hc : claims s !! i = Some c) (Hd : claims s !! j = Some d) (Hk : clKey d = clKey c) :
  clUntil c <= clAt d.
Proof.
  pose proof (inv_exclusive _ (reachable_inv ps s Hps R)) as Hx. revert i j Hij Hc Hd Hx.
  generalize (claims s). intros l. induction l as [|x l IH]; intros [|i] [|j] Hij Hc Hd Hx; try done; try lia.
  - simpl in *. simplify_eq. apply Hx; [|done]. eapply list_elem_of_In, list_elem_of_lookup_2, Hd.
  - simpl in *. apply (IH i j); [lia|done|done|by destruct Hx].
Qed.

(** Three claims of one key and the evictor. *)
Definition race_threads : list phase := [CLoad "k" 10; CLoad "k" 320; CLoad "k" 321; EScan].

(** (C39) The evictor breaks this: it deletes a key it found expired without
    looking again.  A claim that replaced the expired entry in between is
    deleted with it, and the next claim of the key succeeds within the
    lifetime of that claim. *)
Theorem evictor_deletes_live_claim :
  exists s, reachable race_threads s /\
    exists c d, claims s !! 1%nat = Some c /\ claims s !! 2%nat = Some d /\
      clKey d = clKey c /\ clUntil c = 320 /\ clAt d = 21.
Proof.
  destruct (run {| entries := ∅; threads := race_threads; claims := []; clock := 0 |}
    [(0%nat, 5, ""); (3%nat, 20, "k");            (* first claim; the evictor sees it expired *)
     (1%nat, 20, ""); (1%nat, 20, ""); (1%nat, 20, "");  (* second claim swaps itself in *)
     (3%nat, 20, ""); (2%nat, 21, "")]) as [s|] eqn:E.
  - exists s. split; [eapply run_reachable; [apply reach_init|exact E]|].
    vm_compute in E. injection E as <-. do 2 eexists. repeat split; reflexivity.
  - vm_compute in E. discriminate.
Qed.

(** ** The store and the middleware *)

(** A repeated request conflicts.  With the local cache, a state-changing
    request with a valid key runs the handler if the key is not held; a second
    request with the same key before the time to live is over is answered 409
    and the handler does not run, whatever the handler did elsewhere. *)
Theorem duplicate_request_conflicts {W} `{Lens localCache W, Clock W} (e : Env)
    (jwt : option (string -> result bool)) (ttl : Z) (f : handler W) (req : Request)
    (wtr wtr2 : Writer) (w w2 : W)
    (Hm : safeMethod (Method req) = false) (Hc : isAPIClient (Ctx req) = false)
    (Hv : headerValid e jwt HEADER_IDEMPOTENCY req = true)
    (Hnew : view w !! hget (Header req) "Idempotency-Key" = None)
    (Httl : wrap64 (unixSec (now w) + ttl) = unixSec (now w) + ttl)
    (Hw2 : view w2 = view (IdempotencyMiddleware e jwt ttl (fun _ wtr w => (w, wtr, Returned)) req wtr w).1.1)
    (Ht : unixSec (now w2) < unixSec (now w) + ttl) (Hs : WStatus wtr2 = None) :
  (exists req' w', IdempotencyMiddleware e jwt ttl f req wtr w = f req' wtr w') /\
  exists wtr', IdempotencyMiddleware e jwt ttl f req wtr2 w2 = (w2, wtr', Returned) /\
    WStatus wtr' = Some 409.
Proof.
  assert (S1 : CheckAndSet (now w) ttl (hget (Header req) "Idempotency-Key") (view w) =
    (<[hget (Header req) "Idempotency-Key" := CInt (unixSec (now w) + ttl)]> (view w), Ok true)).
  { unfold CheckAndSet. simpl. unfold localStoreIfAbsent. by rewrite Hnew, Httl. }
  unfold IdempotencyMiddleware in *. rewrite Hm, Hc, Hv in *. cbn [negb] in *. rewrite S1 in *.
  split; [eauto|]. cbn [fst] in Hw2. rewrite view_over in Hw2.
  assert (S2 : CheckAndSet (now w2) ttl (hget (Header req) "Idempotency-Key") (view w2) = (view w2, Ok false)).
  { unfold CheckAndSet. simpl. unfold localStoreIfAbsent. rewrite Hw2, lookup_insert_eq.
    apply Z.ltb_lt in Ht. by rewrite Ht. }
  rewrite S2, over_view. eexists. split; [apply reject_run|]. by apply SendError_status.
Qed.

(** [Check] on a distributed store reports every key as new and deletes the
    key it was asked about: [Load] returns a boolean, which [Check] takes for an
    expired entry. *)
Theorem distributed_Check_always_new {W} `{RedisKV W} (t : Z) (key : string) (w : redisWorld W) :
  (Check t key w).2 = true /\
  (Exists key (kv w) = Ok true -> (Check t key w).1 = {| kv := Del key (kv w) |}).
Proof.
  unfold Check. simpl. split.
  - destruct (Exists key (kv w)) as [[]|]; done.
  - by intros ->.
Qed.

(** A fraction of a second, or "5m" (read as five milliseconds), gives a time
    to live of zero: a key expires in the second it is stored. *)
Example zero_ttl : map getIdemTTL ["0.5"; "5m"; "60"; ""; "x"] = [0; 0; 60; 300; 300].
Proof. vm_compute. reflexivity. Qed.

(** ** Witnesses *)

Definition two_claims : list phase := [CLoad "k" 10; CLoad "k" 30].
Lemma claims_exclusive_witness :
  exists s, reachable two_claims s /\ (length (claims s) = 2)%nat /\ 10 <= 20.
Proof.
  destruct (run {| entries := ∅; threads := two_claims; claims := []; clock := 0 |}
    [(0%nat, 5, ""); (1%nat, 20, ""); (1%nat, 20, ""); (1%nat, 20, "")]) as [s|] eqn:E;
    [|vm_compute in E; discriminate].
  assert (R : reachable two_claims s) by (eapply run_reachable; [apply reach_init|exact E]).
  vm_compute in E. injection E as <-. eexists. split; [exact R|]. split; [reflexivity|].
  exact (claims_exclusive two_claims _ 0 1 {| clKey := "k"; clUntil := 10; clAt := 5 |}
    {| clKey := "k"; clUntil := 30; clAt := 20 |} ltac:(repeat constructor) R ltac:(lia) eq_refl eq_refl eq_refl).
Defined.

(** A world with a clock and the local cache. *)
Record world := { wTime : Z; wCache : localCache }.
#[export] Program Instance world_cache : Lens localCache world :=
  {| view := wCache; over := fun s w => {| wTime := wTime w; wCache := s |} |}.
Solve Obligations with (by intros []).
#[export] Instance world_clock : Clock world := wTime.
Definition keyed : Request := post_with {["Idempotency-Key" := ["order-0001"]]}.

Definition world1 : world := {| wTime := 100 * Second; wCache := ∅ |}.
Definition world2 : world := {| wTime := 200 * Second; wCache := {["order-0001" := CInt 400]} |}.
Lemma duplicate_request_conflicts_witness :
  WStatus (IdempotencyMiddleware (fun _ => "") None 300 (fun _ wtr w => (w, wtr, Returned)) keyed newWriter
    world2).1.2 = Some 409.
Proof.
  destruct (proj2 (@duplicate_request_conflicts world world_cache world_clock (fun _ => "") None 300
    (fun _ wtr w => (w, wtr, Returned)) keyed newWriter newWriter
    world1 world2
    eq_refl eq_refl eq_refl eq_refl eq_refl eq_refl
    eq_refl eq_refl)) as (wtr' & E & Hs).
  rewrite E. exact Hs.
Defined.

Definition kv_store : Type := gmap string string.
#[export] Instance kv_redis : RedisKV kv_store := {
  Exists := fun k s => Ok (bool_decide (is_Some (s !! k)));
  SetKV := fun k v _ s => (<[k := v]> s, None);
  SetNX := fun k v _ s => if bool_decide (is_Some (s !! k)) then (s, Ok false) else (<[k := v]> s, Ok true);
  Del := fun k s => delete k s;
}.
Lemma distributed_Check_always_new_witness :
  (Check 0 "k" ({| kv := {["k" := "400"]} |} : redisWorld kv_store)).2 = true.
Proof. exact (proj1 (distributed_Check_always_new 0 "k" ({| kv := {["k" := "400"]} |} : redisWorld kv_store))). Defined.
