(* ===== verification/HttpClient.v ===== *)
(** * The HTTP client (src/http/client/client.go, src/http/client/retry.go)

    [NewClient]'s defaults, one attempt through the breaker ([do]), the retry
    loop, and the JSON helpers.  What the network answers to the n-th attempt
    is the environment's choice. *)

From S2P Require Import Prelude GoStrings Breaker.

Open Scope string_scope.
Open Scope Z_scope.

(** ** Requests and responses, as far as the client looks at them *)

(** [cBody] is what is left to read of the body; [cGetBody] is the [GetBody]
    function, if there is one, by its result. *)
Record CRequest := { cHost : string; cBody : string; cGetBody : option (result string) }.
Record CResponse := { StatusCode : Z; RespBody : string }.
Abbreviation outcome := (result CResponse).

(** ** Configuration *)

Record RetryConfig := {
  MaxAttempts : Z;
  BaseDelay : Z;
  MaxDelay : Z;
  ShouldRetry : option (outcome -> bool);
}.
(** The retry settings of a built client: [ShouldRetry] is always set. *)
Record retrySettings := {
  maxAttempts : Z; baseDelay : Z; maxDelay : Z; shouldRetry : outcome -> bool
}.
Record ClientConfig := {
  Timeout : Z;
  CircuitBreaker : option BreakerConfig;
  Retry : option RetryConfig;
  MaxResponseBytes : Z;
}.
Record Client := {
  timeout : Z;
  breakerCfg : option BreakerConfig;
  retry : option retrySettings;
  maxRespBytes : Z;
}.

Definition DefaultMaxResponseBytes : Z := 10 * 2 ^ 20.

Definition defaultShouldRetry (o : outcome) : bool :=
  match o with
  | Err _ => true
  | Ok resp => (StatusCode resp =? 429) || (500 <=? StatusCode resp)
  end.

Definition NewClient (cfg : ClientConfig) : Client :=
  {| timeout := if Timeout cfg =? 0 then 30 * Second else Timeout cfg;
     breakerCfg := newBreaker <$> CircuitBreaker cfg;
     retry := (fun r =>
       {| maxAttempts := if MaxAttempts r <=? 0 then 3 else MaxAttempts r;
          baseDelay := if BaseDelay r <=? 0 then 100 * Millisecond else BaseDelay r;
          maxDelay := if MaxDelay r <=? 0 then 2 * Second else MaxDelay r;
          shouldRetry := default defaultShouldRetry (ShouldRetry r) |}) <$> Retry cfg;
     maxRespBytes := if MaxResponseBytes cfg =? 0 then DefaultMaxResponseBytes
                     else MaxResponseBytes cfg |}.

(** ** One attempt *)

(** The breaker's host table as one goroutine sees it. *)
Record table := { entries : gmap string breakerState; tracked : Z }.

Definition tableFor (cfg : BreakerConfig) (tb : table) (k : string) : option (breakerState * table) :=
  match entries tb !! k with
  | Some s => Some (s, tb)
  | None =>
      if (0 <? MaxHosts cfg) && (MaxHosts cfg <=? tracked tb) then None
      else Some (newEntry,
        {| entries := <[k := newEntry]> (entries tb);
           tracked := if 0 <? MaxHosts cfg then tracked tb + 1 else tracked tb |})
  end.

(** The error the breaker counts: transport errors and 5xx answers. *)
Definition breakerVerdict (o : outcome) : option error :=
  match o with
  | Err e => Some e
  | Ok resp => if 500 <=? StatusCode resp
               then Some (Errorf ("upstream returned " +:+ Itoa (StatusCode resp))) else None
  end.

(** What [do] hands back: Go's pair (response, error). *)
Definition attemptResult : Type := result CResponse.

(** [c.do]: started at [t1], the transport's outcome [o] arrives at [t2].  The
    boolean says whether the transport was called. *)
Definition do_attempt (c : Client) (tb : table) (req : CRequest) (t1 t2 : Z) (o : outcome)
  : table * bool * attemptResult :=
  match breakerCfg c with
  | None => (tb, true, o)
  | Some cfg =>
      match tableFor cfg tb (cHost req) with
      | None => (tb, true, o)
      | Some (s, tb) =>
          let '(s', called, breakerErr) := execute cfg t1 t2 s (breakerVerdict o) in
          let tb := {| entries := <[cHost req := s']> (entries tb); tracked := tracked tb |} in
          if bool_decide (breakerErr = Some ErrOpen) then (tb, called, Err ErrOpen)
          else (tb, called, o)
      end
  end.

Definition isErrOpen (r : attemptResult) : bool :=
  match r with Err e => errors_is e ErrOpen | Ok _ => false end.

(** ** The retry loop *)

(** [cloneRequest]: the copy shares the original's body reader unless [GetBody]
    supplies a fresh one. *)
Definition cloneRequest (req : CRequest) : result CRequest :=
  match cGetBody req with
  | Some (Ok b) => Ok {| cHost := cHost req; cBody := b; cGetBody := cGetBody req |}
  | Some (Err e) => Err e
  | None => Ok req
  end.
(** Sending a request reads its body to the end. *)
Definition drained (req : CRequest) : CRequest :=
  {| cHost := cHost req; cBody := ""; cGetBody := cGetBody req |}.

(** What the environment decides for one attempt: its times, the transport's
    outcome, and whether the context is done before the following wait ends. *)
Record turn := { tStart : Z; tEnd : Z; tOutcome : outcome; tDone : option error }.

Inductive event : Type :=
  | EvSend (body : string)      (* the transport was called with this body *)
  | EvRefused                   (* the breaker refused the attempt *)
  | EvWait (d : Z).             (* a backoff of d started *)

Fixpoint retry_loop (fuel : nat) (c : Client) (cfg : retrySettings) (attempt delay : Z)
    (tb : table) (req : CRequest) (env : nat -> turn) : list event * attemptResult :=
  match fuel with
  | O => ([], Err (Errorf "no attempt"))
  | S fuel' =>
      match (if 1 <? attempt then cloneRequest req else Ok req) with
      | Err e => ([], Err e)
      | Ok attemptReq =>
          let tn := env (Z.to_nat attempt) in
          let '(tb, called, r) := do_attempt c tb attemptReq (tStart tn) (tEnd tn) (tOutcome tn) in
          let ev := if called : bool then EvSend (cBody attemptReq) else EvRefused in
          let req := if called then drained req else req in
          if isErrOpen r || (attempt =? maxAttempts cfg) || negb (shouldRetry cfg r)
          then ([ev], r)
          else
            match tDone tn with
            | Some e => ([ev; EvWait delay], Err e)
            | None =>
                let '(evs, res) := retry_loop fuel' c cfg (attempt + 1)
                  (Z.min (wrap64 (delay * 2)) (maxDelay cfg)) tb req env in
                (ev :: EvWait delay :: evs, res)
            end
      end
  end.
(** The loop makes at most [MaxAttempts] rounds, so that is the fuel. *)
Definition doWithRetry (c : Client) (cfg : retrySettings) (tb : table) (req : CRequest)
    (env : nat -> turn) : list event * attemptResult :=
  retry_loop (Z.to_nat (maxAttempts cfg)) c cfg 1 (baseDelay cfg) tb req env.

Definition Do (c : Client) (tb : table) (req : CRequest) (env : nat -> turn)
  : list event * attemptResult :=
  match retry c with
  | Some cfg => doWithRetry c cfg tb req env
  | None =>
      let tn := env 1%nat in
      let '(_, called, r) := do_attempt c tb req (tStart tn) (tEnd tn) (tOutcome tn) in
      ([if called : bool then EvSend (cBody req) else EvRefused], r)
  end.

(** ** The JSON helpers *)

Definition limitedBody (c : Client) (b : string) : string :=
  if maxRespBytes c <? 0 then b else stakeZ (maxRespBytes c) b.

Inductive jsonError : Type :=
  | HTTPError (status : Z) (body : string)
  | OtherError (e : error).

(** [HTTPError.Error]. *)
Definition HTTPError_Error (status : Z) (body : string) : string :=
  "upstream returned " +:+ Itoa status +:+ ": " +:+ body.

Section Json.
Context {T : Type} (decode : string -> result T).

(** The common tail of [GetJSON] and [PostJSON]. *)
Definition readJSON (c : Client) (r : attemptResult) : T + jsonError :=
  match r with
  | Err e => inr (OtherError e)
  | Ok res =>
      if (StatusCode res <? 200) || (300 <=? StatusCode res)
      then inr (HTTPError (StatusCode res) (limitedBody c (RespBody res)))
      else match decode (limitedBody c (RespBody res)) with
           | Ok v => inl v
           | Err e => inr (OtherError (Wrap "unmarshal" e))
           end
  end.

(** The URL has been parsed into its host, or parsing failed. *)
Definition GetJSON (c : Client) (tb : table) (url : result string) (env : nat -> turn)
  : T + jsonError :=
  match url with
  | Err e => inr (OtherError e)
  | Ok host => readJSON c (Do c tb {| cHost := host; cBody := ""; cGetBody := None |} env).2
  end.

Definition PostJSON (c : Client) (tb : table) (url : result string) (payload : result string)
    (env : nat -> turn) : T + jsonError :=
  match payload with
  | Err e => inr (OtherError (Wrap "marshal body" e))
  | Ok p =>
      match url with
      | Err e => inr (OtherError e)
      | Ok host => readJSON c
          (Do c tb {| cHost := host; cBody := p; cGetBody := Some (Ok p) |} env).2
      end
  end.
End Json.

(** ** The backoff schedule *)

#[export] Instance event_eq_dec : EqDecision event.
Proof. solve_decision. Defined.

Definition sends (evs : list event) : list string :=
  omap (fun e => match e with EvSend b => Some b | _ => None end) evs.



(** ** The episodes of a call

    What a call with retries does, as a property of its trace, the turns of the
    environment and its result. *)

Section Episodes.
Variables (c : Client) (cfg : retrySettings) (host : string) (getBody : option (result string)) (body : string).
Variable env : nat -> turn.






End Episodes.


(** An attempt is the last one when the budget is spent, the outcome is not to
    be retried, or the breaker is open. *)
Definition final (cfg : retrySettings) (n : nat) (o : outcome) : bool :=
  isErrOpen o || (Z.of_nat n =? maxAttempts cfg) || negb (shouldRetry cfg o).

Lemma retry_loop_final k c cfg fuel i n delay tb req env b :
  breakerCfg c = None -> cGetBody req = Some (Ok b) -> (i > 1)%nat \/ cBody req = b ->
  (n = i + k)%nat -> (k < fuel)%nat -> (1 <= i)%nat ->
  (forall j, (i <= j < n)%nat -> final cfg j (tOutcome (env j)) = false /\ tDone (env j) = None) ->
  final cfg n (tOutcome (env n)) = true ->
  sends (retry_loop fuel c cfg (Z.of_nat i) delay tb req env).1 = replicate (S k) b /\
  (retry_loop fuel c cfg (Z.of_nat i) delay tb req env).2 = tOutcome (env n).
Proof.
  intros Hb Hg. revert i fuel delay tb req Hg.
  induction k as [|k IH]; intros i [|fuel] delay tb req Hg Hbody Hn Hfuel Hi Hbefore Hlast;
    try lia; cbn [retry_loop];
    assert (Hclone : (if 1 <? Z.of_nat i then cloneRequest req else Ok req) =
      Ok {| cHost := cHost req; cBody := b; cGetBody := cGetBody req |})
      by (unfold cloneRequest; rewrite Hg; destruct (Z.ltb_spec 1 (Z.of_nat i)); [done|];
          destruct Hbody; [lia|]; destruct req; simpl in *; by subst);
    rewrite Hclone; unfold do_attempt; rewrite Hb, Nat2Z.id; fold (final cfg i (tOutcome (env i))).
  - rewrite Nat.add_0_r in Hn. subst n. by rewrite Hlast.
  - destruct (Hbefore i ltac:(lia)) as [-> ->].
    specialize (IH (S i) fuel (Z.min (wrap64 (delay * 2)) (maxDelay cfg)) tb (drained req) Hg
      ltac:(left; lia) ltac:(lia) ltac:(lia) ltac:(lia)
      ltac:(intros j Hj; apply Hbefore; lia) Hlast).
    rewrite Nat2Z.inj_succ in IH. unfold Z.succ in IH.
    destruct (retry_loop fuel _ _ _ _ _ _ _) as [evs res]. simpl in *.
    destruct IH as [IH1 IH2]. by rewrite IH1.
Qed.

(** With a replayable body and no breaker, [Do] returns the outcome of the
    first final attempt n, after exactly n sends that each carried the whole
    body. *)
Theorem retry_returns_first_final (c : Client) (cfg : retrySettings) (tb : table)
    (req : CRequest) (env : nat -> turn) (n : nat)
    (Hr : retry c = Some cfg) (Hb : breakerCfg c = None)
    (Hg : cGetBody req = Some (Ok (cBody req))) (Hn : (1 <= n)%nat /\ Z.of_nat n <= maxAttempts cfg)
    (Hbefore : forall j, (1 <= j < n)%nat ->
       final cfg j (tOutcome (env j)) = false /\ tDone (env j) = None)
    (Hlast : final cfg n (tOutcome (env n)) = true) :
  sends (Do c tb req env).1 = replicate n (cBody req) /\
  (Do c tb req env).2 = tOutcome (env n).
Proof.
  unfold Do. rewrite Hr. unfold doWithRetry. destruct n as [|n]; [lia|].
  apply (retry_loop_final n c cfg (Z.to_nat (maxAttempts cfg)) 1 (S n)); auto; lia.
Qed.

(** Without [GetBody] a retry sends an empty body: the clone shares the
    reader the first attempt has read to its end. *)
Theorem retry_without_GetBody_sends_empty_body (c : Client) (cfg : retrySettings) (tb : table)
    (req : CRequest) (env : nat -> turn)
    (Hr : retry c = Some cfg) (Hb : breakerCfg c = None) (Hg : cGetBody req = None)
    (Hm : maxAttempts cfg = 2)
    (Hfirst : final cfg 1 (tOutcome (env 1%nat)) = false) (Hctx : tDone (env 1%nat) = None) :
  sends (Do c tb req env).1 = [cBody req; ""].
Proof.
  unfold final in Hfirst. bool_to_prop. unfold Do. rewrite Hr. unfold doWithRetry. rewrite Hm.
  change (Z.to_nat 2) with 2%nat. cbn [retry_loop]. unfold do_attempt, cloneRequest. rewrite Hb.
  cbn -[Z.eqb Z.to_nat isErrOpen]. rewrite Hm. change (Z.to_nat 1) with 1%nat.
  rewrite Hctx, Hg. change (1 =? 2) with false. change (2 =? 2) with true.
  destruct (isErrOpen (tOutcome (env 1%nat))); [done|].
  destruct (shouldRetry cfg (tOutcome (env 1%nat))); [|done]. cbn -[isErrOpen].
  by rewrite orb_true_r.
Qed.

(** The JSON helpers answer with a decoded value only for a 2xx status, and
    with a non-negative cap neither the value nor the error body depends on
    more than the first [MaxResponseBytes] bytes the upstream sent. *)
Theorem readJSON_bounded {T} (decode : string -> result T) (c : Client) (st : Z) (b : string)
    (Hc : 0 <= maxRespBytes c) :
  let cut := stakeZ (maxRespBytes c) b in
  len cut <= maxRespBytes c /\
  readJSON decode c (Ok {| StatusCode := st; RespBody := b |}) =
  readJSON decode c (Ok {| StatusCode := st; RespBody := cut |}) /\
  (forall v, readJSON decode c (Ok {| StatusCode := st; RespBody := b |}) = inl v ->
     200 <= st < 300 /\ decode cut = Ok v).
Proof.
  intros cut. subst cut. split_and!.
  - by apply stakeZ_len.
  - unfold readJSON, limitedBody; simpl. destruct (Z.ltb_spec (maxRespBytes c) 0); [lia|].
    by rewrite stakeZ_stakeZ.
  - intros v. unfold readJSON, limitedBody; simpl. destruct (Z.ltb_spec (maxRespBytes c) 0); [lia|].
    destruct (_ || _) eqn:E; [done|]. bool_to_prop. destruct (decode _); [|done].
    intros [= ->]. split; [lia|done].
Qed.

(** ** Witnesses *)

Definition demo_retry : RetryConfig :=
  {| MaxAttempts := 0; BaseDelay := 0; MaxDelay := 0; ShouldRetry := None |}.
Definition demo_client : Client := NewClient
  {| Timeout := 0; CircuitBreaker := None; Retry := Some demo_retry; MaxResponseBytes := 0 |}.
Definition demo_settings : retrySettings :=
  {| maxAttempts := 3; baseDelay := 100 * Millisecond; maxDelay := 2 * Second;
     shouldRetry := defaultShouldRetry |}.
Definition two_settings : retrySettings :=
  {| maxAttempts := 2; baseDelay := 100 * Millisecond; maxDelay := 2 * Second;
     shouldRetry := defaultShouldRetry |}.
Definition demo_table : table := {| entries := ∅; tracked := 0 |}.
Definition demo_post : CRequest := {| cHost := "api"; cBody := "payload"; cGetBody := Some (Ok "payload") |}.
Definition demo_stream : CRequest := {| cHost := "api"; cBody := "payload"; cGetBody := None |}.
(** 503, 429, then 200. *)
Definition demo_net (n : nat) : turn :=
  {| tStart := 0; tEnd := 1; tDone := None;
     tOutcome := Ok {| StatusCode := match n with 1%nat => 503 | 2%nat => 429 | _ => 200 end;
                       RespBody := "" |} |}.


Lemma retry_returns_first_final_witness :
  (Do demo_client demo_table demo_post demo_net).2 = Ok {| StatusCode := 200; RespBody := "" |}.
Proof.
  refine (proj2 (retry_returns_first_final demo_client demo_settings demo_table demo_post demo_net
    3%nat eq_refl eq_refl eq_refl _ _ eq_refl)).
  - split; [lia|vm_compute; discriminate].
  - intros [|[|[|j]]] Hj; try (exfalso; lia); split; reflexivity.
Defined.

Lemma retry_without_GetBody_sends_empty_body_witness :
  sends (Do {| timeout := 0; breakerCfg := None; retry := Some two_settings; maxRespBytes := -1 |}
    demo_table demo_stream demo_net).1 = ["payload"; ""].
Proof.
  exact (retry_without_GetBody_sends_empty_body
    {| timeout := 0; breakerCfg := None; retry := Some two_settings; maxRespBytes := -1 |}
    two_settings demo_table demo_stream demo_net eq_refl eq_refl eq_refl eq_refl eq_refl eq_refl).
Defined.

Lemma readJSON_bounded_witness :
  readJSON (fun s => Ok s) {| timeout := 0; breakerCfg := None; retry := None; maxRespBytes := 3 |}
    (Ok {| StatusCode := 200; RespBody := "abcdef" |}) = inl "abc".
Proof.
  exact (proj1 (proj2 (readJSON_bounded (fun s => Ok s)
    {| timeout := 0; breakerCfg := None; retry := None; maxRespBytes := 3 |} 200 "abcdef"
    ltac:(vm_compute; discriminate)))).
Defined.
