(* ===== verification/ServiceAuth.v ===== *)
(** * Service tokens (src/http/client/serviceauth.go)

    The client-credentials token source: the cached token with its refresh
    time, the fetch with its error paths, and the transport that attaches the
    token.  JSON decoding of the token response and the network are
    parameters; [singleflight] collapses concurrent fetches into one, so one
    caller's view is modelled: the check outside and the check inside. *)

From S2P Require Import Prelude GoStrings Float64 Net Http HttpClient.

Open Scope string_scope.
Open Scope Z_scope.

Definition DefaultTokenTTL : Z := 5 * Minute.
(** The [float64] constant 0.15. *)
Definition defaultRefreshFraction : Q := Eval vm_compute in fround (15 # 100).

Record ServiceAuthConfig := {
  TokenURL : string; ClientID : string; ClientSecret : string; Scope : string;
}.
Record tokenResponse := { AccessToken : string; TokenType : string; ExpiresIn : Z }.
Record tokenState := { token : string; refreshAt : Z }.

(** The zero value of the cache fields. *)
Definition emptyToken : tokenState := {| token := ""; refreshAt := zeroTime |}.

Definition NewClientCredentialsTokenSource (cfg : ServiceAuthConfig)
  : result (ServiceAuthConfig * tokenState) :=
  if String.eqb (TokenURL cfg) "" then Err (Errorf "service auth: TokenURL is required")
  else if String.eqb (ClientID cfg) "" || String.eqb (ClientSecret cfg) ""
  then Err (Errorf "service auth: ClientID and ClientSecret are required")
  else Ok (cfg, emptyToken).

(** ** The form body: [url.Values.Encode] *)

(** [Encode] sorts by key: client_id, client_secret, grant_type, scope. *)
Definition tokenForm (cfg : ServiceAuthConfig) : string :=
  encodePairs ([("client_id", ClientID cfg); ("client_secret", ClientSecret cfg);
                ("grant_type", "client_credentials")] ++
               (if String.eqb (Scope cfg) "" then [] else [("scope", Scope cfg)]))%list.

(** ** Fetching *)

(** The share of the lifetime after which the token is renewed. *)
Definition refreshMargin (ttl : Z) : Z := ftrunc (fmul (float64 ttl) defaultRefreshFraction).
Definition tokenTTL (tr : tokenResponse) : Z :=
  if 0 <? ExpiresIn tr then wrap64 (ExpiresIn tr * Second) else DefaultTokenTTL.

Section Fetch.
Context (decode : string -> result tokenResponse).

(** [net] is the answer to the POST of the form; [t] the time the answer is stored. *)
Definition fetch (cfg : ServiceAuthConfig) (s : tokenState) (urlErr : option error)
    (net : string -> outcome) (t : Z) : tokenState * result string :=
  match urlErr with
  | Some e => (s, Err (Wrap "service auth: build token request" e))
  | None =>
      match net (tokenForm cfg) with
      | Err e => (s, Err (Wrap "service auth: token request failed" e))
      | Ok res =>
          let body := stakeZ DefaultMaxResponseBytes (RespBody res) in
          if (StatusCode res <? 200) || (300 <=? StatusCode res)
          then (s, Err (Errorf ("service auth: token endpoint returned " +:+ Itoa (StatusCode res))))
          else match decode body with
               | Err e => (s, Err (Wrap "service auth: decode token response" e))
               | Ok tr =>
                   if String.eqb (AccessToken tr) ""
                   then (s, Err (Errorf "service auth: token response missing access_token"))
                   else let ttl := tokenTTL tr in
                        ({| token := AccessToken tr;
                            refreshAt := t + wrap64 (ttl - refreshMargin ttl) |},
                         Ok (AccessToken tr))
               end
      end
  end.

Definition cached (s : tokenState) (t : Z) : bool :=
  negb (String.eqb (token s) "") && timeBefore t (refreshAt s).

(** [Token]: the state the first check sees, the state the check under the
    singleflight sees (another caller may have refreshed in between), then
    the fetch.  The boolean says whether the endpoint was asked. *)
Definition Token (cfg : ServiceAuthConfig) (s1 : tokenState) (t1 : Z) (s2 : tokenState) (t2 : Z)
    (urlErr : option error) (net : string -> outcome) (t3 : Z)
  : tokenState * bool * result string :=
  if cached s1 t1 then (s2, false, Ok (token s1))
  else if cached s2 t2 then (s2, false, Ok (token s2))
  else let '(s3, r) := fetch cfg s2 urlErr net t3 in (s3, true, r).

(** [authTransport.RoundTrip]: the request the base transport gets.  The inbound
    request is cloned, its headers are not touched. *)
Definition RoundTrip (req : Request) (tok : result string) : result Request :=
  let? token := tok in
  Ok (withHeader req (hset (Header req) "Authorization" ("Bearer " +:+ token))).
End Fetch.

(** ** Renewal margin *)

Definition sane_ttl (ttl : Z) : Prop := 0 < ttl <= 2 ^ 62.

Lemma refreshMargin_bounds ttl :
  sane_ttl ttl -> 14 * ttl - 100 <= 100 * refreshMargin ttl <= 16 * ttl.
Proof.
  intros [Hpos _]. unfold refreshMargin, fmul, float64.
  set (a := fround (inject_Z ttl)). set (b := fround (a * defaultRefreshFraction)).
  assert (H0 : (0 < inject_Z ttl)%Q) by (change 0%Q with (inject_Z 0); by rewrite <- Zlt_Qlt).
  pose proof (fround_error (inject_Z ttl) ltac:(lra)) as Ha. fold a in Ha.
  assert (Ha0 : (0 <= a)%Q) by lra.
  assert (Hf : ((14999 # 100000) <= defaultRefreshFraction <= (15001 # 100000))%Q)
    by (unfold defaultRefreshFraction, Qle; simpl; lia).
  assert (Hx0 : (0 <= a * defaultRefreshFraction)%Q) by nra.
  pose proof (fround_error _ Hx0) as Hb. fold b in Hb.
  assert (Hb0 : (0 <= b)%Q) by lra.
  pose proof (ftrunc_bounds b Hb0) as [Hc1 Hc2]. rewrite inject_Z_plus in Hc2.
  assert (R : ((14 # 1) * inject_Z ttl - (100 # 1) <= (100 # 1) * inject_Z (ftrunc b) <=
    (16 # 1) * inject_Z ttl)%Q).
  { assert (((1499 # 10000) * a <= a * defaultRefreshFraction <= (1501 # 10000) * a)%Q) by (split; nra).
    change (inject_Z 1) with 1%Q in Hc2. split; lra. }
  destruct R as [R1 R2]. split.
  - rewrite Zle_Qle, <- Z.add_opp_r, inject_Z_plus, !inject_Z_mult.
    change (inject_Z 14) with (14 # 1)%Q. change (inject_Z (- (100))) with (-100 # 1)%Q.
    change (inject_Z 100) with (100 # 1)%Q. lra.
  - rewrite Zle_Qle, !inject_Z_mult. change (inject_Z 16) with (16 # 1)%Q.
    change (inject_Z 100) with (100 # 1)%Q. lra.
Qed.

(** ** What the endpoint granted

    The reference the token source is compared with is written from the answers
    the endpoint gave, newest first: when, to which form, and what. *)
Definition answers : Type := list (Z * string * outcome).

(** The credentials a token request has to carry. *)
Definition credentials (cfg : ServiceAuthConfig) : list (string * string) :=
  ([("client_id", ClientID cfg); ("client_secret", ClientSecret cfg); ("grant_type", "client_credentials")] ++
   match Scope cfg with "" => [] | sc => [("scope", sc)] end)%list.
(** The lifetime the endpoint gave the token, five minutes if it named none. *)
Definition lifetime (tr : tokenResponse) : Z :=
  if 0 <? ExpiresIn tr then ExpiresIn tr * 1000000000 else 300000000000.
(** At most 2^62 nanoseconds, 146 years. *)
Definition sane_lifetime (tr : tokenResponse) : Prop := lifetime tr <= 2 ^ 62.

Section TokenProps.
  Context (decode : string -> result tokenResponse) (cfg : ServiceAuthConfig).

(** The token an answer grants: to a form that carries the credentials, with a 2xx
    status and a body that decodes to a token. *)
Definition grantOf (a : Z * string * outcome) : option tokenResponse :=
  match a with
  | (_, form, Ok res) =>
      if bool_decide (ParseQuery form = Some (credentials cfg)) && (200 <=? StatusCode res) && (StatusCode res <=? 299)
      then match decode (stakeZ DefaultMaxResponseBytes (RespBody res)) with
           | Ok tr => if String.eqb (AccessToken tr) "" then None else Some tr
           | Err _ => None
           end
      else None
  | _ => None
  end.
(** The latest token granted, and when. *)
Fixpoint latest (h : answers) : option (Z * tokenResponse) :=
  match h with
  | [] => None
  | a :: h => match grantOf a with Some tr => Some (a.1.1, tr) | None => latest h end
  end.

(** The states the cache goes through, with the answers it got. *)
Inductive reached : answers -> tokenState -> Prop :=
  | reached_new : reached [] emptyToken
  | reached_fetch h s net t s' r :
      reached h s -> fetch decode cfg s None net t = (s', r) ->
      reached ((t, tokenForm cfg, net (tokenForm cfg)) :: h) s'.

Lemma tokenForm_credentials : ParseQuery (tokenForm cfg) = Some (credentials cfg).
Proof. unfold tokenForm, credentials. rewrite ParseQuery_encodePairs by done. by destruct (Scope cfg). Qed.

(** The state a token is stored in. *)
Definition stored (g : option (Z * tokenResponse)) : tokenState :=
  match g with
  | None => emptyToken
  | Some (t, tr) =>
      {| token := AccessToken tr; refreshAt := t + wrap64 (tokenTTL tr - refreshMargin (tokenTTL tr)) |}
  end.

(** A fetch succeeds exactly when the answer grants a token, which it stores. *)
Lemma fetch_grant s net t :
  match grantOf (t, tokenForm cfg, net (tokenForm cfg)) with
  | Some tr => fetch decode cfg s None net t = (stored (Some (t, tr)), Ok (AccessToken tr))
  | None => exists e, fetch decode cfg s None net t = (s, Err e)
  end.
Proof.
  unfold grantOf, fetch. destruct (net (tokenForm cfg)) as [res|e]; [|eauto].
  rewrite (bool_decide_true _ tokenForm_credentials). cbn [andb].
  destruct (Z.leb_spec 200 (StatusCode res)), (Z.leb_spec (StatusCode res) 299),
    (Z.ltb_spec (StatusCode res) 200), (Z.leb_spec 300 (StatusCode res)); try lia; cbn [andb orb]; eauto.
  destruct (decode _) as [tr|e]; [|eauto]. destruct (String.eqb _ ""); eauto.
Qed.

Lemma fetch_unbuilt s e net t : exists e', fetch decode cfg s (Some e) net t = (s, Err e').
Proof. by eexists. Qed.

Lemma grant_nonempty a tr : grantOf a = Some tr -> AccessToken tr <> "".
Proof.
  destruct a as [[t form] [res|e]]; simpl; [|done]. destruct (_ && _); [|done].
  destruct (decode _) as [tr'|]; [|done]. destruct (String.eqb_spec (AccessToken tr') ""); congruence.
Qed.
Lemma latest_nonempty h t tr : latest h = Some (t, tr) -> AccessToken tr <> "".
Proof.
  induction h as [|a h IH]; simpl; [done|]. destruct (grantOf a) as [tr'|] eqn:E; [|done].
  intros [= <- <-]. by eapply grant_nonempty.
Qed.

(** The cache holds the latest token granted. *)
Lemma reached_stored h s : reached h s -> s = stored (latest h).
Proof.
  induction 1 as [|h s net t s' r _ IH Hf]; [done|]. cbn [latest fst].
  pose proof (fetch_grant s net t) as Hg. destruct (grantOf _) as [tr|].
  - rewrite Hg in Hf. congruence.
  - destruct Hg as [e Hg]. rewrite Hg in Hf. congruence.
Qed.

Lemma tokenTTL_lifetime tr : sane_lifetime tr -> tokenTTL tr = lifetime tr /\ sane_ttl (lifetime tr).
Proof.
  unfold sane_lifetime, tokenTTL, lifetime, sane_ttl. intros H.
  destruct (Z.ltb_spec 0 (ExpiresIn tr)); [|done].
  change Second with 1000000000. split; [|lia].
  apply wrap64_id. unfold int64_ok, int64_min, int64_max. lia.
Qed.

(** The renewal time of a token lies between 84% and 86% of its lifetime. *)
Lemma renewal_bounds t tr : sane_lifetime tr ->
  84 * lifetime tr <= 100 * (refreshAt (stored (Some (t, tr))) - t) <= 86 * lifetime tr + 100.
Proof.
  intros [E Hs]%tokenTTL_lifetime. pose proof (refreshMargin_bounds _ Hs) as [H1 H2]. simpl. rewrite E.
  destruct Hs as [Hp Hm]. rewrite wrap64_id by (unfold int64_ok, int64_min, int64_max; lia). lia.
Qed.

(** What a check of the cache finds. *)
Lemma cached_latest h s t : reached h s -> cached s t = true ->
  exists t0 tr, latest h = Some (t0, tr) /\ token s = AccessToken tr /\ token s <> "" /\
    (sane_lifetime tr -> 100 * (t - t0) < 86 * lifetime tr + 100).
Proof.
  intros Hr%reached_stored Hc. subst s. destruct (latest h) as [[t0 tr]|] eqn:El; [|done].
  unfold cached, timeBefore in Hc. bool_to_prop. exists t0, tr. split_and!; try done.
  intros Hs. pose proof (renewal_bounds t0 tr Hs). lia.
Qed.
Lemma fresh_cached h s t t0 tr : reached h s -> latest h = Some (t0, tr) -> sane_lifetime tr ->
  100 * (t - t0) < 84 * lifetime tr -> cached s t = true /\ token s = AccessToken tr.
Proof.
  intros Hr%reached_stored Hl Hs Ht. subst s. rewrite Hl. split; [|done].
  pose proof (renewal_bounds t0 tr Hs). unfold cached, timeBefore. apply andb_true_iff. split.
  - apply negb_true_iff, String.eqb_neq. by eapply latest_nonempty.
  - apply Z.ltb_lt. lia.
Qed.

(** (C24) Every token [Token] hands out was granted and is live, and no token is
    fetched too early.  The histories [h1] and [h2] are what the endpoint answered
    before the two checks of the cache.  A successful answer is the token of the
    answer the endpoint gave just now to a form with the credentials, or else the
    latest token granted in one of the histories, of whose lifetime, expires_in
    seconds or five minutes, less than 86% (and a nanosecond) had passed when it was
    checked.  While less than 84% of the latest token has passed it is handed out and
    the endpoint is not asked.  And the cache is left with the answer in its history. *)
Theorem Token_live (h1 h2 : answers) (s1 s2 s3 : tokenState) (t1 t2 t3 : Z)
    (u : option error) (net : string -> outcome) (asked : bool) (r : result string)
    (R1 : reached h1 s1) (R2 : reached h2 s2)
    (H : Token decode cfg s1 t1 s2 t2 u net t3 = (s3, asked, r)) :
  let answer := (t3, tokenForm cfg, net (tokenForm cfg)) in
  (forall tok, r = Ok tok -> tok <> "" /\
     if asked then exists tr, grantOf answer = Some tr /\ tok = AccessToken tr
     else exists h t t0 tr, (h = h1 /\ t = t1 \/ h = h2 /\ t = t2) /\ latest h = Some (t0, tr) /\
            tok = AccessToken tr /\ (sane_lifetime tr -> 100 * (t - t0) < 86 * lifetime tr + 100)) /\
  (forall t0 tr, latest h1 = Some (t0, tr) -> sane_lifetime tr -> 100 * (t1 - t0) < 84 * lifetime tr ->
     asked = false /\ r = Ok (AccessToken tr)) /\
  reached (if asked && negb (bool_decide (is_Some u)) then answer :: h2 else h2) s3.
Proof.
  intros answer. unfold Token in H. split_and!.
  - intros tok ->. destruct (cached s1 t1) eqn:E1; [|destruct (cached s2 t2) eqn:E2].
    + injection H as <- <- <-. destruct (cached_latest _ _ _ R1 E1) as (t0 & tr & Hl & Ht & Hne & Ha).
      split; [done|]. exists h1, t1, t0, tr. by split_and!; [left|..].
    + injection H as <- <- <-. destruct (cached_latest _ _ _ R2 E2) as (t0 & tr & Hl & Ht & Hne & Ha).
      split; [done|]. exists h2, t2, t0, tr. by split_and!; [right|..].
    + destruct u as [e|]; [destruct (fetch_unbuilt s2 e net t3) as [e' Hf]; by rewrite Hf in H|].
      pose proof (fetch_grant s2 net t3) as Hg. fold answer in Hg. destruct (grantOf answer) as [tr|] eqn:Eg.
      * rewrite Hg in H. injection H as <- <- <-. split; [by eapply grant_nonempty|eauto].
      * destruct Hg as [e Hg]. by rewrite Hg in H.
  - intros t0 tr Hl Hs Ht. destruct (fresh_cached _ _ _ _ _ R1 Hl Hs Ht) as [Hc Hk].
    rewrite Hc in H. injection H as <- <- <-. by rewrite Hk.
  - destruct (cached s1 t1); [by injection H as <- <- _|]. destruct (cached s2 t2); [by injection H as <- <- _|].
    destruct (fetch decode cfg s2 u net t3) as [s r'] eqn:Ef. injection H as <- <- _.
    destruct u as [e|]; [by injection Ef as <- _|]. rewrite bool_decide_false by (by intros []).
    by eapply reached_fetch.
Qed.
End TokenProps.

Definition demo_auth : ServiceAuthConfig :=
  {| TokenURL := "https://auth/token"; ClientID := "id"; ClientSecret := "s&cret"; Scope := "svc:a" |}.
Definition demo_decode (b : string) : result tokenResponse :=
  if String.eqb b "ok" then Ok {| AccessToken := "tok"; TokenType := "Bearer"; ExpiresIn := 3600 |}
  else Err (Errorf "invalid character").
Definition demo_endpoint (f : string) : outcome := Ok {| StatusCode := 200; RespBody := "ok" |}.
Definition demo_cached : tokenState :=
  (fetch demo_decode demo_auth emptyToken None demo_endpoint 0).1.

Example tokenForm_demo : tokenForm demo_auth =
  "client_id=id&client_secret=s%26cret&grant_type=client_credentials&scope=svc%3Aa".
Proof. reflexivity. Qed.

(** An hour's token is renewed after 51 minutes. *)
Example refresh_demo : refreshAt demo_cached = 51 * Minute.
Proof. vm_compute. reflexivity. Qed.

(** After a minute the token is handed out from the cache: 86% of its hour have not passed. *)
Definition demo_history : answers := [(0, tokenForm demo_auth, demo_endpoint (tokenForm demo_auth))].
Definition demo_granted : tokenResponse := {| AccessToken := "tok"; TokenType := "Bearer"; ExpiresIn := 3600 |}.
Lemma demo_reached : reached demo_decode demo_auth demo_history demo_cached.
Proof. eapply reached_fetch; [apply reached_new|apply surjective_pairing]. Qed.
Lemma Token_live_witness :
  (exists h t t0 tr, (h = demo_history /\ t = Minute \/ h = demo_history /\ t = Minute) /\
     latest demo_decode demo_auth h = Some (t0, tr) /\ "tok" = AccessToken tr /\
     (sane_lifetime tr -> 100 * (t - t0) < 86 * lifetime tr + 100)) /\
  latest demo_decode demo_auth demo_history = Some (0, demo_granted).
Proof.
  split; [|vm_compute; reflexivity].
  assert (E : Token demo_decode demo_auth demo_cached Minute demo_cached Minute None demo_endpoint Minute =
    (demo_cached, false, Ok "tok")) by (vm_compute; reflexivity).
  exact (proj2 (proj1 (Token_live demo_decode demo_auth demo_history demo_history demo_cached demo_cached demo_cached
    Minute Minute Minute None demo_endpoint false (Ok "tok") demo_reached demo_reached E) "tok" eq_refl)).
Defined.
