(* ===== verification/Auth.v ===== *)
(** * Authentication (src/auth)

    The [Verifier] interface and the middlewares written against it
    (middleware.go), and the JWKS verifier that implements it: key cache,
    negative cache, refresh (jwks.go).  JSON decoding of the key document and
    the go-jwt parser are parameters; base64 and key parsing are modelled. *)

From S2P Require Import Prelude GoStrings Http HttpClient Jwt.

Open Scope string_scope.
Open Scope Z_scope.

Definition ErrExpired : error := Sentinel "token has expired".
Definition ErrInvalidSignature : error := Sentinel "token signature verification failed".
Definition ErrInvalidToken : error := Sentinel "invalid token".

Record Claims := {
  cSubject : string; cAudience : list string; cScopes : list string; cJTI : string;
  cIsAdmin : bool; cIssuedAt : Z; cExpiresAt : Z; cIssuer : string;
}.

(** The interface [auth.Verifier]: verifying may change the verifier's state,
    which is part of the world. *)
Class Verifier (W : Type) := Verify : W -> string -> W * result Claims.

(** The errors the interface documents. *)
Definition documentedError (e : error) : Prop :=
  e = ErrExpired \/ e = ErrInvalidSignature \/ e = ErrInvalidToken.

(** ** Middlewares *)

Definition when (b : bool) (f : context -> context) (ctx : context) : context :=
  if b then f ctx else ctx.
Definition nonEmpty (s : string) : bool := negb (String.eqb s "").

(** The context [Middleware] builds from verified claims. *)
Definition authContext (c : Claims) (ctx : context) : context :=
  let isUIRequest := (length (cScopes c) =? 0)%nat || cIsAdmin c in
  let isAPIRequest := (0 <? length (cScopes c))%nat in
  let ctx := WithAuthValid ctx true in
  let ctx := when (nonEmpty (cSubject c)) (fun x => WithUserID x (cSubject c)) ctx in
  let ctx := when (nonEmpty (cJTI c)) (fun x => WithSessionID x (cJTI c)) ctx in
  let ctx := when isUIRequest (fun x => WithClientType (WithRequestType x "ui") "browser") ctx in
  let ctx := when isAPIRequest
    (fun x => WithClientType (WithScopes (WithRequestType x "api") (cScopes c)) "api") ctx in
  when (cIsAdmin c) (fun x => WithAdmin x true) ctx.

Definition Middleware {W} `{Verifier W, Clock W} : middleware W := fun next req wtr w =>
  match ExtractTokenFromRequest req with
  | Err _ => reject (InvalidToken Auth) [WithDetail "missing or malformed authorization header"] req wtr w
  | Ok tok =>
      let '(w, r) := Verify w tok in
      match r with
      | Err e =>
          let errCode := if errors_is e ErrExpired then ExpiredToken Auth else InvalidToken Auth in
          reject errCode [WithDetail "token verification failed"] req wtr w
      | Ok claims => next (WithContext req (authContext claims (Ctx req))) wtr w
      end
  end.

(** The deprecated middleware over a [jwt.Client]; it does not set the client type. *)
Definition legacyContext (c : CustomClaims) (ctx : context) : context :=
  let isUIRequest := (length (Scopes c) =? 0)%nat || IsAdmin c in
  let isAPIRequest := (0 <? length (Scopes c))%nat in
  let ctx := WithAuthValid ctx true in
  let ctx := when (nonEmpty (Subject c)) (fun x => WithUserID x (Subject c)) ctx in
  let ctx := when (nonEmpty (ClaimID c)) (fun x => WithSessionID x (ClaimID c)) ctx in
  let ctx := when isUIRequest (fun x => WithRequestType x "ui") ctx in
  let ctx := when isAPIRequest (fun x => WithScopes (WithRequestType x "api") (Scopes c)) ctx in
  when (IsAdmin c) (fun x => WithAdmin x true) ctx.
(** [validate] is the client's [ValidateAndParseClaims] at a time. *)
Definition AuthMiddleware {W} `{Clock W} (validate : Z -> string -> result CustomClaims) : middleware W :=
  fun next req wtr w =>
    match ExtractTokenFromRequest req with
    | Err _ => reject (InvalidToken Auth) [WithDetail "missing or malformed authorization header"] req wtr w
    | Ok tok =>
        match validate (now w) tok with
        | Err _ => reject (InvalidToken Auth) [WithDetail "token validation failed"] req wtr w
        | Ok claims => next (WithContext req (legacyContext claims (Ctx req))) wtr w
        end
    end.

Definition RequireServiceScope {W} `{Clock W} : middleware W := fun next req wtr w =>
  if existsb (fun s => HasPrefix s "svc:") (GetScopes (Ctx req)) then next req wtr w
  else reject (InsufficientScope Auth) [] req wtr w.

(** [None]: the constructor panics. *)
Definition RequireAnyScope {W} `{Clock W} (scopes : list string) : option (middleware W) :=
  match scopes with
  | [] => None
  | _ => Some (fun next req wtr w =>
      if existsb (fun have => existsb (String.eqb have) scopes) (GetScopes (Ctx req))
      then next req wtr w
      else reject (InsufficientScope Auth) [WithDetail ("requires " +:+ Join scopes " or ")] req wtr w)
  end.

(** ** Keys *)

(** [base64.RawURLEncoding.DecodeString]: line breaks are skipped, the unused
    bits of the last character are ignored. *)
Definition b64val (c : ascii) : option Z :=
  if isUpper c then Some (byteZ c - 65)
  else if isLower c then Some (byteZ c - 71)
  else if isDigit c then Some (byteZ c + 4)
  else if Ascii.eqb c "-" then Some 62
  else if Ascii.eqb c "_" then Some 63 else None.
Fixpoint b64chars (s : string) : option (list Z) :=
  match s with
  | "" => Some []
  | String c s' =>
      if Ascii.eqb c "010" || Ascii.eqb c "013" then b64chars s'
      else match b64val c, b64chars s' with Some v, Some l => Some (v :: l) | _, _ => None end
  end.
Fixpoint b64bytes (l : list Z) : option (list Z) :=
  match l with
  | [] => Some []
  | a :: b :: c :: d :: l' =>
      match b64bytes l' with
      | Some r => Some (a * 4 + b / 16 :: b mod 16 * 16 + c / 4 :: c mod 4 * 64 + d :: r)
      | None => None
      end
  | [a; b; c] => Some [a * 4 + b / 16; b mod 16 * 16 + c / 4]
  | [a; b] => Some [a * 4 + b / 16]
  | [_] => None
  end.
Definition base64Decode (s : string) : option (list Z) :=
  match b64chars s with Some l => b64bytes l | None => None end.
(** [big.Int.SetBytes]. *)
Definition bigEndian (l : list Z) : Z := fold_left (fun a b => a * 256 + b) l 0.

Record PublicKey := { keyN : Z; keyE : Z }.
#[export] Instance PublicKey_eq_dec : EqDecision PublicKey.
Proof. solve_decision. Defined.

Definition parseRSAPublicKey (n e : string) : result PublicKey :=
  match base64Decode n with
  | None => Err (Wrap "failed to decode modulus" (Errorf "illegal base64 data"))
  | Some nBytes =>
      match base64Decode e with
      | None => Err (Wrap "failed to decode exponent" (Errorf "illegal base64 data"))
      | Some eBytes => Ok {| keyN := bigEndian nBytes; keyE := wrap64 (bigEndian eBytes) |}
      end
  end.

Record jwk := { jwkKty : string; jwkUse : string; jwkKid : string; jwkN : string; jwkE : string }.

(** The new cache of a key document; later entries of a kid replace earlier ones. *)
Fixpoint keysOf (acc : gmap string PublicKey) (l : list jwk) : result (gmap string PublicKey) :=
  match l with
  | [] => Ok acc
  | k :: l =>
      if negb (String.eqb (jwkKty k) "RSA") || negb (String.eqb (jwkUse k) "sig") then keysOf acc l
      else match parseRSAPublicKey (jwkN k) (jwkE k) with
           | Err e => Err (Wrap "failed to parse public key" e)
           | Ok pub => keysOf (<[jwkKid k := pub]> acc) l
           end
  end.

(** ** The verifier *)

Record JWKSConfig := {
  JWKSURL : string; ExpectedAudience : string; ExpectedIssuer : string; CacheTTL : Z;
}.
Definition negCacheTTL : Z := 30 * Second.

Record jwksState := {
  cache : gmap string PublicKey;
  negCache : gmap string Z;
  lastRefresh : Z;
}.
Definition NewJWKSVerifier (cfg : JWKSConfig) : result (JWKSConfig * jwksState) :=
  if String.eqb (JWKSURL cfg) "" then Err (Errorf "invalid JWKS configuration: JWKSURL is required")
  else if String.eqb (ExpectedAudience cfg) ""
  then Err (Errorf "invalid JWKS configuration: ExpectedAudience is required")
  else if String.eqb (ExpectedIssuer cfg) ""
  then Err (Errorf "invalid JWKS configuration: ExpectedIssuer is required")
  else Ok ({| JWKSURL := JWKSURL cfg; ExpectedAudience := ExpectedAudience cfg;
              ExpectedIssuer := ExpectedIssuer cfg;
              CacheTTL := if CacheTTL cfg =? 0 then 5 * Minute else CacheTTL cfg |},
           {| cache := ∅; negCache := ∅; lastRefresh := zeroTime |}).

(** Claims as go-jwt parses them. *)
Record jwtClaims := {
  jScopes : list string; jIsAdmin : bool; jSubject : string; jAudience : list string;
  jID : string; jIssuer : string; jIssuedAt : option Z; jExpiresAt : option Z;
}.
Definition mapClaims (c : jwtClaims) : Claims :=
  {| cSubject := jSubject c; cAudience := jAudience c; cScopes := jScopes c; cJTI := jID c;
     cIsAdmin := jIsAdmin c; cIssuedAt := default zeroTime (jIssuedAt c);
     cExpiresAt := default zeroTime (jExpiresAt c); cIssuer := jIssuer c |}.

(** What the environment decides for one lookup: the time of the look at the
    caches, the endpoint's answer, the times of the two stores. *)
Record lookup := { lkTime : Z; lkAnswer : outcome; lkStored : Z; lkAbsent : Z }.

Section JWKS.
Context (decode : string -> result (list jwk)).
(** [ParseUnverified]: the kid header, when it is a string; [ParseWithClaims]
    with the RSA key, the required audience and issuer, RS256 only. *)
Context (parseHeader : string -> result (option string)).
Context (parseWithClaims : PublicKey -> string -> string -> string -> result (bool * jwtClaims)).
Context (cfg : JWKSConfig).

Definition extractKID (tokenString : string) : result string :=
  match parseHeader tokenString with
  | Err e => Err (Wrap "failed to parse token header" e)
  | Ok kid => Ok (default "" kid)
  end.

Definition fetchAndStore (s : jwksState) (lk : lookup) : jwksState * option error :=
  match lkAnswer lk with
  | Err e => (s, Some (Wrap "failed to fetch JWKS" e))
  | Ok res =>
      if negb (StatusCode res =? 200)
      then (s, Some (Errorf ("failed to fetch JWKS: unexpected status " +:+ Itoa (StatusCode res))))
      else match decode (RespBody res) with
           | Err e => (s, Some (Wrap "failed to parse JWKS response" e))
           | Ok doc =>
               match keysOf ∅ doc with
               | Err e => (s, Some e)
               | Ok c => ({| cache := c; negCache := ∅; lastRefresh := lkStored lk |}, None)
               end
           end
  end.

(** The boolean says whether the endpoint was asked. *)
Definition resolveKey (s : jwksState) (kid : string) (lk : lookup) : jwksState * bool * result PublicKey :=
  let key := cache s !! kid in
  let fresh := timeSub (lkTime lk) (lastRefresh s) <=? CacheTTL cfg in
  let negative := match negCache s !! kid with
                  | Some at_ => timeSub (lkTime lk) at_ <? negCacheTTL
                  | None => false
                  end in
  match key with
  | Some k =>
      if fresh then (s, false, Ok k) else
      let '(s, err) := fetchAndStore s lk in
      match err with
      | Some _ => (s, true, Ok k)
      | None =>
          match cache s !! kid with
          | Some k' => (s, true, Ok k')
          | None => ({| cache := cache s; negCache := <[kid := lkAbsent lk]> (negCache s);
                        lastRefresh := lastRefresh s |}, true, Err ErrInvalidToken)
          end
      end
  | None =>
      if negative then (s, false, Err ErrInvalidToken) else
      let '(s, err) := fetchAndStore s lk in
      match err with
      | Some e => (s, true, Err e)
      | None =>
          match cache s !! kid with
          | Some k' => (s, true, Ok k')
          | None => ({| cache := cache s; negCache := <[kid := lkAbsent lk]> (negCache s);
                        lastRefresh := lastRefresh s |}, true, Err ErrInvalidToken)
          end
      end
  end.

Definition ErrTokenExpired : error := Sentinel "token is expired".
Definition ErrTokenSignatureInvalid : error := Sentinel "token signature is invalid".

Definition verifyWithKey (tokenString : string) (key : PublicKey) : result Claims :=
  match parseWithClaims key (ExpectedAudience cfg) (ExpectedIssuer cfg) tokenString with
  | Err e =>
      if errors_is e ErrTokenExpired then Err ErrExpired
      else if errors_is e ErrTokenSignatureInvalid then Err ErrInvalidSignature
      else Err ErrInvalidToken
  | Ok (valid, claims) => if valid : bool then Ok (mapClaims claims) else Err ErrInvalidToken
  end.

Definition VerifyJWKS (s : jwksState) (token : string) (lk : lookup) : jwksState * bool * result Claims :=
  match extractKID token with
  | Err _ => (s, false, Err ErrInvalidToken)
  | Ok kid =>
      let '(s, asked, r) := resolveKey s kid lk in
      (s, asked, rbind r (verifyWithKey token))
  end.

(** A sequence of key lookups; the answers and how often the endpoint was asked. *)
Fixpoint lookups (s : jwksState) (l : list (string * lookup)) : jwksState * nat * list (result PublicKey) :=
  match l with
  | [] => (s, 0%nat, [])
  | (kid, lk) :: l =>
      let '(s, asked, r) := resolveKey s kid lk in
      let '(s, n, rs) := lookups s l in
      (s, ((if asked : bool then 1 else 0) + n)%nat, r :: rs)
  end.

(** A lookup at one moment; lookups of two kids in turn, the i-th pair at [t i]. *)
Definition lookupAt (a : outcome) (t : Z) : lookup :=
  {| lkTime := t; lkAnswer := a; lkStored := t; lkAbsent := t |}.
Definition alternating (k1 k2 : string) (a : outcome) (t : nat -> Z) (i n : nat)
  : list (string * lookup) :=
  flat_map (fun i => [(k1, lookupAt a (t i)); (k2, lookupAt a (t i))]) (seq i n).

(** ** Properties of the verifier *)

(** A key document that answers with status 200 and decodes. *)
Definition serves (a : outcome) (c : gmap string PublicKey) : Prop :=
  exists res doc, a = Ok res /\ StatusCode res = 200 /\ decode (RespBody res) = Ok doc /\
    keysOf ∅ doc = Ok c.

Lemma fetchAndStore_serves s lk c :
  serves (lkAnswer lk) c ->
  fetchAndStore s lk = ({| cache := c; negCache := ∅; lastRefresh := lkStored lk |}, None).
Proof.
  intros (res & doc & Ha & Hs & Hd & Hk). unfold fetchAndStore.
  rewrite Ha, Hs, Hd, Hk. done.
Qed.

(** *** The key set in force *)

(** The key of a kid in a document: its last RSA signature entry of that kid. *)
Definition usable (k : jwk) : bool := String.eqb (jwkKty k) "RSA" && String.eqb (jwkUse k) "sig".
Definition entryKey (kid : string) (k : jwk) : option PublicKey :=
  if usable k && String.eqb (jwkKid k) kid
  then match parseRSAPublicKey (jwkN k) (jwkE k) with Ok pub => Some pub | Err _ => None end else None.
Definition keyOf (doc : list jwk) (kid : string) : option PublicKey := last (omap (entryKey kid) doc).
(** The document of an answer: status 200, readable, every key in it valid. *)
Definition served (a : outcome) : option (list jwk) :=
  match a with
  | Ok res =>
      if StatusCode res =? 200 then
        match decode (RespBody res) with
        | Ok doc => if forallb (fun k => negb (usable k) || is_ok (parseRSAPublicKey (jwkN k) (jwkE k))) doc
                    then Some doc else None
        | Err _ => None
        end
      else None
  | Err _ => None
  end.
(** The last document the endpoint served, with the time it was stored. *)
Definition newest (asks : list lookup) : option (list jwk * Z) :=
  last (omap (fun lk => doc ← served (lkAnswer lk); Some (doc, lkStored lk)) asks).
(** The state after lookups, and those of them that asked the endpoint. *)
Fixpoint history (s : jwksState) (l : list (string * lookup)) : jwksState * list lookup :=
  match l with
  | [] => (s, [])
  | (kid, lk) :: l =>
      let '(s, asked, _) := resolveKey s kid lk in
      let '(s, h) := history s l in
      (s, (if asked : bool then lk :: h else h))
  end.

Lemma keyOf_cons k doc kid :
  keyOf (k :: doc) kid = match keyOf doc kid with Some x => Some x | None => entryKey kid k end.
Proof.
  unfold keyOf. cbn [omap list_omap]. destruct (entryKey kid k); [rewrite last_cons|]; by destruct (last (omap _ doc)).
Qed.

Lemma keysOf_spec doc : forall acc,
  match keysOf acc doc with
  | Ok c => forallb (fun k => negb (usable k) || is_ok (parseRSAPublicKey (jwkN k) (jwkE k))) doc = true /\
            forall kid, c !! kid = match keyOf doc kid with Some k => Some k | None => acc !! kid end
  | Err _ => forallb (fun k => negb (usable k) || is_ok (parseRSAPublicKey (jwkN k) (jwkE k))) doc = false
  end.
Proof.
  induction doc as [|k doc IH]; intros acc; [done|]. cbn [keysOf forallb].
  assert (E : negb (String.eqb (jwkKty k) "RSA") || negb (String.eqb (jwkUse k) "sig") = negb (usable k)).
  { unfold usable. by rewrite negb_andb. }
  rewrite E. destruct (usable k) eqn:Eu; cbn [negb orb].
  - destruct (parseRSAPublicKey (jwkN k) (jwkE k)) as [pub|e] eqn:Ep; cbn [is_ok andb]; [|reflexivity].
    specialize (IH (<[jwkKid k:=pub]> acc)). destruct (keysOf _ doc) as [c|e]; [|done].
    destruct IH as [-> IH]. split; [done|]. intros kid. rewrite IH, keyOf_cons. destruct (keyOf doc kid); [done|].
    unfold entryKey. rewrite Eu, Ep. destruct (String.eqb_spec (jwkKid k) kid) as [<-|Hne]; cbn [andb].
    + apply lookup_insert_eq.
    + by apply lookup_insert_ne.
  - specialize (IH acc). destruct (keysOf acc doc) as [c|e]; [|done]. destruct IH as [-> IH]. split; [done|].
    intros kid. rewrite IH, keyOf_cons. unfold entryKey. rewrite Eu. by destruct (keyOf doc kid).
Qed.

(** A refresh stores what is served, and nothing else. *)
Lemma fetchAndStore_served s lk :
  match served (lkAnswer lk) with
  | Some doc => exists c, fetchAndStore s lk = ({| cache := c; negCache := ∅; lastRefresh := lkStored lk |}, None) /\
                  forall kid, c !! kid = keyOf doc kid
  | None => exists e, fetchAndStore s lk = (s, Some e)
  end.
Proof.
  unfold served, fetchAndStore. destruct (lkAnswer lk) as [res|e]; [|by eexists].
  destruct (StatusCode res =? 200); [|by eexists]. destruct (decode _) as [doc|e]; [|by eexists].
  pose proof (keysOf_spec doc ∅) as H. cbn [negb]. destruct (keysOf ∅ doc) as [c|e].
  - destruct H as [-> H]. exists c. split; [done|]. intros kid. rewrite H. destruct (keyOf doc kid); [done|]. apply lookup_empty.
  - rewrite H. by eexists.
Qed.

(** The cache holds the newest document, the negative cache lookups that were made. *)
Definition holds (s : jwksState) (l : list (string * lookup)) (h : list lookup) : Prop :=
  (forall kid, cache s !! kid = ('(doc, _) ← newest h; keyOf doc kid)) /\
  (forall doc t, newest h = Some (doc, t) -> lastRefresh s = t) /\
  (forall kid t, negCache s !! kid = Some t -> exists lk, In (kid, lk) l /\ lkAbsent lk = t).

Lemma newest_snoc h lk :
  newest (h ++ [lk]) = match served (lkAnswer lk) with Some doc => Some (doc, lkStored lk) | None => newest h end.
Proof.
  unfold newest. rewrite omap_app. cbn [omap list_omap]. destruct (served _) as [doc|]; cbn; [apply last_snoc|by rewrite app_nil_r].
Qed.

Lemma holds_more s l h x : holds s l h -> holds s (l ++ [x]) h.
Proof.
  intros (Hc & Ht & Hn). split_and!; [done|done|]. intros kid t H. destruct (Hn kid t H) as (lk & Hin & E).
  exists lk. split; [|done]. apply in_or_app. by left.
Qed.

(** After a refresh at which the endpoint served a document. *)
Lemma holds_refreshed l h kid lk doc (c : gmap string PublicKey) (neg : gmap string Z) :
  served (lkAnswer lk) = Some doc -> (forall kid, c !! kid = keyOf doc kid) ->
  (forall kid' t, neg !! kid' = Some t -> kid' = kid /\ t = lkAbsent lk) ->
  holds {| cache := c; negCache := neg; lastRefresh := lkStored lk |} (l ++ [(kid, lk)]) (h ++ [lk]).
Proof.
  intros Hs Hc Hneg. unfold holds. rewrite newest_snoc, Hs. cbn [cache negCache lastRefresh].
  split_and!; [done|by intros ? ? [= _ <-]|]. intros kid' t [-> ->]%Hneg. exists lk. split; [|done].
  apply in_or_app. right. by left.
Qed.

Lemma holds_unrefreshed s l h kid lk :
  served (lkAnswer lk) = None -> holds s l h -> holds s (l ++ [(kid, lk)]) (h ++ [lk]).
Proof.
  intros Hs Hh%(holds_more _ _ _ (kid, lk)). unfold holds in *. by rewrite newest_snoc, Hs.
Qed.

Lemma holds_key s l h kid k : holds s l h ->
  (cache s !! kid = Some k <-> exists doc t, newest h = Some (doc, t) /\ keyOf doc kid = Some k).
Proof.
  clear parseHeader parseWithClaims. intros (Hc & _ & _). rewrite Hc. destruct (newest h) as [[doc t]|]; simpl; naive_solver. Qed.

(** What a lookup answers that had to ask. *)
Definition asks_spec l h kid lk s' r : Prop :=
  holds s' (l ++ [(kid, lk)]) (h ++ [lk]) /\
  (forall k, r = Ok k <-> cache s' !! kid = Some k) /\
  (forall e, r = Err e -> e = ErrInvalidToken \/ served (lkAnswer lk) = None).
Lemma asks_refreshed s l h kid lk : holds s l h ->
  let '(s1, err) := fetchAndStore s lk in
  match err with
  | Some e => s1 = s /\ served (lkAnswer lk) = None
  | None =>
      let '(s2, r) := match cache s1 !! kid with
                      | Some k' => (s1, Ok k')
                      | None => ({| cache := cache s1; negCache := <[kid := lkAbsent lk]> (negCache s1);
                                    lastRefresh := lastRefresh s1 |}, Err ErrInvalidToken)
                      end in asks_spec l h kid lk s2 r
  end.
Proof.
  clear parseHeader parseWithClaims.
  intros Hh. pose proof (fetchAndStore_served s lk) as H. destruct (served (lkAnswer lk)) as [doc|] eqn:Es.
  - destruct H as (c & -> & Hc). cbn [cache]. unfold asks_spec. destruct (c !! kid) as [k|] eqn:Ek; cbn [cache].
    + split_and!; [by eapply holds_refreshed| |done]. intros k'. rewrite Ek. naive_solver.
    + split_and!; [|intros k'; by rewrite Ek|naive_solver]. eapply holds_refreshed; [done..|]. intros kid' t Hneg.
      cbn [negCache] in Hneg. rewrite insert_empty in Hneg. by apply lookup_singleton_Some in Hneg as [<- <-].
  - destruct H as [e ->]. done.
Qed.

Lemma holds_step s l h kid lk s' asked r : holds s l h -> resolveKey s kid lk = (s', asked, r) ->
  let h' := (h ++ if asked then [lk] else [])%list in
  holds s' (l ++ [(kid, lk)]) h' /\
  (forall k, r = Ok k <-> cache s' !! kid = Some k) /\
  (asked = false -> match r with
     | Ok _ => timeSub (lkTime lk) (lastRefresh s') <= CacheTTL cfg
     | Err _ => exists lk', In (kid, lk') l /\ timeSub (lkTime lk) (lkAbsent lk') < negCacheTTL
     end) /\
  (forall e, r = Err e -> e = ErrInvalidToken \/ asked = true /\ served (lkAnswer lk) = None).
Proof.
  clear parseHeader parseWithClaims.
  intros Hh. pose proof (asks_refreshed s l h kid lk Hh) as Ha. cbv zeta. unfold resolveKey.
  destruct (cache s !! kid) as [k|] eqn:Ek.
  - destruct (Z.leb_spec (timeSub (lkTime lk) (lastRefresh s)) (CacheTTL cfg)) as [Hf|Hf].
    { intros [= <- <- <-]. rewrite app_nil_r. split_and!; [by apply holds_more|rewrite Ek; naive_solver|done|done]. }
    destruct (fetchAndStore s lk) as [s1 [e|]].
    + destruct Ha as [-> Hs]. intros [= <- <- <-].
      split_and!; [by apply holds_unrefreshed|rewrite Ek; naive_solver|done|done].
    + destruct (cache s1 !! kid) eqn:E1; destruct Ha as (Ha1 & Ha2 & Ha3); intros [= <- <- <-]; split_and!; try done; naive_solver.
  - destruct (negCache s !! kid) as [t|] eqn:En; [destruct (Z.ltb_spec (timeSub (lkTime lk) t) negCacheTTL) as [Hlt|]|].
    { intros [= <- <- <-]. rewrite app_nil_r.
      split_and!; [by apply holds_more|intros k; by rewrite Ek| |naive_solver].
      intros _. destruct Hh as (_ & _ & Hn). destruct (Hn kid t En) as (lk' & Hin & <-). eauto. }
    all: destruct (fetchAndStore s lk) as [s1 [e|]];
      [destruct Ha as [-> Hs]; intros [= <- <- <-];
       (split_and!; [by apply holds_unrefreshed|intros k; by rewrite Ek|done|naive_solver])
      |destruct (cache s1 !! kid) eqn:E1; destruct Ha as (Ha1 & Ha2 & Ha3); intros [= <- <- <-]; split_and!; try done; naive_solver].
Qed.

Lemma holds_history l2 : forall s l1 h1 s' h2, holds s l1 h1 -> history s l2 = (s', h2) ->
  holds s' (l1 ++ l2) (h1 ++ h2).
Proof.
  clear parseHeader parseWithClaims.
  induction l2 as [|[kid lk] l2 IH]; intros s l1 h1 s' h2 Hh; cbn [history].
  { intros [= <- <-]. by rewrite !app_nil_r. }
  destruct (resolveKey s kid lk) as [[s1 asked] r] eqn:E. destruct (history s1 l2) as [s2 h] eqn:E2. intros [= <- <-].
  destruct (holds_step _ _ _ _ _ _ _ _ Hh E) as (H1 & _). specialize (IH _ _ _ _ _ H1 E2).
  rewrite <- !(assoc_L (++)%list) in IH. by destruct asked.
Qed.

Lemma holds_new cfg0 s0 : NewJWKSVerifier cfg0 = Ok (cfg, s0) -> holds s0 [] [].
Proof.
  unfold NewJWKSVerifier. destruct (String.eqb _ ""); [done|]. destruct (String.eqb _ ""); [done|].
  destruct (String.eqb _ ""); [done|]. intros [= _ <-]. unfold holds. cbn.
  split_and!; [intros; by rewrite lookup_empty|done|intros ? ?; by rewrite lookup_empty].
Qed.

(** (C21) A key is handed out exactly if the key set in force has it.  After any
    lookups since the verifier was made, a lookup returns a key exactly if the
    newest document the endpoint served, to an earlier lookup or to this one, has
    that key for the kid: a key that a newer document revoked is not handed out
    again, and a failed refresh changes nothing.  The endpoint is not asked only if
    that document is at most the time to live old, or if the same unknown kid was
    looked up less than 30 seconds before. *)
Theorem resolveKey_sound (l : list (string * lookup)) (kid : string) (lk : lookup) (cfg0 : JWKSConfig)
    (s0 s s' : jwksState) (h : list lookup) (asked : bool) (r : result PublicKey)
    (H0 : NewJWKSVerifier cfg0 = Ok (cfg, s0)) (Hh : history s0 l = (s, h))
    (H : resolveKey s kid lk = (s', asked, r)) :
  let inForce := newest (h ++ if asked then [lk] else []) in
  (forall k, r = Ok k <-> exists doc t, inForce = Some (doc, t) /\ keyOf doc kid = Some k) /\
  (asked = false -> match r with
     | Ok _ => exists doc t, inForce = Some (doc, t) /\ timeSub (lkTime lk) t <= CacheTTL cfg
     | Err _ => exists lk', In (kid, lk') l /\ timeSub (lkTime lk) (lkAbsent lk') < negCacheTTL
     end) /\
  (forall e, r = Err e -> e = ErrInvalidToken \/ asked = true /\ served (lkAnswer lk) = None).
Proof.
  clear parseHeader parseWithClaims.
  cbv zeta. pose proof (holds_history _ _ _ _ _ _ (holds_new _ _ H0) Hh) as Hi. simpl in Hi.
  destruct (holds_step _ _ _ _ _ _ _ _ Hi H) as (H1 & H2 & H3 & H4).
  assert (K : forall k, r = Ok k <-> exists doc t, newest (h ++ if asked then [lk] else []) = Some (doc, t) /\ keyOf doc kid = Some k)
    by (intros k; by rewrite H2, (holds_key _ _ _ _ _ H1)).
  split_and!; [done| |done]. intros Hn. specialize (H3 Hn). destruct r as [k|]; [|done].
  destruct (proj1 (K k) eq_refl) as (doc & t & Hd & _). exists doc, t. split; [done|].
  destruct H1 as (_ & Ht & _). by rewrite <- (Ht _ _ Hd).
Qed.

(** The negative cache protects the endpoint from one unknown kid, not from
    two.  After an unknown kid was looked up, looking it up again within 30
    seconds asks nothing; but every refresh empties the negative cache, so n
    alternations between two unknown kids ask the endpoint 2n times, at any
    times. *)
Theorem negative_cache_scope (c : gmap string PublicKey) (k1 k2 : string) (a : outcome)
    (H1 : c !! k1 = None) (H2 : c !! k2 = None) (Hne : k1 <> k2) (Ha : serves a c) :
  (forall s t1 t2, cache s !! k1 = None -> t1 <= t2 < t1 + negCacheTTL ->
     forall s1 asked r, resolveKey s k1 (lookupAt a t1) =
       (s1, asked, r) -> asked = true ->
     resolveKey s1 k1 (lookupAt a t2) =
       (s1, false, Err ErrInvalidToken)) /\
  (forall n s (t : nat -> Z), cache s !! k1 = None -> negCache s = ∅ ->
     (lookups s (alternating k1 k2 a t 0 n)).1.2 = (2 * n)%nat).
Proof.
  split.
  - intros s t1 t2 Hk Ht s1 asked r Hr ->. unfold resolveKey in Hr. rewrite Hk in Hr.
    destruct (match negCache s !! k1 with Some _ => _ | None => _ end); [by simplify_eq|].
    rewrite (fetchAndStore_serves _ _ c) in Hr by done. cbn [cache] in Hr. rewrite H1 in Hr.
    simplify_eq. unfold resolveKey, lookupAt. cbn [cache negCache lkAbsent lkTime].
    rewrite H1, lookup_insert_eq.
    assert ((timeSub t2 t1 <? negCacheTTL) = true) as ->; [|done].
    apply Z.ltb_lt. unfold timeSub, saturate64, int64_min, int64_max, negCacheTTL, Second in *. lia.
  - intros n s t Hk Hn.
    assert (G : forall n i s, cache s !! k1 = None -> negCache s !! k1 = None ->
      (lookups s (alternating k1 k2 a t i n)).1.2 = (2 * n)%nat).
    { clear n s Hk Hn. induction n as [|n IH]; intros i s Hk Hn; [done|].
      unfold alternating. cbn [seq flat_map app lookups]. fold (alternating k1 k2 a t (S i) n). unfold resolveKey at 1. rewrite Hk, Hn.
      rewrite (fetchAndStore_serves _ _ c) by done. cbn [cache]. rewrite H1.
      unfold resolveKey at 1. cbn [cache negCache]. rewrite H2, lookup_insert_ne, lookup_empty by done.
      rewrite (fetchAndStore_serves _ _ c) by done. cbn [cache negCache]. rewrite H2.
      match goal with |- context [lookups ?s1 ?l] => specialize (IH (S i) s1) end.
      destruct (lookups _ _) as [[s2 m] rs]. simpl in *. rewrite IH; [lia|done|].
      by rewrite lookup_insert_ne, lookup_empty by done. }
    apply (G n 0%nat); [done|]. by rewrite Hn, lookup_empty.
Qed.

(** The error of a failed refresh reaches the caller as it is: [Verify] is not
    limited to the three documented errors. *)
Lemma Verify_undocumented_error s token kid lk e :
  parseHeader token = Ok (Some kid) -> cache s !! kid = None -> negCache s !! kid = None ->
  lkAnswer lk = Err e ->
  exists e', (VerifyJWKS s token lk).2 = Err e' /\ ~ documentedError e'.
Proof.
  intros Hp Hc Hn Ha. unfold VerifyJWKS, extractKID. rewrite Hp. cbn [default from_option].
  unfold resolveKey, id. rewrite Hc, Hn. unfold fetchAndStore. rewrite Ha. simpl.
  eexists. split; [done|]. unfold documentedError, ErrExpired, ErrInvalidSignature, ErrInvalidToken.
  by intros [|[|]].
Qed.
End JWKS.

(** ** Properties of the middlewares *)

Lemma GetScopes_authContext c ctx :
  GetScopes (authContext c ctx) =
  match cScopes c with [] => GetScopes ctx | l => l end.
Proof.
  unfold authContext, when, GetScopes, nonEmpty.
  destruct (cScopes c) as [|s l]; simpl; destruct (negb _), (negb _), (cIsAdmin c); done.
Qed.

(** The client type is decided by the verified scopes alone. *)
Lemma clientType_authContext c ctx :
  ctxGetClientType (authContext c ctx) = match cScopes c with [] => "browser" | _ => "api" end.
Proof.
  unfold authContext, when, ctxGetClientType, stringValue, nonEmpty.
  destruct (cScopes c) as [|s l]; simpl; destruct (negb _), (negb _), (cIsAdmin c); done.
Qed.

Lemma valid_authContext c ctx :
  IsAuthValid (authContext c ctx) = true /\
  (cSubject c <> "" -> GetUserID (authContext c ctx) = cSubject c).
Proof.
  unfold authContext, when. split.
  - by destruct (cScopes c), (nonEmpty (cSubject c)), (nonEmpty (cJTI c)), (cIsAdmin c).
  - intros Hs. apply String.eqb_neq in Hs. 
    assert (nonEmpty (cSubject c) = true) as -> by (unfold nonEmpty; by rewrite Hs).
    by destruct (cScopes c), (nonEmpty (cJTI c)), (cIsAdmin c).
Qed.

(** Behind [Middleware] and [RequireServiceScope] a handler runs only for a
    verified service.  Either the request carried a bearer token, the verifier
    accepted it, and its claims have a scope with prefix "svc:", and then the
    handler runs with those claims in its context; or the answer is 401 or 403
    and the handler does not run. *)
Theorem service_scope_guards {W} `{Verifier W, Clock W} (f : handler W) (req : Request)
    (wtr : Writer) (w : W) (Hctx : GetScopes (Ctx req) = []) (Hw : WStatus wtr = None) :
  (exists tok claims w', ExtractTokenFromRequest req = Ok tok /\ Verify w tok = (w', Ok claims) /\
     (exists s, In s (cScopes claims) /\ HasPrefix s "svc:" = true) /\
     Chain f [Middleware; RequireServiceScope] req wtr w =
       f (WithContext req (authContext claims (Ctx req))) wtr w') \/
  (exists w' wtr', Chain f [Middleware; RequireServiceScope] req wtr w = (w', wtr', Returned) /\
     (WStatus wtr' = Some 401 \/ WStatus wtr' = Some 403)).
Proof.
  cbn. unfold Middleware. destruct (ExtractTokenFromRequest req) as [tok|e].
  2: { right. do 2 eexists. split; [apply reject_run|]. left. by apply SendError_status. }
  destruct (Verify w tok) as [w' [claims|e]] eqn:Ev.
  2: { right. do 2 eexists. split; [apply reject_run|]. left.
       apply SendError_status; [done| |done]. by destruct (errors_is e ErrExpired). }
  unfold RequireServiceScope. cbn [Ctx WithContext]. rewrite GetScopes_authContext, Hctx.
  assert (E : match cScopes claims with [] => [] | l => l end = cScopes claims) by by destruct (cScopes claims).
  rewrite E. destruct (existsb _ _) eqn:Ex.
  - left. exists tok, claims, w'. split_and!; [done..| |done].
    apply existsb_exists in Ex as (s & Hin & Hs). eauto.
  - right. do 2 eexists. split; [apply reject_run|]. right. by apply SendError_status.
Qed.

(** ** Witnesses *)

Definition demo_jwks : JWKSConfig :=
  {| JWKSURL := "u"; ExpectedAudience := "aud"; ExpectedIssuer := "iss"; CacheTTL := 5 * Minute |}.
Definition demo_doc (b : string) : result (list jwk) :=
  if String.eqb b "doc"
  then Ok [{| jwkKty := "RSA"; jwkUse := "sig"; jwkKid := "k"; jwkN := "AQAB"; jwkE := "AQAB" |}]
  else Err (Errorf "bad json").
Definition demo_answer : outcome := Ok {| StatusCode := 200; RespBody := "doc" |}.
Definition demo_cache : gmap string PublicKey := {["k" := {| keyN := 65537; keyE := 65537 |}]}.

Lemma demo_serves : serves demo_doc demo_answer demo_cache.
Proof.
  exists {| StatusCode := 200; RespBody := "doc" |},
    [{| jwkKty := "RSA"; jwkUse := "sig"; jwkKid := "k"; jwkN := "AQAB"; jwkE := "AQAB" |}].
  by split_and!.
Qed.

(** The endpoint serves a key, then a document without it. *)
Definition demo_docs (b : string) : result (list jwk) := if String.eqb b "revoked" then Ok [] else demo_doc b.
Definition demo_new : jwksState := {| cache := ∅; negCache := ∅; lastRefresh := zeroTime |}.
Definition demo_lookups : list (string * lookup) :=
  [("k", lookupAt demo_answer Minute);
   ("k", lookupAt (Ok {| StatusCode := 200; RespBody := "revoked" |}) (10 * Minute))].
Definition down : outcome := Err (Errorf "connection refused").
Definition demo_after : jwksState := fst (history demo_docs demo_jwks demo_new demo_lookups).

(** The revoked key is gone, even when the endpoint is down. *)
Lemma resolveKey_sound_witness :
  (resolveKey demo_docs demo_jwks demo_new "k" (lookupAt demo_answer Minute)).2 =
    Ok {| keyN := 65537; keyE := 65537 |} /\
  forall k, (resolveKey demo_docs demo_jwks demo_after "k" (lookupAt down (11 * Minute))).2 <> Ok k.
Proof.
  split; [vm_compute; reflexivity|]. intros k Hk.
  destruct (proj1 (resolveKey_sound demo_docs demo_jwks demo_lookups "k" (lookupAt down (11 * Minute)) demo_jwks demo_new
    demo_after (resolveKey demo_docs demo_jwks demo_after "k" (lookupAt down (11 * Minute))).1.1
    (map snd demo_lookups) true (resolveKey demo_docs demo_jwks demo_after "k" (lookupAt down (11 * Minute))).2
    ltac:(vm_compute; reflexivity) ltac:(vm_compute; reflexivity) ltac:(vm_compute; reflexivity)) k) as [H _].
  destruct (H Hk) as (doc & t & Hd & Hkey). vm_compute in Hd. injection Hd as <- <-. discriminate Hkey.
Defined.

Lemma negative_cache_scope_witness :
  (lookups demo_doc demo_jwks {| cache := ∅; negCache := ∅; lastRefresh := zeroTime |}
    (alternating "a" "b" demo_answer (fun _ => Minute) 0 3)).1.2 = 6%nat.
Proof.
  exact (proj2 (negative_cache_scope demo_doc demo_jwks demo_cache "a" "b" demo_answer eq_refl eq_refl
    ltac:(discriminate) demo_serves) 3%nat {| cache := ∅; negCache := ∅; lastRefresh := zeroTime |}
    (fun _ => Minute) eq_refl eq_refl).
Defined.

(** A verifier that knows one token. *)
#[export] Instance demo_verifier : Verifier Z := fun w tok =>
  (w, if String.eqb tok "good"
      then Ok {| cSubject := "orders"; cAudience := []; cScopes := ["svc:orders"]; cJTI := "";
                 cIsAdmin := false; cIssuedAt := 0; cExpiresAt := 0; cIssuer := "iss" |}
      else Err ErrExpired).
Definition with_auth (v : string) : Request := withHeader demo_req {["Authorization" := [v]]}.

Lemma service_scope_guards_witness :
  WStatus (Chain pass [Middleware; RequireServiceScope] (with_auth "Bearer bad") newWriter 7).1.2 = Some 401.
Proof.
  destruct (service_scope_guards pass (with_auth "Bearer bad") newWriter 7 eq_refl eq_refl)
    as [(tok & claims & w' & Ht & Hv & _)|(w' & wtr' & E & Hs)].
  - exfalso. vm_compute in Ht. injection Ht as <-. discriminate Hv.
  - reflexivity.
Defined.
