(* ===== verification/Proc.v ===== *)
(** * Programs that call services, and goroutine pools

    A function that talks to a remote service is a [prog]: it returns, or it
    performs one atomic operation on the world and goes on.  [exec] runs it
    alone; a [pool] runs several in any interleaving, at most [limit] at a time,
    as the semaphore channel with a WaitGroup of the batch helpers does.
    Theorems: the limit is an invariant, a pool never blocks and every schedule
    ends, and what each program guarantees alone under interference holds of the
    pool's results. *)

From S2P Require Import Prelude.

Open Scope Z_scope.

(** ** Programs *)

(** [Step op k]: the world becomes [op w]; the answer, and with it the rest of
    the program, depends on the world [w] the operation met. *)
Inductive prog (W R : Type) : Type :=
  | Ret (r : R)
  | Step (op : W -> W) (k : W -> prog W R).
Arguments Ret {W R} r.
Arguments Step {W R} op k.

Fixpoint bind {W A B} (p : prog W A) (f : A -> prog W B) : prog W B :=
  match p with
  | Ret a => f a
  | Step op k => Step op (fun w => bind (k w) f)
  end.
Definition call {W A} (op : W -> W * A) : prog W A :=
  Step (fun w => (op w).1) (fun w => Ret (op w).2).

Notation "'let!' x ':=' m 'in' k" := (bind m (fun x => k))
  (at level 10, x name, m at level 100, k at level 200) : go_scope.

(** The run of a program with nothing interleaved. *)
Fixpoint exec {W R} (p : prog W R) (w : W) : W * R :=
  match p with
  | Ret r => (w, r)
  | Step op k => exec (k w) (op w)
  end.
(** The number of operations of that run. *)
Fixpoint operations {W R} (p : prog W R) (w : W) : nat :=
  match p with
  | Ret _ => 0
  | Step op k => S (operations (k w) (op w))
  end.

Lemma exec_bind {W A B} (p : prog W A) (f : A -> prog W B) w :
  exec (bind p f) w = exec (f (exec p w).2) (exec p w).1.
Proof. revert w. induction p as [a|op k IH]; intros w; simpl; [done|apply IH]. Qed.

Lemma exec_call {W A} (op : W -> W * A) w : exec (call op) w = op w.
Proof. simpl. by destruct (op w). Qed.

Lemma operations_bind {W A B} (p : prog W A) (f : A -> prog W B) w :
  operations (bind p f) w = (operations p w + operations (f (exec p w).2) (exec p w).1)%nat.
Proof. revert w. induction p as [a|op k IH]; intros w; simpl; [done|by rewrite IH]. Qed.

(** ** What a program guarantees under interference

    [le] is the order in which the world may move.  [guarantees le Q p w]: if
    others only move the world up, [p] moves it up too and returns in a state
    that satisfies [Q]. *)
Section Guarantees.
Context {W : Type} (le : W -> W -> Prop) `{!PreOrder le}.

Fixpoint guarantees {R} (Q : R -> W -> Prop) (p : prog W R) (w : W) : Prop :=
  match p with
  | Ret r => Q r w
  | Step op k => forall w1, le w w1 -> le w1 (op w1) /\ guarantees Q (k w1) (op w1)
  end.

Definition stable {R} (Q : R -> W -> Prop) : Prop :=
  forall r w w', le w w' -> Q r w -> Q r w'.

Lemma guarantees_mono {R} (Q : R -> W -> Prop) p w w' :
  stable Q -> le w w' -> guarantees Q p w -> guarantees Q p w'.
Proof.
  intros HQ Hle. destruct p as [r|op k]; simpl.
  - by apply HQ.
  - intros H w1 H1. apply H. by transitivity w'.
Qed.

Lemma guarantees_impl {R} (Q Q' : R -> W -> Prop) p w :
  (forall r w', le w w' -> Q r w' -> Q' r w') -> guarantees Q p w -> guarantees Q' p w.
Proof.
  revert w. induction p as [r|op k IH]; intros w HQ; simpl; [by apply HQ|].
  intros H w1 H1. destruct (H w1 H1) as [H2 H3]. split; [done|]. apply IH; [|done].
  intros r w' Hw'. apply HQ. by transitivity w1; [|transitivity (op w1)].
Qed.

Lemma guarantees_bind {A B} (Q : A -> W -> Prop) (Q' : B -> W -> Prop) p (f : A -> prog W B) w :
  guarantees Q p w -> (forall a w', le w w' -> Q a w' -> guarantees Q' (f a) w') ->
  guarantees Q' (bind p f) w.
Proof.
  revert w. induction p as [a|op k IH]; intros w H Hf; simpl in *; [by apply Hf|].
  intros w1 H1. destruct (H w1 H1) as [H2 H3]. split; [done|]. apply IH; [done|].
  intros a w' Hw'. apply Hf. by transitivity w1; [|transitivity (op w1)].
Qed.

Lemma guarantees_call {A} (Q : A -> W -> Prop) (op : W -> W * A) w :
  (forall w1, le w w1 -> le w1 (op w1).1 /\ Q (op w1).2 (op w1).1) -> guarantees Q (call op) w.
Proof. intros H w1 H1. exact (H w1 H1). Qed.

Lemma guarantees_exec {R} (Q : R -> W -> Prop) p w :
  guarantees Q p w -> Q (exec p w).2 (exec p w).1.
Proof.
  revert w. induction p as [r|op k IH]; intros w; simpl; [done|].
  intros H. apply IH. by destruct (H w ltac:(reflexivity)).
Qed.
End Guarantees.

(** ** Pools of goroutines *)

Inductive slot (W R : Type) : Type :=
  | Waiting (p : prog W R)      (* not launched yet *)
  | Running (p : prog W R)
  | Finished (r : R).
Arguments Waiting {W R} p.
Arguments Running {W R} p.
Arguments Finished {W R} r.

Record pool (W R : Type) := { pWorld : W; slots : list (slot W R) }.
Arguments pWorld {W R}.
Arguments slots {W R}.
Arguments Build_pool {W R}.

Inductive move : Type := Launch | Work (i : nat).

Section Pool.
Context {W R : Type}.
Implicit Types (s : pool W R) (l : list (slot W R)).

Definition isRunning (x : slot W R) : nat := match x with Running _ => 1 | _ => 0 end.
Definition inFlight (l : list (slot W R)) : nat := sum_list_with isRunning l.

Fixpoint launchNext (l : list (slot W R)) : option (list (slot W R)) :=
  match l with
  | [] => None
  | Waiting p :: r => Some (Running p :: r)
  | x :: r => l' ← launchNext r; Some (x :: l')
  end.

(** The launching loop waits for a free place in the semaphore; a goroutine that
    returned gives its place back. *)
Definition pool_step (limit : nat) (s : pool W R) (m : move) : option (pool W R) :=
  match m with
  | Launch =>
      if bool_decide (inFlight (slots s) < limit)%nat
      then l ← launchNext (slots s); Some (Build_pool (pWorld s) l) else None
  | Work i =>
      match slots s !! i with
      | Some (Running (Step op k)) =>
          Some (Build_pool (op (pWorld s)) (<[i := Running (k (pWorld s))]> (slots s)))
      | Some (Running (Ret r)) => Some (Build_pool (pWorld s) (<[i := Finished r]> (slots s)))
      | _ => None
      end
  end.
Fixpoint pool_run (limit : nat) (s : pool W R) (ms : list move) : option (pool W R) :=
  match ms with
  | [] => Some s
  | m :: ms => s' ← pool_step limit s m; pool_run limit s' ms
  end.

Definition startPool (w : W) (ps : list (prog W R)) : pool W R := Build_pool w (Waiting <$> ps).
(** [wg.Wait] returns when every goroutine has. *)
Definition results (s : pool W R) : option (list R) :=
  mapM (fun x => match x with Finished r => Some r | _ => None end) (slots s).

(** *** The limit *)

Lemma launchNext_split l l' :
  launchNext l = Some l' ->
  exists i p, l !! i = Some (Waiting p) /\ l' = <[i := Running p]> l.
Proof.
  revert l'. induction l as [|[p|p|r] l IH]; intros l' H; simpl in *; [done| | |].
  - injection H as <-. by exists 0%nat, p.
  - apply bind_Some in H as (l2 & (i & q & Hi & ->)%IH & [= <-]). by exists (S i), q.
  - apply bind_Some in H as (l2 & (i & q & Hi & ->)%IH & [= <-]). by exists (S i), q.
Qed.

Lemma launchNext_None l i p : launchNext l = None -> l !! i <> Some (Waiting p).
Proof.
  revert i. induction l as [|[q|q|r] l IH]; intros [|i] H; simpl in *; try done.
  all: apply IH; by destruct (launchNext l).
Qed.

(** A step replaces one slot. *)
Definition slot_step (w : W) (x : slot W R) : option (W * slot W R) :=
  match x with
  | Waiting p => Some (w, Running p)
  | Running (Step op k) => Some (op w, Running (k w))
  | Running (Ret r) => Some (w, Finished r)
  | Finished _ => None
  end.

Lemma pool_step_slot limit s m s' :
  pool_step limit s m = Some s' ->
  exists i x w' x', slots s !! i = Some x /\ slot_step (pWorld s) x = Some (w', x') /\
    s' = Build_pool w' (<[i := x']> (slots s)) /\
    ((inFlight (slots s) < limit)%nat \/ isRunning x = 1%nat).
Proof.
  destruct m as [|i]; simpl.
  - case_bool_decide as Hlt; [|done]. intros (l & (i & p & Hi & ->)%launchNext_split & [= <-])%bind_Some.
    exists i, (Waiting p), (pWorld s), (Running p). auto.
  - destruct (slots s !! i) as [[p|[r|op k]|r]|] eqn:Hi; try done; intros [= <-].
    + exists i, (Running (Ret r)), (pWorld s), (Finished r). auto.
    + exists i, (Running (Step op k)), (op (pWorld s)), (Running (k (pWorld s))). auto.
Qed.

Lemma slot_step_running w x w' x' :
  slot_step w x = Some (w', x') -> (isRunning x' <= 1)%nat.
Proof. by destruct x as [p|[r|op k]|r]; intros [= <- <-]; simpl; auto. Qed.

Lemma pool_step_limit limit s m s' :
  (inFlight (slots s) <= limit)%nat -> pool_step limit s m = Some s' ->
  (inFlight (slots s') <= limit)%nat.
Proof.
  intros Hle (i & x & w' & x' & Hi & Hx & -> & Hor)%pool_step_slot. simpl.
  pose proof (sum_list_with_insert isRunning _ _ _ x' Hi).
  apply slot_step_running in Hx. unfold inFlight in *. lia.
Qed.

Lemma inFlight_start w (ps : list (prog W R)) : inFlight (slots (startPool w ps)) = 0%nat.
Proof. simpl. unfold inFlight. induction ps; simpl; auto. Qed.

Lemma pool_run_limit limit w ps ms s :
  pool_run limit (startPool w ps) ms = Some s -> (inFlight (slots s) <= limit)%nat.
Proof.
  assert (Hg : forall s0, (inFlight (slots s0) <= limit)%nat ->
    pool_run limit s0 ms = Some s -> (inFlight (slots s) <= limit)%nat).
  { induction ms as [|m ms IH]; simpl; intros s0 H0; [by intros [= <-]|].
    intros (s1 & H1 & H2)%bind_Some. eauto using pool_step_limit. }
  apply Hg. rewrite inFlight_start. lia.
Qed.

(** *** Progress and termination *)

Lemma results_None s : results s = None <-> exists i x, slots s !! i = Some x /\
  match x with Finished _ => False | _ => True end.
Proof.
  unfold results. induction (slots s) as [|x l IH]; simpl.
  - split; [done|]. by intros (i & x & H & _).
  - destruct x as [p|p|r]; simpl.
    1,2: split; [intros _; by eexists 0%nat, _|done].
    destruct (mapM _ l) eqn:E; simpl.
    + split; [done|]. intros ([|i] & x & Hi & Hx); simpl in Hi; [by injection Hi as <-|].
      discriminate (proj2 IH ltac:(eauto)).
    + split; [|done]. intros _. destruct IH as [(i & x & H) _]; [done|]. by exists (S i), x.
Qed.

Lemma inFlight_pos l : (0 < inFlight l)%nat -> exists i p, l !! i = Some (Running p).
Proof.
  induction l as [|[p|p|r] l IH]; unfold inFlight in *; simpl; intros H; [lia| | |].
  2: by exists 0%nat, p.
  all: destruct (IH H) as (i & q & Hi); by exists (S i), q.
Qed.

(** Unless every goroutine has returned, something can happen. *)
Lemma pool_progress limit s :
  (0 < limit)%nat -> results s = None -> exists m s', pool_step limit s m = Some s'.
Proof.
  intros Hl (i & x & Hi & Hx)%results_None.
  destruct (decide (0 < inFlight (slots s))%nat) as [(j & p & Hj)%inFlight_pos|Hz].
  - exists (Work j). simpl. rewrite Hj. destruct p; eauto.
  - exists Launch. simpl. rewrite bool_decide_true by lia.
    destruct (launchNext (slots s)) as [l|] eqn:E; simpl; [eauto|].
    destruct x as [p|p|r]; [|exfalso|done].
    + by destruct (launchNext_None _ i p E).
    + pose proof (sum_list_with_lookup isRunning _ _ _ Hi). unfold inFlight in Hz. simpl in *. lia.
Qed.

Definition slot_lt (x' x : slot W R) : Prop := exists w w', slot_step w x = Some (w', x').

Lemma slot_lt_wf x : Acc slot_lt x.
Proof.
  assert (Hf : forall r, Acc slot_lt (Finished r)) by (intros r; constructor; by intros y (?&?&?)).
  assert (Hr : forall p, Acc slot_lt (Running p)).
  { induction p as [r|op k IH]; constructor; intros y (w & w' & [= <- <-]); auto. }
  destruct x; auto. constructor. intros y (w & w' & [= <- <-]); auto.
Qed.

Definition slots_lt (l' l : list (slot W R)) : Prop :=
  exists i x x', l !! i = Some x /\ slot_lt x' x /\ l' = <[i := x']> l.

Lemma slots_lt_cons x l : Acc slot_lt x -> Acc slots_lt l -> Acc slots_lt (x :: l).
Proof.
  intros Hx. revert l. induction Hx as [x _ IHx]. intros l Hl. induction Hl as [l Hl IHl].
  constructor. intros l' ([|i] & y & y' & Hi & Hy & ->); simpl in *.
  - injection Hi as ->. by apply IHx; [|constructor].
  - apply IHl. by exists i, y, y'.
Qed.

Lemma slots_lt_wf l : Acc slots_lt l.
Proof.
  induction l as [|x l IH].
  - constructor. by intros l' (i & x & x' & H & _).
  - apply slots_lt_cons; [apply slot_lt_wf|done].
Qed.

(** No pool runs for ever. *)
Lemma pool_terminates limit s : Acc (fun s' s => exists m, pool_step limit s m = Some s') s.
Proof.
  destruct s as [w l]. revert w. induction (slots_lt_wf l) as [l _ IH]. intros w.
  constructor. intros s' (m & (i & x & w' & x' & Hi & Hx & -> & _)%pool_step_slot). simpl in *.
  apply IH. exists i, x, x'. split_and!; [done| |done]. by eexists _, _.
Qed.

(** *** What the results satisfy *)

Section PoolGuarantees.
Context (le : W -> W -> Prop) `{!PreOrder le} (Q : nat -> R -> W -> Prop).
Hypothesis HQ : forall i, stable le (Q i).

Definition slot_ok (w : W) (i : nat) (x : slot W R) : Prop :=
  match x with
  | Waiting p | Running p => guarantees le (Q i) p w
  | Finished r => Q i r w
  end.
Definition pool_ok (s : pool W R) : Prop := forall i x, slots s !! i = Some x -> slot_ok (pWorld s) i x.

Lemma slot_ok_mono w w' i x : le w w' -> slot_ok w i x -> slot_ok w' i x.
Proof. destruct x; simpl; intros; eauto using guarantees_mono. by eapply HQ. Qed.

Lemma slot_step_ok w i x w' x' :
  slot_ok w i x -> slot_step w x = Some (w', x') -> le w w' /\ slot_ok w' i x'.
Proof.
  destruct x as [p|[r|op k]|r]; simpl; intros H [= <- <-]; simpl.
  1,2: by split; [reflexivity|].
  by apply H.
Qed.

Lemma pool_step_ok limit s m s' : pool_ok s -> pool_step limit s m = Some s' -> pool_ok s'.
Proof.
  intros Hok (i & x & w' & x' & Hi & Hx & -> & _)%pool_step_slot j y. simpl.
  destruct (slot_step_ok _ i _ _ _ (Hok i x Hi) Hx) as [Hle Hx'].
  destruct (decide (i = j)) as [<-|Hne].
  - rewrite list_lookup_insert_eq by eauto using lookup_lt_Some. by intros [= <-].
  - rewrite list_lookup_insert_ne by done. intros Hj. eauto using slot_ok_mono.
Qed.

Lemma pool_run_ok limit s ms s' rs :
  pool_ok s -> pool_run limit s ms = Some s' -> results s' = Some rs ->
  forall i r, rs !! i = Some r -> Q i r (pWorld s').
Proof.
  revert s. induction ms as [|m ms IH]; simpl; intros s Hok.
  - intros [= ->] Hrs i r Hr.
    apply mapM_Some_1 in Hrs. destruct (Forall2_lookup_r _ _ _ _ _ Hrs Hr) as (x & Hx & Hxr).
    destruct x; simpl in Hxr; try done. injection Hxr as ->. exact (Hok _ _ Hx).
  - intros (s1 & H1 & H2)%bind_Some. exact (IH s1 (pool_step_ok _ _ _ _ Hok H1) H2).
Qed.
End PoolGuarantees.
End Pool.
