(* ===== verification/TTLCache.v ===== *)
(** * Caches with a time to live

    The secrets client, the readiness handler and the ban list keep the same
    kind of cache: an entry is used until its expiry has passed, and stored with
    expiry now + ttl.  Theorem: what a lookup finds was stored at most one time
    to live ago, and removing stale entries is not observable. *)

From S2P Require Import Prelude.

Open Scope Z_scope.

Record entry (A : Type) := { value : A; expiresAt : Z }.
Arguments value {A}. Arguments expiresAt {A}. Arguments Build_entry {A}.
Abbreviation cache A := (gmap string (entry A)).

Section TTLCache.
Context {A : Type}.
Implicit Types (m : cache A).

Definition lookupFresh (t : Z) m (k : string) : option A :=
  e ← m !! k; if timeAfter t (expiresAt e) then None else Some (value e).
Definition storeFor (t ttl : Z) (k : string) (v : A) m : cache A :=
  <[k := Build_entry v (t + ttl)]> m.
Definition evictStale (t : Z) m : cache A :=
  filter (fun ke => timeAfter t (expiresAt ke.2) = false) m.

(** Every entry was stored at a time not after [c], and [P] held of it then. *)
Definition stored (P : string -> A -> Z -> Prop) (ttl c : Z) m : Prop :=
  map_Forall (fun k e => P k (value e) (expiresAt e - ttl) /\ expiresAt e - ttl <= c) m.

Lemma stored_empty P ttl c : stored P ttl c ∅.
Proof. apply map_Forall_empty. Qed.

Lemma stored_mono (P P' : string -> A -> Z -> Prop) ttl c c' m :
  (forall k v t, P k v t -> P' k v t) -> c <= c' -> stored P ttl c m -> stored P' ttl c' m.
Proof. intros HP Hc H k e He. destruct (H k e He). split; [auto|lia]. Qed.

Lemma stored_store P ttl c t k v m :
  stored P ttl c m -> c <= t -> P k v t -> stored P ttl t (storeFor t ttl k v m).
Proof.
  intros H Hc Hv. apply map_Forall_insert_2; simpl.
  - replace (t + ttl - ttl) with t by lia. split; [done|lia].
  - by eapply stored_mono.
Qed.

Lemma stored_delete P ttl c k m : stored P ttl c m -> stored P ttl c (delete k m).
Proof. apply map_Forall_delete. Qed.

Lemma stored_evict P ttl c t m : stored P ttl c m -> stored P ttl c (evictStale t m).
Proof. intros H k e [He _]%map_lookup_filter_Some. by apply H. Qed.

Lemma lookupFresh_stored P ttl c t m k v :
  stored P ttl c m -> lookupFresh t m k = Some v ->
  exists t0, t - ttl <= t0 <= c /\ P k v t0.
Proof.
  intros H (e & He & Hv)%bind_Some. destruct (H k e He) as [HP Hc].
  unfold timeAfter in Hv. destruct (_ <? _) eqn:E; [done|]. injection Hv as <-. bool_to_prop.
  exists (expiresAt e - ttl). split; [lia|done].
Qed.

Lemma lookupFresh_store t t' ttl k v m :
  t' <= t + ttl -> lookupFresh t' (storeFor t ttl k v m) k = Some v.
Proof.
  intros H. unfold lookupFresh, storeFor. rewrite lookup_insert_eq. simpl. unfold timeAfter.
  by rewrite (proj2 (Z.ltb_ge _ _)) by lia.
Qed.

Lemma lookupFresh_store_ne t t' ttl k k' v m :
  k <> k' -> lookupFresh t' (storeFor t ttl k v m) k' = lookupFresh t' m k'.
Proof. intros H. unfold lookupFresh, storeFor. by rewrite lookup_insert_ne. Qed.

(** Evicting at [t] does not change what a later lookup finds. *)
Lemma lookupFresh_evict t t' m k :
  t <= t' -> lookupFresh t' (evictStale t m) k = lookupFresh t' m k.
Proof.
  intros Ht. unfold lookupFresh, evictStale. rewrite map_lookup_filter.
  destruct (m !! k) as [e|]; simpl; [|done].
  unfold timeAfter. case_guard as Hg; simpl; [done|].
  destruct (expiresAt e <? t) eqn:E; [|by destruct Hg].
  bool_to_prop. by rewrite (proj2 (Z.ltb_lt _ _)) by lia.
Qed.
End TTLCache.
