(* ===== verification/Dynamo.v ===== *)
(** * The DynamoDB client (src/aws/dynamodb)

    The AWS SDK is outside the repository: the calls the code makes are the
    class [dynamoDBAPI], named after the code's own interface; attribute values
    and their (un)marshalling are parameters.  An operation is a program of
    [Proc]; the batch operations run one program per chunk in a pool.  A nil map
    is [None] where the code distinguishes it. *)

From S2P Require Import Prelude GoStrings Proc.

Open Scope string_scope.
Open Scope Z_scope.

(** ** Requests and answers *)

Inductive WriteRequest (AV : Type) : Type :=
  | PutRequest (it : gmap string AV)
  | DeleteRequest (key : gmap string AV).
Arguments PutRequest {AV} it.
Arguments DeleteRequest {AV} key.

Record UpdateItemInput (AV : Type) := {
  uTable : string; uKey : gmap string AV; uExpr : string;
  uValues : option (gmap string AV); uNames : option (gmap string string); uCond : option string;
}.
Arguments Build_UpdateItemInput {AV}.

(** [QueryInput]; [ScanInput] has the same fields without the first of the two
    expressions and the direction. *)
Record QueryInput (AV : Type) := {
  TableName : string;
  IndexName : option string;
  KeyConditionExpression : string;
  FilterExpression : option string;
  ExpressionValues : option (gmap string AV);
  ExpressionNames : option (gmap string string);
  Limit : option Z;
  ScanIndexForward : option bool;
  ExclusiveStartKey : option (gmap string AV);
}.
Record ScanInput (AV : Type) := {
  sTableName : string;
  sIndexName : option string;
  sFilterExpression : option string;
  sExpressionValues : option (gmap string AV);
  sExpressionNames : option (gmap string string);
  sLimit : option Z;
  sExclusiveStartKey : option (gmap string AV);
}.
Arguments TableName {AV}. Arguments IndexName {AV}. Arguments KeyConditionExpression {AV}.
Arguments FilterExpression {AV}. Arguments ExpressionValues {AV}. Arguments ExpressionNames {AV}.
Arguments Limit {AV}. Arguments ScanIndexForward {AV}. Arguments ExclusiveStartKey {AV}.
Arguments sTableName {AV}. Arguments sIndexName {AV}. Arguments sFilterExpression {AV}.
Arguments sExpressionValues {AV}. Arguments sExpressionNames {AV}. Arguments sLimit {AV}.
Arguments sExclusiveStartKey {AV}.

(** [QueryOutput], [ScanOutput] and the SDK's outputs they copy. *)
Record Output (AV : Type) := {
  Items : list (gmap string AV);
  LastEvaluatedKey : option (gmap string AV);
  Count : Z;
}.
Arguments Items {AV}. Arguments LastEvaluatedKey {AV}. Arguments Count {AV}.

(** What a [dynamodb.QueryInput] or [dynamodb.ScanInput] of the SDK holds. *)
Record sdkQuery (AV : Type) := {
  qTable : option string; qIndex : option string; qKeyCondition : option string;
  qFilter : option string; qValues : option (gmap string AV);
  qNames : option (gmap string string); qLimit : option Z; qForward : option bool;
  qStart : option (gmap string AV);
}.
Arguments qTable {AV}. Arguments qStart {AV}. Arguments qLimit {AV}.

Class dynamoDBAPI (AV W : Type) := {
  dbGetItem : string -> gmap string AV -> W -> W * result (option (gmap string AV));
  dbPutItem : string -> gmap string AV -> option string -> W -> W * option error;
  dbUpdateItem : UpdateItemInput AV -> W -> W * result (gmap string AV);
  dbDeleteItem : string -> gmap string AV -> option string -> W -> W * option error;
  (** Responses and unprocessed keys, by table. *)
  dbBatchGetItem : gmap string (list (gmap string AV)) -> W ->
    W * result (gmap string (list (gmap string AV)) * gmap string (list (gmap string AV)));
  (** Unprocessed items, by table. *)
  dbBatchWriteItem : gmap string (list (WriteRequest AV)) -> W ->
    W * result (gmap string (list (WriteRequest AV)));
  dbQuery : sdkQuery AV -> W -> W * result (Output AV);
  dbScan : sdkQuery AV -> W -> W * result (Output AV);
  dbDescribeTable : string -> W -> W * option error;
}.

(** [select] between the context and a timer: the context's error, or the timer
    fired. *)
Class Await (W : Type) := await : Z -> W -> W * option error.

(** ** Errors *)

Definition ErrNotFound : error := Sentinel "item not found".

(** The exception types [WrapError] asks for, in order, with their messages. *)
Definition wrapTable : list (string * string) :=
  [("ConditionalCheckFailedException", "failed conditional check");
   ("ResourceNotFoundException", "failed to find resource");
   ("ProvisionedThroughputExceededException", "exceeded provisioned throughput");
   ("RequestLimitExceeded", "exceeded request limit");
   ("TransactionConflictException", "hit transaction conflict");
   ("TransactionCanceledException", "canceled transaction");
   ("DuplicateItemException", "rejected duplicate item");
   ("ResourceInUseException", "found resource in use");
   ("TableNotFoundException", "failed to find table");
   ("InternalServerError", "hit internal server error");
   ("ItemCollectionSizeLimitExceededException", "exceeded item collection size");
   ("ThrottlingException", "throttled request")].

(** [errors.As] for the SDK's exception types, which are outside the repository. *)
Class SDKErrors := errorsAs : string -> error -> bool.

Definition wrapMessage `{SDKErrors} (err : error) : string :=
  default "failed dynamodb request" (snd <$> find (fun p => errorsAs p.1 err) wrapTable).
(** [WrapError] of an error; nil stays nil, and no caller passes it. *)
Definition WrapError `{SDKErrors} (err : error) : error := Wrap (wrapMessage err) err.

(** ** Configuration *)

Record Config := {
  Region : string; AccessKey : string; SecretKey : string; Endpoint : string;
  MaxConcurrentBatches : Z;
}.
(** A client: the SDK configuration it was built from, its endpoint, and
    [maxParallel]. *)
Record Client (C : Type) := { sdkConfig : C; baseEndpoint : option string; maxParallel : Z }.
Arguments maxParallel {C}. Arguments baseEndpoint {C}. Arguments sdkConfig {C}.

Definition parallelism (n : Z) : Z := if n <=? 0 then 5 else n.

(** The static credentials the options name. *)
Definition credentials (cfg : Config) : option (string * string) :=
  if negb (String.eqb (AccessKey cfg) "") && negb (String.eqb (SecretKey cfg) "")
  then Some (AccessKey cfg, SecretKey cfg)
  else if negb (String.eqb (Endpoint cfg) "") then Some ("test", "test") else None.

(** [load] is [awsconfig.LoadDefaultConfig]. *)
Definition New {C} `{SDKErrors} (load : string -> option (string * string) -> result C) (cfg : Config)
  : result (Client C) :=
  if String.eqb (Region cfg) "" then Err (Errorf "missing region") else
  match load (Region cfg) (credentials cfg) with
  | Err e => Err (WrapError e)
  | Ok c => Ok {| sdkConfig := c;
                  baseEndpoint := if String.eqb (Endpoint cfg) "" then None else Some (Endpoint cfg);
                  maxParallel := parallelism (MaxConcurrentBatches cfg) |}
  end.

(** ** Parallel batches *)

Definition maxBatchSize : nat := 25.

(** [chunks] slices [items[i:i+25]] for i = 0, 25, ... *)
Fixpoint chunks_from {A} (fuel : nat) (l : list A) : list (list A) :=
  match fuel, l with
  | S fuel, _ :: _ => take maxBatchSize l :: chunks_from fuel (drop maxBatchSize l)
  | _, _ => []
  end.
Definition chunks {A} (items : list A) : list (list A) := chunks_from (length items) items.

(** The first error by index, else all the values. *)
Fixpoint firstError {A} (rs : list (result A)) : result (list A) :=
  match rs with
  | [] => Ok []
  | Err e :: _ => Err e
  | Ok a :: rs => rmap (cons a) (firstError rs)
  end.

(** [runParallel], on the schedule [ms]; no result if the schedule is not one of
    a complete run. *)
Definition runParallel {W A} (limit : Z) (fns : list (prog W (result A))) (ms : list move) (w : W)
  : option (W * result (list A)) :=
  match fns with
  | [f] => let '(w, r) := exec f w in Some (w, firstError [r])
  | _ =>
      s ← pool_run (Z.to_nat limit) (startPool w fns) ms;
      rs ← results s;
      Some (pWorld s, firstError rs)
  end.

Definition maxBatchRetries : nat := 5.
Definition batchRetryBaseDelay : Z := 50 * Millisecond.

Section Operations.
Context {AV W : Type} `{dynamoDBAPI AV W, !Await W, !SDKErrors}.
Abbreviation item := (gmap string AV).

(** [if err != nil { return WrapError(err) }]. *)
Definition orWrap {A B} (r : result A) (k : A -> prog W (result B)) : prog W (result B) :=
  match r with Err e => Ret (Err (WrapError e)) | Ok a => k a end.
Definition unlessErr (e : option error) : prog W (result unit) :=
  match e with Some e => Ret (Err (WrapError e)) | None => Ret (Ok tt) end.

(** [rest] is what remains of [maxBatchRetries]. *)
Fixpoint retryUnprocessed (rest : nat) (delay : Z) (unprocessed : gmap string (list (WriteRequest AV)))
  : prog W (result unit) :=
  if Nat.eqb (size unprocessed) 0 then Ret (Ok tt) else
  match rest with
  | O => Ret (Err (WrapError (Errorf "unprocessed write items remain after 5 retries")))
  | S rest =>
      let! cancelled := call (await delay) in
      match cancelled with
      | Some e => Ret (Err (WrapError e))
      | None =>
          let! r := call (dbBatchWriteItem unprocessed) in
          orWrap r (fun u => retryUnprocessed rest (wrap64 (delay * 2)) u)
      end
  end.

Fixpoint retryUnprocessedKeys (rest : nat) (delay : Z) (table : string) (items : list item)
    (unprocessed : gmap string (list item)) : prog W (result (list item)) :=
  if Nat.eqb (size unprocessed) 0 then Ret (Ok items) else
  match rest with
  | O => Ret (Err (WrapError (Errorf "unprocessed read keys remain after 5 retries")))
  | S rest =>
      let! cancelled := call (await delay) in
      match cancelled with
      | Some e => Ret (Err (WrapError e))
      | None =>
          let! r := call (dbBatchGetItem unprocessed) in
          orWrap r (fun o =>
            retryUnprocessedKeys rest (wrap64 (delay * 2)) table
              (items ++ default [] (o.1 !! table))%list o.2)
      end
  end.

(** The function [batchWriteItems] and [batchDeleteItems] run per chunk. *)
Definition writeBatch (table : string) (reqs : list (WriteRequest AV)) : prog W (result unit) :=
  let! r := call (dbBatchWriteItem {[ table := reqs ]}) in
  orWrap r (fun u =>
    if Nat.eqb (size u) 0 then Ret (Ok tt)
    else retryUnprocessed maxBatchRetries batchRetryBaseDelay u).

Definition getBatch (table : string) (keys : list item) : prog W (result (list item)) :=
  let! r := call (dbBatchGetItem {[ table := keys ]}) in
  orWrap r (fun o =>
    let items := default [] (o.1 !! table) in
    if Nat.eqb (size o.2) 0 then Ret (Ok items) else
    let! rr := retryUnprocessedKeys maxBatchRetries batchRetryBaseDelay table [] o.2 in
    Ret (rmap (fun retried => items ++ retried)%list rr)).

(** [n] is [maxParallel]. *)
Definition batchGetItems (n : Z) (ms : list move) (table : string) (keys : list item) (w : W)
  : option (W * result (list item)) :=
  match keys with
  | [] => Some (w, Ok [])
  | _ => '(w, r) ← runParallel n (map (getBatch table) (chunks keys)) ms w; Some (w, rmap (@List.concat item) r)
  end.
Definition writeBatches (n : Z) (ms : list move) (table : string) (reqs : list (list (WriteRequest AV)))
    (w : W) : option (W * result unit) :=
  '(w, r) ← runParallel n (map (writeBatch table) reqs) ms w; Some (w, rmap (fun _ => tt) r).
Definition batchWriteItems (n : Z) (ms : list move) (table : string) (items : list item) (w : W)
  : option (W * result unit) :=
  match items with
  | [] => Some (w, Ok tt)
  | _ => writeBatches n ms table (map (map PutRequest) (chunks items)) w
  end.
Definition batchDeleteItems (n : Z) (ms : list move) (table : string) (keys : list item) (w : W)
  : option (W * result unit) :=
  match keys with
  | [] => Some (w, Ok tt)
  | _ => writeBatches n ms table (map (map DeleteRequest) (chunks keys)) w
  end.

(** ** Single items *)

Definition DescribeTable (table : string) : prog W (result unit) :=
  let! e := call (dbDescribeTable table) in unlessErr e.

Definition getItem (table : string) (key : item) : prog W (result item) :=
  let! r := call (dbGetItem table key) in
  orWrap r (fun o => Ret (match o with Some it => Ok it | None => Err ErrNotFound end)).
Definition putItem (table : string) (it : item) (cond : option string) : prog W (result unit) :=
  let! e := call (dbPutItem table it cond) in unlessErr e.
Definition deleteItem (table : string) (key : item) (cond : option string) : prog W (result unit) :=
  let! e := call (dbDeleteItem table key cond) in unlessErr e.
Definition UpdateItem (table : string) (key : item) (expr : string) (values : option item)
    (names : option (gmap string string)) (cond : option string) : prog W (result item) :=
  let! r := call (dbUpdateItem (Build_UpdateItemInput table key expr values names cond)) in
  orWrap r (fun a => Ret (Ok a)).

(** ** The exported operations, batch or single *)

Definition alone {A} (p : prog W A) (w : W) : option (W * A) := Some (exec p w).

(** The two dynamic types [GetItem] returns as [any]. *)
Definition GetItem (n : Z) (ms : list move) (table : string) (key : item) (batch : bool)
    (keys : list item) (w : W) : option (W * result (item + list item)) :=
  if batch then '(w, r) ← batchGetItems n ms table keys w; Some (w, rmap inr r)
  else '(w, r) ← alone (getItem table key) w; Some (w, rmap inl r).
Definition WriteItem (n : Z) (ms : list move) (table : string) (it : item) (batch : bool)
    (items : list item) (cond : option string) (w : W) : option (W * result unit) :=
  if batch then batchWriteItems n ms table items w else alone (putItem table it cond) w.
Definition DeleteItem (n : Z) (ms : list move) (table : string) (key : item) (batch : bool)
    (keys : list item) (cond : option string) (w : W) : option (W * result unit) :=
  if batch then batchDeleteItems n ms table keys w else alone (deleteItem table key cond) w.

(** *** Typed variants: [attributevalue] is a parameter *)

Section Typed.
Context {V T : Type} (marshal : V -> result AV) (marshalMap : V -> result item)
  (marshalList : V -> result (list AV)) (asMap : AV -> option item)
  (unmarshalMap : item -> result T) (unmarshalList : list item -> result (list T)).

(** [sortValue]: an [any], nil is [None]. *)
Definition BuildKey (partitionKey : string) (partitionValue : V) (sortKey : string)
    (sortValue : option V) : result item :=
  match marshal partitionValue with
  | Err e => Err (WrapError e)
  | Ok pk =>
      let key := {[ partitionKey := pk ]} in
      match sortValue with
      | Some sv =>
          if String.eqb sortKey "" then Ok key else
          match marshal sv with
          | Err e => Err (WrapError e)
          | Ok sk => Ok (<[sortKey := sk]> key)
          end
      | None => Ok key
      end
  end.

Definition wrapped {A B} (f : A -> result B) (a : A) : result B :=
  match f a with Ok b => Ok b | Err e => Err (WrapError e) end.

Definition GetItemAs (n : Z) (ms : list move) (table : string) (key : item) (batch : bool)
    (keys : list item) (w : W) : option (W * result (T + list T)) :=
  if batch then
    '(w, r) ← batchGetItems n ms table keys w;
    Some (w, let? items := r in rmap inr (wrapped unmarshalList items))
  else
    '(w, r) ← alone (getItem table key) w;
    Some (w, let? it := r in rmap inl (wrapped unmarshalMap it)).
Definition UpdateItemAs (table : string) (key : item) (expr : string) (values : option item)
    (names : option (gmap string string)) (cond : option string) : prog W (result T) :=
  let! r := UpdateItem table key expr values names cond in
  Ret (let? attrs := r in wrapped unmarshalMap attrs).

(** The first element that is not a map, by its index, is an error. *)
Fixpoint asMaps (i : Z) (l : list AV) : result (list item) :=
  match l with
  | [] => Ok []
  | a :: l =>
      match asMap a with
      | Some m => rmap (cons m) (asMaps (i + 1) l)
      | None => Err (WrapError (Errorf ("item " +:+ Itoa i +:+ " is not a map")))
      end
  end.
Definition WriteItemFrom (n : Z) (ms : list move) (table : string) (it : V) (batch : bool)
    (items : V) (cond : option string) (w : W) : option (W * result unit) :=
  if batch then
    match wrapped marshalList items with
    | Err e => Some (w, Err e)
    | Ok av =>
        match asMaps 0 av with
        | Err e => Some (w, Err e)
        | Ok maps => batchWriteItems n ms table maps w
        end
    end
  else
    match wrapped marshalMap it with
    | Err e => Some (w, Err e)
    | Ok av => alone (putItem table av cond) w
    end.
End Typed.

(** ** Queries and scans *)

Definition sdkOfQuery (i : QueryInput AV) : sdkQuery AV :=
  {| qTable := Some (TableName i); qIndex := IndexName i;
     qKeyCondition := Some (KeyConditionExpression i); qFilter := FilterExpression i;
     qValues := ExpressionValues i; qNames := ExpressionNames i; qLimit := Limit i;
     qForward := ScanIndexForward i; qStart := ExclusiveStartKey i |}.
Definition sdkOfScan (i : ScanInput AV) : sdkQuery AV :=
  {| qTable := Some (sTableName i); qIndex := sIndexName i; qKeyCondition := None;
     qFilter := sFilterExpression i; qValues := sExpressionValues i; qNames := sExpressionNames i;
     qLimit := sLimit i; qForward := None; qStart := sExclusiveStartKey i |}.

Definition Query (i : QueryInput AV) : prog W (result (Output AV)) :=
  let! r := call (dbQuery (sdkOfQuery i)) in orWrap r (fun o => Ret (Ok o)).
Definition Scan (i : ScanInput AV) : prog W (result (Output AV)) :=
  let! r := call (dbScan (sdkOfScan i)) in orWrap r (fun o => Ret (Ok o)).

(** [input.ExclusiveStartKey = key]. *)
Definition queryFrom (i : QueryInput AV) (key : option item) : QueryInput AV :=
  {| TableName := TableName i; IndexName := IndexName i;
     KeyConditionExpression := KeyConditionExpression i; FilterExpression := FilterExpression i;
     ExpressionValues := ExpressionValues i; ExpressionNames := ExpressionNames i;
     Limit := Limit i; ScanIndexForward := ScanIndexForward i; ExclusiveStartKey := key |}.
Definition scanFrom (i : ScanInput AV) (key : option item) : ScanInput AV :=
  {| sTableName := sTableName i; sIndexName := sIndexName i;
     sFilterExpression := sFilterExpression i; sExpressionValues := sExpressionValues i;
     sExpressionNames := sExpressionNames i; sLimit := sLimit i; sExclusiveStartKey := key |}.

(** The loop of [QueryAll] and [ScanAll] over their page function; [None] when
    the fuel, one unit per page, runs out. *)
Fixpoint allPages (fuel : nat) (page : option item -> prog W (result (Output AV)))
    (items : list item) (lastKey : option item) : prog W (option (result (list item))) :=
  match fuel with
  | O => Ret None
  | S fuel =>
      let! r := page lastKey in
      match r with
      | Err e => Ret (Some (Err e))
      | Ok o =>
          let items := (items ++ Items o)%list in
          match LastEvaluatedKey o with
          | None => Ret (Some (Ok items))
          | Some k => allPages fuel page items (Some k)
          end
      end
  end.
Definition QueryAll (fuel : nat) (i : QueryInput AV) : prog W (option (result (list item))) :=
  allPages fuel (fun k => Query (queryFrom i k)) [] None.
Definition ScanAll (fuel : nat) (i : ScanInput AV) : prog W (option (result (list item))) :=
  allPages fuel (fun k => Scan (scanFrom i k)) [] None.

Section TypedQueries.
Context {T : Type} (unmarshalList : list item -> result (list T)).
Definition QueryAs (i : QueryInput AV) : prog W (result (Output AV * list T)) :=
  let! r := Query i in
  Ret (let? o := r in rmap (pair o) (wrapped unmarshalList (Items o))).
Definition ScanAs (i : ScanInput AV) : prog W (result (Output AV * list T)) :=
  let! r := Scan i in
  Ret (let? o := r in rmap (pair o) (wrapped unmarshalList (Items o))).
Definition QueryAllAs (fuel : nat) (i : QueryInput AV) : prog W (option (result (list T))) :=
  let! r := QueryAll fuel i in
  Ret (r ← r; Some (let? items := r in wrapped unmarshalList items)).
Definition ScanAllAs (fuel : nat) (i : ScanInput AV) : prog W (option (result (list T))) :=
  let! r := ScanAll fuel i in
  Ret (r ← r; Some (let? items := r in wrapped unmarshalList items)).
End TypedQueries.
End Operations.

(** ** Chunks *)

Lemma chunks_from_spec {A} n (l : list A) :
  (length l <= n)%nat ->
  List.concat (chunks_from n l) = l /\
  Forall (fun c => (1 <= length c <= maxBatchSize)%nat) (chunks_from n l).
Proof.
  revert l. induction n as [|n IH]; intros [|x l] Hn; simpl chunks_from; try by split; [|constructor].
  { simpl in Hn. lia. }
  destruct (IH (drop maxBatchSize (x :: l))) as [H1 H2].
  { rewrite length_drop. unfold maxBatchSize. simpl length in *. lia. }
  split.
  - transitivity (take maxBatchSize (x :: l) ++
      List.concat (chunks_from n (drop maxBatchSize (x :: l))))%list; [done|].
    by rewrite H1, take_drop.
  - apply (Forall_cons_2 _ (take maxBatchSize (x :: l))); [|done].
    rewrite length_take. unfold maxBatchSize. simpl length. lia.
Qed.

Lemma chunks_spec {A} (l : list A) :
  List.concat (chunks l) = l /\ Forall (fun c => (1 <= length c <= maxBatchSize)%nat) (chunks l).
Proof. by apply chunks_from_spec. Qed.

Lemma chunks_elem {A} (l : list A) x : x ∈ l -> exists i c, chunks l !! i = Some c /\ x ∈ c.
Proof.
  intros Hx. rewrite <- (proj1 (chunks_spec l)) in Hx.
  apply list_elem_of_In, in_concat in Hx as (c & Hc & Hxc).
  apply list_elem_of_In, list_elem_of_lookup in Hc as [i Hi]. exists i, c.
  split; [done|]. by apply list_elem_of_In.
Qed.

(** ** Parallel runs *)

Lemma firstError_Ok {A} (rs : list (result A)) l :
  firstError rs = Ok l <-> rs = Ok <$> l.
Proof.
  revert l. induction rs as [|[a|e] rs IH]; intros l; simpl.
  - split; [by intros [= <-]|by destruct l].
  - destruct (firstError rs) as [l'|e] eqn:E; simpl.
    + split; [intros [= <-]; simpl; f_equal; by apply IH|].
      destruct l as [|b l]; intros [= -> Hrs]. do 2 f_equal. apply IH in Hrs. congruence.
    + split; [done|]. destruct l as [|b l]; intros [= -> Hrs]. by apply IH in Hrs.
  - split; [done|]. by destruct l.
Qed.

Lemma firstError_Err {A} (rs : list (result A)) e :
  firstError rs = Err e <->
  exists i, rs !! i = Some (Err e) /\ forall j, (j < i)%nat -> exists a, rs !! j = Some (Ok a).
Proof.
  induction rs as [|[a|e'] rs IH]; simpl.
  - split; [done|]. by intros (i & H & _).
  - transitivity (firstError rs = Err e).
    { destruct (firstError rs); simpl; [done|split; by intros [= ->]]. }
    rewrite IH. split.
    + intros (i & Hi & Hj). exists (S i). split; [done|]. intros [|j] H; [by exists a|apply Hj; lia].
    + intros ([|i] & Hi & Hj); [done|]. exists i. split; [done|]. intros j H. apply (Hj (S j)). lia.
  - split; [intros [= ->]; exists 0%nat; split; [done|lia]|].
    intros ([|i] & Hi & Hj); [by injection Hi as ->|]. by destruct (Hj 0%nat ltac:(lia)).
Qed.

(** What each of the programs guarantees holds of the results. *)
Lemma runParallel_ok {W A} (le : W -> W -> Prop) `{!PreOrder le} (Q : nat -> result A -> W -> Prop)
    limit fns ms w w' l :
  (forall i, stable le (Q i)) ->
  (forall i f, fns !! i = Some f -> guarantees le (Q i) f w) ->
  runParallel limit fns ms w = Some (w', Ok l) ->
  length l = length fns /\ forall i a, l !! i = Some a -> Q i (Ok a) w'.
Proof.
  intros HQ Hf Hrun.
  assert (Hpool : forall s rs, pool_run (Z.to_nat limit) (startPool w fns) ms = Some s ->
    results s = Some rs -> forall i r, rs !! i = Some r -> Q i r (pWorld s)).
  { intros s rs H1 H2. eapply (pool_run_ok le Q HQ); [|done..]. intros i x Hx. simpl in Hx.
    apply list_lookup_fmap_Some in Hx as (f & -> & Hx). simpl. eauto. }
  assert (Hlen : forall s rs, pool_run (Z.to_nat limit) (startPool w fns) ms = Some s ->
    results s = Some rs -> length rs = length fns).
  { intros s rs H1 H2. apply mapM_Some_1, Forall2_length in H2. rewrite <- H2.
    rewrite <- (length_fmap Waiting). change (Waiting <$> fns) with (slots (startPool w fns)).
    clear Hrun Hpool H2. revert H1. generalize (startPool w fns).
    induction ms as [|m ms IH]; simpl; intros s0; [by intros [= ->]|].
    intros (s1 & (i & x & w1 & x' & Hi & Hx & -> & _)%pool_step_slot & H)%bind_Some.
    apply IH in H. simpl in H. by rewrite length_insert in H. }
  assert (Hgen : forall rs, (forall i r, rs !! i = Some r -> Q i r w') -> length rs = length fns ->
    firstError rs = Ok l -> length l = length fns /\ forall i a, l !! i = Some a -> Q i (Ok a) w').
  { intros rs H1 H2 ->%firstError_Ok. rewrite length_fmap in H2. split; [done|].
    intros i a Ha. apply H1. by rewrite list_lookup_fmap, Ha. }
  destruct fns as [|f [|g fns]]; cbn [runParallel] in Hrun.
  2: { destruct (exec f w) as [w1 r] eqn:E. injection Hrun as <- Hl.
       apply (Hgen [r]); [|done|done]. intros [|i] r' [= <-].
       pose proof (guarantees_exec le _ _ _ (Hf 0%nat f eq_refl)) as H. by rewrite E in H. }
  all: apply bind_Some in Hrun as (s & H1 & (rs & H2 & [= <- Hl])%bind_Some);
    apply (Hgen rs); eauto.
Qed.

(** (C29) A batch operation runs at most [maxParallel] goroutines at a time, ends
    under every schedule, and reports the first error by index.  As long as one of the
    goroutines has not returned some goroutine can go on, or the next one can be
    launched, and no schedule goes on for ever.  When all have returned, the result is
    the values in the order of the functions if none failed, and otherwise the
    error of the failed function with the smallest index, whichever failed first in
    time.  A single function is run in place. *)
Theorem runParallel_live {W A} (limit : Z) (fns : list (prog W (result A))) ms w s :
  0 < limit -> pool_run (Z.to_nat limit) (startPool w fns) ms = Some s ->
  Z.of_nat (inFlight (slots s)) <= limit /\
  (results s = None -> exists m s', pool_step (Z.to_nat limit) s m = Some s') /\
  Acc (fun s2 s1 => exists m, pool_step (Z.to_nat limit) s1 m = Some s2) s /\
  ((length fns <> 1)%nat -> forall rs, results s = Some rs ->
     exists r, runParallel limit fns ms w = Some (pWorld s, r) /\
       (forall l, r = Ok l <-> rs = map Ok l) /\
       (forall e, r = Err e <->
          exists i, rs !! i = Some (Err e) /\ forall j, (j < i)%nat -> exists a, rs !! j = Some (Ok a))) /\
  (forall f, fns = [f] -> exists r, runParallel limit fns ms w = Some ((exec f w).1, r) /\
     match (exec f w).2 with Ok a => r = Ok [a] | Err e => r = Err e end).
Proof.
  intros Hl Hrun. split_and!.
  - apply pool_run_limit in Hrun. lia.
  - intros Hn. apply pool_progress; [lia|done].
  - apply pool_terminates.
  - intros Hlen rs Hrs. exists (firstError rs).
    split; [|split; [apply firstError_Ok|apply firstError_Err]].
    destruct fns as [|f [|g fns]]; [|done|]; cbn [runParallel];
      by rewrite Hrun; cbn [mbind option_bind]; rewrite Hrs.
  - intros f ->. exists (firstError [(exec f w).2]). cbn [runParallel]. by destruct (exec f w) as [w' [a|e]].
Qed.

(** ** What a batch write achieves *)

(** The documented contract of BatchWriteItem: every request of a successful call
    is applied or returned as unprocessed.  [applied] is the history of writes. *)
Class WriteContract (AV W : Type) `{dynamoDBAPI AV W, Await W} := {
  applied : W -> list (string * WriteRequest AV);
  await_applied d w : applied w ⊆ applied (await d w).1;
  write_applied reqs w : applied w ⊆ applied (dbBatchWriteItem reqs w).1;
  write_done reqs w u t rs r :
    (dbBatchWriteItem reqs w).2 = Ok u -> reqs !! t = Some rs -> r ∈ rs ->
    (t, r) ∈ applied (dbBatchWriteItem reqs w).1 \/ exists us, u !! t = Some us /\ r ∈ us;
}.

Section Writes.
Context {AV W : Type} `{WriteContract AV W, !SDKErrors}.
Implicit Types (w : W) (u : gmap string (list (WriteRequest AV))).

Definition grows w w' : Prop := applied w ⊆ applied w'.
#[local] Instance grows_preorder : PreOrder grows.
Proof. unfold grows. split; [by intros w|by intros a b c ? ?; etransitivity]. Qed.

(** A nil error means that all of [u] has been applied. *)
Definition all_applied u (r : result unit) w : Prop :=
  r = Ok tt -> forall t rs x, u !! t = Some rs -> x ∈ rs -> (t, x) ∈ applied w.

Lemma all_applied_stable u : stable grows (all_applied u).
Proof. intros r w w' Hle Hr Hok t rs x Ht Hx. apply Hle. eauto. Qed.

Lemma all_applied_empty u r w : Nat.eqb (size u) 0 = true -> all_applied u r w.
Proof.
  intros Hu%Nat.eqb_eq%map_size_empty_inv _ t rs x. subst u. by rewrite lookup_empty.
Qed.

(** One call, the rest being left to [k]. *)
Lemma write_guarantees u (k : gmap string (list (WriteRequest AV)) -> prog W (result unit)) w :
  (forall u' w', guarantees grows (all_applied u') (k u') w') ->
  guarantees grows (all_applied u) (let! r := call (dbBatchWriteItem u) in orWrap r k) w.
Proof.
  intros Hk w1 Hw1. simpl. split; [apply write_applied|].
  destruct (dbBatchWriteItem u w1) as [w2 r] eqn:E. simpl.
  pose proof (write_done u w1) as Hd. rewrite E in Hd. simpl in Hd.
  destruct r as [u'|e]; [|done]. simpl.
  apply (guarantees_impl _ (all_applied u')); [|apply Hk].
  intros r w' Hle Hr Hok t rs x Ht Hx.
  destruct (Hd u' t rs x eq_refl Ht Hx) as [Ha|(us & Hus & Hxus)]; [by apply Hle|eauto].
Qed.

Lemma retryUnprocessed_guarantees n d u w :
  guarantees grows (all_applied u) (retryUnprocessed n d u) w.
Proof.
  revert d u w. induction n as [|n IH]; intros d u w; cbn [retryUnprocessed];
    destruct (Nat.eqb (size u) 0) eqn:E; try by apply all_applied_empty.
  { done. }
  apply (guarantees_bind _ (fun _ _ => True)).
  - apply guarantees_call. intros w1 _. split; [apply await_applied|done].
  - intros [e|] w1 _ _; [done|]. apply write_guarantees. intros. apply IH.
Qed.

Lemma writeBatch_guarantees table reqs w :
  guarantees grows (all_applied {[ table := reqs ]}) (writeBatch table reqs) w.
Proof.
  apply write_guarantees. intros u w'. destruct (Nat.eqb (size u) 0) eqn:E.
  - by apply all_applied_empty.
  - apply retryUnprocessed_guarantees.
Qed.

Lemma writeBatches_applied n ms table (css : list (list (WriteRequest AV))) w w' :
  writeBatches n ms table css w = Some (w', Ok tt) ->
  forall i cs x, css !! i = Some cs -> x ∈ cs -> (table, x) ∈ applied w'.
Proof.
  intros ([w2 r] & Hrun & Heq)%bind_Some i cs x Hi Hx. injection Heq as -> Hr.
  destruct r as [l|e]; [|done].
  apply (runParallel_ok grows (fun i r w => forall cs, css !! i = Some cs ->
    all_applied {[ table := cs ]} r w)) in Hrun as [Hlen Hq].
  - rewrite length_map in Hlen.
    destruct (lookup_lt_is_Some_2 l i) as [a Ha]; [rewrite Hlen; by eapply lookup_lt_Some|].
    destruct a. apply (Hq i tt Ha cs Hi eq_refl table cs); [|done]. apply lookup_singleton_eq.
  - intros j r w0 w1 Hle Hr0 cs0 Hcs0. eapply all_applied_stable; eauto.
  - intros j f Hf. change (map (writeBatch table) css) with (writeBatch table <$> css) in Hf.
    apply list_lookup_fmap_Some in Hf as (cs0 & -> & Hcs0).
    apply (guarantees_impl grows (all_applied {[ table := cs0 ]})); [|apply writeBatch_guarantees].
    intros r w0 _ Hr0 cs1 Hcs1. by simplify_eq.
Qed.

(** (C18) A batch write that returns no error has applied every item, under every
    interleaving of its chunks and whatever the service left unprocessed on the
    way; and no chunk it sends is empty or has more than 25 requests. *)
Theorem batchWriteItems_applies_all n ms table (items : list (gmap string AV)) w w' :
  batchWriteItems n ms table items w = Some (w', Ok tt) ->
  Forall (fun c => (1 <= length c <= 25)%nat) (chunks items) /\
  forall it, it ∈ items -> (table, PutRequest it) ∈ applied w'.
Proof.
  intros Hrun. split; [apply chunks_spec|]. intros it Hit.
  destruct (chunks_elem _ _ Hit) as (i & c & Hc & Hitc).
  assert (Hw : writeBatches n ms table (map (map PutRequest) (chunks items)) w = Some (w', Ok tt)).
  { destruct items; [by apply not_elem_of_nil in Hit|exact Hrun]. }
  apply (writeBatches_applied _ _ _ _ _ _ Hw i (map PutRequest c)).
  - change (map (map PutRequest) (chunks items)) with
      ((map PutRequest : list (gmap string AV) -> list (WriteRequest AV)) <$> chunks items).
    by rewrite list_lookup_fmap, Hc.
  - apply list_elem_of_In, in_map, list_elem_of_In, Hitc.
Qed.

Lemma batchDeleteItems_applies_all n ms table (keys : list (gmap string AV)) w w' :
  batchDeleteItems n ms table keys w = Some (w', Ok tt) ->
  forall k, k ∈ keys -> (table, DeleteRequest k) ∈ applied w'.
Proof.
  intros Hrun it Hit. destruct (chunks_elem _ _ Hit) as (i & c & Hc & Hitc).
  assert (Hw : writeBatches n ms table (map (map DeleteRequest) (chunks keys)) w = Some (w', Ok tt)).
  { destruct keys; [by apply not_elem_of_nil in Hit|exact Hrun]. }
  apply (writeBatches_applied _ _ _ _ _ _ Hw i (map DeleteRequest c)).
  - change (map (map DeleteRequest) (chunks keys)) with
      ((map DeleteRequest : list (gmap string AV) -> list (WriteRequest AV)) <$> chunks keys).
    by rewrite list_lookup_fmap, Hc.
  - apply list_elem_of_In, in_map, list_elem_of_In, Hitc.
Qed.
End Writes.

(** ** Bounds of the retry loops *)

Lemma operations_call {W A B} (op : W -> W * A) (f : A -> prog W B) w :
  operations (let! x := call op in f x) w = S (operations (f (op w).2) (op w).1).
Proof. done. Qed.

Section Bounds.
Context {AV W : Type} `{dynamoDBAPI AV W, !Await W, !SDKErrors}.

(** At most one wait and one request per remaining retry. *)
Lemma retryUnprocessed_bounded n d u w : (operations (retryUnprocessed n d u) w <= 2 * n)%nat.
Proof.
  revert d u w. induction n as [|n IH]; intros d u w; cbn [retryUnprocessed];
    destruct (Nat.eqb (size u) 0); try by (simpl; lia).
  rewrite operations_call. destruct (await d w) as [w1 [e|]]; cbn [fst snd]; [simpl; lia|].
  rewrite operations_call. destruct (dbBatchWriteItem u w1) as [w2 [u'|e]]; cbn [fst snd orWrap].
  - specialize (IH (wrap64 (d * 2)) u' w2). lia.
  - simpl. lia.
Qed.

Lemma retryUnprocessedKeys_bounded n d t its u w :
  (operations (retryUnprocessedKeys n d t its u) w <= 2 * n)%nat.
Proof.
  revert d its u w. induction n as [|n IH]; intros d its u w; cbn [retryUnprocessedKeys];
    destruct (Nat.eqb (size u) 0); try by (simpl; lia).
  rewrite operations_call. destruct (await d w) as [w1 [e|]]; cbn [fst snd]; [simpl; lia|].
  rewrite operations_call. destruct (dbBatchGetItem u w1) as [w2 [o|e]]; cbn [fst snd orWrap].
  - specialize (IH (wrap64 (d * 2)) (its ++ default [] (o.1 !! t))%list o.2 w2). lia.
  - simpl. lia.
Qed.

(** ** Paging *)

(** [pages page w k n w' its]: from start key [k] the service returns [n] pages,
    the last one without a key to go on from, holding [its] altogether. *)
Inductive pages (page : option (gmap string AV) -> prog W (result (Output AV)))
  : W -> option (gmap string AV) -> nat -> W -> list (gmap string AV) -> Prop :=
  | page_last w k w' o :
      exec (page k) w = (w', Ok o) -> LastEvaluatedKey o = None -> pages page w k 1 w' (Items o)
  | page_more w k w1 o k' n w' its :
      exec (page k) w = (w1, Ok o) -> LastEvaluatedKey o = Some k' ->
      pages page w1 (Some k') n w' its -> pages page w k (S n) w' (Items o ++ its)%list.

Lemma allPages_pages (page : option (gmap string AV) -> prog W (result (Output AV))) w k n w' its fuel acc :
  pages page w k n w' its -> (n <= fuel)%nat ->
  exec (allPages fuel page acc k) w = (w', Some (Ok (acc ++ its)%list)).
Proof.
  intros Hp. revert fuel acc. induction Hp as [w k w' o E HL|w k w1 o k' n w' its E HL _ IH];
    intros [|fuel] acc Hf; try lia; cbn [allPages]; rewrite exec_bind, E; cbn [fst snd]; rewrite HL.
  - done.
  - rewrite IH by lia. by rewrite (assoc_L (++)%list).
Qed.

Lemma allPages_error (page : option (gmap string AV) -> prog W (result (Output AV))) w k w1 e fuel acc :
  exec (page k) w = (w1, Err e) -> exec (allPages (S fuel) page acc k) w = (w1, Some (Err e)).
Proof. intros E. cbn [allPages]. by rewrite exec_bind, E. Qed.

(** QueryAll returns the items of all pages in order, from the beginning of
    the range: a start key the caller put into the input has no effect. *)
Theorem QueryAll_from_the_start (i : QueryInput AV) w n w' its fuel :
  pages (fun k => Query (queryFrom i k)) w None n w' its -> (n <= fuel)%nat ->
  forall start, exec (QueryAll fuel (queryFrom i start)) w = (w', Some (Ok its)).
Proof.
  intros Hp Hf start. exact (allPages_pages _ _ _ _ _ _ fuel [] Hp Hf).
Qed.
End Bounds.

(** ** A concrete service *)

(** Refuses [busy] batch writes before it applies one; holds pages of a query. *)
Record toy := { toyLog : list (string * WriteRequest Z); busy : nat; toyPages : list (list Z) }.

Definition toyItem (z : Z) : gmap string Z := {[ "id" := z ]}.
Definition requested (reqs : gmap string (list (WriteRequest Z))) : list (string * WriteRequest Z) :=
  List.concat (map (fun tr => map (pair tr.1) tr.2) (map_to_list reqs)).
Definition toyWrite (reqs : gmap string (list (WriteRequest Z))) (w : toy)
  : toy * result (gmap string (list (WriteRequest Z))) :=
  match busy w with
  | O => ({| toyLog := (toyLog w ++ requested reqs)%list; busy := 0; toyPages := toyPages w |}, Ok ∅)
  | S n => ({| toyLog := toyLog w; busy := n; toyPages := toyPages w |}, Ok reqs)
  end.
Definition toyPage (start : option (gmap string Z)) (w : toy) : result (Output Z) :=
  let i := Z.to_nat (default 0 (start ≫= fun k => k !! "page")) in
  Ok {| Items := map toyItem (default [] (toyPages w !! i));
        LastEvaluatedKey := if bool_decide (S i < length (toyPages w))%nat
                            then Some {[ "page" := Z.of_nat (S i) ]} else None;
        Count := 0 |}.
Definition toyPut (t : string) (it : gmap string Z) (cond : option string) (w : toy) : toy * option error :=
  match cond with
  | Some _ => (w, Some (Errorf "the conditional request failed"))
  | None => ({| toyLog := (toyLog w ++ [(t, PutRequest it)])%list; busy := busy w;
                toyPages := toyPages w |}, None)
  end.
#[export] Instance toyAPI : dynamoDBAPI Z toy := {
  dbGetItem := fun _ _ w => (w, Ok None);
  dbPutItem := toyPut;
  dbUpdateItem := fun _ w => (w, Err (Errorf "unsupported"));
  dbDeleteItem := fun _ _ _ w => (w, None);
  dbBatchGetItem := fun _ w => (w, Ok (∅, ∅));
  dbBatchWriteItem := toyWrite;
  dbQuery := fun q w => (w, toyPage (qStart q) w);
  dbScan := fun q w => (w, toyPage (qStart q) w);
  dbDescribeTable := fun _ w => (w, None);
}.
#[export] Instance toyAwait : Await toy := fun _ w => (w, None).
#[export] Instance toyErrors : SDKErrors := fun _ _ => false.

Lemma requested_elem reqs t rs r : reqs !! t = Some rs -> r ∈ rs -> (t, r) ∈ requested reqs.
Proof.
  intros Ht Hr. unfold requested. apply list_elem_of_In, in_concat. exists (map (pair t) rs). split.
  - apply in_map_iff. exists (t, rs). split; [done|]. by apply list_elem_of_In, elem_of_map_to_list.
  - apply in_map. by apply list_elem_of_In.
Qed.

#[export] Program Instance toyContract : WriteContract Z toy := {| applied := toyLog |}.
Next Obligation. done. Qed.
Next Obligation.
  intros reqs w. simpl. unfold toyWrite. destruct (busy w); simpl; [set_solver|done].
Qed.
Next Obligation.
  intros reqs w u t rs r. simpl. unfold toyWrite. destruct (busy w); simpl; intros [= <-] Ht Hr.
  - left. pose proof (requested_elem _ _ _ _ Ht Hr). set_solver.
  - right. eauto.
Qed.

Definition toyItems : list (gmap string Z) := map (fun n => toyItem (Z.of_nat n)) (seq 0 30).
Definition toyStart : toy := {| toyLog := []; busy := 2; toyPages := [[1; 2]; [3]] |}.
(** The first chunk is refused twice; the second one is served in between. *)
Definition toySchedule : list move :=
  [Launch; Launch] ++ repeat (Work 0) 3 ++ repeat (Work 1) 2 ++ repeat (Work 0) 3.

(** The third function fails first, the second one's error is reported. *)
Definition failing : list (prog toy (result Z)) :=
  [Ret (Ok 1); Ret (Err ErrNotFound); Ret (Err (Errorf "late"))].
Definition failingSchedule : list move := [Launch; Work 0; Launch; Launch; Work 2; Work 1].
Lemma runParallel_live_witness :
  exists r, runParallel 2 failing failingSchedule toyStart = Some (toyStart, r) /\ r = Err ErrNotFound.
Proof.
  destruct (runParallel_live 2 failing failingSchedule toyStart
    {| pWorld := toyStart; slots := [Finished (Ok 1); Finished (Err ErrNotFound); Finished (Err (Errorf "late"))] |}
    ltac:(lia) eq_refl) as (_ & _ & _ & H & _).
  destruct (H ltac:(discriminate) [Ok 1; Err ErrNotFound; Err (Errorf "late")] eq_refl) as (r & Hr & _ & He).
  exists r. split; [exact Hr|]. apply He. exists 1%nat. split; [reflexivity|].
  intros [|j] Hj; [by exists 1|lia].
Defined.

Lemma QueryAll_from_the_start_witness :
  exec (QueryAll 2 (queryFrom
    {| TableName := "t"; IndexName := None; KeyConditionExpression := "pk = :p";
       FilterExpression := None; ExpressionValues := None; ExpressionNames := None; Limit := None;
       ScanIndexForward := None; ExclusiveStartKey := None |} (Some {[ "page" := 1 ]}))) toyStart
  = (toyStart, Some (Ok (map toyItem [1; 2; 3]))).
Proof.
  apply (QueryAll_from_the_start _ _ 2 _ _ 2); [|lia].
  apply (page_more _ _ _ toyStart {| Items := map toyItem [1; 2];
    LastEvaluatedKey := Some {[ "page" := 1 ]}; Count := 0 |} {[ "page" := 1 ]} 1 _ (map toyItem [3]));
    [reflexivity|reflexivity|].
  by apply (page_last _ _ _ _ {| Items := map toyItem [3]; LastEvaluatedKey := None; Count := 0 |}).
Defined.

Lemma batchWriteItems_applies_all_witness :
  exists w', batchWriteItems 2 toySchedule "t" toyItems toyStart = Some (w', Ok tt) /\
    ("t", PutRequest (toyItem 7)) ∈ applied w'.
Proof.
  assert (Hrun : exists w', batchWriteItems 2 toySchedule "t" toyItems toyStart = Some (w', Ok tt))
    by (eexists; vm_compute; reflexivity).
  destruct Hrun as [w' Hrun]. exists w'. split; [exact Hrun|].
  apply (proj2 (batchWriteItems_applies_all 2 toySchedule "t" toyItems toyStart w' Hrun)).
  by apply (list_elem_of_lookup_2 _ 7%nat).
Defined.

(** A batch write does not look at the condition: where the single write is
    refused, the batch overwrites. *)
Lemma batch_ignores_condition :
  (WriteItem 1 [] "t" (toyItem 1) false [] (Some "attribute_not_exists(id)")
     {| toyLog := []; busy := 0; toyPages := [] |}
   = Some ({| toyLog := []; busy := 0; toyPages := [] |},
           Err (WrapError (Errorf "the conditional request failed")))) /\
  (WriteItem 1 [] "t" (toyItem 1) true [toyItem 1] (Some "attribute_not_exists(id)")
     {| toyLog := []; busy := 0; toyPages := [] |}
   = Some ({| toyLog := [("t", PutRequest (toyItem 1))]; busy := 0; toyPages := [] |}, Ok tt)).
Proof. by split; vm_compute. Qed.
