(* ===== verification/Secrets.v ===== *)
(** * The Secrets Manager client (src/aws/secretsmanager)

    Two caches (raw secrets and the parsed document of the secret path), the
    lookups, the poll of [Watch] and its change detection.  The service call and
    JSON decoding are parameters.  [singleflight] lets one caller fetch; one
    caller's view is modelled. *)

From S2P Require Import Prelude GoStrings TTLCache.

Open Scope string_scope.
Open Scope Z_scope.

Abbreviation document := (gmap string string).

(** [secretsManagerAPI]: the answer's [SecretString] may be nil. *)
Class secretsManagerAPI (W : Type) := GetSecretValue : string -> W -> W * result (option string).

Record Config := { Region : string; Endpoint : string; SecretPath : string; Keys : list string; CacheTTL : Z }.

Record secretCache := { entries : cache string; parsedEntries : cache document; ttl : Z }.
Record Client := { secretPath : string; secrets : secretCache }.

Definition newCache (d : Z) : secretCache :=
  {| entries := ∅; parsedEntries := ∅; ttl := if d =? 0 then 5 * Minute else d |}.
(** The period of [evictLoop]; Go's division truncates. *)
Definition evictInterval (c : secretCache) : Z := Z.max (Z.quot (ttl c) 2) (30 * Second).
Definition evict (t : Z) (c : secretCache) : secretCache :=
  {| entries := evictStale t (entries c); parsedEntries := evictStale t (parsedEntries c); ttl := ttl c |}.
(** [evictLoop]: a tick at some time, or [None] when the context is done. *)
Fixpoint evictLoop (turns : list (option Z)) (c : secretCache) : secretCache :=
  match turns with
  | Some t :: turns => evictLoop turns (evict t c)
  | _ => c
  end.

(** A negative time to live switches the cache off. *)
Definition get (t : Z) (key : string) (c : secretCache) : option string :=
  if ttl c <? 0 then None else lookupFresh t (entries c) key.
Definition set (t : Z) (key v : string) (c : secretCache) : secretCache :=
  if ttl c <? 0 then c else
  {| entries := storeFor t (ttl c) key v (entries c); parsedEntries := parsedEntries c; ttl := ttl c |}.
Definition getParsed (t : Z) (key : string) (c : secretCache) : option document :=
  if ttl c <? 0 then None else lookupFresh t (parsedEntries c) key.
Definition setParsed (t : Z) (key : string) (v : document) (c : secretCache) : secretCache :=
  if ttl c <? 0 then c else
  {| entries := entries c; parsedEntries := storeFor t (ttl c) key v (parsedEntries c); ttl := ttl c |}.

Definition withCache (c : Client) (s : secretCache) : Client :=
  {| secretPath := secretPath c; secrets := s |}.

(** The requested keys that the document has; the others are logged. *)
Fixpoint extractKeys (all : document) (keys : list string) : document :=
  match keys with
  | [] => ∅
  | k :: keys =>
      match all !! k with Some v => <[k := v]> (extractKeys all keys) | None => extractKeys all keys end
  end.

(** Lengths differ, or some current value differs from the previous map's, where
    a missing key reads as the empty string. *)
Definition secretsChanged (prev current : document) : bool :=
  negb (Nat.eqb (size prev) (size current)) ||
  existsb (fun kv => negb (String.eqb (default "" (prev !! kv.1)) kv.2)) (map_to_list current).

Section Operations.
Context {W : Type} `{secretsManagerAPI W} (decode : string -> result document).

(** [GetSecretValue] and the test for a string value. *)
Definition fetchRaw (name : string) (w : W) : W * result string :=
  let '(w, r) := GetSecretValue name w in
  (w, let? s := r in match s with Some v => Ok v | None => Err (Errorf "secret has no string value") end).
Definition parse (raw : string) : result document :=
  match decode raw with Ok d => Ok d | Err e => Err (Wrap "failed to parse secret JSON" e) end.

(** [t1]: the cache is read; [t2]: the answer is stored. *)
Definition GetSecret (t1 t2 : Z) (name : string) (c : Client) (w : W) : Client * W * result string :=
  if String.eqb name "" then (c, w, Err (Errorf "invalid secret name")) else
  match get t1 name (secrets c) with
  | Some v => (c, w, Ok v)
  | None =>
      let '(w, r) := fetchRaw name w in
      match r with
      | Ok v => (withCache c (set t2 name v (secrets c)), w, Ok v)
      | Err e => (c, w, Err e)
      end
  end.

(** The common tail of [GetSecrets] and [pollSecrets]. *)
Definition refresh (t : Z) (keys : list string) (c : Client) (w : W) : Client * W * result document :=
  let '(w, r) := fetchRaw (secretPath c) w in
  match (let? raw := r in parse raw) with
  | Ok all => (withCache c (setParsed t (secretPath c) all (secrets c)), w, Ok (extractKeys all keys))
  | Err e => (c, w, Err e)
  end.
Definition GetSecrets (t1 t2 : Z) (keys : list string) (c : Client) (w : W)
  : Client * W * result document :=
  if Nat.eqb (length keys) 0 then (c, w, Err (Errorf "keys must not be empty"))
  else if String.eqb (secretPath c) "" then (c, w, Err (Errorf "invalid secret path"))
  else match getParsed t1 (secretPath c) (secrets c) with
       | Some all => (c, w, Ok (extractKeys all keys))
       | None => refresh t2 keys c w
       end.
Definition pollSecrets (t : Z) (keys : list string) (c : Client) (w : W) : Client * W * result document :=
  refresh t keys c w.

(** [New], once the AWS configuration is loaded ([load] is its error). *)
Definition New (load : string -> option error) (t1 t2 : Z) (cfg : Config) (w : W) : W * result Client :=
  if String.eqb (Region cfg) "" then (w, Err (Errorf "invalid region")) else
  match load (Region cfg) with
  | Some e => (w, Err (Wrap "failed to load AWS config" e))
  | None =>
      let c := {| secretPath := SecretPath cfg; secrets := newCache (CacheTTL cfg) |} in
      if Nat.eqb (length (Keys cfg)) 0 then (w, Ok c) else
      let '(c, w, r) := GetSecrets t1 t2 (Keys cfg) c w in
      (w, match r with Ok _ => Ok c | Err e => Err (Wrap "failed to load initial secrets" e) end)
  end.

(** ** Watching *)

Definition watchable (interval : Z) (keys : list string) (hasCallback : bool) (c : Client) : bool :=
  negb ((interval <=? 0) || Nat.eqb (length keys) 0 || negb hasCallback || String.eqb (secretPath c) "").

(** One tick of [runWatch]: the new [previous], and the document [onChange] is
    called with.  If the callback panics, the loop starts over without one. *)
Definition watchTick (panics : document -> bool) (t : Z) (keys : list string) (c : Client) (w : W)
    (previous : option document) : Client * W * option document * option document :=
  let '(c, w, r) := pollSecrets t keys c w in
  match r with
  | Err _ => (c, w, previous, None)
  | Ok current =>
      match previous with
      | Some prev =>
          if secretsChanged prev current
          then (c, w, (if panics current then None else Some current), Some current)
          else (c, w, Some current, None)
      | None => (c, w, Some current, None)
      end
  end.
End Operations.

(** ** Keys *)

Lemma extractKeys_lookup all keys k :
  extractKeys all keys !! k = if decide (k ∈ keys) then all !! k else None.
Proof.
  induction keys as [|k' keys IH]; cbn [extractKeys].
  - rewrite lookup_empty. case_decide as Hin; [by apply not_elem_of_nil in Hin|done].
  - destruct (decide (k = k')) as [->|Hne].
    + rewrite decide_True by left. destruct (all !! k') as [v|] eqn:E.
      * by rewrite lookup_insert_eq.
      * rewrite IH. case_decide; by rewrite ?E.
    + transitivity (extractKeys all keys !! k).
      * destruct (all !! k'); [by rewrite lookup_insert_ne|done].
      * rewrite IH. apply decide_ext. by rewrite elem_of_cons; intuition.
Qed.

(** ** Change detection *)

Lemma secretsChanged_false prev current :
  secretsChanged prev current = false <->
  size prev = size current /\
  forall k v, current !! k = Some v -> default "" (prev !! k) = v.
Proof.
  unfold secretsChanged. rewrite orb_false_iff, negb_false_iff, Nat.eqb_eq.
  assert (Hex : existsb (fun kv => negb (String.eqb (default "" (prev !! kv.1)) kv.2))
      (map_to_list current) = false <->
    forall k v, current !! k = Some v -> default "" (prev !! k) = v).
  { rewrite <- not_true_iff_false, existsb_exists. split.
    - intros Hn k v Hk. destruct (String.eqb (default "" (prev !! k)) v) eqn:E; [by bool_to_prop|].
      destruct Hn. exists (k, v). simpl. rewrite E. split; [|done].
      by apply list_elem_of_In, elem_of_map_to_list.
    - intros Hall ([k v] & Hin & Hne). simpl in Hne. bool_to_prop.
      apply list_elem_of_In, elem_of_map_to_list in Hin. by apply Hne, Hall. }
  by rewrite Hex.
Qed.

(** Without empty values the detection is exact. *)
Lemma secretsChanged_exact prev current :
  (forall k, current !! k <> Some "") -> secretsChanged prev current = false <-> prev = current.
Proof.
  intros Hne. rewrite secretsChanged_false. split.
  - intros [Hs Hall]. symmetry. apply map_subseteq_size_eq; [|lia].
    apply map_subseteq_spec. intros k v Hk. specialize (Hall k v Hk).
    destruct (prev !! k) as [v'|]; simpl in Hall; [congruence|]. subst. by destruct (Hne k).
  - intros ->. split; [done|]. intros k v ->. done.
Qed.

(** ** Histories

    An operation carries the answer the service would give it. *)

Abbreviation answer := (result (option string)).
#[export] Instance answers_with : secretsManagerAPI answer := fun _ a => (a, a).

Inductive op : Type :=
  | OpGet (t1 t2 : Z) (name : string) (a : answer)
  | OpGets (t1 t2 : Z) (keys : list string) (a : answer)
  | OpPoll (t : Z) (keys : list string) (a : answer)
  | OpEvict (t : Z).

(** The times an operation starts and ends at. *)
Definition opTimes (o : op) : Z * Z :=
  match o with
  | OpGet t1 t2 _ _ | OpGets t1 t2 _ _ => (t1, t2)
  | OpPoll t _ _ | OpEvict t => (t, t)
  end.
Fixpoint ordered (clock : Z) (ops : list op) : Prop :=
  match ops with
  | [] => True
  | o :: ops => clock <= (opTimes o).1 <= (opTimes o).2 /\ ordered (opTimes o).2 ops
  end.
(** The documents the service answered, with their times. *)
Definition documents (ops : list op) : list (Z * string) :=
  omap (fun o => match o with
                 | OpGets _ t _ (Ok (Some raw)) | OpPoll t _ (Ok (Some raw)) => Some (t, raw)
                 | _ => None
                 end) ops.

Section Histories.
Context (decode : string -> result document).

Definition applyOp (c : Client) (o : op) : Client :=
  match o with
  | OpGet t1 t2 name a => (GetSecret t1 t2 name c a).1.1
  | OpGets t1 t2 keys a => (GetSecrets decode t1 t2 keys c a).1.1
  | OpPoll t keys a => (pollSecrets decode t keys c a).1.1
  | OpEvict t => withCache c (evict t (secrets c))
  end.
Definition runOps (c : Client) (ops : list op) : Client := fold_left applyOp ops c.

(** What a cached document is: one the service answered at its time. *)
Definition answered (docs : list (Z * string)) (_ : string) (d : document) (t : Z) : Prop :=
  exists raw, In (t, raw) docs /\ decode raw = Ok d.

Definition cache_ok (docs : list (Z * string)) (clock : Z) (c : Client) : Prop :=
  0 <= ttl (secrets c) -> stored (answered docs) (ttl (secrets c)) clock (parsedEntries (secrets c)).

Lemma cache_ok_later docs clock clock' c :
  clock <= clock' -> cache_ok docs clock c -> cache_ok docs clock' c.
Proof. intros Hc H Ht. eapply stored_mono; [|done|by apply H]. done. Qed.

Lemma parse_Ok raw d : parse decode raw = Ok d -> decode raw = Ok d.
Proof. unfold parse. by destruct (decode raw). Qed.

(** What a refresh stores and returns. *)
Lemma refresh_spec t keys c a c' a' r :
  refresh decode t keys c a = (c', a', r) ->
  (c' = c /\ is_ok r = false) \/
  exists raw d, a = Ok (Some raw) /\ decode raw = Ok d /\ r = Ok (extractKeys d keys) /\
    c' = withCache c (setParsed t (secretPath c) d (secrets c)).
Proof.
  unfold refresh, fetchRaw, GetSecretValue, answers_with.
  destruct a as [[raw|]|e]; simpl; try by intros [= <- <- <-]; left.
  destruct (parse decode raw) as [d|e] eqn:E; intros [= <- <- <-]; [|by left].
  right. exists raw, d. split_and!; try done. by apply parse_Ok.
Qed.

Lemma refresh_ok docs clock t keys c a c' a' r :
  cache_ok docs clock c -> clock <= t -> (forall raw, a = Ok (Some raw) -> In (t, raw) docs) ->
  refresh decode t keys c a = (c', a', r) -> cache_ok docs t c'.
Proof.
  intros Hok Hle Ha [[-> _]|(raw & d & -> & Hd & _ & ->)]%refresh_spec.
  - by eapply cache_ok_later.
  - unfold cache_ok, setParsed, withCache. simpl. destruct (ttl (secrets c) <? 0) eqn:E; bool_to_prop.
    { simpl. intros. lia. }
    simpl. intros Ht. eapply stored_store; [by apply Hok|done|]. exists raw. auto.
Qed.

Lemma get_set_parsed t k v c : parsedEntries (set t k v c) = parsedEntries c /\ ttl (set t k v c) = ttl c.
Proof. unfold set. by destruct (ttl c <? 0). Qed.

Lemma applyOp_ok docs clock c o :
  cache_ok docs clock c -> clock <= (opTimes o).1 <= (opTimes o).2 -> incl (documents [o]) docs ->
  cache_ok docs (opTimes o).2 (applyOp c o).
Proof.
  intros Hok Hle Hin. assert (Hc : cache_ok docs (opTimes o).2 c) by (eapply cache_ok_later; [|exact Hok]; lia).
  destruct o as [t1 t2 name a|t1 t2 keys a|t keys a|t]; simpl in *.
  - unfold GetSecret. destruct (String.eqb name ""), (get t1 name (secrets c)); try done.
    destruct (fetchRaw name a) as [a' [v|e]]; [|done].
    unfold cache_ok, withCache. simpl. by destruct (get_set_parsed t2 name v (secrets c)) as [-> ->].
  - unfold GetSecrets. destruct (Nat.eqb (length keys) 0), (String.eqb (secretPath c) ""),
      (getParsed t1 (secretPath c) (secrets c)); try done.
    destruct (refresh decode t2 keys c a) as [[c' a'] r] eqn:E. simpl.
    eapply refresh_ok; [exact Hok|lia| |exact E]. intros raw ->. apply Hin. simpl. auto.
  - destruct (pollSecrets decode t keys c a) as [[c' a'] r] eqn:E. simpl.
    eapply refresh_ok; [exact Hok|lia| |exact E]. intros raw ->. apply Hin. simpl. auto.
  - intros Ht. simpl in *. apply stored_evict. by apply Hc.
Qed.

Lemma documents_cons o ops : documents (o :: ops) = (documents [o] ++ documents ops)%list.
Proof. unfold documents. simpl. by destruct o as [| ? ? ? [[?|]|?]|? ? [[?|]|?]|]. Qed.

Lemma applyOp_path c o :
  secretPath (applyOp c o) = secretPath c /\ ttl (secrets (applyOp c o)) = ttl (secrets c).
Proof.
  assert (Hr : forall t keys a, secretPath (refresh decode t keys c a).1.1 = secretPath c /\
    ttl (secrets (refresh decode t keys c a).1.1) = ttl (secrets c)).
  { intros t keys a. destruct (refresh decode t keys c a) as [[c' a'] r] eqn:E. simpl.
    apply refresh_spec in E as [[-> _]|(raw & d & _ & _ & _ & ->)]; [done|].
    unfold withCache, setParsed. simpl. by destruct (_ <? 0). }
  destruct o as [t1 t2 name a|t1 t2 keys a|t keys a|t]; simpl; [| |apply Hr|done].
  - unfold GetSecret. destruct (String.eqb name ""), (get t1 name (secrets c)); try done.
    destruct (fetchRaw name a) as [a' [v|e]]; [|done]. simpl.
    by destruct (get_set_parsed t2 name v (secrets c)) as [_ ->].
  - unfold GetSecrets. destruct (Nat.eqb (length keys) 0), (String.eqb (secretPath c) ""),
      (getParsed t1 (secretPath c) (secrets c)); done.
Qed.

Lemma runOps_ok docs clock c ops :
  cache_ok docs clock c -> ordered clock ops -> incl (documents ops) docs ->
  exists clock', clock <= clock' /\ cache_ok docs clock' (runOps c ops) /\
    secretPath (runOps c ops) = secretPath c /\ ttl (secrets (runOps c ops)) = ttl (secrets c) /\
    forall o, ordered clock (ops ++ [o])%list -> clock' <= (opTimes o).1.
Proof.
  revert clock c. induction ops as [|o ops IH]; intros clock c Hok Hord Hin.
  - exists clock. split_and!; try done. intros o [H _]. simpl in *. lia.
  - destruct Hord as [Hle Hord]. rewrite documents_cons in Hin. apply incl_app_inv in Hin as [H1 H2].
    destruct (IH (opTimes o).2 (applyOp c o)) as (clock' & Hc & H3 & H4 & H5 & H6); [|done|done|].
    { by eapply applyOp_ok. }
    destruct (applyOp_path c o) as [Hp Ht]. exists clock'. split_and!; [lia|done|..].
    + change (runOps c (o :: ops)) with (runOps (applyOp c o) ops). congruence.
    + change (runOps c (o :: ops)) with (runOps (applyOp c o) ops). congruence.
    + intros o' [_ Ho]. by apply H6.
Qed.
End Histories.

(** (C26) Whatever lookups, polls and evictions came before, the values GetSecrets
    returns are the requested keys of one document the service answered at most
    one time to live before the lookup; with a negative time to live, of the
    document it is answered now. *)
Theorem GetSecrets_fresh decode path d ops t1 t2 keys a m :
  let c := runOps decode {| secretPath := path; secrets := newCache d |} ops in
  (exists t0, ordered t0 (ops ++ [OpGets t1 t2 keys a])%list) ->
  (GetSecrets decode t1 t2 keys c a).2 = Ok m ->
  exists t raw all,
    t1 - Z.max 0 (ttl (newCache d)) <= t <= t2 /\
    In (t, raw) (documents (ops ++ [OpGets t1 t2 keys a])%list) /\
    decode raw = Ok all /\ m = extractKeys all keys.
Proof.
  intros c [t0 Hord] Hres.
  assert (Hc0 : cache_ok decode (documents ops) t0 {| secretPath := path; secrets := newCache d |})
    by (intros _; apply stored_empty).
  assert (Hops : ordered t0 ops /\ t1 <= t2).
  { clear - Hord. revert t0 Hord. induction ops as [|o ops IH]; intros t0; simpl.
    - intros [H _]. split; [done|lia].
    - intros [H1 H2%IH]. tauto. }
  destruct Hops as [Hops Ht12].
  destruct (runOps_ok decode _ _ _ ops Hc0 Hops (incl_refl _)) as (clock & _ & Hok & Hp & Httl & Hlast).
  specialize (Hlast _ Hord). cbn [opTimes fst] in Hlast. fold c in Hok, Hp, Httl.
  assert (Hdocs : documents (ops ++ [OpGets t1 t2 keys a])%list =
    (documents ops ++ documents [OpGets t1 t2 keys a])%list) by apply omap_app.
  rewrite Hdocs. revert Hres. unfold GetSecrets.
  destruct (Nat.eqb (length keys) 0); [done|]. destruct (String.eqb (secretPath c) ""); [done|].
  destruct (getParsed t1 (secretPath c) (secrets c)) as [all|] eqn:E.
  - intros [= <-]. unfold getParsed in E. destruct (ttl (secrets c) <? 0) eqn:Eneg; [done|]. bool_to_prop.
    destruct (lookupFresh_stored _ _ _ _ _ _ _ (Hok ltac:(lia)) E) as (t & Ht & raw & Hin & Hdec).
    exists t, raw, all. rewrite Httl in *. cbn [secrets] in Ht.
    split_and!; [lia|lia| |done|done]. apply in_or_app. by left.
  - destruct (refresh decode t2 keys c a) as [[c' a'] r] eqn:Er. intros Hr. cbn [snd] in Hr. subst r.
    apply refresh_spec in Er as [[_ H]|(raw & all & -> & Hdec & [= ->] & _)]; [done|].
    exists t2, raw, all. split_and!; [lia|lia| |done|done]. apply in_or_app. right. by left.
Qed.

(** ** Watching *)

(** The loop over the answers of successive polls: what [onChange] is called with. *)
Fixpoint watchRun (decode : string -> result document) (panics : document -> bool) (keys : list string)
    (c : Client) (previous : option document) (polls : list (Z * answer)) : list document :=
  match polls with
  | [] => []
  | (t, a) :: polls =>
      let '(c, _, previous, called) := watchTick decode panics t keys c a previous in
      (match called with Some d => [d] | None => [] end ++
       watchRun decode panics keys c previous polls)%list
  end.

(** What a poll finds, if it succeeds. *)
Definition polled (decode : string -> result document) (keys : list string) (p : Z * answer)
  : option document :=
  match p.2 with
  | Ok (Some raw) => match decode raw with Ok d => Some (extractKeys d keys) | Err _ => None end
  | _ => None
  end.
(** The documents that differ from the one before. *)
Fixpoint changes (previous : option document) (ds : list document) : list document :=
  match ds with
  | [] => []
  | d :: ds =>
      (match previous with Some p => if decide (p = d) then [] else [d] | None => [] end ++
       changes (Some d) ds)%list
  end.

Lemma watchTick_spec decode panics t keys c a previous :
  (forall d, panics d = false) ->
  exists c', watchTick decode panics t keys c a previous =
    (c', a, match polled decode keys (t, a) with Some d => Some d | None => previous end,
     match polled decode keys (t, a), previous with
     | Some d, Some p => if secretsChanged p d then Some d else None
     | _, _ => None
     end).
Proof.
  intros Hp. unfold watchTick, pollSecrets, refresh, fetchRaw, GetSecretValue, answers_with, polled.
  destruct a as [[raw|]|e]; simpl; try by eexists.
  unfold parse. destruct (decode raw) as [d|e]; simpl; [|by eexists].
  destruct previous as [p|]; [|by eexists].
  rewrite Hp. destruct (secretsChanged p (extractKeys d keys)); by eexists.
Qed.

(** As long as no secret is the empty string, the watcher calls onChange with
    exactly those successfully polled documents that differ from the successfully
    polled document before; failed polls are skipped, the first one only sets the
    reference. *)
Theorem watch_reports_changes decode panics keys c previous polls :
  (forall d, panics d = false) ->
  (forall p d k, In p polls -> polled decode keys p = Some d -> d !! k <> Some "") ->
  watchRun decode panics keys c previous polls = changes previous (omap (polled decode keys) polls).
Proof.
  intros Hp. revert c previous. induction polls as [|[t a] polls IH]; intros c previous Hne; [done|].
  cbn [watchRun].
  destruct (watchTick_spec decode panics t keys c a previous Hp) as [c' ->]. simpl omap.
  rewrite IH by (intros; eapply Hne; [by right|done]).
  destruct (polled decode keys (t, a)) as [d|] eqn:E; [|by destruct previous].
  cbn [changes]. f_equal. destruct previous as [p|]; [|done].
  assert (Hd : forall k, d !! k <> Some "") by (intros k; eapply Hne; [by left|done]).
  destruct (secretsChanged p d) eqn:Ec; case_decide as Heq; try done.
  - apply (secretsChanged_exact p d Hd) in Heq. congruence.
  - destruct Heq. by apply (secretsChanged_exact p d Hd).
Qed.

(** ** Witnesses *)

(** A document format: one key, one value. *)
Definition demoDecode (s : string) : result document :=
  match Split s "=" with [k; v] => Ok {[ k := v ]} | _ => Err (Errorf "invalid character") end.
Definition demoOps : list op :=
  [OpPoll 0 ["a"] (Ok (Some "a=1")); OpEvict Second; OpGet Minute Minute "x" (Ok None)].
Definition demoPolls : list (Z * answer) :=
  [(0, Ok (Some "a=1")); (1, Err (Errorf "throttled")); (2, Ok (Some "a=1")); (3, Ok (Some "a=2"))].

Lemma GetSecrets_fresh_witness :
  exists t raw all, 2 * Minute - 5 * Minute <= t <= 2 * Minute /\
    In (t, raw) [(0, "a=1"); (2 * Minute, "a=2")] /\ demoDecode raw = Ok all /\
    {[ "a" := "1" ]} = extractKeys all ["a"].
Proof.
  apply (GetSecrets_fresh demoDecode "path" 0 demoOps (2 * Minute) (2 * Minute) ["a"] (Ok (Some "a=2"))).
  - exists 0. simpl. unfold Minute, Second. lia.
  - vm_compute. reflexivity.
Defined.

Lemma watch_reports_changes_witness :
  watchRun demoDecode (fun _ => false) ["a"] {| secretPath := "p"; secrets := newCache 0 |} None demoPolls
  = [ {[ "a" := "2" ]} ].
Proof.
  rewrite (watch_reports_changes demoDecode (fun _ => false) ["a"] _ None demoPolls).
  - vm_compute. reflexivity.
  - reflexivity.
  - intros p d k Hin Hp.
    assert (Hd : d = {[ "a" := "1" ]} \/ d = {[ "a" := "2" ]}).
    { destruct Hin as [<-|[<-|[<-|[<-|[]]]]]; vm_compute in Hp; try discriminate Hp;
        injection Hp as <-; [left|left|right]; reflexivity. }
    destruct (decide (k = "a")) as [->|Hne]; destruct Hd as [->| ->].
    1,2: rewrite lookup_singleton_eq; discriminate.
    all: rewrite lookup_singleton_ne by congruence; discriminate.
Defined.

(** A secret renamed to an empty value goes unnoticed: a missing key reads as the
    empty string and the sizes agree. *)
Lemma renamed_empty_secret_missed :
  secretsChanged {[ "old" := "" ]} {[ "new" := "" ]} = false.
Proof. reflexivity. Qed.
