(* ===== verification/Health.v ===== *)
(** * Health and readiness handlers (src/api/handlers/health)

    Checkers, their cached results, and the readiness answer.  The goroutines of
    one request finish in some order, which is a parameter; each has its own
    cache key, and [singleflight] serializes those that share one.  What a
    dependency answers at a time is the checker's function; JSON encoding of the
    failing list is a parameter. *)

From S2P Require Import Prelude GoStrings Http TTLCache.

Open Scope string_scope.
Open Scope Z_scope.

(** What a checker can see of its context: its deadline and its error. *)
Record hctx := { deadline : option Z; ctxErr : option error }.

Record Checker := { Name : string; CheckFn : hctx -> Z -> option error }.
Definition CheckerFunc (name : string) (fn : hctx -> Z -> option error) : Checker :=
  {| Name := name; CheckFn := fn |}.

Definition defaultCacheTTL : Z := 10 * Second.
Definition defaultCheckTimeout : Z := 3 * Second.
Definition httpCheckTimeout : Z := 2 * Second.

(** ** The checkers of checkers.go *)

(** [context.WithTimeout]: the earlier deadline counts. *)
Definition withTimeout (d t : Z) (ctx : hctx) : hctx :=
  {| deadline := Some (match deadline ctx with Some x => Z.min x (t + d) | None => t + d end);
     ctxErr := ctxErr ctx |}.

(** [DynamoDBChecker], [RedisChecker], [S3Checker]: the call on the client. *)
Definition DynamoDBChecker (name : string) (describeTable : string -> hctx -> Z -> option error)
    (table : string) : Checker := CheckerFunc name (describeTable table).
Definition RedisChecker (name : string) (ping : hctx -> Z -> option error) : Checker :=
  CheckerFunc name ping.
Definition S3Checker (name : string) (headBucket : string -> hctx -> Z -> option error)
    (bucket : string) : Checker := CheckerFunc name (headBucket bucket).
(** [build]: the error of NewRequestWithContext; [send]: the status of the answer. *)
Definition HTTPChecker (name url : string) (build : option error) (send : hctx -> Z -> result Z) : Checker :=
  CheckerFunc name (fun ctx t =>
    match build with
    | Some e => Some (Wrap "failed to build health check request" e)
    | None =>
        match send (withTimeout httpCheckTimeout t ctx) t with
        | Err e => Some (Wrap ("failed to reach " +:+ url) e)
        | Ok status =>
            if (status <? 200) || (300 <=? status)
            then Some (Errorf ("received non-2xx status " +:+ Itoa status +:+ " from " +:+ url)) else None
        end
    end).

(** ** The readiness handler *)

Record failingDep := { Dep : string; ErrorText : error }.
Record readyHandler := { checkers : list Checker; cacheTTL : Z; checkTimeout : Z }.
Abbreviation results := (cache (option error)).

Definition WithCacheTTL (d : Z) (h : readyHandler) : readyHandler :=
  {| checkers := checkers h; cacheTTL := d; checkTimeout := checkTimeout h |}.
Definition WithCheckTimeout (d : Z) (h : readyHandler) : readyHandler :=
  {| checkers := checkers h; cacheTTL := cacheTTL h; checkTimeout := d |}.
Definition NewReadyHandler (cs : list Checker) (opts : list (readyHandler -> readyHandler)) : readyHandler :=
  fold_left (fun h o => o h) opts
    {| checkers := cs; cacheTTL := defaultCacheTTL; checkTimeout := defaultCheckTimeout |}.

Definition cached (t : Z) (name : string) (m : results) : option (option error) := lookupFresh t m name.

(** The context the checker is called with. *)
Definition checkCtx (h : readyHandler) (t : Z) (ctx : hctx) : hctx :=
  match deadline ctx with Some _ => ctx | None => withTimeout (checkTimeout h) t ctx end.

(** [run] at time [t]; the answer arrives at [t']. *)
Definition run (h : readyHandler) (ctx : hctx) (c : Checker) (t t' : Z) (m : results)
  : results * option error :=
  match cached t (Name c) m with
  | Some e => (m, e)
  | None =>
      let checkErr := CheckFn c (checkCtx h t ctx) t in
      (storeFor t' (cacheTTL h) (Name c) checkErr m, checkErr)
  end.

(** The goroutines in the order they finish, with their times. *)
Fixpoint runAll (h : readyHandler) (ctx : hctx) (order : list (Checker * (Z * Z))) (m : results)
  : results * list failingDep :=
  match order with
  | [] => (m, [])
  | (c, (t, t')) :: order =>
      let '(m, e) := run h ctx c t t' m in
      let '(m, failing) := runAll h ctx order m in
      (m, match e with Some e => {| Dep := Name c; ErrorText := e |} :: failing | None => failing end)
  end.

Definition statusOK : string := Eval cbv in
  "{" +:+ String "034" ("status" +:+ String "034" (":" +:+ String "034" ("OK" +:+ String "034" ("}" +:+ String "010" "")))).

Definition HealthHandler (wtr : Writer) : Writer :=
  Write (WriteHeader (setHeader wtr "Content-Type" "application/json") 200) (ChText statusOK).
(** The end of [serveHTTP], when every goroutine has returned. *)
Definition answerReady (encode : list failingDep -> string) (failing : list failingDep) (wtr : Writer) : Writer :=
  let wtr := setHeader wtr "Content-Type" "application/json" in
  match failing with
  | [] => Write (WriteHeader wtr 200) (ChText statusOK)
  | _ => Write (WriteHeader wtr 503) (ChText (encode failing))
  end.
Definition serveHTTP (encode : list failingDep -> string) (h : readyHandler) (ctx : hctx)
    (order : list (Checker * (Z * Z))) (m : results) (wtr : Writer) : results * Writer :=
  let '(m, failing) := runAll h ctx order m in (m, answerReady encode failing wtr).

(** ** What a readiness answer says *)

(** The result [run] reports: the cached one, or a new probe's. *)
Definition verdict (h : readyHandler) (ctx : hctx) (m : results) (c : Checker) (t : Z) : option error :=
  default (CheckFn c (checkCtx h t ctx) t) (cached t (Name c) m).

Lemma run_verdict h ctx c t t' m : (run h ctx c t t' m).2 = verdict h ctx m c t.
Proof. unfold run, verdict. by destruct (cached t (Name c) m). Qed.

(** A run leaves the results under other names alone. *)
Lemma run_other h ctx c t t' m k s :
  k <> Name c -> cached s k (run h ctx c t t' m).1 = cached s k m.
Proof.
  intros Hne. unfold run. destruct (cached t (Name c) m); [done|]. simpl.
  by apply lookupFresh_store_ne.
Qed.

Lemma runAll_failing h ctx order m :
  NoDup (map (fun p => Name p.1) order) ->
  (runAll h ctx order m).2 =
    omap (fun p => (fun e => {| Dep := Name p.1; ErrorText := e |}) <$> verdict h ctx m p.1 p.2.1) order.
Proof.
  revert m. induction order as [|[c [t t']] order IH]; intros m Hnd; [done|].
  apply NoDup_cons in Hnd as [Hnotin Hnd]. cbn [runAll omap list_omap fst snd].
  destruct (run h ctx c t t' m) as [m' e] eqn:E.
  pose proof (run_verdict h ctx c t t' m) as Hv. rewrite E in Hv. simpl in Hv. subst e.
  specialize (IH m' Hnd). destruct (runAll h ctx order m') as [m2 failing]. simpl in IH |- *.
  assert (Hrest : omap (fun p => (fun e => {| Dep := Name p.1; ErrorText := e |}) <$>
      verdict h ctx m' p.1 p.2.1) order =
    omap (fun p => (fun e => {| Dep := Name p.1; ErrorText := e |}) <$> verdict h ctx m p.1 p.2.1) order).
  { clear -E Hnotin. assert (Hm : m' = (run h ctx c t t' m).1) by by rewrite E. clear E. subst m'.
    induction order as [|[c' [s s']] order IH]; [done|]. cbn [omap list_omap fst snd].
    rewrite not_elem_of_cons in Hnotin. destruct Hnotin as [Hne Hnotin].
    unfold verdict at 1. rewrite run_other by (simpl in *; congruence). fold (verdict h ctx m c' s).
    by rewrite IH. }
  rewrite IH, Hrest. by destruct (verdict h ctx m c t).
Qed.

Lemma omap_nil {A B} (f : A -> option B) l : omap f l = [] <-> forall x, In x l -> f x = None.
Proof.
  induction l as [|x l IH]; simpl; [done|]. destruct (f x) eqn:E; split; intros H.
  - done.
  - specialize (H x (or_introl eq_refl)). congruence.
  - intros y [<-|Hy]; [done|]. by apply IH.
  - apply IH. auto.
Qed.

Lemma answerReady_status encode failing wtr :
  WStatus wtr = None ->
  WStatus (answerReady encode failing wtr) = Some (match failing with [] => 200 | _ => 503 end).
Proof.
  intros H. unfold answerReady. destruct failing; rewrite Write_status; rewrite WriteHeader_fresh; done.
Qed.

(** The invariant of the results: [P name result t] held when they were stored. *)
Lemma run_stored h ctx c t t' m P clock :
  stored P (cacheTTL h) clock m -> clock <= t' -> P (Name c) (CheckFn c (checkCtx h t ctx) t) t' ->
  stored P (cacheTTL h) t' (run h ctx c t t' m).1.
Proof.
  intros Hm Hle HP. unfold run. destruct (cached t (Name c) m); simpl.
  - by eapply stored_mono.
  - by eapply stored_store.
Qed.

(** When the checkers have different names, the readiness handler answers 200
    exactly if no checker's result, cached or probed, is an error, and 503 with the
    failing dependencies otherwise, whatever the order its goroutines finish in; a
    cached result was stored at most one time to live before. *)
Theorem ready_answer encode h ctx order m wtr P clock :
  NoDup (map (fun p => Name p.1) order) -> WStatus wtr = None ->
  stored P (cacheTTL h) clock m ->
  WStatus (serveHTTP encode h ctx order m wtr).2 =
    Some (if forallb (fun p => match verdict h ctx m p.1 p.2.1 with None => true | _ => false end) order
          then 200 else 503) /\
  forall c t, verdict h ctx m c t = CheckFn c (checkCtx h t ctx) t \/
    exists t0, t - cacheTTL h <= t0 <= clock /\ P (Name c) (verdict h ctx m c t) t0.
Proof.
  intros Hnd Hw Hst. split.
  - unfold serveHTTP. pose proof (runAll_failing h ctx order m Hnd) as Hf.
    destruct (runAll h ctx order m) as [m' failing]. simpl in *. subst failing.
    rewrite answerReady_status by done.
    set (f := fun p : Checker * (Z * Z) => _).
    destruct (forallb _ order) eqn:E.
    + rewrite (proj2 (omap_nil f order)); [done|]. intros p Hp. unfold f.
      apply (proj1 (forallb_forall _ _) E) in Hp. by destruct (verdict h ctx m p.1 p.2.1).
    + destruct (omap f order) eqn:Ef; [|done]. exfalso. apply not_true_iff_false in E. apply E.
      apply forallb_forall. intros p Hp. pose proof (proj1 (omap_nil f order) Ef p Hp) as H.
      unfold f in H. by destruct (verdict h ctx m p.1 p.2.1).
  - intros c t. unfold verdict. destruct (cached t (Name c) m) as [e|] eqn:E; [right|by left].
    simpl. exact (lookupFresh_stored _ _ _ _ _ _ _ Hst E).
Qed.

(** A checker that honours its context: once the context is done it reports the
    context's error. *)
Definition obeys (c : Checker) : Prop :=
  forall ctx t e, ctxErr ctx = Some e -> CheckFn c ctx t = Some e.

Lemma checkCtx_err h t ctx : ctxErr (checkCtx h t ctx) = ctxErr ctx.
Proof. unfold checkCtx. by destruct (deadline ctx). Qed.

(** A readiness request that is cancelled while a dependency is probed stores
    its own cancellation as the dependency's result: for the whole cache time to
    live every other request gets that error, however healthy the dependency is,
    and is answered 503. *)
Theorem cancelled_probe_poisons encode h ctx c t t' m e :
  obeys c -> ctxErr ctx = Some e -> cached t (Name c) m = None ->
  forall ctx2 s s' wtr, s <= t' + cacheTTL h -> WStatus wtr = None ->
  let m' := (run h ctx c t t' m).1 in
  verdict h ctx2 m' c s = Some e /\
  WStatus (serveHTTP encode h ctx2 [(c, (s, s'))] m' wtr).2 = Some 503.
Proof.
  intros Hob He Hc ctx2 s s' wtr Hs Hw m'.
  assert (Hm : cached s (Name c) m' = Some (Some e)).
  { unfold m', run. rewrite Hc. simpl. rewrite (Hob _ _ e) by by rewrite checkCtx_err.
    by apply lookupFresh_store. }
  split; [unfold verdict; by rewrite Hm|].
  unfold serveHTTP. cbn [runAll]. unfold run at 1. rewrite Hm. by apply answerReady_status.
Qed.

(** ** Witnesses *)

Definition up (name : string) : Checker :=
  CheckerFunc name (fun ctx _ => ctxErr ctx).
Definition down (name : string) : Checker :=
  CheckerFunc name (fun _ _ => Some (Errorf "connection refused")).
Definition noResults : results := ∅.
Definition canceled : hctx := {| deadline := None; ctxErr := Some (Sentinel "context canceled") |}.
Definition live : hctx := {| deadline := None; ctxErr := None |}.

Lemma ready_answer_witness :
  WStatus (serveHTTP (fun _ => "failing") (NewReadyHandler [up "a"; down "b"] []) live
    [(down "b", (0, 1)); (up "a", (0, 2))] noResults newWriter).2 = Some 503.
Proof.
  refine (proj1 (ready_answer (fun _ => "failing") (NewReadyHandler [up "a"; down "b"] []) live
    [(down "b", (0, 1)); (up "a", (0, 2))] noResults newWriter (fun _ _ _ => True) 0 _ _ _)).
  - simpl. repeat constructor; set_solver.
  - reflexivity.
  - apply stored_empty.
Defined.

Lemma cancelled_probe_poisons_witness :
  verdict (NewReadyHandler [up "redis"] []) live
    (run (NewReadyHandler [up "redis"] []) canceled (up "redis") 0 Second noResults).1 (up "redis") (9 * Second)
  = Some (Sentinel "context canceled").
Proof.
  apply (cancelled_probe_poisons (fun _ => "failing") (NewReadyHandler [up "redis"] []) canceled (up "redis")
    0 Second noResults (Sentinel "context canceled") ltac:(intros ctx t e H; exact H) eq_refl eq_refl
    live (9 * Second) (9 * Second) newWriter); [vm_compute; discriminate|reflexivity].
Defined.

(** Two checkers under one name share one result: the second is never asked. *)
Lemma shared_name_hides_failure :
  WStatus (serveHTTP (fun _ => "failing") (NewReadyHandler [up "db"; down "db"] []) live
    [(up "db", (0, 1)); (down "db", (1, 2))] noResults newWriter).2 = Some 200.
Proof. reflexivity. Qed.
