(* ===== verification/Banned.v ===== *)
(** * The ban list (src/security/bannedcustomers)

    Lookup of a customer's ban record with an optional cache, against the two
    methods of dynamodb.API it calls; the DynamoDB client provides them.  The
    expiry test and the store into the cache read one time. *)

From S2P Require Import Prelude GoStrings Proc Dynamo TTLCache.

Open Scope string_scope.
Open Scope Z_scope.

Record record := { Email : string; ExpiresAt : Z }.

(** ** The interface to the table *)

Class RecordStore (K W : Type) := {
  (** [BuildKey(name, value, "", nil)] *)
  BuildKeyFor : string -> string -> result K;
  (** [GetItemAs(table, key, false, nil, &rec)] *)
  GetRecord : string -> K -> W -> W * result record;
}.

(** The DynamoDB client as a record store. *)
Definition dynamoStore {AV W} `{dynamoDBAPI AV W, !Await W, !SDKErrors}
    (marshal : string -> result AV) (unmarshalMap : gmap string AV -> result record)
    (unmarshalList : list (gmap string AV) -> result (list record)) : RecordStore (gmap string AV) W :=
  {| BuildKeyFor := fun name v => BuildKey marshal name v "" None;
     GetRecord := fun table key w =>
       match GetItemAs unmarshalMap unmarshalList 1 [] table key false [] w with
       | Some (w, Ok (inl rec)) => (w, Ok rec)
       | Some (w, Ok (inr _)) => (w, Ok {| Email := ""; ExpiresAt := 0 |})
       | Some (w, Err e) => (w, Err e)
       | None => (w, Err ErrNotFound)
       end |}.

(** An absent item is reported as [ErrNotFound], unwrapped. *)
Lemma dynamoStore_not_found {AV W} `{dynamoDBAPI AV W, !Await W, !SDKErrors} marshal um ul table key w w' :
  dbGetItem table key w = (w', Ok None) ->
  @GetRecord _ _ (dynamoStore (W := W) (AV := AV) marshal um ul) table key w = (w', Err ErrNotFound).
Proof. intros E. simpl. by rewrite E. Qed.

(** ** The client *)

Record Config := { TableName : string; hasDB : bool; FailOpen : option bool; CacheTTL : Z }.
(** [cacheTTL]: none when the cache is switched off. *)
Record Client := { table : string; failOpen : bool; cacheTTL : option Z }.

Definition New (cfg : Config) : result Client :=
  if String.eqb (TableName cfg) "" then Err (Errorf "missing table name")
  else if negb (hasDB cfg) then Err (Errorf "missing dynamodb client")
  else Ok {| table := TableName cfg; failOpen := default true (FailOpen cfg);
             cacheTTL := if 0 <? CacheTTL cfg then Some (CacheTTL cfg) else None |}.

(** [banCache.get] deletes a stale entry. *)
Definition banGet (t : Z) (key : string) (m : cache bool) : cache bool * option bool :=
  match m !! key with
  | None => (m, None)
  | Some e => if timeAfter t (expiresAt e) then (delete key m, None) else (m, Some (value e))
  end.
Definition cacheSet (c : Client) (t : Z) (key : string) (b : bool) (m : cache bool) : cache bool :=
  match cacheTTL c with Some ttl => storeFor t ttl key b m | None => m end.

Definition normalizeEmail (email : string) : string := ToLower (TrimSpace email).
(** The record bans at time [t]. *)
Definition bans (rec : record) (t : Z) : bool :=
  negb ((0 <? ExpiresAt rec) && (ExpiresAt rec <=? unixSec t)).

Definition IsBanned {K W} `{RecordStore K W} (c : Client) (t1 t2 : Z) (email : string) (m : cache bool) (w : W)
  : cache bool * W * result bool :=
  let email := normalizeEmail email in
  if String.eqb email "" then (m, w, Err (Errorf "requires a non-empty email")) else
  let '(m, hit) := match cacheTTL c with Some _ => banGet t1 email m | None => (m, None) end in
  match hit with
  | Some b => (m, w, Ok b)
  | None =>
      match BuildKeyFor "email" email with
      | Err e =>
          (m, w, if failOpen c then Ok false
                 else Err (Wrap "failed to build banned-customer lookup key" e))
      | Ok key =>
          let '(w, r) := GetRecord (table c) key w in
          match r with
          | Err e =>
              if errors_is e ErrNotFound then (cacheSet c t2 email false m, w, Ok false)
              else (m, w, if failOpen c then Ok false else Err (Wrap "banned-customer lookup failed" e))
          | Ok rec =>
              if (0 <? ExpiresAt rec) && (ExpiresAt rec <=? unixSec t2)
              then (cacheSet c t2 email false m, w, Ok false)
              else (cacheSet c t2 email true m, w, Ok true)
          end
      end
  end.

(** ** What an answer rests on *)

(** What the table's answer means at time [t]; nothing if the lookup failed. *)
Definition verdict (r : result record) (t : Z) : option bool :=
  match r with
  | Ok rec => Some (bans rec t)
  | Err e => if errors_is e ErrNotFound then Some false else None
  end.

Section Soundness.
Context {K W : Type} `{RecordStore K W}.
(** The answers the table gave: for an address, at a time. *)
Context (served : string -> result record -> Z -> Prop).

Definition rests_on (email : string) (b : bool) (t : Z) : Prop :=
  exists r, served email r t /\ verdict r t = Some b.

(** The answer to this call, if it gets as far as asking. *)
Definition tableAnswer (c : Client) (email : string) (w : W) : option (result record) :=
  match BuildKeyFor "email" email with
  | Ok key => Some (GetRecord (table c) key w).2
  | Err _ => None
  end.

Lemma banGet_spec t key m m' hit :
  banGet t key m = (m', hit) -> hit = lookupFresh t m key /\ (m' = m \/ m' = delete key m).
Proof.
  unfold banGet, lookupFresh. destruct (m !! key) as [e|]; simpl; [|intros [= <- <-]; auto].
  destruct (timeAfter t (expiresAt e)); intros [= <- <-]; auto.
Qed.

Lemma cacheSet_stored c t key b m ttl clock :
  cacheTTL c = Some ttl -> stored rests_on ttl clock m -> clock <= t -> rests_on key b t ->
  stored rests_on ttl t (cacheSet c t key b m).
Proof. intros Ht. unfold cacheSet. rewrite Ht. apply stored_store. Qed.

(** IsBanned answers a customer's ban as some table answer of at most the
    cache's time to live before says, with the record's expiry applied at that
    time; the only other answer is "not banned" of a fail-open client whose own
    lookup failed.  The cache keeps the property. *)
Theorem IsBanned_sound c ttl clock t1 t2 email m w m' w' b :
  cacheTTL c = Some ttl -> 0 <= ttl -> stored rests_on ttl clock m -> clock <= t1 <= t2 ->
  (forall r, tableAnswer c (normalizeEmail email) w = Some r -> served (normalizeEmail email) r t2) ->
  IsBanned c t1 t2 email m w = (m', w', Ok b) ->
  stored rests_on ttl t2 m' /\
  ((exists t, t1 - ttl <= t <= t2 /\ rests_on (normalizeEmail email) b t) \/
   (b = false /\ failOpen c = true /\
    match tableAnswer c (normalizeEmail email) w with Some r => verdict r t2 = None | None => True end)).
Proof.
  intros Httl Hpos Hm Ht Hsrv. unfold IsBanned. rewrite Httl. set (e := normalizeEmail email) in *.
  destruct (String.eqb e ""); [done|]. destruct (banGet t1 e m) as [m1 hit] eqn:Eg.
  apply banGet_spec in Eg as [-> Hm1].
  assert (Hm1' : stored rests_on ttl t2 m1).
  { eapply stored_mono; [done| |]; [|destruct Hm1 as [->| ->]; [exact Hm|apply stored_delete, Hm]]. lia. }
  assert (Hset : forall b0, rests_on e b0 t2 -> stored rests_on ttl t2 (cacheSet c t2 e b0 m1)).
  { intros b0 Hb. eapply cacheSet_stored; eauto. lia. }
  destruct (lookupFresh t1 m e) as [b0|] eqn:El.
  { intros [= <- <- <-]. split; [done|]. left.
    destruct (lookupFresh_stored _ _ _ _ _ _ _ Hm El) as (t & Hr & HP). exists t. split; [lia|done]. }
  unfold tableAnswer in *. destruct (BuildKeyFor "email" e) as [key|err]; simpl.
  2: { destruct (failOpen c) eqn:Ef; [|done]. intros [= <- <- <-]. auto. }
  destruct (GetRecord (table c) key w) as [w1 r]. cbn [snd] in *. specialize (Hsrv r eq_refl).
  assert (Hnow : forall b0, verdict r t2 = Some b0 -> rests_on e b0 t2) by (intros b0 Hv; by exists r).
  destruct r as [rec|err]; simpl in Hnow |- *.
  - unfold bans in Hnow. destruct ((0 <? ExpiresAt rec) && (ExpiresAt rec <=? unixSec t2));
      intros [= <- <- <-]; (split; [by apply Hset, Hnow|left; exists t2; split; [lia|by apply Hnow]]).
  - destruct (errors_is err ErrNotFound) eqn:En.
    + intros [= <- <- <-]. split; [by apply Hset, Hnow|left; exists t2; split; [lia|by apply Hnow]].
    + destruct (failOpen c) eqn:Ef; [|done]. intros [= <- <- <-]. auto.
Qed.
End Soundness.

(** ** A concrete table *)

#[export] Instance demoTable : RecordStore string (gmap string record) := {
  BuildKeyFor := fun _ v => Ok v;
  GetRecord := fun _ k w => (w, match w !! k with Some r => Ok r | None => Err ErrNotFound end);
}.
Definition demoClient : Client := {| table := "bans"; failOpen := true; cacheTTL := Some Minute |}.
Definition demoRecords : gmap string record := {[ "eve@example.com" := {| Email := "eve@example.com"; ExpiresAt := 100 |} ]}.
Definition noBans : cache bool := ∅.
(** Asked at second 60, and again from the cache. *)
Definition demoCache : cache bool :=
  (IsBanned demoClient (60 * Second) (60 * Second) " Eve@example.com" noBans demoRecords).1.1.

Lemma IsBanned_sound_witness :
  exists t, 110 * Second - Minute <= t <= 110 * Second /\
    rests_on (fun e r t => r = match demoRecords !! e with Some r => Ok r | None => Err ErrNotFound end)
      "eve@example.com" true t.
Proof.
  set (served := fun e r (t : Z) => r = match demoRecords !! e with Some r => Ok r | None => Err ErrNotFound end).
  destruct (proj2 (IsBanned_sound served demoClient Minute (60 * Second) (110 * Second) (110 * Second)
    "eve@example.com" demoCache demoRecords demoCache demoRecords true eq_refl
    ltac:(vm_compute; discriminate)
    ltac:(apply (map_Forall_singleton _ "eve@example.com" (Build_entry true (120 * Second)));
          split; [exists (Ok {| Email := "eve@example.com"; ExpiresAt := 100 |}); split; reflexivity|reflexivity])
    ltac:(vm_compute; split; discriminate)
    ltac:(intros r [= <-]; reflexivity)
    ltac:(vm_compute; reflexivity))) as [H|[H _]].
  - exact H.
  - discriminate H.
Defined.
