(* ===== verification/Sanitize.v ===== *)
(** * Request sanitization and normalization (src/api/sanitization,
    src/api/normalization)

    The removal patterns are alternations of literals, so a replacement is a
    scan that tries the literals in order at each position.  JSON decoding and
    encoding are parameters; a JSON object is the list of its members in the
    order the code ranges over them, and the order in which it ranges over a
    query map is a parameter. *)

From S2P Require Import Prelude GoStrings Http Net.

Open Scope string_scope.
Open Scope Z_scope.

(** ** Removing literals *)

(** Under [(?i)] the letters s and k also match U+017F and U+212A. *)
Definition specialFold (c : ascii) : option string :=
  if Ascii.eqb c "s" then Some (b2 197 191)
  else if Ascii.eqb c "k" then Some (b3 226 132 170) else None.
(** What is left of [s] after the literal [p], if [s] starts with it; [p] is in
    lower case and letters match both cases. *)
Fixpoint cutFold (p s : string) : option string :=
  match p with
  | "" => Some s
  | String c p' =>
      match s with
      | "" => None
      | String d s' =>
          if Ascii.eqb (lowerByte d) c then cutFold p' s' else
          match specialFold c with
          | Some u => match CutPrefix s u with Some s' => cutFold p' s' | None => None end
          | None => None
          end
      end
  end.
(** Leftmost first: the first literal in the list that matches here. *)
Fixpoint cutFirst (ps : list string) (s : string) : option string :=
  match ps with
  | [] => None
  | p :: ps => match cutFold p s with Some r => Some r | None => cutFirst ps s end
  end.
Fixpoint remove_fuel (fuel : nat) (ps : list string) (s : string) : string :=
  match fuel with
  | O => s
  | S fuel =>
      match s with
      | "" => ""
      | String c s' =>
          match cutFirst ps s with
          | Some r => remove_fuel fuel ps r
          | None => String c (remove_fuel fuel ps s')
          end
      end
  end.
(** [ReplaceAllString(s, "")]; the literals are not empty, so every round
    consumes a byte. *)
Definition removeAll (ps : list string) (s : string) : string := remove_fuel (String.length s) ps s.

Definition SqlInjectionPattern : list string :=
  ["union"; "select"; "insert"; "update"; "delete"; "drop"; "create"; "alter"; "exec"; "execute";
   "script"; "javascript"; "onerror"; "onload"; "<script"; "</script"].
Definition XssPattern : list string :=
  ["<script"; "</script"; "javascript:"; "onerror="; "onload="; "<iframe"; "</iframe"; "<object";
   "</object"; "<embed"; "</embed"].
Definition PathTraversalPattern : list string := ["../"; "..\"].
Definition NullBytePattern : list string := [String "000" ""].

(** ** Sanitizing strings *)

Definition quot : ascii := "034"%char.
(** [html.EscapeString]. *)
Definition escapeByte (c : ascii) : string :=
  if Ascii.eqb c "&" then "&amp;" else if Ascii.eqb c "'" then "&#39;"
  else if Ascii.eqb c "<" then "&lt;" else if Ascii.eqb c ">" then "&gt;"
  else if Ascii.eqb c quot then "&#34;" else String c "".
Fixpoint EscapeString (s : string) : string :=
  match s with "" => "" | String c s => escapeByte c +:+ EscapeString s end.

Definition sanitizeString (str : string) : string :=
  let str := removeAll NullBytePattern str in
  let str := removeAll PathTraversalPattern str in
  let str := EscapeString str in
  let str := TrimSpace str in
  let str := removeAll SqlInjectionPattern str in
  removeAll XssPattern str.

(** ** Sanitizing JSON *)

Inductive json : Type :=
  | JOther (raw : string)                  (* null, booleans, numbers *)
  | JStr (s : string)
  | JArr (l : list json)
  | JObj (members : list (string * json)).

(** [m[k] = v] on a map kept as a list without duplicates. *)
Fixpoint jset (k : string) (v : json) (m : list (string * json)) : list (string * json) :=
  match m with
  | [] => [(k, v)]
  | (k', v') :: m => if String.eqb k' k then (k, v) :: m else (k', v') :: jset k v m
  end.
Fixpoint sanitizeJSON (data : json) : json :=
  match data with
  | JStr s => JStr (sanitizeString s)
  | JArr l => JArr (map sanitizeJSON l)
  | JObj members =>
      JObj (fold_left (fun m kv => jset kv.1 kv.2 m)
              (map (fun kv => (sanitizeString kv.1, sanitizeJSON kv.2)) members) [])
  | JOther _ => data
  end.

(** ** Sanitizing requests *)

Definition sanitizeHeaders (req : Request) : Request :=
  withHeader req (fmap (map sanitizeString) (Header req)).

(** The wildcard name of a pattern segment such as {sku} or {path...}. *)
Definition wildcard (seg : string) : option string :=
  match seg with
  | String "{" rest =>
      match srev rest with
      | String "}" r => if String.eqb r "" then None else Some (TrimSuffix (srev r) "...")
      | _ => None
      end
  | _ => None
  end.
Definition withPathValues (r : Request) (m : gmap string string) : Request :=
  {| Method := Method r; ReqURL := ReqURL r; Header := Header r; RemoteAddr := RemoteAddr r;
     ContentLength := ContentLength r; ReqBody := ReqBody r; RequestURI := RequestURI r;
     ReqPattern := ReqPattern r; PathValues := m; Ctx := Ctx r |}.
Definition sanitizePathParams (req : Request) : Request :=
  withPathValues req (fold_left (fun m seg =>
    match wildcard seg with
    | Some name =>
        match m !! name with
        | Some v => if String.eqb v "" then m else <[name := sanitizeString v]> m
        | None => m
        end
    | None => m
    end) (Split (ReqPattern req) "/") (PathValues req)).

(** How the code ranges over a map of query values. *)
Definition iteration : Type := values -> list (string * list string).

Definition rewriteQuery (range : iteration) (fk fv : string -> string) (q : string) : values :=
  fold_left (fun m kvs => fold_left (fun m v => Add m (fk kvs.1) (fv v)) kvs.2 m)
    (range (Query q)) ∅.
Definition sanitizeQueryParams (range : iteration) (req : Request) (u : URL) : Request :=
  withURL req (Some {| Path := Path u;
    RawQuery := Encode (rewriteQuery range sanitizeString sanitizeString (RawQuery u)) |}).

(** The sanitized request, or the detail of the error that is sent. *)
Definition sanitizeBody (decode : string -> result json) (marshal : json -> string) (req : Request)
    (b : Body) : string + Request :=
  match BodyErr b with
  | Some _ => inl "failed to read request body"
  | None =>
      match decode (BodyBytes b) with
      | Err _ => inl "failed to parse JSON body"
      | Ok data =>
          let out := marshal (sanitizeJSON data) in
          inr (withBody req (Some {| BodyBytes := out; BodyErr := None |}) (len out))
      end
  end.

Definition SanitizationMiddleware {W} `{Clock W} (range : iteration) (decode : string -> result json)
    (marshal : json -> string) : middleware W := fun next req wtr w =>
  let req := sanitizePathParams (sanitizeHeaders req) in
  match ReqURL req with
  | None => (w, wtr, Panicked "invalid memory address or nil pointer dereference")
  | Some u =>
      let req := sanitizeQueryParams range req u in
      match ReqBody req with
      | Some b =>
          if String.eqb (hget (Header req) "Content-Type") "application/json" then
            match sanitizeBody decode marshal req b with
            | inl detail => reject (BadRequest Global) [WithDetail detail] req wtr w
            | inr req => next req wtr w
            end
          else next req wtr w
      | None => next req wtr w
      end
  end.

(** ** Normalization *)

(** [if v := h.Get(k); v != "" { h.Set(k, f(v)) }] *)
Definition mapHeader (k : string) (f : string -> string) (h : headers) : headers :=
  let v := hget h k in if String.eqb v "" then h else hset h k (f v).
Definition normalizeHeaders (req : Request) : Request :=
  let h := fmap (map TrimSpace) (Header req) in
  let h := mapHeader "Content-Type" (fun v => ToLower (TrimSpace v)) h in
  let h := mapHeader "Accept" (fun v => ToLower (TrimSpace v)) h in
  withHeader req (mapHeader "User-Agent" TrimSpace h).

Definition normalizedPath (path : string) : string :=
  let path := if String.eqb path "/" then path else TrimRight path "/" in
  ReplaceAll path "//" "/".
Definition withURI (r : Request) (uri : string) : Request :=
  {| Method := Method r; ReqURL := ReqURL r; Header := Header r; RemoteAddr := RemoteAddr r;
     ContentLength := ContentLength r; ReqBody := ReqBody r; RequestURI := uri;
     ReqPattern := ReqPattern r; PathValues := PathValues r; Ctx := Ctx r |}.
Definition normalizeURL (req : Request) : Request :=
  match ReqURL req with
  | None => req
  | Some u =>
      let path := normalizedPath (Path u) in
      withURI (withURL req (Some {| Path := path; RawQuery := RawQuery u |}))
        (if String.eqb (RawQuery u) "" then path else path +:+ "?" +:+ RawQuery u)
  end.

Definition normalizedValue (value : string) : string :=
  let v := TrimSpace value in
  if existsb (String.eqb v) ["True"; "TRUE"] then "true"
  else if existsb (String.eqb v) ["False"; "FALSE"] then "false"
  else if existsb (String.eqb v) ["Sort"; "SORT"] then "sort"
  else if existsb (String.eqb v) ["Asc"; "ASC"] then "asc"
  else if existsb (String.eqb v) ["Desc"; "DESC"] then "desc" else v.
(** Some key or value differs from its normal form. *)
Definition queryChanged (m : values) : bool :=
  existsb (fun kvs => negb (String.eqb (TrimSpace kvs.1) kvs.1) ||
                      existsb (fun v => negb (String.eqb (normalizedValue v) v)) kvs.2) (map_to_list m).
Definition normalizeQueryParams (range : iteration) (req : Request) : Request :=
  match ReqURL req with
  | None => req
  | Some u =>
      if String.eqb (RawQuery u) "" || negb (queryChanged (Query (RawQuery u))) then req
      else withURL req (Some {| Path := Path u;
             RawQuery := Encode (rewriteQuery range TrimSpace normalizedValue (RawQuery u)) |})
  end.
Definition NormalizationMiddleware {W} (range : iteration) : middleware W := fun next req wtr w =>
  let req := normalizeQueryParams range (normalizeURL (normalizeHeaders req)) in
  next (withMethod req (ToUpper (Method req))) wtr w.

(** ** What sanitizing achieves *)

Definition markup (c : ascii) : bool := existsb (Ascii.eqb c) ["<"; ">"; "'"; quot]%char.
Definition clean (s : string) : bool := sforall (fun c => negb (markup c)) s.

Lemma clean_app a b : clean (a +:+ b) = clean a && clean b.
Proof.
  induction a as [|c a IH]; [done|]. rewrite sapp_cons. unfold clean in *. simpl.
  by rewrite IH, andb_assoc.
Qed.

Lemma clean_EscapeString s : clean (EscapeString s) = true.
Proof.
  induction s as [|c s IH]; [done|]. simpl. rewrite clean_app, IH, andb_true_r.
  unfold escapeByte.
  destruct (Ascii.eqb c "&") eqn:E1; [done|]. destruct (Ascii.eqb c "'") eqn:E2; [done|].
  destruct (Ascii.eqb c "<") eqn:E3; [done|]. destruct (Ascii.eqb c ">") eqn:E4; [done|].
  destruct (Ascii.eqb c quot) eqn:E5; [done|].
  unfold clean, markup. simpl. by rewrite E2, E3, E4, E5.
Qed.

Lemma cutFold_suffix p s r : cutFold p s = Some r -> exists q, s = q +:+ r.
Proof.
  revert s. induction p as [|c p IH]; intros s; simpl.
  - intros [= <-]. by exists "".
  - destruct s as [|d s]; [done|]. destruct (Ascii.eqb (lowerByte d) c).
    + intros (q & ->)%IH. by exists (String d q).
    + destruct (specialFold c) as [u|]; [|done].
      destruct (CutPrefix (String d s) u) as [s'|] eqn:E; [|done].
      apply CutPrefix_Some in E. intros (q & ->)%IH. exists (u +:+ q). by rewrite E, sapp_assoc.
Qed.

Lemma cutFirst_suffix ps s r : cutFirst ps s = Some r -> exists q, s = q +:+ r.
Proof.
  induction ps as [|p ps IH]; simpl; [done|]. destruct (cutFold p s) as [r'|] eqn:E; [|done].
  intros [= ->]. by eapply cutFold_suffix.
Qed.

Lemma clean_suffix q r : clean (q +:+ r) = true -> clean r = true.
Proof. rewrite clean_app. intros H. by bool_to_prop. Qed.

(** Removing text does not introduce markup. *)
Lemma clean_removeAll ps s : clean s = true -> clean (removeAll ps s) = true.
Proof.
  unfold removeAll. generalize (String.length s) as n. intros n. revert s.
  induction n as [|n IH]; intros s Hs; simpl; [done|]. destruct s as [|c s]; [done|].
  destruct (cutFirst ps (String c s)) as [r|] eqn:E.
  - apply cutFirst_suffix in E as [q E]. apply IH. rewrite E in Hs. by apply clean_suffix in Hs.
  - unfold clean in *. simpl in *. bool_to_prop. rewrite IH by done. by rewrite H, andb_true_r.
Qed.

Lemma clean_TrimSpace s : clean s = true -> clean (TrimSpace s) = true.
Proof.
  destruct (TrimSpace_infix s) as (pre & post & E). rewrite E at 1. rewrite !clean_app.
  rewrite !andb_true_iff. tauto.
Qed.

Lemma clean_sanitizeString s : clean (sanitizeString s) = true.
Proof. unfold sanitizeString. by apply clean_removeAll, clean_removeAll, clean_TrimSpace, clean_EscapeString. Qed.

(** Every string and every key in a document is clean. *)
Fixpoint cleanJSON (j : json) : bool :=
  match j with
  | JOther _ => true
  | JStr s => clean s
  | JArr l => forallb cleanJSON l
  | JObj m => forallb (fun kv => clean kv.1 && cleanJSON kv.2) m
  end.

Section JsonInd.
Context (P : json -> Prop).
Hypothesis HOther : forall raw, P (JOther raw).
Hypothesis HStr : forall s, P (JStr s).
Hypothesis HArr : forall l, Forall P l -> P (JArr l).
Hypothesis HObj : forall m, Forall (fun kv => P kv.2) m -> P (JObj m).

Fixpoint json_ind' (j : json) : P j :=
  match j with
  | JOther raw => HOther raw
  | JStr s => HStr s
  | JArr l => HArr l ((fix go l : Forall P l :=
      match l with [] => Forall_nil_2 P | x :: l => Forall_cons_2 P x l (json_ind' x) (go l) end) l)
  | JObj m => HObj m ((fix go m : Forall (fun kv => P kv.2) m :=
      match m with
      | [] => Forall_nil_2 (fun kv => P kv.2)
      | kv :: m => Forall_cons_2 (fun kv => P kv.2) kv m (json_ind' kv.2) (go m)
      end) m)
  end.
End JsonInd.

Lemma clean_jset k v m :
  clean k = true -> cleanJSON v = true -> forallb (fun kv => clean kv.1 && cleanJSON kv.2) m = true ->
  forallb (fun kv => clean kv.1 && cleanJSON kv.2) (jset k v m) = true.
Proof.
  intros Hk Hv. induction m as [|[k' v'] m IH]; simpl; [by rewrite Hk, Hv|].
  rewrite !andb_true_iff. intros [[H1 H2] H3].
  destruct (String.eqb k' k); simpl; rewrite !andb_true_iff; auto.
Qed.

Lemma clean_sanitizeJSON j : cleanJSON (sanitizeJSON j) = true.
Proof.
  induction j as [raw|s|l IH|m IH] using json_ind'; [done|apply clean_sanitizeString| |].
  - simpl. induction IH as [|x l Hx _ IH]; [done|]. simpl. by rewrite Hx.
  - simpl. assert (Hg : forall acc, forallb (fun kv => clean kv.1 && cleanJSON kv.2) acc = true ->
      forallb (fun kv => clean kv.1 && cleanJSON kv.2) (fold_left (fun m kv => jset kv.1 kv.2 m)
        (map (fun kv => (sanitizeString kv.1, sanitizeJSON kv.2)) m) acc) = true); [|by apply Hg].
    induction IH as [|[k v] m Hv _ IH]; intros acc Ha; [done|]. simpl. apply IH.
    apply clean_jset; [apply clean_sanitizeString|done|done].
Qed.

(** *** Requests *)

Definition clean_values (m : values) : Prop :=
  map_Forall (fun k vs => clean k = true /\ Forall (fun v => clean v = true) vs) m.

Lemma clean_Add m k v : clean_values m -> clean k = true -> clean v = true -> clean_values (Add m k v).
Proof.
  intros Hm Hk Hv. apply map_Forall_insert_2; [|done]. split; [done|]. apply Forall_app. split.
  - destruct (m !! k) as [vs|] eqn:E; [by apply Hm in E as [_ ?]|constructor].
  - by repeat constructor.
Qed.

Lemma clean_rewriteQuery range q :
  clean_values (rewriteQuery range sanitizeString sanitizeString q).
Proof.
  unfold rewriteQuery. generalize (range (Query q)) as l.
  assert (H0 : clean_values ∅) by apply map_Forall_empty. revert H0. generalize (∅ : values) as m.
  intros m Hm l. revert m Hm. induction l as [|[k vs] l IH]; intros m Hm; simpl; [done|].
  apply IH. clear IH. revert m Hm. induction vs as [|v vs IH]; intros m Hm; simpl; [done|].
  apply IH, clean_Add; [done|apply clean_sanitizeString..].
Qed.

Lemma clean_headers req k vs :
  Header (sanitizeHeaders req) !! k = Some vs -> Forall (fun v => clean v = true) vs.
Proof.
  change (Header (sanitizeHeaders req)) with (map sanitizeString <$> Header req).
  rewrite lookup_fmap. intros (vs' & _ & ->)%fmap_Some.
  apply Forall_forall. intros v (v' & <- & _)%list_elem_of_In%in_map_iff. apply clean_sanitizeString.
Qed.

(** The loop over the pattern's segments. *)
Definition pathStep (m : gmap string string) (seg : string) : gmap string string :=
  match wildcard seg with
  | Some name =>
      match m !! name with
      | Some v => if String.eqb v "" then m else <[name := sanitizeString v]> m
      | None => m
      end
  | None => m
  end.

Definition value_clean (m : gmap string string) (name : string) : Prop :=
  forall v, m !! name = Some v -> clean v = true.

Lemma pathStep_keeps m seg name : value_clean m name -> value_clean (pathStep m seg) name.
Proof.
  intros Hm. unfold pathStep. destruct (wildcard seg) as [n|]; [|done].
  destruct (m !! n) as [v|]; [|done]. destruct (String.eqb v ""); [done|].
  intros v'. destruct (decide (n = name)) as [->|Hne].
  - rewrite lookup_insert_eq. intros [= <-]. apply clean_sanitizeString.
  - rewrite lookup_insert_ne by done. apply Hm.
Qed.

Lemma pathStep_cleans m seg name : wildcard seg = Some name -> value_clean (pathStep m seg) name.
Proof.
  intros Hw. unfold pathStep. rewrite Hw. intros v'. destruct (m !! name) as [v|] eqn:E; [|congruence].
  destruct (String.eqb v "") eqn:Ev; bool_to_prop.
  - rewrite E. intros [= <-]. by subst.
  - rewrite lookup_insert_eq. intros [= <-]. apply clean_sanitizeString.
Qed.

Lemma clean_path_values req seg name v :
  In seg (Split (ReqPattern req) "/") -> wildcard seg = Some name ->
  PathValues (sanitizePathParams req) !! name = Some v -> clean v = true.
Proof.
  intros Hin Hw. revert v. change (value_clean (PathValues (sanitizePathParams req)) name).
  unfold sanitizePathParams, withPathValues. cbn [PathValues]. fold pathStep.
  change (value_clean (fold_left pathStep (Split (ReqPattern req) "/") (PathValues req)) name).
  revert Hin. generalize (Split (ReqPattern req) "/") as l. generalize (PathValues req) as m.
  intros m l. revert m. induction l as [|s l IH]; intros m; [done|]. intros [->|Hin]; simpl.
  - clear IH. pose proof (pathStep_cleans m seg name Hw) as H. revert H. generalize (pathStep m seg).
    induction l as [|s l IH]; intros m' H; simpl; [done|]. by apply IH, pathStep_keeps.
  - by apply IH.
Qed.

(** What a handler behind the middleware can rely on. *)
Record sanitized (marshal : json -> string) (req : Request) : Prop := {
  sanitized_headers k vs : Header req !! k = Some vs -> Forall (fun v => clean v = true) vs;
  sanitized_path seg name v : In seg (Split (ReqPattern req) "/") -> wildcard seg = Some name ->
    PathValues req !! name = Some v -> clean v = true;
  sanitized_query : exists u m, ReqURL req = Some u /\ RawQuery u = Encode m /\ clean_values m;
  sanitized_body b : ReqBody req = Some b -> hget (Header req) "Content-Type" = "application/json" ->
    exists j, b = {| BodyBytes := marshal j; BodyErr := None |} /\ cleanJSON j = true /\
      ContentLength req = len (marshal j);
}.

Lemma hget_sanitizeHeaders req k :
  hget (Header (sanitizeHeaders req)) k = sanitizeString (hget (Header req) k).
Proof.
  unfold hget. change (Header (sanitizeHeaders req)) with (map sanitizeString <$> Header req).
  rewrite lookup_fmap. by destruct (Header req !! CanonicalKey k) as [[|v vs]|].
Qed.

(** The body is taken for JSON: the type is compared after it was sanitized. *)
Definition takenForJSON (req : Request) : bool :=
  String.eqb (sanitizeString (hget (Header req) "Content-Type")) "application/json".
(** A JSON body that cannot be read or decoded. *)
Definition unreadable (decode : string -> result json) (req : Request) : Prop :=
  exists b, ReqBody req = Some b /\ takenForJSON req = true /\
    (BodyErr b <> None \/ exists e, decode (BodyBytes b) = Err e).

(** The request up to its body. *)
Lemma sanitized_intro marshal range req u b n :
  let r := sanitizeQueryParams range (sanitizePathParams (sanitizeHeaders req)) u in
  (forall b0, b = Some b0 -> takenForJSON req = true ->
     exists j, b0 = {| BodyBytes := marshal j; BodyErr := None |} /\ cleanJSON j = true /\ n = len (marshal j)) ->
  sanitized marshal (withBody r b n).
Proof.
  intros r Hb. constructor.
  - intros k vs. apply (clean_headers req).
  - intros seg name v. apply (clean_path_values (sanitizeHeaders req)).
  - exists {| Path := Path u; RawQuery := Encode (rewriteQuery range sanitizeString sanitizeString (RawQuery u)) |},
      (rewriteQuery range sanitizeString sanitizeString (RawQuery u)).
    split; [done|split; [done|apply clean_rewriteQuery]].
  - intros b0 Hb0 Hct. apply Hb; [done|]. unfold takenForJSON. apply String.eqb_eq.
    rewrite <- hget_sanitizeHeaders. exact Hct.
Qed.

(** (C14) Behind SanitizationMiddleware a handler sees no markup character in any
    header value, path wildcard, query key or value, nor, when the sanitized content
    type is exactly application/json, in any string or key of the body.  A JSON body
    that cannot be read or decoded is answered 400 and the handler does not run;
    every other request is handed on once, with the method, path and context it had,
    its header values sanitized one by one, its JSON body the encoding of the sanitized
    document and any other body as it was. *)
Theorem SanitizationMiddleware_cleans {W} `{Clock W} range decode marshal req wtr (w : W) u :
  ReqURL req = Some u -> WStatus wtr = None ->
  (unreadable decode req -> exists wtr',
     (forall next, SanitizationMiddleware range decode marshal next req wtr w = (w, wtr', Returned)) /\
     WStatus wtr' = Some 400) /\
  (~ unreadable decode req -> exists req',
     (forall next, SanitizationMiddleware range decode marshal next req wtr w = next req' wtr w) /\
     sanitized marshal req' /\
     Method req' = Method req /\ Ctx req' = Ctx req /\ (exists q, ReqURL req' = Some {| Path := Path u; RawQuery := q |}) /\
     (forall k, Header req' !! k = map sanitizeString <$> Header req !! k) /\
     match ReqBody req with
     | Some b =>
         if takenForJSON req
         then exists data, decode (BodyBytes b) = Ok data /\ BodyErr b = None /\
                ReqBody req' = Some {| BodyBytes := marshal (sanitizeJSON data); BodyErr := None |}
         else ReqBody req' = Some b
     | None => ReqBody req' = None
     end).
Proof.
  intros Hu Hw. unfold SanitizationMiddleware. set (r1 := sanitizePathParams (sanitizeHeaders req)).
  assert (Hr1 : ReqURL r1 = Some u) by done. rewrite Hr1. set (r2 := sanitizeQueryParams range r1 u).
  assert (Hct : String.eqb (hget (Header r2) "Content-Type") "application/json" = takenForJSON req)
    by (unfold takenForJSON; by rewrite <- hget_sanitizeHeaders).
  assert (Hh : forall k, Header r2 !! k = map sanitizeString <$> Header req !! k) by (intros k; apply lookup_fmap).
  assert (Hsame : withBody r2 (ReqBody r2) (ContentLength r2) = r2) by by destruct r2.
  change (ReqBody r2) with (ReqBody req) in *. rewrite Hct. destruct (ReqBody req) as [b|] eqn:Eb.
  2: { split; [intros (b & [=] & _)|]; [congruence|]. intros _. exists r2. split; [done|]. split; [|split_and!; try done; by eexists].
       rewrite <- Hsame. apply (sanitized_intro marshal range req u). done. }
  destruct (takenForJSON req) eqn:Ej.
  2: { split; [intros (b' & _ & [=] & _)|]; [congruence|]. intros _. exists r2. split; [done|]. split; [|split_and!; try done; by eexists].
       rewrite <- Hsame. apply (sanitized_intro marshal range req u). congruence. }
  unfold sanitizeBody. destruct (BodyErr b) as [e|] eqn:Ee; [|destruct (decode (BodyBytes b)) as [data|e] eqn:Ed].
  - split; [|intros []; exists b; by split_and!; [..|left; rewrite Ee]].
    intros _. eexists. split; [intros next; apply reject_run|]. by apply SendError_status.
  - split.
    { intros (b' & Hb' & _ & Hbad). simplify_eq. destruct Hbad as [|[e He]]; congruence. }
    intros _. eexists. split; [done|]. split; [|split_and!; try done; [by eexists|by exists data]].
    apply (sanitized_intro marshal range req u). intros b0 [= <-] _. exists (sanitizeJSON data).
    split; [done|]. split; [apply clean_sanitizeJSON|done].
  - split; [|intros []; exists b; by split_and!; [..|right; eexists]].
    intros _. eexists. split; [intros next; apply reject_run|]. by apply SendError_status.
Qed.

(** ** What it does not achieve *)

(** A keyword with another one inserted into it; in the traversal sequence, the
    sequence itself. *)
Definition nested (k : string) : string :=
  if String.eqb k "../" then "....//" else
  let n := if 9 <? len k then 6%nat else 3%nat in stake n k +:+ "union" +:+ sdrop n k.
Definition keywords : list string :=
  ["union"; "select"; "insert"; "update"; "delete"; "drop"; "create"; "alter"; "exec"; "execute"; "script";
   "javascript"; "onerror"; "onload"; "../"].

(** Removal is not repeated: for every forbidden keyword, and for the path
    traversal sequence, there is an input whose sanitized form is that keyword. *)
Theorem removal_is_not_repeated k :
  In k keywords -> sanitizeString (nested k) = k /\
  (In k SqlInjectionPattern \/ In k PathTraversalPattern).
Proof.
  intros Hk. split.
  - assert (Hall : forallb (fun k => String.eqb (sanitizeString (nested k)) k) keywords = true) by (vm_compute; done).
    apply String.eqb_eq. exact (proj1 (forallb_forall _ _) Hall k Hk).
  - assert (Hall : forallb (fun k => existsb (String.eqb k) (SqlInjectionPattern ++ PathTraversalPattern)%list)
      keywords = true) by (vm_compute; done).
    pose proof (proj1 (forallb_forall _ _) Hall k Hk) as H. cbv beta in H.
    apply existsb_exists in H as (k' & Hin & He). bool_to_prop. subst k'.
    by apply in_app_iff in Hin.
Qed.

(** The body is sanitized only if the content type is the bare string
    application/json: with any other sanitized value, for example with a charset
    parameter, the handler gets the body as it was sent. *)
Theorem other_content_types_pass_unsanitized {W} `{Clock W} range decode marshal (next : handler W) req wtr w u :
  ReqURL req = Some u ->
  sanitizeString (hget (Header req) "Content-Type") <> "application/json" ->
  exists req', SanitizationMiddleware range decode marshal next req wtr w = next req' wtr w /\
    ReqBody req' = ReqBody req /\ ContentLength req' = ContentLength req.
Proof.
  intros Hu Hct. unfold SanitizationMiddleware.
  assert (Hr1 : ReqURL (sanitizePathParams (sanitizeHeaders req)) = Some u) by done. rewrite Hr1.
  set (r2 := sanitizeQueryParams range _ u). exists r2.
  assert (Hh : hget (Header r2) "Content-Type" <> "application/json").
  { intros Heq. apply Hct. revert Heq. unfold hget.
    change (Header r2) with (map sanitizeString <$> Header req). rewrite lookup_fmap.
    destruct (Header req !! CanonicalKey "Content-Type") as [[|v vs]|]; simpl; done. }
  apply String.eqb_neq in Hh. rewrite Hh. split; [|done]. by destruct (ReqBody r2).
Qed.

(** An opaque credential is changed when it happens to contain a keyword. *)
Example credential_altered : sanitizeString "Bearer eyJhbGciDropXyz.c2ln" = "Bearer eyJhbGciXyz.c2ln".
Proof. reflexivity. Qed.
Example text_altered : sanitizeString "description & update" = "deion &amp; ".
Proof. reflexivity. Qed.

(** Path normalization replaces in one pass: three slashes leave two, and the
    path // becomes empty. *)
Lemma normalizedPath_single_pass :
  normalizedPath "/a///b" = "/a//b" /\ normalizedPath "//" = "" /\
  normalizedPath (normalizedPath "/a///b") = "/a/b".
Proof. split_and!; reflexivity. Qed.

(** ** Witnesses *)

#[local] Instance demo_clock : Clock Z := fun w => w.
Definition demoHeaders (ct : string) : headers := {[ "Content-Type" := [ct] ]}.
Definition demoURL : URL := {| Path := "/items/7"; RawQuery := "q=%3Cb%3E" |}.
Definition demoRequest (ct : string) : Request :=
  {| Method := "POST"; ReqURL := Some demoURL; Header := demoHeaders ct; RemoteAddr := "10.0.0.7:5123";
     ContentLength := 3; ReqBody := Some {| BodyBytes := "<b>"; BodyErr := None |};
     RequestURI := ""; ReqPattern := "/items/{id}"; PathValues := {[ "id" := "7" ]}; Ctx := [] |}.
Definition demoDecode (s : string) : result json := Ok (JStr s).
Definition demoMarshal (j : json) : string := match j with JStr s => s | _ => "" end.
(** A handler that sends the body back. *)
Definition echo : handler Z := fun req wtr w =>
  (w, Write wtr (ChText (match ReqBody req with Some b => BodyBytes b | None => "" end)), Returned).

Example echo_sanitized :
  (SanitizationMiddleware (fun m => map_to_list m) demoDecode demoMarshal echo
    (demoRequest "application/json") newWriter 0).1.2 = Write newWriter (ChText "&lt;b&gt;").
Proof. vm_compute. reflexivity. Qed.

Lemma demo_readable : ~ unreadable demoDecode (demoRequest "application/json").
Proof. intros (b & Hb & _ & [He|[e He]]); [|discriminate He]. apply He. by injection Hb as <-. Qed.
Definition brokenDecode (s : string) : result json := Err (Errorf "invalid character").
Lemma demo_unreadable : unreadable brokenDecode (demoRequest "application/json").
Proof. eexists. split; [reflexivity|]. split; [vm_compute; reflexivity|]. right. by eexists. Qed.
(** The same request, with a body that decodes and with one that does not. *)
Lemma SanitizationMiddleware_cleans_witness :
  (exists req', SanitizationMiddleware (fun m => map_to_list m) demoDecode demoMarshal echo
      (demoRequest "application/json") newWriter 0 = echo req' newWriter 0 /\ sanitized demoMarshal req') /\
  exists wtr', SanitizationMiddleware (fun m => map_to_list m) brokenDecode demoMarshal echo
      (demoRequest "application/json") newWriter 0 = (0, wtr', Returned) /\ WStatus wtr' = Some 400.
Proof.
  split.
  - destruct (proj2 (SanitizationMiddleware_cleans (fun m => map_to_list m) demoDecode demoMarshal
      (demoRequest "application/json") newWriter 0 demoURL eq_refl eq_refl) demo_readable) as (req' & E & Hs & _).
    exists req'. split; [apply E|exact Hs].
  - destruct (proj1 (SanitizationMiddleware_cleans (fun m => map_to_list m) brokenDecode demoMarshal
      (demoRequest "application/json") newWriter 0 demoURL eq_refl eq_refl) demo_unreadable) as (wtr' & E & Hs).
    exists wtr'. split; [apply E|exact Hs].
Defined.

Lemma removal_is_not_repeated_witness : sanitizeString "selunionect" = "select".
Proof. apply (removal_is_not_repeated "select"). right. left. reflexivity. Defined.

Lemma other_content_types_pass_unsanitized_witness :
  exists req', SanitizationMiddleware (fun m => map_to_list m) demoDecode demoMarshal echo
      (demoRequest "application/json; charset=utf-8") newWriter 0 = echo req' newWriter 0 /\
    ReqBody req' = Some {| BodyBytes := "<b>"; BodyErr := None |} /\ ContentLength req' = 3.
Proof.
  apply (other_content_types_pass_unsanitized (fun m => map_to_list m) demoDecode demoMarshal echo
    (demoRequest "application/json; charset=utf-8") newWriter 0 demoURL);
    [reflexivity|vm_compute; discriminate].
Defined.
