(* ===== verification/Redact.v ===== *)
(** * Redaction (src/security/redaction, src/api/redaction)

    The sensitive-key test, the string and value redaction the logger and the
    middleware share, and the redaction middleware.  The patterns are matched
    leftmost-first, as Go's regexp does, over the bytes of the UTF-8 string. *)

From S2P Require Import Prelude Unicode GoStrings Regex Http Net.

Open Scope string_scope.
Open Scope Z_scope.

(** ** Leftmost-first matching *)

Inductive pat : Type :=
  | PCls (p : ascii -> bool)
  | PEps
  | PSeq (a b : pat)
  | PAlt (a b : pat)
  | PStar (greedy : bool) (a : pat)
  | PWordBoundary
  | PBegin
  | PEnd.

Definition PPlus (a : pat) : pat := PSeq a (PStar true a).
Fixpoint PTimes (n : nat) (a : pat) : pat := match n with O => PEps | S n => PSeq a (PTimes n a) end.
Fixpoint PUpTo (n : nat) (a : pat) : pat :=
  match n with O => PEps | S n => PAlt (PSeq a (PUpTo n a)) PEps end.
Definition PAtLeast (n : nat) (a : pat) : pat := PSeq (PTimes n a) (PStar true a).
Definition PBetween (m n : nat) (a : pat) : pat := PSeq (PTimes m a) (PUpTo (n - m) a).
Fixpoint PLit (s : string) : pat :=
  match s with "" => PEps | String c s => PSeq (PCls (Ascii.eqb c)) (PLit s) end.

(** A position: the byte before it and the rest of the string. *)
Definition position : Type := option ascii * string.

Definition word (c : ascii) : bool := alnum c || Ascii.eqb c "_".
Definition wordBefore (st : position) : bool := match st.1 with Some c => word c | None => false end.
Definition wordAfter (st : position) : bool := match st.2 with String c _ => word c | "" => false end.

Section Star.
Variable step : position -> list position.
Variable greedy : bool.
(** An iteration that consumes nothing is not repeated. *)
Fixpoint starEnds (fuel : nat) (st : position) : list position :=
  match fuel with
  | O => [st]
  | S fuel =>
      let more := flat_map (fun st' => if (String.length st'.2 <? String.length st.2)%nat
                                       then starEnds fuel st' else []) (step st) in
      if greedy then (more ++ [st])%list else st :: more
  end.
End Star.

(** Where a match of [r] that begins at [st] can end, the preferred end first. *)
Fixpoint ends (r : pat) (st : position) : list position :=
  match r with
  | PCls p => match st.2 with String c s => if p c then [(Some c, s)] else [] | "" => [] end
  | PEps => [st]
  | PSeq a b => flat_map (ends b) (ends a st)
  | PAlt a b => (ends a st ++ ends b st)%list
  | PStar g a => starEnds (ends a) g (S (String.length st.2)) st
  | PWordBoundary => if xorb (wordBefore st) (wordAfter st) then [st] else []
  | PBegin => match st.1 with None => [st] | Some _ => [] end
  | PEnd => match st.2 with "" => [st] | _ => [] end
  end.

(** [MatchString]. *)
Fixpoint matchFrom (r : pat) (prev : option ascii) (s : string) : bool :=
  match ends r (prev, s) with
  | _ :: _ => true
  | [] => match s with "" => false | String c s' => matchFrom r (Some c) s' end
  end.
Definition MatchString (r : pat) (s : string) : bool := matchFrom r None s.

(** [ReplaceAllString] of a pattern no match of which is empty. *)
Fixpoint replaceFrom (fuel : nat) (r : pat) (repl : string) (prev : option ascii) (s : string) : string :=
  match fuel with
  | O => s
  | S fuel =>
      match ends r (prev, s) with
      | (prev', s') :: _ =>
          if (String.length s' <? String.length s)%nat then repl +:+ replaceFrom fuel r repl prev' s'
          else match s with "" => "" | String c s' => String c (replaceFrom fuel r repl (Some c) s') end
      | [] => match s with "" => "" | String c s' => String c (replaceFrom fuel r repl (Some c) s') end
      end
  end.
Definition ReplaceAllString (r : pat) (s repl : string) : string :=
  replaceFrom (S (String.length s)) r repl None s.

(** ** The patterns *)

(** A class with letters under (?i): the long s and the Kelvin sign fold to s and k. *)
Definition PFold (p : ascii -> bool) : pat :=
  PAlt (PCls p) (PAlt (PLit (b2 197 191)) (PLit (b3 226 132 170))).
Definition foldLit (c : ascii) : pat := PCls (fun x => Ascii.eqb (lowerByte x) (lowerByte c)).
Fixpoint PFoldLit (s : string) : pat :=
  match s with "" => PEps | String c s => PSeq (foldLit c) (PFoldLit s) end.
Definition blank (c : ascii) : bool := oneOf ["009"; "010"; "012"; "013"; " "]%char c.
Definition letter (c : ascii) : bool := isUpper c || isLower c.
Definition emailLocal (c : ascii) : bool := alnum c || oneOf ["."; "_"; "%"; "+"; "-"]%char c.
Definition emailDomain (c : ascii) : bool := alnum c || oneOf ["."; "-"]%char c.
Definition tokenChar (c : ascii) : bool := alnum c || oneOf ["-"; "."; "_"; "~"; "+"; "/"]%char c.

Definition emailPat : pat :=
  PSeq (PPlus (PFold emailLocal)) (PSeq (PLit "@") (PSeq (PPlus (PFold emailDomain))
    (PSeq (PLit ".") (PAtLeast 2 (PFold letter))))).
Definition ssnPat : pat :=
  PSeq PWordBoundary (PSeq (PTimes 3 (PCls isDigit)) (PSeq (PLit "-") (PSeq (PTimes 2 (PCls isDigit))
    (PSeq (PLit "-") (PSeq (PTimes 4 (PCls isDigit)) PWordBoundary))))).
Definition panPat : pat :=
  PSeq PWordBoundary (PSeq (PBetween 13 16 (PSeq (PCls isDigit) (PStar false (PCls (oneOf [" "; "-"]%char)))))
    PWordBoundary).
Definition bearerPat : pat :=
  PSeq (PFoldLit "Bearer") (PSeq (PPlus (PCls blank)) (PSeq (PPlus (PFold tokenChar)) (PStar true (PLit "=")))).
Definition piiRegex : pat := PAlt emailPat (PAlt ssnPat (PAlt panPat bearerPat)).

(** ** Keys *)

Definition redacted : string := "[REDACTED]".
Definition sensitiveKeys : list string :=
  ["authorization"; "cookie"; "set-cookie"; "password"; "passwd"; "pwd"; "token"; "access_token";
   "refresh_token"; "id_token"; "secret"; "client_secret"; "api_key"; "apikey"; "x-api-key"; "bearer";
   "ssn"; "cvv"; "card_number"; "credit_card"; "creditcard"; "private_key"; "x-amz-signature"].

Definition keyDelimiter (c : ascii) : bool := oneOf ["-"; "_"; "."; " "]%char c.
(** A maximal run of delimiters becomes one underscore; [inRun] after a delimiter. *)
Fixpoint collapse (inRun : bool) (s : string) : string :=
  match s with
  | "" => ""
  | String c s =>
      if keyDelimiter c then (if inRun then collapse true s else String "_" (collapse true s))
      else String c (collapse false s)
  end.
Definition normalizeKey (key : string) : string := collapse false (ToLower key).
Definition normalizeKeys (keys : list string) : list string := map normalizeKey keys.
Definition normalizedSensitiveKeys : list string := normalizeKeys sensitiveKeys.

Definition IsSensitiveKey (key : string) : bool :=
  let nk := "_" +:+ normalizeKey key +:+ "_" in
  existsb (fun s => Contains nk ("_" +:+ s +:+ "_")) normalizedSensitiveKeys.

(** ** Strings *)

Definition isNumeric (s : string) : bool := sforall isDigit s.

(** The loop runs from the last byte to the first. *)
Definition luhnDigit (double : bool) (c : ascii) : Z :=
  let d := byteZ c - 48 in
  if double then (if 9 <? d * 2 then d * 2 - 9 else d * 2) else d.
Fixpoint luhnLoop (r : string) (double : bool) (sum : Z) : option Z :=
  match r with
  | "" => Some sum
  | String c r => if isDigit c then luhnLoop r (negb double) (sum + luhnDigit double c) else None
  end.
Definition luhnValid (s : string) : bool :=
  match luhnLoop (srev s) false 0 with Some sum => sum mod 10 =? 0 | None => false end.
Definition looksLikePAN (s : string) : bool :=
  if (len s <? 13) || (19 <? len s) then false else luhnValid s.

Definition RedactString (val : string) : string :=
  if len val <? 4 then val
  else if isNumeric val then (if looksLikePAN val then redacted else val)
  else ReplaceAllString piiRegex val redacted.

(** ** Values *)

(** A dynamic value, by the cases the code tells apart; the keys of a map are
    distinct. *)
Inductive any : Type :=
  | AOther (text : string)
  | AString (s : string)
  | AStrings (l : list string)
  | AAnys (l : list any)
  | AMapStr (m : list (string * string))
  | AMap (m : list (string * any)).

Fixpoint RedactValue (val : any) : any :=
  match val with
  | AMap m => AMap (map (fun '(k, v) => (k, if IsSensitiveKey k then AString redacted else RedactValue v)) m)
  | AMapStr m => AMapStr (map (fun '(k, v) => (k, if IsSensitiveKey k then redacted else RedactString v)) m)
  | AAnys l => AAnys (map RedactValue l)
  | AStrings l => AStrings (map RedactString l)
  | AString s => AString (RedactString s)
  | AOther _ => val
  end.
Definition RedactPair (key : string) (val : any) : any :=
  if IsSensitiveKey key then AString redacted else RedactValue val.

(** ** The middleware *)

Definition bearerRE : pat :=
  PSeq PBegin (PSeq (PStar true (PCls blank)) (PSeq (PFoldLit "bearer") (PSeq (PPlus (PCls blank))
    (PSeq (PPlus (PFold tokenChar)) (PSeq (PStar true (PLit "=")) PEnd))))).
Definition longTokenRE : pat := PAtLeast 20 (PCls tokenChar).

Definition looksLikeToken (s : string) : bool :=
  if String.eqb s "" then false
  else if MatchString bearerRE s then true
  else MatchString longTokenRE s && (30 <? len s).

Definition redactValues (k : string) (vs : list string) : list string :=
  if IsSensitiveKey k then ["REDACTED"] else map (fun v => if looksLikeToken v then "REDACTED" else v) vs.
Definition redactHeaders (h : headers) : headers := map_imap (fun k vs => Some (redactValues k vs)) h.
Definition redactQuery (m : values) : values := map_imap (fun k vs => Some (redactValues k vs)) m.

Section Middleware.
(** encoding/json on a body. *)
Variable unmarshal : string -> option any.
Variable marshal : any -> option string.

Definition redactText (b : string) : string :=
  ReplaceAllString longTokenRE (ReplaceAllString bearerRE b "REDACTED") "REDACTED".
Definition redactBody (b contentType : string) : string :=
  if String.eqb b "" then b else
  if Contains (ToLower contentType) "application/json" then
    match unmarshal b with
    | Some v => match marshal (RedactValue v) with Some out => out | None => redactText b end
    | None => redactText b
    end
  else redactText b.

(** The copy the next handler gets.  A body that could not be read is passed on
    as the reader left it. *)
Definition redactRequest (req : Request) : Request :=
  let r2 := withHeader req (redactHeaders (Header req)) in
  let r2 := match ReqURL req with
            | Some u => withURL r2 (Some {| Path := Path u; RawQuery := Encode (redactQuery (Query (RawQuery u))) |})
            | None => r2
            end in
  match ReqBody req with
  | Some b =>
      match BodyErr b with
      | None => withBody r2 (Some {| BodyBytes := redactBody (BodyBytes b) (hget (Header req) "Content-Type");
                                     BodyErr := None |}) (ContentLength req)
      | Some e => withBody r2 (Some {| BodyBytes := ""; BodyErr := Some e |}) (ContentLength req)
      end
  | None => r2
  end.
End Middleware.

Section Serve.
Context {W : Type}.
Variable unmarshal : string -> option any.
Variable marshal : any -> option string.
Definition RedactionMiddleware : middleware W :=
  fun next req wtr w => next (redactRequest unmarshal marshal req) wtr w.
End Serve.

(** ** Sensitive keys: the words of the key *)

(** Reference: the maximal runs without hyphens, underscores, dots and blanks. *)
Definition separator (c : ascii) : bool := existsb (Ascii.eqb c) ["-"; "_"; "."; " "]%char.
Fixpoint words_go (s cur : string) : list string :=
  match s with
  | "" => if String.eqb cur "" then [] else [cur]
  | String c s =>
      if separator c then (if String.eqb cur "" then words_go s "" else cur :: words_go s "")
      else words_go s (cur +:+ String c "")
  end.
Definition words (s : string) : list string := words_go s "".

(** A string between separators occurs in another between separators exactly
    when its segments occur as consecutive segments. *)
Lemma contains_segments a b c :
  let sep := String c "" in
  Contains (sep +:+ a +:+ sep) (sep +:+ b +:+ sep) = true <->
  exists l1 l2, Split a c = (l1 ++ Split b c ++ l2)%list.
Proof.
  intros sep. rewrite Contains_spec. unfold sep. split.
  - intros (p & q & H). apply (f_equal (fun s => Split s c)) in H.
    rewrite !sapp_assoc, !sapp_cons, !sapp_nil_l, !Split_app, Split_cons_eq, Split_app in H.
    change (Split "" c) with [""] in H.
    destruct (Split p c) as [|p0 l1] eqn:Ep; [by apply Split_nonempty in Ep|].
    destruct (exists_last (Split_nonempty q c)) as (l2 & q0 & Eq). rewrite Eq in H.
    exists l1, l2. cbn in H. injection H as _ H.
    rewrite !(assoc_L (++)%list) in H. apply app_inj_tail in H as [H _]. by rewrite H, !(assoc_L (++)%list).
  - intros (l1 & l2 & H).
    assert (HJ : forall l, l <> [] -> forall l', l' <> [] ->
      Join (l ++ l')%list (String c "") = Join l (String c "") +:+ String c "" +:+ Join l' (String c "")).
    { induction l as [|x l IH]; [done|]. intros _ l' Hl'. destruct l as [|y l].
      - change ([x] ++ l')%list with (x :: l'). by rewrite Join_cons.
      - change ((x :: y :: l) ++ l')%list with (x :: ((y :: l) ++ l'))%list.
        rewrite (Join_cons x (y :: l)) by done. rewrite Join_cons by (destruct l'; done).
        rewrite IH by done. by rewrite !sapp_assoc. }
    rewrite <- (Join_Split a c), H.
    pose proof (Split_nonempty b c) as Hb. pose proof (Join_Split b c) as Hj.
    destruct l1 as [|x1 l1], l2 as [|x2 l2].
    + exists "", "". simpl. by rewrite app_nil_r, Hj, !sapp_assoc, sapp_nil_r.
    + exists "", (Join (x2 :: l2) (String c "") +:+ String c ""). rewrite app_nil_l, HJ, Hj by done.
      by rewrite !sapp_assoc.
    + exists (String c "" +:+ Join (x1 :: l1) (String c "")), "". rewrite app_nil_r, HJ, Hj by done.
      by rewrite !sapp_assoc, sapp_nil_r.
    + exists (String c "" +:+ Join (x1 :: l1) (String c "")), (Join (x2 :: l2) (String c "") +:+ String c "").
      rewrite (HJ (x1 :: l1)) by (try done; by destruct (Split b c)).
      rewrite (HJ (Split b c)), Hj by done. by rewrite !sapp_assoc.
Qed.

(** Splitting a collapsed key gives its words, with an empty segment at an end
    where the key had a delimiter. *)
Lemma split_collapse s :
  (exists post, (post = [] \/ post = [""]) /\
     Split (collapse true s) "_" = (words_go s "" ++ post)%list) /\
  (exists pre post, (pre = [] \/ pre = [""]) /\ (post = [] \/ post = [""]) /\
     Split (collapse false s) "_" = (pre ++ words_go s "" ++ post)%list) /\
  (forall cur, cur <> "" -> ~ sIn "_" cur -> exists post, (post = [] \/ post = [""]) /\
     Split (cur +:+ collapse false s) "_" = (words_go s cur ++ post)%list).
Proof.
  induction s as [|c s (IH1 & IH2 & IH3)].
  - split_and!.
    + exists [""]. split; [by right|done].
    + exists [""], []. split; [by right|]. split; [by left|done].
    + intros cur Hne Hin. exists []. split; [by left|]. simpl. apply String.eqb_neq in Hne. rewrite Hne.
      by rewrite sapp_nil_r, Split_plain.
  - destruct (keyDelimiter c) eqn:Ec; cbn [collapse words_go]; change (separator c) with (keyDelimiter c); rewrite Ec.
    + change (String.eqb "" "") with true. cbn [negb]. split_and!.
      * exact IH1.
      * destruct IH1 as (post & Hp & IH1). exists [""], post. split; [by right|]. split; [done|].
        rewrite Split_cons_eq, IH1. done.
      * intros cur Hne Hin. destruct IH1 as (post & Hp & IH1). exists post. split; [done|].
        apply String.eqb_neq in Hne. rewrite Hne, Split_app, IH1, Split_plain by done. done.
    + assert (Hc : ~ sIn "_" (String c "")).
      { simpl. intros [->|[]]. by vm_compute in Ec. }
      destruct (IH3 (String c "") ltac:(done) Hc) as (post & Hp & H).
      change (String c "" +:+ collapse false s) with (String c (collapse false s)) in H.
      change ("" +:+ String c "") with (String c "").
      split_and!; [by exists post|exists [], post; by (split; [left|split])|].
      intros cur Hne Hin. destruct (IH3 (cur +:+ String c "")) as (post' & Hp' & H').
      { by destruct cur. }
      { rewrite sIn_app. tauto. }
      exists post'. split; [done|]. rewrite <- H', sapp_assoc. done.
Qed.

Lemma words_go_nonempty s cur : Forall (fun w => w <> "") (words_go s cur).
Proof.
  revert cur. induction s as [|c s IH]; intros cur; simpl.
  - destruct (String.eqb_spec cur ""); by repeat constructor.
  - destruct (separator c); [|apply IH].
    destruct (String.eqb_spec cur ""); [apply IH|by constructor].
Qed.

Lemma sensitive_segments : Forall (fun s => Split (normalizeKey s) "_" = words s) sensitiveKeys.
Proof. unfold sensitiveKeys. repeat (constructor; [vm_compute; reflexivity|]). constructor. Qed.

Definition nonempty (s : string) : bool := negb (String.eqb s "").
Lemma filter_nonempty l : Forall (fun w => w <> "") l -> List.filter nonempty l = l.
Proof.
  induction 1 as [|w l Hw _ IH]; [done|]. simpl. unfold nonempty at 1.
  apply String.eqb_neq in Hw. rewrite Hw. simpl. by rewrite IH.
Qed.

(** (C31) A key is sensitive exactly when the words of one of the sensitive keys
    occur as consecutive words of it, whatever its case and whatever hyphens,
    underscores, dots and blanks separate or surround the words.  The case is
    Unicode's: each rune of the key counts as its lower case, and a byte that is no
    UTF-8 as the replacement character. *)
Theorem IsSensitiveKey_words key rs (Hrs : spells key rs) :
  IsSensitiveKey key = true <->
  exists s l1 l2, In s sensitiveKeys /\
    words (encodeRunes (map lowerRune rs)) = (l1 ++ words s ++ l2)%list.
Proof.
  rewrite <- (ToLower_spells _ _ Hrs).
  unfold IsSensitiveKey. cbv zeta. rewrite existsb_exists.
  destruct (split_collapse (ToLower key)) as (_ & (pre & post & Hpre & Hpost & Hk) & _).
  change (collapse false (ToLower key)) with (normalizeKey key) in Hk.
  change (words_go (ToLower key) "") with (words (ToLower key)) in Hk.
  pose proof (proj1 (Forall_forall _ _) sensitive_segments) as Hs.
  split.
  - intros (ns & Hin & Hc). apply in_map_iff in Hin as (s & <- & Hin).
    apply contains_segments in Hc as (l1 & l2 & Hc).
    rewrite (Hs s (proj2 (list_elem_of_In _ _) Hin)), Hk in Hc.
    exists s, (List.filter nonempty l1), (List.filter nonempty l2). split; [done|].
    apply (f_equal (List.filter nonempty)) in Hc.
    rewrite !List.filter_app, !(filter_nonempty (words _)) in Hc by apply words_go_nonempty.
    destruct Hpre as [->| ->], Hpost as [->| ->]; simpl in Hc; by rewrite ?app_nil_r in Hc.
  - intros (s & l1 & l2 & Hin & Hw). exists (normalizeKey s). split; [by apply in_map|].
    apply contains_segments. exists (pre ++ l1)%list, (l2 ++ post)%list.
    rewrite (Hs s (proj2 (list_elem_of_In _ _) Hin)), Hk, Hw. by rewrite <- !(assoc_L (++)%list).
Qed.

(** ** Values: what is kept and what is hidden *)

Inductive pstep : Type := Key (k : string) | Idx (i : nat).

Fixpoint assoc {A} (k : string) (m : list (string * A)) : option A :=
  match m with
  | [] => None
  | (k', v) :: m => if String.eqb k' k then Some v else assoc k m
  end.
(** The value a path leads to. *)
Fixpoint at_path (v : any) (p : list pstep) : option any :=
  match p with
  | [] => Some v
  | Key k :: p =>
      match v with
      | AMap m => v' ← assoc k m; at_path v' p
      | AMapStr m => s ← assoc k m; at_path (AString s) p
      | _ => None
      end
  | Idx i :: p =>
      match v with
      | AAnys l => v' ← l !! i; at_path v' p
      | AStrings l => s ← l !! i; at_path (AString s) p
      | _ => None
      end
  end.
(** The value with [u] put in place of what the path leads to. *)
Fixpoint assign (v : any) (p : list pstep) (u : any) : any :=
  match p with
  | [] => u
  | Key k :: p =>
      match v with
      | AMap m => AMap (map (fun '(k', x) => (k', if String.eqb k' k then assign x p u else x)) m)
      | AMapStr m =>
          match p, u with
          | [], AString s => AMapStr (map (fun '(k', x) => (k', if String.eqb k' k then s else x)) m)
          | _, _ => v
          end
      | _ => v
      end
  | Idx i :: p =>
      match v with
      | AAnys l => AAnys (alter (fun x => assign x p u) i l)
      | AStrings l => match p, u with [], AString s => AStrings (<[i := s]> l) | _, _ => v end
      | _ => v
      end
  end.
Definition secretStep (s : pstep) : bool := match s with Key k => IsSensitiveKey k | Idx _ => false end.
Definition secretPath (p : list pstep) : bool := existsb secretStep p.

Lemma assoc_map {A B} (f : string -> A -> B) k m :
  assoc k (map (fun '(k', v) => (k', f k' v)) m) = f k <$> assoc k m.
Proof.
  induction m as [|[k' v] m IH]; [done|]. simpl. destruct (String.eqb_spec k' k) as [->|]; done.
Qed.

Lemma RedactValue_map m : RedactValue (AMap m) = AMap (map (fun '(k, v) => (k, RedactPair k v)) m).
Proof. reflexivity. Qed.

Lemma RedactValue_assign v p u : secretPath p = true -> RedactValue (assign v p u) = RedactValue v.
Proof.
  revert v. induction p as [|s p IH]; [done|]. intros v Hp. simpl in Hp.
  destruct s as [k|i]; simpl in Hp.
  - destruct v as [| | | |m|m]; try done.
    + destruct p as [|s p]; [|done]. destruct u; try done. rewrite orb_false_r in Hp.
      cbn [assign RedactValue]. f_equal. rewrite map_map. apply map_ext. intros [k' x].
      destruct (String.eqb_spec k' k) as [->|]; [by rewrite Hp|done].
    + cbn [assign]. rewrite !RedactValue_map. f_equal. rewrite map_map. apply map_ext. intros [k' x].
      f_equal. unfold RedactPair. destruct (String.eqb_spec k' k) as [->|]; [|done].
      destruct (IsSensitiveKey k); [done|]. by apply IH.
  - destruct v as [| |l|l| |]; try done.
    + cbn [assign RedactValue]. destruct p; [done|]. done.
    + cbn [assign RedactValue]. f_equal.
      change (RedactValue <$> alter (fun x => assign x p u) i l = RedactValue <$> l).
      apply list_eq. intros j. rewrite !list_lookup_fmap. destruct (decide (i = j)) as [->|].
      * rewrite list_lookup_alter_eq. destruct (l !! j); simpl; [|done]. by rewrite IH.
      * by rewrite list_lookup_alter_ne.
Qed.

(** (C5) The value under a sensitive key never matters: whatever is assigned
    below a path that passes one, the redacted value is the same. *)
Theorem RedactValue_hides v p u : secretPath p = true -> RedactValue (assign v p u) = RedactValue v.
Proof. apply RedactValue_assign. Qed.

(** The dynamic type of a value, with the length or the keys of a container, and the
    value itself if it is neither a string nor a container. *)
Inductive shape : Type :=
  | ShOther (text : string)
  | ShString
  | ShStrings (n : nat)
  | ShAnys (n : nat)
  | ShMapStr (keys : list string)
  | ShMap (keys : list string).
Definition shapeOf (v : any) : shape :=
  match v with
  | AOther text => ShOther text
  | AString _ => ShString
  | AStrings l => ShStrings (length l)
  | AAnys l => ShAnys (length l)
  | AMapStr m => ShMapStr (map fst m)
  | AMap m => ShMap (map fst m)
  end.

Lemma RedactValue_shape v : shapeOf (RedactValue v) = shapeOf v.
Proof.
  destruct v as [t|s|l|l|m|m]; simpl; try done; f_equal; try apply length_map;
    rewrite map_map; apply map_ext; by intros [].
Qed.

Lemma RedactValue_path v p k :
  secretPath p = false ->
  at_path (RedactValue v) p = RedactValue <$> at_path v p /\
  (IsSensitiveKey k = true -> is_Some (at_path v (p ++ [Key k])%list) ->
   at_path (RedactValue v) (p ++ [Key k])%list = Some (AString redacted)).
Proof.
  assert (Hs : forall s p, at_path (AString (RedactString s)) p = RedactValue <$> at_path (AString s) p).
  { intros s [|[]]; done. }
  revert v. induction p as [|st p IH]; intros v Hp.
  - split; [done|]. intros Hk. simpl.
    destruct v as [| | | |m|m]; simpl; try by intros [].
    + rewrite (assoc_map (fun k v => if IsSensitiveKey k then redacted else RedactString v)).
      destruct (assoc k m); simpl; [by rewrite Hk|by intros []].
    + rewrite (assoc_map (fun k v => if IsSensitiveKey k then AString redacted else RedactValue v)).
      destruct (assoc k m); simpl; [by rewrite Hk|by intros []].
  - simpl in Hp. apply orb_false_iff in Hp as [Hst Hp].
    assert (Hsk : forall s q, IsSensitiveKey k = true -> is_Some (at_path (AString s) (q ++ [Key k])%list) ->
      False) by (intros s [|[]]; simpl; by intros _ []).
    destruct st as [k0|i]; simpl in Hst.
    + destruct v as [| | | |m|m]; try (split; [done|]; simpl; by intros _ []).
      * simpl. rewrite (assoc_map (fun k v => if IsSensitiveKey k then redacted else RedactString v)).
        destruct (assoc k0 m) as [s|]; simpl; [|split; [done|]; by intros _ []].
        rewrite Hst. split; [apply Hs|]. intros H1 H2. by destruct (Hsk s p H1 H2).
      * simpl. rewrite (assoc_map (fun k v => if IsSensitiveKey k then AString redacted else RedactValue v)).
        destruct (assoc k0 m) as [x|]; simpl; [|split; [done|]; by intros _ []].
        rewrite Hst. by apply IH.
    + destruct v as [| |l|l| |]; try (split; [done|]; simpl; by intros _ []).
      * simpl. change (map RedactString l) with (RedactString <$> l). rewrite list_lookup_fmap.
        destruct (l !! i) as [s|]; simpl; [|split; [done|]; by intros _ []].
        split; [apply Hs|]. intros H1 H2. by destruct (Hsk s p H1 H2).
      * simpl. change (map RedactValue l) with (RedactValue <$> l). rewrite list_lookup_fmap.
        destruct (l !! i) as [x|]; simpl; [|split; [done|]; by intros _ []]. by apply IH.
Qed.

(** (C30) Everything else keeps its place and its type.  Along a path without
    sensitive keys the redacted value has something exactly where the value has
    something, of the same dynamic type, with the same length or the same keys;
    a string there is redacted as a string, and a value that is neither a string
    nor a container is unchanged.  A sensitive key that is present holds the
    marker. *)
Theorem RedactValue_keeps_structure v p k :
  secretPath p = false ->
  match at_path v p, at_path (RedactValue v) p with
  | Some x, Some x' =>
      shapeOf x' = shapeOf x /\
      (forall s, x = AString s -> x' = AString (RedactString s)) /\ (forall t, x = AOther t -> x' = x)
  | None, None => True
  | _, _ => False
  end /\
  (IsSensitiveKey k = true -> is_Some (at_path v (p ++ [Key k])%list) ->
   at_path (RedactValue v) (p ++ [Key k])%list = Some (AString "[REDACTED]")).
Proof.
  intros Hp. destruct (RedactValue_path v p k Hp) as [Hv Hk]. split; [|exact Hk]. rewrite Hv.
  destruct (at_path v p) as [x|]; simpl; [|done]. split; [apply RedactValue_shape|]. by split; intros ? ->.
Qed.

(** ** Card numbers *)

Lemma luhnLoop_shift r d n : luhnLoop r d n = Z.add n <$> luhnLoop r d 0.
Proof.
  revert d n. induction r as [|c r IH]; intros d n; cbn [luhnLoop].
  - simpl. f_equal. lia.
  - destruct (isDigit c); [|done]. rewrite IH, (IH _ (0 + _)). destruct (luhnLoop r _ 0); simpl; [|done].
    f_equal. lia.
Qed.

Lemma luhnLoop_app a : forall b d n,
  luhnLoop (a +:+ b) d n = (m ← luhnLoop a d n; luhnLoop b (xorb d (Nat.odd (String.length a))) m).
Proof.
  induction a as [|c a IH]; intros b d n.
  - simpl. by rewrite xorb_false_r.
  - rewrite sapp_cons. cbn [luhnLoop]. destruct (isDigit c); [|done]. rewrite IH.
    destruct (luhnLoop a _ _); simpl; [|done]. f_equal.
    rewrite Nat.odd_succ, <- Nat.negb_odd. by destruct d, (Nat.odd _).
Qed.

Lemma digit_value c : isDigit c = true -> 0 <= byteZ c - 48 <= 9.
Proof.
  unfold isDigit, in_range. rewrite andb_true_iff, !Z.leb_le.
  change (byteZ "0") with 48. change (byteZ "9") with 57. lia.
Qed.

Lemma byteZ_inj c c' : byteZ c = byteZ c' -> c = c'.
Proof.
  unfold byteZ. intros H. apply N2Z.inj in H.
  by rewrite <- (ascii_N_embedding c), <- (ascii_N_embedding c'), H.
Qed.

(** Doubling and adding the digits permutes the ten digits. *)
Lemma luhnDigit_inj d c c' :
  isDigit c = true -> isDigit c' = true -> luhnDigit d c mod 10 = luhnDigit d c' mod 10 -> c = c'.
Proof.
  intros Hc%digit_value Hc'%digit_value H. apply byteZ_inj.
  assert (Hr : forall x, 0 <= x <= 9 -> x = 0 \/ x = 1 \/ x = 2 \/ x = 3 \/ x = 4 \/ x = 5 \/ x = 6 \/ x = 7 \/ x = 8 \/ x = 9)
    by lia.
  unfold luhnDigit in H. apply Hr in Hc, Hc'.
  destruct d; repeat destruct Hc as [Hc|Hc]; repeat destruct Hc' as [Hc'|Hc'];
    rewrite ?Hc, ?Hc' in H; vm_compute in H; try done; lia.
Qed.

(** The checksum catches every mistyped digit: replacing one digit of a valid
    number by another makes it invalid.  A bare number of 13 to 19 digits is
    redacted exactly if it is valid, so such a number is logged in clear. *)
Theorem luhn_detects_digit_error a c c' b :
  luhnValid (a +:+ String c b) = true -> isDigit c' = true -> c <> c' ->
  luhnValid (a +:+ String c' b) = false /\
  (4 <= len (a +:+ String c' b) -> isNumeric (a +:+ String c' b) = true ->
   RedactString (a +:+ String c' b) = a +:+ String c' b).
Proof.
  intros H Hd Hne.
  assert (Hf : luhnValid (a +:+ String c' b) = false).
  { revert H. unfold luhnValid. rewrite !srev_app_distr, !srev_cons, !sapp_assoc, !luhnLoop_app.
    destruct (luhnLoop (srev b) false 0) as [m|]; [|done]. cbn [mbind option_bind].
    rewrite !sapp_cons, !sapp_nil_l. cbn [luhnLoop]. rewrite Hd.
    set (d := xorb false _). destruct (isDigit c) eqn:Hc; [|done].
    rewrite (luhnLoop_shift _ _ (m + luhnDigit d c)), (luhnLoop_shift _ _ (m + luhnDigit d c')).
    destruct (luhnLoop (srev a) (negb d) 0) as [n|]; [|done]. cbn [fmap option_fmap option_map].
    intros H%Z.eqb_eq. apply Z.eqb_neq. intros H'. apply Hne, (luhnDigit_inj d); [done|done|].
    assert (Hm : (luhnDigit d c - luhnDigit d c') mod 10 = 0).
    { replace (luhnDigit d c - luhnDigit d c') with ((m + luhnDigit d c + n) - (m + luhnDigit d c' + n)) by lia.
      rewrite Zminus_mod, H, H'. done. }
    apply Z.mod_divide in Hm as [q Hq]; [|lia].
    replace (luhnDigit d c) with (luhnDigit d c' + q * 10) by lia. by rewrite Z.mod_add. }
  split; [done|]. intros Hl Hn. unfold RedactString, looksLikePAN. rewrite Hn, Hf.
  destruct (Z.ltb_spec (len (a +:+ String c' b)) 4); [done|]. by destruct (_ || _).
Qed.

(** ** The middleware *)

(** Two requests with the same shape that differ only under sensitive names. *)
Record differOnlyInSecrets (unmarshal : string -> option any) (req req' : Request) : Prop := {
  same_rest : withBody (withURL (withHeader req' (Header req)) (ReqURL req)) (ReqBody req) (ContentLength req) = req;
  same_length : ContentLength req' = ContentLength req;
  same_headers k : IsSensitiveKey k = false -> Header req' !! k = Header req !! k;
  same_names k : is_Some (Header req' !! k) <-> is_Some (Header req !! k);
  same_url : match ReqURL req, ReqURL req' with
             | Some u, Some u' =>
                 Path u' = Path u /\
                 (forall k, IsSensitiveKey k = false -> Query (RawQuery u') !! k = Query (RawQuery u) !! k) /\
                 (forall k, is_Some (Query (RawQuery u') !! k) <-> is_Some (Query (RawQuery u) !! k))
             | None, None => True
             | _, _ => False
             end;
  same_body : ReqBody req' = ReqBody req \/
    exists b b' v p u,
      Contains (ToLower (hget (Header req) "Content-Type")) "application/json" = true /\
      ReqBody req = Some {| BodyBytes := b; BodyErr := None |} /\
      ReqBody req' = Some {| BodyBytes := b'; BodyErr := None |} /\
      b <> "" /\ b' <> "" /\
      unmarshal b = Some v /\ unmarshal b' = Some (assign v p u) /\ secretPath p = true;
}.

Lemma redactValues_map (m m' : gmap string (list string)) :
  (forall k, IsSensitiveKey k = false -> m' !! k = m !! k) ->
  (forall k, is_Some (m' !! k) <-> is_Some (m !! k)) ->
  map_imap (fun k vs => Some (redactValues k vs)) m' = map_imap (fun k vs => Some (redactValues k vs)) m.
Proof.
  intros Hs Hd. apply map_eq. intros k. rewrite !map_lookup_imap.
  destruct (IsSensitiveKey k) eqn:Ek; [|by rewrite Hs].
  specialize (Hd k). unfold redactValues. rewrite Ek.
  destruct (m' !! k) as [x|], (m !! k) as [y|]; simpl; [done| | |done].
  - destruct (proj1 Hd (ex_intro _ x eq_refl)) as [? [=]].
  - destruct (proj2 Hd (ex_intro _ y eq_refl)) as [? [=]].
Qed.

Lemma REDACTED_no_token : looksLikeToken "REDACTED" = false.
Proof. reflexivity. Qed.

(** The next handler cannot tell two requests apart that differ only in the
    values of sensitive headers, of sensitive query parameters or below a sensitive
    key of a JSON body; and no header value it sees looks like a token. *)
Theorem RedactionMiddleware_hides {W} unmarshal marshal (next : handler W) req req' wtr w
    (Hm : forall v, is_Some (marshal (RedactValue v))) :
  differOnlyInSecrets unmarshal req req' ->
  RedactionMiddleware unmarshal marshal next req' wtr w = RedactionMiddleware unmarshal marshal next req wtr w /\
  (forall k vs v, Header (redactRequest unmarshal marshal req) !! k = Some vs -> In v vs ->
     looksLikeToken v = false).
Proof.
  intros [Hrest Hlen Hh Hn Hu Hb]. split.
  - unfold RedactionMiddleware. f_equal.
    assert (Hct : hget (Header req') "Content-Type" = hget (Header req) "Content-Type")
      by (unfold hget; by rewrite Hh).
    assert (Hred : redactHeaders (Header req') = redactHeaders (Header req)) by by apply redactValues_map.
    assert (Hbody : forall b b' v p u, Contains (ToLower (hget (Header req) "Content-Type")) "application/json" = true ->
      b <> "" -> b' <> "" -> unmarshal b = Some v -> unmarshal b' = Some (assign v p u) -> secretPath p = true ->
      redactBody unmarshal marshal b' (hget (Header req) "Content-Type") =
      redactBody unmarshal marshal b (hget (Header req) "Content-Type")).
    { intros b b' v p u Hc H1 H2 H3 H4 H5. unfold redactBody. rewrite Hc, H3, H4.
      apply String.eqb_neq in H1, H2. rewrite H1, H2, RedactValue_assign by done.
      by destruct (Hm v) as [out ->]. }
    destruct req as [m1 u1 h1 r1 c1 b1 ru1 rp1 pv1 cx1], req' as [m2 u2 h2 r2 c2 b2 ru2 rp2 pv2 cx2].
    unfold withBody, withURL, withHeader in Hrest. simpl in *. injection Hrest as -> -> -> -> -> ->. subst c2.
    unfold redactRequest, withBody, withURL, withHeader. simpl. rewrite Hct, Hred.
    assert (HuE : match u2 with Some u => Some {| Path := Path u; RawQuery := Encode (redactQuery (Query (RawQuery u))) |} | None => None end =
                  match u1 with Some u => Some {| Path := Path u; RawQuery := Encode (redactQuery (Query (RawQuery u))) |} | None => None end).
    { destruct u1 as [u1|], u2 as [u2|]; try done. destruct Hu as (Hp & Hq & Hd). rewrite Hp.
      unfold redactQuery. by rewrite (redactValues_map (Query (RawQuery u1)) (Query (RawQuery u2))). }
    destruct Hb as [->|(b & b' & v & p & u & Hc & -> & -> & H1 & H2 & H3 & H4 & H5)];
      destruct u1 as [u1|], u2 as [u2|]; try done; simpl in *;
      rewrite ?(Hbody b b' v p u) by done; by rewrite ?HuE.
  - intros k vs v.
    assert (Hhd : Header (redactRequest unmarshal marshal req) = redactHeaders (Header req)).
    { unfold redactRequest. destruct (ReqURL req), (ReqBody req) as [[? []]|]; done. }
    rewrite Hhd. unfold redactHeaders. rewrite map_lookup_imap.
    destruct (Header req !! k) as [vs0|]; [|done]. intros [= <-]. unfold redactValues.
    destruct (IsSensitiveKey k); [by intros [<-|[]]|].
    intros (v0 & <- & _)%in_map_iff. by destruct (looksLikeToken v0) eqn:E.
Qed.

(** ** What gets past *)

(** A camel-case key is one word; a number glued to an address, or of more than
    16 digits inside a text, has no word boundary where the pattern wants one. *)
Definition camelKeys : list string := ["accessToken"; "refreshToken"; "clientSecret"; "cardNumber"; "privateKey"].

(** Redaction is incomplete: the camel-case spellings of sensitive keys are not
    sensitive; an identifier right behind an address survives, though redacting the
    result once more removes it; a valid 19-digit card number is removed when it
    stands alone but not inside a text. *)
Theorem redaction_gaps :
  Forall (fun k => IsSensitiveKey k = false) camelKeys /\
  RedactString "a@b.co123-45-6789" = "[REDACTED]123-45-6789" /\
  RedactString (RedactString "a@b.co123-45-6789") = "[REDACTED][REDACTED]" /\
  RedactString "4111111111111111110" = "[REDACTED]" /\
  RedactString "card 4111111111111111110" = "card 4111111111111111110".
Proof. split; [repeat constructor|]. split_and!; vm_compute; reflexivity. Qed.

(** The token heuristic hits ordinary headers: what a browser sends as Accept,
    and the content type of a form upload with its boundary, reach the handler as
    REDACTED. *)
Theorem ordinary_headers_redacted unmarshal marshal req :
  (Header req !! "Accept" = Some ["text/html,application/xhtml+xml,application/xml;q=0.9"] ->
   hget (Header (redactRequest unmarshal marshal req)) "Accept" = "REDACTED") /\
  (Header req !! "Content-Type" = Some ["multipart/form-data; boundary=----WebKitFormBoundary7MA4YWxkTrZu0gW"] ->
   hget (Header (redactRequest unmarshal marshal req)) "Content-Type" = "REDACTED").
Proof.
  assert (Hhd : Header (redactRequest unmarshal marshal req) = redactHeaders (Header req)).
  { unfold redactRequest. destruct (ReqURL req), (ReqBody req) as [[? []]|]; done. }
  split; intros H; unfold hget; rewrite Hhd; unfold redactHeaders; rewrite map_lookup_imap;
    [change (CanonicalKey "Accept") with "Accept"|change (CanonicalKey "Content-Type") with "Content-Type"];
    rewrite H; vm_compute; reflexivity.
Qed.

(** ** Witnesses *)

Definition demoValue : any :=
  AMap [("user", AMap [("Access-Token", AString "abc"); ("mail", AString "to user@example.com")]);
        ("tags", AStrings ["x"; "123-45-6789"])].

Lemma RedactValue_hides_witness :
  RedactValue (assign demoValue [Key "user"; Key "Access-Token"] (AString "xyz")) = RedactValue demoValue.
Proof. apply (RedactValue_hides demoValue [Key "user"; Key "Access-Token"]). reflexivity. Defined.

Lemma RedactValue_keeps_structure_witness :
  at_path (RedactValue demoValue) [Key "user"; Key "Access-Token"] = Some (AString "[REDACTED]") /\
  exists x, at_path (RedactValue demoValue) [Key "tags"] = Some x /\ shapeOf x = ShStrings 2.
Proof.
  split.
  - apply (proj2 (RedactValue_keeps_structure demoValue [Key "user"] "Access-Token" eq_refl)).
    + reflexivity.
    + exists (AString "abc"). reflexivity.
  - eexists. split; [reflexivity|].
    exact (proj1 (proj1 (RedactValue_keeps_structure demoValue [Key "tags"] "" eq_refl))).
Defined.
(** The Kelvin sign is a k, the dotted capital I an i. *)
Definition kelvin : string := "to" +:+ b3 226 132 170 +:+ "en".
Lemma IsSensitiveKey_words_witness : IsSensitiveKey kelvin = true.
Proof.
  assert (H : spells kelvin [116; 111; 8490; 101; 110]).
  { change kelvin with (encodeRunes [116; 111; 8490; 101; 110]). apply spells_encodeRunes.
    repeat (constructor; [left; lia|]). constructor. }
  apply (IsSensitiveKey_words kelvin [116; 111; 8490; 101; 110] H). exists "token", [], [].
  split; [|vm_compute; reflexivity]. do 6 right. left. reflexivity.
Defined.
Example RedactValue_tags :
  at_path (RedactValue demoValue) [Key "tags"; Idx 1] = Some (AString "[REDACTED]").
Proof. reflexivity. Qed.

Lemma luhn_detects_digit_error_witness :
  luhnValid "4111111111111111" = true /\ RedactString "4111111111111112" = "4111111111111112".
Proof.
  split; [reflexivity|].
  apply (luhn_detects_digit_error "411111111111111" "1" "2" ""); vm_compute; congruence.
Defined.

Definition demoHeader (token : string) : headers := {[ "Authorization" := [token] ]}.
Definition demoReq (token : string) : Request :=
  {| Method := "GET"; ReqURL := None; Header := demoHeader token; RemoteAddr := "10.0.0.7:5123";
     ContentLength := 0; ReqBody := None; RequestURI := ""; ReqPattern := ""; PathValues := ∅; Ctx := [] |}.
Definition demoUnmarshal (s : string) : option any := Some (AString s).
Definition demoMarshal (v : any) : option string := Some (match v with AString s => s | _ => "" end).
Definition seeAuthorization : handler Z := fun req wtr w =>
  (w, Write wtr (ChText (hget (Header req) "Authorization")), Returned).

Lemma RedactionMiddleware_hides_witness :
  RedactionMiddleware demoUnmarshal demoMarshal seeAuthorization (demoReq "Bearer b") newWriter 0 =
  RedactionMiddleware demoUnmarshal demoMarshal seeAuthorization (demoReq "Bearer a") newWriter 0.
Proof.
  apply (RedactionMiddleware_hides demoUnmarshal demoMarshal seeAuthorization (demoReq "Bearer a") (demoReq "Bearer b")).
  - intros v. eexists. reflexivity.
  - constructor; try reflexivity.
    + intros k Hk. unfold demoReq, demoHeader. simpl. destruct (decide (k = "Authorization")) as [->|Hne].
      * vm_compute in Hk. discriminate.
      * rewrite !lookup_singleton_ne by congruence. reflexivity.
    + intros k. unfold demoReq, demoHeader. simpl. destruct (decide (k = "Authorization")) as [->|Hne].
      * rewrite !lookup_singleton_eq. split; intros; eexists; reflexivity.
      * rewrite !lookup_singleton_ne by congruence. reflexivity.
    + left. reflexivity.
Defined.

Definition browserHeaders : headers := {[ "Accept" := ["text/html,application/xhtml+xml,application/xml;q=0.9"] ]}.
Lemma ordinary_headers_redacted_witness :
  hget (Header (redactRequest demoUnmarshal demoMarshal (withHeader (demoReq "") browserHeaders))) "Accept" = "REDACTED".
Proof.
  apply (ordinary_headers_redacted demoUnmarshal demoMarshal (withHeader (demoReq "") browserHeaders)). reflexivity.
Defined.
