(* ===== verification/LogLine.v ===== *)
(** * What is logged (src/logging/runtime: handler, redaction, wrappers, levels)

    The attributes of a record, their redaction in the text and in the JSON
    format, and the line the text handler writes. *)

From S2P Require Import Prelude GoStrings Regex Http Requests Redact.

Open Scope string_scope.
Open Scope Z_scope.

(** ** Levels and modes *)

Definition LevelDebug : Z := -4.
Definition LevelInfo : Z := 0.
Definition LevelWarn : Z := 4.
Definition LevelError : Z := 8.
Definition LevelFatal : Z := LevelError + 4.

Inductive RedactMode : Type := RedactStrict | RedactKeysOnly | RedactOff.

Definition parseLevel (lvl : string) : Z :=
  let l := ToLower lvl in
  if String.eqb l "debug" then LevelDebug
  else if String.eqb l "info" then LevelInfo
  else if String.eqb l "warn" then LevelWarn
  else if String.eqb lvl "" then LevelInfo else LevelError.
Definition Enabled (current : Z) (level : string) : bool := current <=? parseLevel level.
Definition DebugEnabled (current : Z) : bool := current <=? LevelDebug.
Definition levelLabel (level : Z) : string :=
  if LevelFatal <=? level then "[FATAL]"
  else if LevelError <=? level then "[ERROR]"
  else if LevelWarn <=? level then "[WARN]"
  else if LevelInfo <=? level then "[INFO]"
  else "[DEBUG]".

(** ** Attributes *)

(** [slog.Value] by kind.  Durations, times and floats carry their text; an [any]
    that is an error carries its message, one that is a level its JSON text; a
    LogValuer what it resolves to. *)
Inductive value : Type :=
  | VString (s : string)
  | VInt (n : Z)
  | VFloat (text : string)
  | VBool (b : bool)
  | VGroup (attrs : list (string * value))
  | VAny (a : any)
  | VError (msg : string)
  | VLevel (lv : Z) (json : string)
  | VText (text : string)
  | VLogValuer (resolved : value).
Definition attr : Type := string * value.

Fixpoint Resolve (v : value) : value := match v with VLogValuer v => Resolve v | _ => v end.

Definition AttrError (err : string) : attr := ("error", VError err).
Definition AttrRequestID (id : string) : attr := ("request_id", VString id).
Definition AttrCorrelationID (id : string) : attr := ("correlation_id", VString id).
Definition AttrUserID (id : string) : attr := ("user_id", VString id).
Definition AttrSessionID (id : string) : attr := ("session_id", VString id).
Definition AttrDetails (details : list (string * any)) : attr := ("details", VAny (AMap details)).
Definition idAttr (f : string -> attr) (id : string) : list attr :=
  if String.eqb id "" then [] else [f id].
Definition FromContext (ctx : context) : list attr :=
  (idAttr AttrRequestID (stringValue ctx REQUEST_ID_KEY) ++
   idAttr AttrCorrelationID (stringValue ctx CORRELATION_ID_KEY) ++
   idAttr AttrUserID (stringValue ctx USER_ID_KEY) ++
   idAttr AttrSessionID (stringValue ctx SESSION_ID_KEY))%list.
Definition AttrRequest (req : option Request) : attr :=
  match req with
  | None => ("request", VAny (AOther "null"))
  | Some req => ("request", VGroup [("method", VString (Method req));
                                    ("path", VString (match ReqURL req with Some u => Path u | None => "" end))])
  end.
Definition AttrResponse (status : option Z) : attr :=
  match status with
  | None => ("response", VAny (AOther "null"))
  | Some st => ("response", VGroup [("status", VInt st)])
  end.

(** ** Redaction of an attribute *)

Fixpoint redactAttrValue (mode : RedactMode) (key : string) (v : value) : value :=
  match mode with
  | RedactOff => v
  | _ =>
      if IsSensitiveKey key then VString redacted else
      match mode with
      | RedactKeysOnly => v
      | _ =>
          match v with
          | VGroup sub => VGroup (map (fun '(k, x) => (k, redactAttrValue mode k x)) sub)
          | VString s => VString (RedactString s)
          | VAny a => VAny (RedactValue a)
          | _ => v
          end
      end
  end.
Definition redactAttr (mode : RedactMode) (a : attr) : attr := (a.1, redactAttrValue mode a.1 a.2).

(** The function given to slog's JSON handler. *)
Definition jsonReplaceAttr (mode : RedactMode) (groups : list string) (a : attr) : attr :=
  let general := match mode with RedactOff => a | _ => redactAttr mode a end in
  match groups with
  | _ :: _ => general
  | [] =>
      if String.eqb a.1 "level" then
        match a.2 with
        | VLevel lv _ => if LevelFatal <=? lv then ("level", VString "FATAL") else a
        | _ => a
        end
      else if String.eqb a.1 "time" || String.eqb a.1 "msg" || String.eqb a.1 "source" then a
      else general
  end.

(** What slog's JSON handler writes of an attribute: it resolves the value, enters a
    group without asking, and passes every other attribute to the function. *)
Fixpoint jsonLeaves (mode : RedactMode) (groups : list string) (key : string) (v : value)
    : list (list string * attr) :=
  match v with
  | VGroup sub =>
      let groups := if String.eqb key "" then groups else (groups ++ [key])%list in
      flat_map (fun '(k, x) => jsonLeaves mode groups k x) sub
  | VLogValuer v => jsonLeaves mode groups key v
  | _ => [(groups, jsonReplaceAttr mode groups (key, v))]
  end.

(** ** The text format *)

Section Text.
(** unicode.IsPrint beyond ASCII, encoding/json, and fmt for a request id that is
    not a string. *)
Variable isPrint : Z -> bool.
Variable marshal : any -> option string.
Variable valueString : value -> string.

Definition backslash : ascii := "092".
Definition esc (c : ascii) : string := String backslash (String c "").
Definition hexEscape (c : ascii) (digits : list Z) : string :=
  String backslash (String c (fold_right (fun b s => hexByte b +:+ s) "" digits)).
Definition quoteASCII (c : ascii) : string :=
  let b := byteZ c in
  if (b =? 34) || (b =? 92) then esc c
  else if (32 <=? b) && (b <? 127) then String c ""
  else if b =? 7 then esc "a" else if b =? 8 then esc "b" else if b =? 12 then esc "f"
  else if b =? 10 then esc "n" else if b =? 13 then esc "r" else if b =? 9 then esc "t"
  else if b =? 11 then esc "v" else hexEscape "x" [b].
Fixpoint quoteBody (fuel : nat) (s : string) : string :=
  match fuel, s with
  | S fuel, String c r =>
      if byteZ c <? 128 then quoteASCII c +:+ quoteBody fuel r else
      match decodeRune s with
      | Some (n, w) =>
          (if isPrint n then stake w s
           else if n <? 65536 then hexEscape "u" [n / 256; n mod 256]
           else hexEscape "U" [0; n / 65536; n / 256 mod 256; n mod 256]) +:+ quoteBody fuel (sdrop w s)
      | None => hexEscape "x" [byteZ c] +:+ quoteBody fuel r
      end
  | _, _ => ""
  end.
(** [strconv.Quote]. *)
Definition Quote (s : string) : string :=
  String "034" (quoteBody (String.length s) s +:+ String "034" "").

Definition needsQuoting (s : string) : bool :=
  negb (sforall (fun c => negb (existsb (Ascii.eqb c) [" "; "009"; "010"; "013"; "034"; "="]%char)) s).
Definition quoteIfNeeded (s : string) : string := if needsQuoting s then Quote s else s.

Fixpoint formatAttr (k : string) (v : value) : string :=
  match v with
  | VString s => k +:+ "=" +:+ quoteIfNeeded s
  | VInt n => k +:+ "=" +:+ Itoa n
  | VFloat t => k +:+ "=" +:+ t
  | VBool b => k +:+ "=" +:+ (if b then "true" else "false")
  | VGroup sub =>
      Join (List.filter nonempty (map (fun '(k', x) => formatAttr (k +:+ "." +:+ k') x) sub)) " "
  | VError msg => k +:+ "=" +:+ Quote msg
  | VLevel _ json => k +:+ "=" +:+ quoteIfNeeded json
  | VAny a =>
      match marshal a with
      | None => k +:+ "=<error>"
      | Some s =>
          let s := if 200 <? len s then stake 197 s +:+ "..." else s in
          k +:+ "=" +:+ quoteIfNeeded s
      end
  | VText t => k +:+ "=" +:+ quoteIfNeeded t
  | VLogValuer v => formatAttr k v
  end.

(** [collect]: the request id is taken out, the rest formatted. *)
Definition collect (mode : RedactMode) (acc : string * list string) (a : attr) : string * list string :=
  if String.eqb a.1 "request_id" then (valueString a.2, acc.2) else
  let a := redactAttr mode a in
  let s := formatAttr a.1 a.2 in
  (acc.1, if nonempty s then (acc.2 ++ [s])%list else acc.2).

Record record := { Time : string; Level : Z; Msg : string; Attrs : list attr }.
Record textHandler := { thLevel : Z; thMode : RedactMode; preAttrs : list attr }.

Definition handlerEnabled (h : textHandler) (level : Z) : bool := thLevel h <=? level.
Definition WithAttrs (h : textHandler) (attrs : list attr) : textHandler :=
  {| thLevel := thLevel h; thMode := thMode h; preAttrs := (preAttrs h ++ attrs)%list |}.
Definition WithGroup (h : textHandler) (name : string) : textHandler := h.

(** [Handle]: the line given to the writer. *)
Definition Handle (h : textHandler) (rec : record) : string :=
  let '(requestID, attrs) := fold_left (collect (thMode h)) (preAttrs h ++ Attrs rec)%list ("-", []) in
  Time rec +:+ " " +:+ levelLabel (Level rec) +:+ " " +:+ requestID +:+ " | " +:+ Msg rec +:+
  (match attrs with [] => "" | _ => " | " +:+ Join attrs " " end) +:+ String "010" "".

(** ** The package's calls: the line written, if any *)

Definition log (h : textHandler) (level : Z) (t msg : string) (args : list attr) : option string :=
  if handlerEnabled h level then Some (Handle h {| Time := t; Level := level; Msg := msg; Attrs := args |}) else None.
Definition withErr (err : option string) (args : list attr) : list attr :=
  match err with Some e => (args ++ [AttrError e])%list | None => args end.
Definition Debug h t msg args := log h LevelDebug t msg args.
Definition Info h t msg args := log h LevelInfo t msg args.
Definition Warn h t msg args := log h LevelWarn t msg args.
Definition Error_ h t msg err args := log h LevelError t msg (withErr err args).
Definition Fatal h t msg err args := log h LevelFatal t msg (withErr err args).
End Text.

(** ** One record, one line *)

Definition oneLine (s : string) : bool := sforall (fun c => negb (Ascii.eqb c "010")) s.

Lemma oneLine_app a b : oneLine (a +:+ b) = oneLine a && oneLine b.
Proof. apply sforall_app. Qed.

Lemma oneLine_stake n s : oneLine s = true -> oneLine (stake n s) = true.
Proof.
  revert s. induction n as [|n IH]; intros [|c s]; try done. unfold oneLine in *. simpl.
  rewrite !andb_true_iff. intros [? ?]. split; [done|by apply IH].
Qed.

Lemma needsQuoting_oneLine s : needsQuoting s = false -> oneLine s = true.
Proof.
  unfold needsQuoting. intros H%negb_false_iff. revert H. unfold oneLine.
  induction s as [|c s IH]; [done|]. cbn [sforall existsb]. rewrite !andb_true_iff. intros [H1 H2].
  split; [|by apply IH]. destruct (Ascii.eqb c "010"); [|done]. by rewrite !orb_true_r in H1.
Qed.

Lemma hexByte_oneLine b : 0 <= b < 256 -> oneLine (hexByte b) = true.
Proof.
  intros Hb. assert (Hall : forallb (fun n => oneLine (hexByte (Z.of_nat n))) (List.seq 0 256) = true) by (vm_compute; done).
  rewrite forallb_forall in Hall. specialize (Hall (Z.to_nat b)). rewrite Z2Nat.id in Hall by lia.
  apply Hall. apply in_seq. lia.
Qed.

Lemma quoteASCII_oneLine c : oneLine (quoteASCII c) = true.
Proof. destruct c as [[] [] [] [] [] [] [] []]; vm_compute; reflexivity. Qed.

Lemma contByte_oneLine c x : contByte c = Some x -> Ascii.eqb c "010" = false /\ 0 <= x < 64.
Proof.
  unfold contByte. destruct (_ && _) eqn:E; [|done]. intros [= <-].
  apply andb_true_iff in E as [H1 H2]. rewrite Z.leb_le in H1. rewrite Z.ltb_lt in H2.
  split; [|lia]. apply Ascii.eqb_neq. intros ->. by vm_compute in H1.
Qed.

Lemma decodeRune_spec s n w :
  decodeRune s = Some (n, w) -> byteZ (match s with String c _ => c | "" => "000" end) <> 10 ->
  0 <= n <= 1114111 /\ oneLine (stake w s) = true.
Proof.
  unfold decodeRune. destruct s as [|c0 [|c1 r]]; try done.
  destruct (contByte c1) as [x1|] eqn:E1; [|done]. cbn [mbind option_bind].
  apply contByte_oneLine in E1 as [N1 B1].
  intros H Hc0. assert (N0 : Ascii.eqb c0 "010" = false) by (apply Ascii.eqb_neq; by intros ->).
  clear Hc0. revert H. destruct ((194 <=? byteZ c0) && _) eqn:Eb.
  { intros [= <- <-]. bool_to_prop. split; [lia|]. unfold oneLine. simpl. by rewrite N0, N1. }
  destruct r as [|c2 r]; [done|]. destruct (contByte c2) as [x2|] eqn:E2; [|done]. cbn [mbind option_bind].
  apply contByte_oneLine in E2 as [N2 B2].
  destruct ((224 <=? byteZ c0) && _) eqn:Eb3.
  { match goal with |- context [if ?b then _ else _] => destruct b eqn:E end; [|done].
    intros [= <- <-]. clear Eb. rewrite !andb_true_iff, !Z.leb_le in *. rewrite Z.ltb_lt in Eb3.
    destruct E, Eb3. split; [lia|]. unfold oneLine. simpl. by rewrite N0, N1, N2. }
  destruct r as [|c3 r]; [done|]. destruct (contByte c3) as [x3|] eqn:E3; [|done]. cbn [mbind option_bind].
  apply contByte_oneLine in E3 as [N3 B3].
  match goal with |- context [if ?b then _ else _] => destruct b eqn:E end; [|done].
  intros [= <- <-]. clear Eb Eb3. rewrite !andb_true_iff, !Z.leb_le in E. destruct E as [[[? ?] ?] ?].
  split; [lia|]. unfold oneLine. simpl. by rewrite N0, N1, N2, N3.
Qed.

Lemma hexEscape_oneLine c ds :
  Ascii.eqb c "010" = false -> Forall (fun b => 0 <= b < 256) ds -> oneLine (hexEscape c ds) = true.
Proof.
  intros Hc H. unfold hexEscape, oneLine. simpl. rewrite Hc. simpl.
  induction H as [|b ds Hb _ IH]; [done|]. cbn [fold_right].
  rewrite sforall_app, IH, andb_true_r. by apply hexByte_oneLine.
Qed.

Lemma quoteBody_oneLine isPrint n s : oneLine (quoteBody isPrint n s) = true.
Proof.
  revert s. induction n as [|n IH]; intros [|c r]; try done. cbn [quoteBody].
  destruct (Z.ltb_spec (byteZ c) 128).
  { by rewrite oneLine_app, quoteASCII_oneLine, IH. }
  pose proof (N_ascii_bounded c) as Hb.
  destruct (decodeRune (String c r)) as [[m w]|] eqn:E.
  - apply decodeRune_spec in E as [Hm Hw]; [|simpl; lia].
    rewrite oneLine_app, IH, andb_true_r.
    destruct (isPrint m); [done|]. destruct (Z.ltb_spec m 65536); apply hexEscape_oneLine; try done;
      repeat constructor; try (apply Z.mod_pos_bound; lia); try apply Z.div_pos; try apply Z.div_lt_upper_bound; lia.
  - rewrite oneLine_app, IH, andb_true_r. apply hexEscape_oneLine; [done|]. repeat constructor; unfold byteZ; lia.
Qed.

Lemma Quote_oneLine isPrint s : oneLine (Quote isPrint s) = true.
Proof.
  unfold Quote, oneLine. simpl. rewrite sforall_app. simpl.
  by rewrite (quoteBody_oneLine isPrint (String.length s) s : sforall _ _ = true).
Qed.

Lemma quoteIfNeeded_oneLine isPrint s : oneLine (quoteIfNeeded isPrint s) = true.
Proof.
  unfold quoteIfNeeded. destruct (needsQuoting s) eqn:E; [apply Quote_oneLine|by apply needsQuoting_oneLine].
Qed.

(** The names, and the texts that are written without looking at them. *)
Fixpoint plainNames (v : value) : bool :=
  match v with
  | VGroup sub => forallb (fun '(k, x) => oneLine k && plainNames x) sub
  | VFloat t => oneLine t
  | VLogValuer v => plainNames v
  | _ => true
  end.
Definition plainAttr (a : attr) : bool := oneLine a.1 && plainNames a.2.

Section ValueInd.
Variable P : value -> Prop.
Hypothesis Hgroup : forall sub, Forall (fun kv => P kv.2) sub -> P (VGroup sub).
Hypothesis Hvaluer : forall v, P v -> P (VLogValuer v).
Hypothesis Hleaf : forall v, match v with VGroup _ | VLogValuer _ => False | _ => True end -> P v.
Fixpoint value_ind' (v : value) : P v :=
  match v with
  | VGroup sub =>
      Hgroup sub ((fix go l : Forall (fun kv => P kv.2) l :=
        match l with [] => Forall_nil_2 _ | kv :: l => Forall_cons_2 _ kv l (value_ind' kv.2) (go l) end) sub)
  | VLogValuer v => Hvaluer v (value_ind' v)
  | VString s => Hleaf (VString s) I
  | VInt n => Hleaf (VInt n) I
  | VFloat t => Hleaf (VFloat t) I
  | VBool b => Hleaf (VBool b) I
  | VAny a => Hleaf (VAny a) I
  | VError m => Hleaf (VError m) I
  | VLevel l j => Hleaf (VLevel l j) I
  | VText t => Hleaf (VText t) I
  end.
End ValueInd.

Lemma Join_oneLine l : forallb oneLine l = true -> oneLine (Join l " ") = true.
Proof.
  induction l as [|x l IH]; [done|]. cbn [forallb]. rewrite andb_true_iff. intros [H1 H2].
  destruct l as [|y l]; [done|]. rewrite Join_cons by done. by rewrite !oneLine_app, H1, IH.
Qed.

Lemma digits_oneLine s : sforall isDigit s = true -> oneLine s = true.
Proof.
  unfold oneLine. induction s as [|c s IH]; [done|]. cbn [sforall]. rewrite !andb_true_iff. intros [Hc Hs].
  split; [|by apply IH]. destruct (Ascii.eqb_spec c "010") as [->|]; [by vm_compute in Hc|done].
Qed.

Lemma Itoa_oneLine n : oneLine (Itoa n) = true.
Proof.
  unfold Itoa, pretty, pretty_Z. destruct n as [|p|p]; [done|apply digits_oneLine, pretty_N_digits|].
  rewrite oneLine_app. simpl. apply digits_oneLine, pretty_N_digits.
Qed.

Lemma formatAttr_oneLine isPrint marshal v :
  forall k, oneLine k = true -> plainNames v = true -> oneLine (formatAttr isPrint marshal k v) = true.
Proof.
  induction v as [sub IH|v IH|v Hv] using value_ind'; intros k Hk Hp.
  - cbn [formatAttr]. apply Join_oneLine. apply forallb_forall.
    intros x (Hin & _)%filter_In. apply in_map_iff in Hin as ([k' v] & <- & Hin).
    rewrite Forall_forall in IH. cbn [plainNames] in Hp. rewrite forallb_forall in Hp.
    specialize (Hp _ Hin). simpl in Hp. apply andb_true_iff in Hp as [Hk' Hv].
    apply (IH (k', v)); [by apply list_elem_of_In|by rewrite !oneLine_app, Hk, Hk'|done].
  - by apply IH.
  - destruct v; try done; cbn [formatAttr]; rewrite ?oneLine_app, ?Hk, ?quoteIfNeeded_oneLine, ?Quote_oneLine;
      try done.
    + by rewrite Itoa_oneLine.
    + by destruct b.
    + destruct (marshal a); by rewrite !oneLine_app, Hk, ?quoteIfNeeded_oneLine.
Qed.

Lemma redactAttrValue_plain mode v : forall k, plainNames v = true -> plainNames (redactAttrValue mode k v) = true.
Proof.
  induction v as [sub IH|v IH|v Hv] using value_ind'; intros k Hp.
  - destruct mode; cbn [redactAttrValue]; try done; destruct (IsSensitiveKey k); try done.
    cbn [plainNames] in *. rewrite forallb_forall in *. intros x Hin.
    apply in_map_iff in Hin as ([k' x'] & <- & Hin). specialize (Hp _ Hin). simpl in Hp.
    apply andb_true_iff in Hp as [-> Hp]. rewrite Forall_forall in IH. simpl.
    by apply (IH (k', x')); [apply list_elem_of_In|].
  - destruct mode; cbn [redactAttrValue]; try done; by destruct (IsSensitiveKey k).
  - destruct v; try done; destruct mode; cbn [redactAttrValue]; by destruct (IsSensitiveKey k).
Qed.

Section Line.
Variable isPrint : Z -> bool.
Variable marshal : any -> option string.
Variable valueString : value -> string.
Abbreviation collect_ := (collect isPrint marshal valueString).
Abbreviation Handle_ := (Handle isPrint marshal valueString).

Definition plainRecord (h : textHandler) (rec : record) : Prop :=
  oneLine (Time rec) = true /\
  Forall (fun a => plainAttr a = true /\ (a.1 = "request_id" -> oneLine (valueString a.2) = true))
    (preAttrs h ++ Attrs rec)%list.

Lemma collect_oneLine mode l acc :
  Forall (fun a => plainAttr a = true /\ (a.1 = "request_id" -> oneLine (valueString a.2) = true)) l ->
  oneLine acc.1 = true /\ forallb oneLine acc.2 = true ->
  oneLine (fold_left (collect_ mode) l acc).1 = true /\ forallb oneLine (fold_left (collect_ mode) l acc).2 = true.
Proof.
  intros Hl. revert acc. induction Hl as [|[k v] l [Ha Hid] _ IH]; intros acc Hacc; [done|].
  cbn [fold_left]. apply IH. unfold collect. cbn [fst snd].
  destruct (String.eqb_spec k "request_id") as [->|]; [split; [by apply Hid|apply Hacc]|].
  split; [apply Hacc|]. unfold nonempty. destruct (String.eqb _ "") eqn:E; [apply Hacc|].
  cbn [negb snd]. rewrite forallb_app. destruct Hacc as [_ ->]. simpl. rewrite andb_true_r.
  unfold plainAttr in Ha. apply andb_true_iff in Ha as [H1 H2].
  apply formatAttr_oneLine; [done|]. by apply redactAttrValue_plain.
Qed.

Lemma levelLabel_oneLine l : oneLine (levelLabel l) = true.
Proof. unfold levelLabel. by repeat destruct (_ <=? _). Qed.

(** (C32) A text record is one line as long as the time, the attribute names (those
    inside groups included), the texts of floating-point numbers, the message and
    the text of a request_id attribute have no newline, whatever the values of all
    other attributes, error messages and JSON texts included.  The message and the
    request id are written as they are: a message with a newline makes any line of
    the log follow, and a request_id with a newline breaks the record in two lines,
    the second of which begins with any text. *)
Theorem text_record_is_one_line h rec :
  plainRecord h rec ->
  (oneLine (Msg rec) = true ->
     exists line, Handle_ h rec = line +:+ String "010" "" /\ oneLine line = true) /\
  (forall m forged, preAttrs h = [] -> Handle_ h rec = forged +:+ String "010" "" ->
     Handle_ h {| Time := Time rec; Level := Level rec; Msg := m +:+ String "010" forged; Attrs := [] |} =
     Handle_ h {| Time := Time rec; Level := Level rec; Msg := m; Attrs := [] |} +:+ Handle_ h rec) /\
  (forall v id forged, preAttrs h = [] -> valueString v = id +:+ String "010" forged ->
     Handle_ h {| Time := Time rec; Level := Level rec; Msg := Msg rec; Attrs := [("request_id", v)] |} =
     (Time rec +:+ " " +:+ levelLabel (Level rec) +:+ " " +:+ id +:+ String "010" "") +:+
     (forged +:+ " | " +:+ Msg rec +:+ String "010" "")).
Proof.
  intros [Ht Ha]. split_and!.
  - intros Hm. unfold Handle.
    pose proof (collect_oneLine (thMode h) _ ("-", []) Ha (conj eq_refl eq_refl)) as Hc.
    destruct (fold_left _ _ _) as [rid attrs] eqn:E. destruct Hc as [H1 H2].
    exists (Time rec +:+ " " +:+ levelLabel (Level rec) +:+ " " +:+ rid +:+ " | " +:+ Msg rec +:+
            match attrs with [] => "" | _ => " | " +:+ Join attrs " " end).
    assert (Hj : oneLine match attrs with [] => "" | _ => " | " +:+ Join attrs " " end = true).
    { destruct attrs as [|a attrs]; [done|]. rewrite oneLine_app, Join_oneLine; done. }
    split; [by rewrite !sapp_assoc|]. rewrite !oneLine_app, Ht, levelLabel_oneLine, Hm, Hj.
    simpl in H1. by rewrite H1.
  - intros m forged Hp Hr. rewrite Hr. unfold Handle. cbn [Attrs Time Level Msg]. rewrite Hp.
    cbn. by rewrite !sapp_assoc.
  - intros v id forged Hp Hv. unfold Handle. cbn [Attrs Time Level Msg]. rewrite Hp. cbn [app fold_left].
    unfold collect. cbn [fst snd String.eqb Ascii.eqb Bool.eqb]. rewrite Hv, !sapp_assoc, sapp_nil_l. done.
Qed.

(** ** What the text format hides *)

(** Values that differ only under sensitive keys, as far as the mode looks. *)
Inductive hidden (mode : RedactMode) : string -> value -> value -> Prop :=
  | hidden_key k v v' : mode <> RedactOff -> IsSensitiveKey k = true -> hidden mode k v v'
  | hidden_any k a p u : mode = RedactStrict -> secretPath p = true -> hidden mode k (VAny a) (VAny (assign a p u))
  | hidden_group k l k' v v' r : mode = RedactStrict -> hidden mode k' v v' ->
      hidden mode k (VGroup (l ++ (k', v) :: r)) (VGroup (l ++ (k', v') :: r)).

Lemma hidden_redacted mode k v v' : hidden mode k v v' -> redactAttrValue mode k v = redactAttrValue mode k v'.
Proof.
  induction 1 as [k v v' Hm Hk|k a p u -> Hp|k l k' v v' r -> _ IH].
  - destruct mode; [| |done]; by destruct v, v'; cbn [redactAttrValue]; rewrite Hk.
  - cbn [redactAttrValue]. by rewrite RedactValue_assign.
  - cbn [redactAttrValue]. by rewrite !map_app, !map_cons, IH.
Qed.

(** In the text format the line does not depend on what a sensitive key holds:
    an attribute's own key in both redacting modes; in strict mode also a key inside
    groups and inside maps and lists. *)
Theorem text_line_hides h rec l k v v' r :
  hidden (thMode h) k v v' -> k <> "request_id" ->
  Handle_ h {| Time := Time rec; Level := Level rec; Msg := Msg rec; Attrs := l ++ (k, v) :: r |} =
  Handle_ h {| Time := Time rec; Level := Level rec; Msg := Msg rec; Attrs := l ++ (k, v') :: r |}.
Proof.
  intros Hh Hk. unfold Handle. cbn [Attrs Time Level Msg].
  rewrite !(assoc_L (++)%list), !fold_left_app. cbn [fold_left].
  assert (He : forall acc, collect_ (thMode h) acc (k, v) = collect_ (thMode h) acc (k, v')).
  { intros acc. unfold collect, redactAttr. cbn [fst snd]. apply String.eqb_neq in Hk. rewrite Hk.
    by rewrite (hidden_redacted _ _ _ _ Hh). }
  by rewrite He.
Qed.
End Line.

(** ** Where the formats disagree *)

(** The same attribute is not redacted alike in the two formats.  A group under
    a sensitive key is hidden in the text format, but the JSON handler only asks
    about the group's members; a sensitive key inside a group is hidden by the JSON
    handler in keys-only mode, but not in the text format; and a LogValuer's string
    is scanned by the JSON handler, but printed as it is in the text format. *)
Theorem formats_redact_differently isPrint marshal k k' s :
  IsSensitiveKey k = true -> IsSensitiveKey k' = false ->
  (redactAttr RedactStrict (k, VGroup [(k', VString s)]) = (k, VString redacted) /\
   (k <> "" -> jsonLeaves RedactStrict [] k (VGroup [(k', VString s)]) = [([k], (k', VString (RedactString s)))])) /\
  (redactAttr RedactKeysOnly (k', VGroup [(k, VString s)]) = (k', VGroup [(k, VString s)]) /\
   (k' <> "" -> jsonLeaves RedactKeysOnly [] k' (VGroup [(k, VString s)]) = [([k'], (k, VString redacted))])) /\
  (formatAttr isPrint marshal k' (redactAttr RedactStrict (k', VLogValuer (VString s))).2 =
     k' +:+ "=" +:+ quoteIfNeeded isPrint s /\
   (k' <> "" -> jsonLeaves RedactStrict ["g"] k' (VLogValuer (VString s)) = [(["g"], (k', VString (RedactString s)))])).
Proof.
  intros Hk Hk'. unfold redactAttr. cbn [fst snd redactAttrValue jsonLeaves formatAttr]. rewrite Hk, Hk'.
  split_and!; try done.
  - intros Hne. apply String.eqb_neq in Hne. rewrite Hne. cbn [flat_map app jsonLeaves jsonReplaceAttr].
    unfold redactAttr. cbn [fst snd redactAttrValue]. by rewrite Hk'.
  - intros Hne. apply String.eqb_neq in Hne. rewrite Hne. cbn [flat_map app jsonLeaves jsonReplaceAttr].
    unfold redactAttr. cbn [fst snd redactAttrValue]. by rewrite Hk.
  - intros _. cbn [jsonReplaceAttr]. unfold redactAttr. cbn [fst snd redactAttrValue]. by rewrite Hk'.
Qed.

(** ** Witnesses *)

Definition noPrint (n : Z) : bool := false.
Definition noJSON (a : any) : option string := None.
Definition stringOf (v : value) : string := match v with VString s => s | _ => "?" end.
Definition demoHandler : textHandler := {| thLevel := LevelInfo; thMode := RedactStrict; preAttrs := [] |}.
Definition demoRecord (attrs : list attr) : record :=
  {| Time := "2025-10-15T12:34:56Z"; Level := LevelWarn; Msg := "login"; Attrs := attrs |}.
Definition demoAttrs : list attr :=
  [AttrRequestID "r-1"; ("token", VString "abc"); ("note", VString "a b"); AttrError "bad user@example.com";
   AttrRequest None].

Example demo_line :
  Handle noPrint noJSON stringOf demoHandler (demoRecord [AttrRequestID "r-1"; ("token", VString "abc")]) =
  "2025-10-15T12:34:56Z [WARN] r-1 | login | token=[REDACTED]" +:+ String "010" "".
Proof. vm_compute. reflexivity. Qed.

Lemma text_record_is_one_line_witness :
  (exists line, Handle noPrint noJSON stringOf demoHandler (demoRecord demoAttrs) = line +:+ String "010" "" /\
     oneLine line = true) /\
  Handle noPrint noJSON stringOf demoHandler (demoRecord [AttrRequestID ("r" +:+ String "010" "forged")]) =
  "2025-10-15T12:34:56Z [WARN] r" +:+ String "010" ("forged | login" +:+ String "010" "").
Proof.
  destruct (text_record_is_one_line noPrint noJSON stringOf demoHandler (demoRecord demoAttrs)) as (H1 & _ & H3).
  - split; [reflexivity|]. repeat constructor; try reflexivity; intros H; discriminate.
  - split; [by apply H1|]. exact (H3 (VString ("r" +:+ String "010" "forged")) "r" "forged" eq_refl eq_refl).
Defined.

Lemma text_line_hides_witness :
  Handle noPrint noJSON stringOf demoHandler (demoRecord [("user", VGroup [("password", VString "a")])]) =
  Handle noPrint noJSON stringOf demoHandler (demoRecord [("user", VGroup [("password", VString "b")])]).
Proof.
  apply (text_line_hides noPrint noJSON stringOf demoHandler (demoRecord []) [] "user" _ _ []); [|discriminate].
  apply (hidden_group RedactStrict "user" [] "password" (VString "a") (VString "b") []); [reflexivity|].
  apply hidden_key; [discriminate|reflexivity].
Defined.

Lemma formats_redact_differently_witness :
  jsonLeaves RedactStrict [] "password" (VGroup [("value", VString "hunter2")]) =
  [(["password"], ("value", VString "hunter2"))].
Proof.
  apply (formats_redact_differently noPrint noJSON "password" "value" "hunter2"); [reflexivity|reflexivity|discriminate].
Defined.
