(* ===== verification/Logging.v ===== *)
(** * The runtime logger (src/logging/runtime)

    The asynchronous writer and the HTTP sink as transition systems over their
    channels, and the package-level logger that is swapped by Init and Close.  A
    step is one channel operation or one iteration of a select; what the
    destination does with a line is not looked at.  The byte buffers' pool is
    left out: a message is its bytes. *)

From S2P Require Import Prelude GoStrings Http Redact LogLine.

Open Scope string_scope.
Open Scope Z_scope.

(** [fanout]: a line goes to every writer. *)
Definition fanoutWrite {A} (write : string -> A -> A) (p : string) (writers : list A) : list A :=
  map (write p) writers.

Definition asyncQueueSize : nat := Z.to_nat 4096.
Definition sinkQueueSize : nat := Z.to_nat 4096.
Definition sinkBatchBytes : Z := 64 * 1024.
Definition sinkMaxAttempts : nat := 3.

(** ** The asynchronous writer *)

(** Where the goroutine [run] is: at its select, draining for a flush, returned,
    or crashed. *)
Inductive runPhase : Type :=
  | RunSelect
  | RunDrain (flush : nat)
  | RunDone
  | RunPanicked.
#[export] Instance runPhase_eq_dec : EqDecision runPhase.
Proof. solve_decision. Defined.

Record asyncWriter := {
  queue : list string;
  capacity : nat;
  closed : bool;                    (* the queue was closed *)
  phase : runPhase;
  written : list string;            (* what dst got *)
  acked : list nat;                 (* flushes acknowledged *)
  (* history *)
  sent : list string;               (* messages that entered the queue *)
  requested : list nat;             (* per flush, the number sent when it was taken up *)
  crashes : list string;            (* panics of callers *)
}.
Definition newAsyncWriter (size : nat) : asyncWriter :=
  {| queue := []; capacity := size; closed := false; phase := RunSelect; written := []; acked := [];
     sent := []; requested := []; crashes := [] |}.

Inductive event : Type :=
  | Write (p : string)       (* w.queue <- b *)
  | Receive                  (* b, ok := <-w.queue in run *)
  | Flush                    (* w.flushC <- ack meets <-w.flushC *)
  | Drain                    (* one round of drain *)
  | Close.                   (* close(w.queue) *)

Definition withPhase (w : asyncWriter) (p : runPhase) : asyncWriter :=
  {| queue := queue w; capacity := capacity w; closed := closed w; phase := p; written := written w;
     acked := acked w; sent := sent w; requested := requested w; crashes := crashes w |}.
(** Take the first message and write it to the destination. *)
Definition forward (w : asyncWriter) (b : string) (q : list string) : asyncWriter :=
  {| queue := q; capacity := capacity w; closed := closed w; phase := phase w;
     written := (written w ++ [b])%list; acked := acked w; sent := sent w; requested := requested w;
     crashes := crashes w |}.

(** A step; none while the operation blocks.  [Close] is guarded by a Once: the
    second one does nothing. *)
Definition step (w : asyncWriter) (e : event) : option asyncWriter :=
  match e with
  | Write p =>
      if closed w then
        Some {| queue := queue w; capacity := capacity w; closed := true; phase := phase w;
                written := written w; acked := acked w; sent := sent w; requested := requested w;
                crashes := ("send on closed channel" :: crashes w)%list |}
      else if bool_decide (length (queue w) < capacity w)%nat then
        Some {| queue := (queue w ++ [p])%list; capacity := capacity w; closed := false; phase := phase w;
                written := written w; acked := acked w; sent := (sent w ++ [p])%list;
                requested := requested w; crashes := crashes w |}
      else None
  | Receive =>
      match phase w, queue w with
      | RunSelect, b :: q => Some (forward w b q)
      | RunSelect, [] => if closed w then Some (withPhase w RunDone) else None
      | _, _ => None
      end
  | Flush =>
      match phase w with
      | RunSelect =>
          Some {| queue := queue w; capacity := capacity w; closed := closed w; phase := RunDrain (length (requested w));
                  written := written w; acked := acked w; sent := sent w;
                  requested := (requested w ++ [length (sent w)])%list; crashes := crashes w |}
      | _ => None
      end
  | Drain =>
      match phase w, queue w with
      | RunDrain _, b :: q => Some (forward w b q)
      | RunDrain id, [] =>
          (* receiving from a closed empty channel yields a nil buffer *)
          if closed w then Some (withPhase w RunPanicked) else
          Some {| queue := []; capacity := capacity w; closed := false; phase := RunSelect;
                  written := written w; acked := (id :: acked w)%list; sent := sent w;
                  requested := requested w; crashes := crashes w |}
      | _, _ => None
      end
  | Close =>
      Some {| queue := queue w; capacity := capacity w; closed := true; phase := phase w;
              written := written w; acked := acked w; sent := sent w; requested := requested w;
              crashes := crashes w |}
  end.

Fixpoint steps (w : asyncWriter) (es : list event) : option asyncWriter :=
  match es with
  | [] => Some w
  | e :: es => w' ← step w e; steps w' es
  end.
Definition reaches (size : nat) (es : list event) (w : asyncWriter) : Prop :=
  steps (newAsyncWriter size) es = Some w.

(** [Flush] returns when its request was acknowledged or [run] has returned,
    [Close] when [run] has. *)
Definition flushReturned (w : asyncWriter) (id : nat) : bool :=
  existsb (Nat.eqb id) (acked w) || bool_decide (phase w = RunDone).
Definition closeReturned (w : asyncWriter) : bool := closed w && bool_decide (phase w = RunDone).

(** *** Invariant *)

Definition writer_ok (w : asyncWriter) : Prop :=
  sent w = (written w ++ queue w)%list /\
  (length (queue w) <= capacity w)%nat /\
  (phase w = RunDone -> queue w = [] /\ closed w = true) /\
  (forall id n, requested w !! id = Some n ->
     (n <= length (sent w))%nat /\ (In id (acked w) -> (n <= length (written w))%nat)) /\
  (forall id, In id (acked w) -> (id < length (requested w))%nat) /\
  (forall id, phase w = RunDrain id -> (id < length (requested w))%nat).

Lemma writer_ok_new size : writer_ok (newAsyncWriter size).
Proof. unfold writer_ok. simpl. split_and!; try done. apply Nat.le_0_l. Qed.

Lemma forward_ok w b q ph :
  writer_ok w -> queue w = b :: q -> phase w = ph -> ph <> RunDone -> writer_ok (forward w b q).
Proof.
  intros (Hs & Hl & Hd & Hr & Ha & Hp) Hq <- Hne. unfold writer_ok, forward. simpl.
  rewrite Hq in *. split_and!.
  - by rewrite Hs, <- (assoc_L (++)%list).
  - simpl in Hl. lia.
  - done.
  - intros id n Hid. destruct (Hr id n Hid) as [H1 H2]. split; [done|]. intros H%H2.
    rewrite length_app. lia.
  - done.
  - done.
Qed.

Lemma step_ok w e w' : writer_ok w -> step w e = Some w' -> writer_ok w'.
Proof.
  intros Hok. pose proof Hok as (Hs & Hl & Hd & Hr & Ha & Hp).
  destruct e; unfold step.
  - destruct (closed w) eqn:Ec.
    { intros [= <-]. unfold writer_ok. simpl. by split_and!. }
    case_bool_decide as Hlt; [|done]. intros [= <-]. unfold writer_ok. simpl. split_and!; try done.
    + by rewrite Hs, <- (assoc_L (++)%list).
    + rewrite length_app. simpl. lia.
    + intros H. apply Hd in H as [_ H]. congruence.
    + intros id n Hid. destruct (Hr id n Hid) as [H1 H2]. split; [rewrite length_app; lia|done].
  - destruct (phase w) eqn:Ep, (queue w) eqn:Eq; try done.
    + destruct (closed w) eqn:Ec; [|done]. intros [= <-]. unfold writer_ok, withPhase. simpl.
      rewrite Eq. by split_and!.
    + intros [= <-]. by eapply forward_ok.
  - destruct (phase w) eqn:Ep; try done. intros [= <-]. unfold writer_ok. simpl. split_and!; try done.
    + intros id n [Hid|[Hge Hid]]%lookup_app_Some.
      * by apply Hr.
      * apply list_lookup_singleton_Some in Hid as [Hid <-].
        split; [done|]. intros H%Ha. lia.
    + intros id H%Ha. rewrite length_app. simpl. lia.
    + intros id [= <-]. rewrite length_app. simpl. lia.
  - destruct (phase w) as [|id| |] eqn:Ep, (queue w) as [|b q] eqn:Eq; try done.
    2: { intros [= <-]. by eapply forward_ok. }
    destruct (closed w) eqn:Ec; intros [= <-]; unfold writer_ok, withPhase; simpl.
    + rewrite Eq. split_and!; try done.
    + split_and!; try done.
      * intros id' n Hid. destruct (Hr id' n Hid) as [H1 H2]. split; [done|]. intros _.
        rewrite Hs, app_nil_r in H1. done.
      * intros id' [<-|H]; [by apply Hp|by apply Ha].
  - intros [= <-]. unfold writer_ok. simpl. split_and!; try done. intros H. by apply Hd in H as [? _].
Qed.

Lemma reaches_ok size es w : reaches size es w -> writer_ok w.
Proof.
  unfold reaches. assert (Hg : forall w0, writer_ok w0 -> steps w0 es = Some w -> writer_ok w);
    [|intros H; by eapply Hg; [apply writer_ok_new|]].
  induction es as [|e es IH]; simpl; intros w0 H0; [by intros [= <-]|].
  intros (w1 & H1 & H2)%bind_Some. eauto using step_ok.
Qed.

(** The messages of the writes a schedule completes: after a Close they panic. *)
Fixpoint submitted (es : list event) : list string :=
  match es with
  | [] => []
  | Write p :: es => p :: submitted es
  | Close :: _ => []
  | _ :: es => submitted es
  end.
(** The number of flushes requested. *)
Definition flushes (es : list event) : nat :=
  length (List.filter (fun e => match e with Flush => true | _ => false end) es).

(** A step adds to what was sent exactly the message it submits. *)
Lemma step_sent w e w' : step w e = Some w' ->
  sent w' = (sent w ++ if closed w then [] else submitted [e])%list /\
  closed w' = (closed w || match e with Close => true | _ => false end) /\ capacity w' = capacity w /\
  requested w' = (requested w ++ match e with Flush => [length (sent w)] | _ => [] end)%list.
Proof.
  destruct e; simpl; intros H.
  - destruct (closed w) eqn:Ec; [injection H as <-; simpl; by rewrite !app_nil_r|].
    case_bool_decide; [|done]. injection H as <-. simpl. by rewrite app_nil_r.
  - destruct (phase w), (queue w); try done; [destruct (closed w) eqn:Ec; [|done]|]; injection H as <-; simpl;
      rewrite ?Ec, ?orb_false_r; by destruct (closed w); rewrite ?app_nil_r.
  - destruct (phase w); try done. injection H as <-. simpl. rewrite orb_false_r. by destruct (closed w); rewrite ?app_nil_r.
  - destruct (phase w), (queue w); try done; [destruct (closed w) eqn:Ec|]; injection H as <-; simpl;
      rewrite ?Ec, ?orb_false_r; by destruct (closed w); rewrite ?app_nil_r.
  - injection H as <-. simpl. rewrite orb_true_r. by destruct (closed w); rewrite !app_nil_r.
Qed.

Lemma steps_sent es : forall w w', steps w es = Some w' ->
  sent w' = (sent w ++ if closed w then [] else submitted es)%list /\ capacity w' = capacity w.
Proof.
  induction es as [|e es IH]; simpl; intros w w'.
  { intros [= <-]. by destruct (closed w); rewrite app_nil_r. }
  intros (w1 & H1 & H2)%bind_Some. destruct (IH _ _ H2) as [E1 E2], (step_sent _ _ _ H1) as (F1 & F2 & F3 & _).
  split; [|congruence]. rewrite E1, F1, F2, <- (assoc_L (++)%list). f_equal.
  destruct (closed w); [done|]. by destruct e.
Qed.

Lemma steps_requested es : forall w w', steps w es = Some w' -> exists l, requested w' = (requested w ++ l)%list /\ length l = flushes es.
Proof.
  induction es as [|e es IH]; simpl; intros w w'.
  { intros [= <-]. exists []. by rewrite app_nil_r. }
  intros (w1 & H1 & H2)%bind_Some. destruct (IH _ _ H2) as (l & E1 & E2), (step_sent _ _ _ H1) as (_ & _ & _ & F).
  rewrite E1, F, <- (assoc_L (++)%list). eexists. split; [done|]. rewrite length_app, E2. unfold flushes. by destruct e.
Qed.

Lemma steps_app w es es' : steps w (es ++ es') = (w' ← steps w es; steps w' es').
Proof. revert w. induction es as [|e es IH]; intros w; simpl; [done|]. destruct (step w e); simpl; auto. Qed.

(** A flush waits for what was submitted before it. *)
Lemma reaches_requested size es1 es2 w : reaches size (es1 ++ Flush :: es2) w ->
  requested w !! flushes es1 = Some (length (submitted es1)).
Proof.
  unfold reaches. rewrite steps_app. intros (w1 & H1 & (w2 & H2 & H3)%bind_Some)%bind_Some.
  destruct (steps_requested _ _ _ H1) as (l1 & E1 & L1), (steps_requested _ _ _ H3) as (l3 & E3 & _).
  destruct (step_sent _ _ _ H2) as (_ & _ & _ & E2), (steps_sent _ _ _ H1) as [S1 _]. simpl in E1, S1.
  rewrite E3, E2, E1, S1. rewrite lookup_app_l by (rewrite length_app; simpl; lia).
  rewrite <- L1. by apply list_lookup_middle.
Qed.

(** Of two prefixes of one list the shorter is a prefix of the longer. *)
Lemma prefix_of_shorter {A} (a b c d : list A) : (a ++ b = c ++ d)%list -> (length a <= length c)%nat -> a `prefix_of` c.
Proof.
  intros H Hl. destruct (prefix_weak_total a c (c ++ d)%list) as [?|[k Hk]]; [rewrite <- H; by eexists|by eexists|done|].
  subst a. rewrite length_app in Hl. destruct k; [by rewrite app_nil_r|simpl in Hl; lia].
Qed.

(** The goroutine empties the queue by itself. *)
Lemma goroutine_empties w : (phase w = RunSelect \/ exists id, phase w = RunDrain id) ->
  exists es' w', Forall (fun e => e = Receive \/ e = Drain) es' /\ steps w es' = Some w' /\
    written w' = (written w ++ queue w)%list.
Proof.
  intros Hp. remember (queue w) as q eqn:Eq. symmetry in Eq. revert w Hp Eq.
  induction q as [|b q IH]; intros w Hp Eq.
  { exists [], w. by rewrite app_nil_r. }
  destruct (IH (forward w b q)) as (es' & w' & Hf & Hs & Hw); [exact Hp|done|].
  destruct Hp as [Hp|[id Hp]]; [exists (Receive :: es'), w'|exists (Drain :: es'), w'];
    (split; [by constructor; [auto|]|]); cbn [steps step]; rewrite Hp, Eq; cbn [mbind option_bind];
    (split; [done|]); rewrite Hw; cbn [written forward]; by rewrite <- (assoc_L (++)%list).
Qed.

(** (C15) No line is lost, under every schedule.  What was written followed by the queue,
    which holds at most [size], are the messages of all writes completed before a Close,
    each once and in order: a write waits for room, it does not drop.  When a flush
    was acknowledged every message submitted before it has been written; when the
    goroutine has ended, everything; and as long as it has neither ended nor panicked
    it can, by its own steps, write everything submitted. *)
Theorem asyncWriter_in_order size es w :
  reaches size es w ->
  submitted es = (written w ++ queue w)%list /\ (length (queue w) <= size)%nat /\
  (forall es1 es2, es = (es1 ++ Flush :: es2)%list -> In (flushes es1) (acked w) ->
     submitted es1 `prefix_of` written w) /\
  (phase w = RunDone -> written w = submitted es) /\
  (phase w = RunSelect \/ (exists id, phase w = RunDrain id) ->
     exists es' w', Forall (fun e => e = Receive \/ e = Drain) es' /\ steps w es' = Some w' /\
       written w' = submitted es).
Proof.
  intros Hreach. pose proof (reaches_ok _ _ _ Hreach) as (Hs & Hl & Hd & Hr & _).
  destruct (steps_sent _ _ _ Hreach) as [Hsent Hcap]. simpl in Hsent, Hcap. rewrite Hsent in Hs. rewrite Hcap in Hl.
  split_and!; [done|done| | |].
  - intros es1 es2 -> Hack. pose proof (reaches_requested _ _ _ _ Hreach) as Hq.
    destruct (Hr _ _ Hq) as [_ Hn]. specialize (Hn Hack).
    pose proof Hreach as H1. unfold reaches in H1. rewrite steps_app in H1. apply bind_Some in H1 as (w1 & H1 & H2).
    destruct (steps_sent _ _ _ H1) as [S1 _], (steps_sent _ _ _ H2) as [S2 _]. simpl in S1.
    rewrite S1 in S2. assert (length (submitted es1) <= length (written w))%nat as Hle by lia.
    rewrite Hsent, Hs in S2. apply (prefix_of_shorter _ _ _ _ (eq_sym S2) Hle).
  - intros H. apply Hd in H as [Hq _]. by rewrite Hs, Hq, app_nil_r.
  - intros H. rewrite Hs. by apply goroutine_empties.
Qed.

(** *** Crashes *)

(** Nothing reopens the queue, and callers' panics are not forgotten. *)
Lemma step_closed w e w' : step w e = Some w' -> closed w = true -> closed w' = true.
Proof.
  destruct e; simpl; intros H Hc.
  - rewrite Hc in H. by injection H as <-.
  - destruct (phase w), (queue w); try done; rewrite ?Hc in H; by injection H as <-.
  - destruct (phase w); try done. by injection H as <-.
  - destruct (phase w), (queue w); try done; rewrite ?Hc in H; by injection H as <-.
  - by injection H as <-.
Qed.

Lemma steps_closed w es w' : steps w es = Some w' -> closed w = true -> closed w' = true.
Proof.
  revert w. induction es as [|e es IH]; simpl; intros w; [by intros [= <-]|].
  intros (w1 & H1 & H2)%bind_Some Hc. eauto using step_closed.
Qed.

Lemma reaches_closed size es w : reaches size es w -> In Close es -> closed w = true.
Proof.
  unfold reaches. generalize (newAsyncWriter size) as w0. intros w0 H (l1 & l2 & ->)%in_split.
  rewrite steps_app in H. apply bind_Some in H as (w1 & _ & H). simpl in H.
  eapply steps_closed; [exact H|done].
Qed.

Definition healthy (w : asyncWriter) : Prop :=
  closed w = false /\ crashes w = [] /\ phase w <> RunPanicked /\ phase w <> RunDone.

Lemma step_healthy w e w' : e <> Close -> healthy w -> step w e = Some w' -> healthy w'.
Proof.
  intros Hne (Hc & Hcr & Hp & Hd). unfold healthy. destruct e; simpl; try done.
  - rewrite Hc. case_bool_decide; [|done]. by intros [= <-].
  - destruct (phase w) eqn:Ep, (queue w); rewrite ?Hc; intros [= <-]; simpl; rewrite Ep; by split_and!.
  - destruct (phase w) eqn:Ep; intros [= <-]; simpl; by split_and!.
  - destruct (phase w) eqn:Ep, (queue w); rewrite ?Hc; intros [= <-]; simpl; rewrite ?Ep; by split_and!.
Qed.

(** As long as the writer is not closed, no schedule crashes it.  Once it is
    closed every further log line panics in its caller, and a flush that the
    goroutine takes up when it has emptied the closed queue crashes the process. *)
Theorem asyncWriter_crashes_after_close size es w :
  reaches size es w ->
  (~ In Close es -> crashes w = [] /\ phase w <> RunPanicked) /\
  (In Close es ->
     (forall p, exists w', step w (Write p) = Some w' /\ crashes w' = ("send on closed channel" :: crashes w)%list) /\
     (phase w = RunSelect ->
        exists w', steps w (Flush :: repeat Drain (S (length (queue w)))) = Some w' /\ phase w' = RunPanicked)).
Proof.
  intros H. split.
  - intros Hn. assert (Hh : healthy w); [|by destruct Hh as (_ & ? & ? & _)].
    revert H. unfold reaches. assert (H0 : healthy (newAsyncWriter size)) by done. revert H0.
    generalize (newAsyncWriter size). induction es as [|e es IH]; simpl; intros w0 H0; [by intros [= <-]|].
    intros (w1 & H1 & H2)%bind_Some. apply (IH ltac:(intros ?; apply Hn; by right) w1); [|done].
    eapply step_healthy; [|done..]. intros ->. apply Hn. by left.
  - intros Hc. assert (Hcl : closed w = true) by by eapply reaches_closed. split.
    + intros p. simpl. rewrite Hcl. eauto.
    + intros Hph. cbn [steps step]. rewrite Hph. cbn [mbind option_bind].
      set (w1 := Build_asyncWriter _ _ _ _ _ _ _ _ _).
      assert (Hg : forall q w2, queue w2 = q -> closed w2 = true -> (exists id, phase w2 = RunDrain id) ->
        exists w', steps w2 (repeat Drain (S (length q))) = Some w' /\ phase w' = RunPanicked);
        [|apply (Hg (queue w) w1); [done|done|by eexists]].
      intros q. induction q as [|b q IH]; intros w2 Hq Hc2 (id & Hid).
      * cbn [length repeat steps step]. rewrite Hid, Hq, Hc2. simpl. eauto.
      * change (S (length (b :: q))) with (S (S (length q))).
        cbn [repeat steps step]. rewrite Hid, Hq. cbn [mbind option_bind].
        apply (IH (forward w2 b q)); [done|done|by exists id].
Qed.

(** ** The package-level logger *)

(** [slogger], [state] and [logLevel]: every Init makes a new generation of writer. *)
Record package := {
  generations : list asyncWriter; slogger : option nat; state : option nat; logLevel : Z
}.
Definition initial : package :=
  {| generations := []; slogger := None; state := None; logLevel := LevelInfo |}.

Inductive Format : Type := FormatJSON | FormatText.
Record Config := { cfgLevel : string; cfgFormat : Format; cfgRedact : RedactMode; cfgSinks : list string }.

Definition closeGeneration (g : option nat) (ws : list asyncWriter) : list asyncWriter :=
  match g with
  | Some i => match ws !! i with Some w => match step w Close with Some w' => <[i := w']> ws | None => ws end
                               | None => ws end
  | None => ws
  end.
Definition refused (cfg : Config) : bool :=
  match cfgFormat cfg, cfgSinks cfg with FormatText, _ :: _ => true | _, _ => false end.
Definition Init (cfg : Config) (s : package) : package * option error :=
  if refused cfg then
    (s, Some (Errorf "refusing to ship text-formatted logs to remote sinks; use FormatJSON"))
  else
    let new := length (generations s) in
    ({| generations := (closeGeneration (state s) (generations s) ++ [newAsyncWriter asyncQueueSize])%list;
        slogger := Some new; state := Some new; logLevel := parseLevel (cfgLevel cfg) |}, None).
Definition CloseLogger (s : package) : package :=
  {| generations := closeGeneration (state s) (generations s); slogger := slogger s; state := None;
     logLevel := logLevel s |}.
Definition SetLevel (level : string) (s : package) : package :=
  {| generations := generations s; slogger := slogger s; state := state s; logLevel := parseLevel level |}.
(** The write of a log call that loaded generation [g]; the first logger discards. *)
Definition logOn (g : option nat) (p : string) (s : package) : option package :=
  match g with
  | None => Some s
  | Some i =>
      w ← generations s !! i; w' ← step w (Write p);
      Some {| generations := <[i := w']> (generations s); slogger := slogger s; state := state s;
              logLevel := logLevel s |}
  end.
Definition crashed (s : package) : Prop := exists w, In w (generations s) /\ crashes w <> [].

Lemma closeGeneration_closed i w ws :
  ws !! i = Some w -> exists w', closeGeneration (Some i) ws !! i = Some w' /\ closed w' = true.
Proof.
  intros Hi. unfold closeGeneration. rewrite Hi. simpl.
  rewrite list_lookup_insert_eq by eauto using lookup_lt_Some. eauto.
Qed.

Lemma logOn_closed i w p s :
  generations s !! i = Some w -> closed w = true ->
  exists s', logOn (Some i) p s = Some s' /\ crashed s'.
Proof.
  intros Hi Hc. unfold logOn. rewrite Hi. simpl. rewrite Hc. simpl. eexists. split; [done|].
  eexists. split.
  - apply list_elem_of_In, (list_elem_of_lookup_2 _ i). simpl.
    by rewrite list_lookup_insert_eq by eauto using lookup_lt_Some.
  - done.
Qed.

(** A log call that loaded the logger before Init or Close replaced it panics
    when it writes afterwards; after Close so does every log call, because the
    closed logger stays the current one. *)
Theorem logging_across_swap_panics cfg s i w p :
  state s = Some i -> generations s !! i = Some w -> refused cfg = false ->
  (exists s', logOn (Some i) p (Init cfg s).1 = Some s' /\ crashed s') /\
  (exists s', logOn (Some i) p (CloseLogger s) = Some s' /\ crashed s') /\
  (slogger s = state s -> exists s', logOn (slogger (CloseLogger s)) p (CloseLogger s) = Some s' /\ crashed s').
Proof.
  intros Hst Hi Href. destruct (closeGeneration_closed i w _ Hi) as (w' & Hw' & Hc).
  assert (Hclose : exists s', logOn (Some i) p (CloseLogger s) = Some s' /\ crashed s').
  { apply (logOn_closed i w'); [|done]. unfold CloseLogger. rewrite Hst. exact Hw'. }
  split_and!; [|done|].
  - apply (logOn_closed i w'); [|done]. unfold Init. rewrite Href, Hst. cbn [generations fst].
    by apply lookup_app_l_Some.
  - intros Heq. unfold CloseLogger at 1. cbn [slogger]. by rewrite Heq, Hst.
Qed.

(** ** The HTTP sink *)

Module HTTPSink.

(** The answer to one attempt: [http.NewRequest] refused the URL, the transport
    failed, or a response with its status. *)
Inductive answer : Type :=
  | BadRequest
  | Failed
  | Answered (status : Z).

(** [post] of a non-empty body: the delays slept (milliseconds) and whether a
    response below 500 was received, given what the attempts were answered. *)
Fixpoint postFrom (left_ : nat) (attempt : Z) (answers : list answer) : list Z * bool :=
  match left_ with
  | O => ([], false)
  | S left_ =>
      let again := let '(ds, ok) := postFrom left_ (attempt + 1) (tl answers) in
                   ((attempt + 1) * 100 :: ds, ok) in
      match hd Failed answers with
      | BadRequest => ([], false)
      | Failed => again
      | Answered st => if st <? 500 then ([], true) else again
      end
  end.
Definition deliver (answers : list answer) : list Z * bool := postFrom sinkMaxAttempts 0 answers.

Record httpSink := {
  squeue : list string;
  scapacity : nat;
  sclosed : bool;
  srunning : bool;
  batch : string;
  posts : list string;              (* the bodies handed to deliver *)
  accepted : list string;           (* history: messages that entered the queue *)
  dropped : nat;                    (* history: messages lost to a full queue *)
}.
Definition newHTTPSink (size : nat) : httpSink :=
  {| squeue := []; scapacity := size; sclosed := false; srunning := true; batch := "";
     posts := []; accepted := []; dropped := 0 |}.

(** [post]: nothing for an empty batch; otherwise the batch is copied and reset. *)
Definition post (h : httpSink) : httpSink :=
  if Z.of_nat (String.length (batch h)) =? 0 then h else
  {| squeue := squeue h; scapacity := scapacity h; sclosed := sclosed h; srunning := srunning h;
     batch := ""; posts := (posts h ++ [batch h])%list; accepted := accepted h; dropped := dropped h |}.

Inductive sinkEvent : Type :=
  | SWrite (p : string)
  | SReceive
  | STick
  | SClose.

Definition takeUp (h : httpSink) (b : string) (q : list string) : httpSink :=
  {| squeue := q; scapacity := scapacity h; sclosed := sclosed h; srunning := srunning h;
     batch := batch h +:+ b; posts := posts h; accepted := accepted h; dropped := dropped h |}.
Definition stopped (h : httpSink) : httpSink :=
  {| squeue := squeue h; scapacity := scapacity h; sclosed := sclosed h; srunning := false;
     batch := batch h; posts := posts h; accepted := accepted h; dropped := dropped h |}.

(** A step; [None] while it blocks, [Some None] when the caller panics. *)
Definition sinkStep (h : httpSink) (e : sinkEvent) : option (option httpSink) :=
  match e with
  | SWrite p =>
      if sclosed h then Some None
      else if bool_decide (length (squeue h) < scapacity h)%nat then
        Some (Some {| squeue := (squeue h ++ [p])%list; scapacity := scapacity h; sclosed := false;
                      srunning := srunning h; batch := batch h; posts := posts h;
                      accepted := (accepted h ++ [p])%list; dropped := dropped h |})
      else
        Some (Some {| squeue := squeue h; scapacity := scapacity h; sclosed := false; srunning := srunning h;
                      batch := batch h; posts := posts h; accepted := accepted h; dropped := S (dropped h) |})
  | SReceive =>
      if srunning h then
        match squeue h with
        | b :: q =>
            let h1 := takeUp h b q in
            Some (Some (if sinkBatchBytes <=? Z.of_nat (String.length (batch h1)) then post h1 else h1))
        | [] => if sclosed h then Some (Some (stopped (post h))) else None
        end
      else None
  | STick => if srunning h then Some (Some (post h)) else None
  | SClose =>
      Some (Some {| squeue := squeue h; scapacity := scapacity h; sclosed := true; srunning := srunning h;
                    batch := batch h; posts := posts h; accepted := accepted h; dropped := dropped h |})
  end.

Fixpoint sinkSteps (h : httpSink) (es : list sinkEvent) : option (option httpSink) :=
  match es with
  | [] => Some (Some h)
  | e :: es =>
      match sinkStep h e with
      | Some (Some h') => sinkSteps h' es
      | r => r
      end
  end.

Definition slen (s : string) : Z := Z.of_nat (String.length s).

Definition sink_ok (h : httpSink) : Prop :=
  String.concat "" (accepted h) = String.concat "" (posts h) +:+ batch h +:+ String.concat "" (squeue h) /\
  (length (squeue h) <= scapacity h)%nat /\
  (forall b, In b (posts h) -> b <> "") /\
  slen (batch h) < sinkBatchBytes /\
  (srunning h = false -> squeue h = [] /\ batch h = "" /\ sclosed h = true).

Lemma concat_snoc l (b : string) : String.concat "" (l ++ [b])%list = String.concat "" l +:+ b.
Proof.
  induction l as [|x l IH]; simpl; [done|]. destruct l as [|y l]; simpl in *; [done|].
  by rewrite IH, sapp_assoc.
Qed.

Lemma concat_cons (x : string) l : String.concat "" (x :: l) = x +:+ String.concat "" l.
Proof. destruct l; simpl; [|done]. by rewrite sapp_nil_r. Qed.

Lemma post_ok h :
  String.concat "" (accepted h) = String.concat "" (posts h) +:+ batch h +:+ String.concat "" (squeue h) ->
  (length (squeue h) <= scapacity h)%nat ->
  (forall b, In b (posts h) -> b <> "") ->
  (srunning h = false -> squeue h = [] /\ batch h = "" /\ sclosed h = true) ->
  sink_ok (post h) /\ batch (post h) = "" /\ squeue (post h) = squeue h /\ sclosed (post h) = sclosed h.
Proof.
  intros H1 H2 H3 H4. unfold post. destruct (Z.eqb_spec (Z.of_nat (String.length (batch h))) 0) as [E|E].
  - assert (Hb : batch h = "") by (destruct (batch h); [done|simpl in E; lia]).
    unfold sink_ok. rewrite Hb in *. by split_and!.
  - unfold sink_ok. simpl. split_and!; try done.
    + rewrite H1, concat_snoc. by rewrite sapp_assoc.
    + intros b [Hin|[<-|[]]]%in_app_or; [by apply H3|]. intros Heq. by rewrite Heq in E.
    + intros Hr. destruct (H4 Hr) as (? & ? & ?). done.
Qed.

Lemma sinkStep_ok h e h' : sink_ok h -> sinkStep h e = Some (Some h') -> sink_ok h'.
Proof.
  intros (H1 & H2 & H3 & H4 & H5). destruct e; simpl.
  - destruct (sclosed h) eqn:Ec; [done|]. case_bool_decide as Hl; intros [= <-]; unfold sink_ok; simpl.
    + split_and!; try done.
      * rewrite !concat_snoc, H1. by rewrite !sapp_assoc.
      * rewrite length_app. simpl. lia.
      * intros Hr. destruct (H5 Hr) as (_ & _ & ?). congruence.
    + split_and!; try done.
  - destruct (srunning h) eqn:Er; [|done]. destruct (squeue h) as [|b q] eqn:Eq.
    + destruct (sclosed h) eqn:Ec; [|done]. intros [= <-].
      destruct (post_ok h) as ((P1 & P2 & P3 & P4 & _) & Pb & Pq & Pc); rewrite ?Eq; try done; [by rewrite Er|].
      unfold sink_ok, stopped. simpl. rewrite Pb, Pq, Pc, Eq in *. by split_and!.
    + intros [= <-].
      assert (T1 : String.concat "" (accepted h) = String.concat "" (posts h) +:+ batch (takeUp h b q) +:+ String.concat "" q).
      { rewrite H1, concat_cons. simpl. by rewrite sapp_assoc. }
      assert (T2 : (length q <= scapacity h)%nat) by (simpl in H2; lia).
      destruct (Z.leb_spec sinkBatchBytes (Z.of_nat (String.length (batch h +:+ b)))) as [Hge|Hlt].
      * apply (post_ok (takeUp h b q)); simpl; try done. by rewrite Er.
      * unfold sink_ok. split_and!; try done. simpl. by rewrite Er.
  - destruct (srunning h) eqn:Er; [|done]. intros [= <-]. apply post_ok; try done. by rewrite Er.
  - intros [= <-]. unfold sink_ok. simpl. split_and!; try done. intros Hr. by destruct (H5 Hr) as (? & ? & _).
Qed.

Lemma sinkSteps_ok es : forall h h', sink_ok h -> sinkSteps h es = Some (Some h') -> sink_ok h'.
Proof.
  induction es as [|e es IH]; simpl; intros h h' Hok; [by intros [= <-]|].
  destruct (sinkStep h e) as [[h1|]|] eqn:E; [|done..]. eauto using sinkStep_ok.
Qed.

(** (C33) Under every schedule the bodies posted, the batch being gathered and the
    queue are together exactly the lines accepted, in order: a line is lost only
    when the queue was full.  No body is empty, the batch stays below 64 KiB
    between steps, and when the goroutine has ended everything accepted was posted. *)
Theorem httpSink_posts_all_accepted size es h :
  sinkSteps (newHTTPSink size) es = Some (Some h) ->
  String.concat "" (accepted h) = String.concat "" (posts h) +:+ batch h +:+ String.concat "" (squeue h) /\
  (forall b, In b (posts h) -> b <> "") /\ slen (batch h) < sinkBatchBytes /\
  (srunning h = false -> String.concat "" (posts h) = String.concat "" (accepted h)).
Proof.
  intros H. assert (Hok : sink_ok h).
  { eapply sinkSteps_ok; [|exact H]. unfold sink_ok. simpl. split_and!; try done. apply Nat.le_0_l. }
  destruct Hok as (H1 & _ & H3 & H4 & H5). split_and!; try done.
  intros Hr. destruct (H5 Hr) as (Hq & Hb & _). rewrite H1, Hq, Hb. simpl.
  by rewrite !sapp_nil_r.
Qed.

(** At most three attempts are made, 100, 200 and 300 milliseconds apart, and a
    body counts as delivered exactly when an answer below 500 arrived. *)
Lemma postFrom_spec n : forall k answers,
  (length (postFrom n k answers).1 <= n)%nat /\
  ((postFrom n k answers).2 = true ->
   exists st, In (Answered st) (take n answers) /\ st < 500).
Proof.
  induction n as [|n IH]; intros k answers; simpl; [done|].
  destruct (IH (k + 1) (tl answers)) as [IH1 IH2].
  destruct (postFrom n (k + 1) (tl answers)) as [ds ok]. simpl in *.
  assert (Hrest : ok = true -> exists st, In (Answered st) (take (S n) answers) /\ st < 500).
  { intros H. destruct (IH2 H) as (st & Hin & Hst). exists st. split; [|done].
    destruct answers as [|a answers]; simpl in *; [by rewrite take_nil in Hin|by right]. }
  destruct answers as [|[| |st] answers]; simpl in *; try (split; [lia|done]).
  destruct (Z.ltb_spec st 500) as [Hlt|]; simpl; (split; [lia|]); [|done].
  intros _. exists st. split; [by left|done].
Qed.

End HTTPSink.

(** ** Witnesses *)

Definition demoRun : list event :=
  [Write "a"; Write "b"; Receive; Flush; Drain; Drain; Write "c"; Close; Receive; Receive].
Definition demoOpen : list event := [Write "a"; Write "b"; Receive].
Definition endOf (es : list event) : asyncWriter := default (newAsyncWriter 2) (steps (newAsyncWriter 2) es).

Lemma asyncWriter_in_order_witness :
  submitted demoRun = ["a"; "b"; "c"] /\
  (["a"; "b"] `prefix_of` written (endOf demoRun)) /\
  written (endOf demoRun) = submitted demoRun.
Proof.
  pose proof (asyncWriter_in_order 2 demoRun (endOf demoRun) eq_refl) as (_ & _ & Hf & Hd & _).
  split; [reflexivity|]. split.
  - apply (Hf [Write "a"; Write "b"; Receive] [Drain; Drain; Write "c"; Close; Receive; Receive] eq_refl).
    vm_compute. by left.
  - apply Hd. reflexivity.
Defined.

Lemma asyncWriter_crashes_after_close_witness :
  exists w', step (endOf (demoOpen ++ [Close])%list) (Write "x") = Some w' /\
             crashes w' = ["send on closed channel"].
Proof.
  refine (proj1 (proj2 (asyncWriter_crashes_after_close 2 (demoOpen ++ [Close])%list
    (endOf (demoOpen ++ [Close])%list) eq_refl) _) "x").
  do 3 right. left. reflexivity.
Defined.

Definition demoConfig : Config :=
  {| cfgLevel := "info"; cfgFormat := FormatJSON; cfgRedact := RedactStrict; cfgSinks := [] |}.
Definition demoPackage : package := (Init demoConfig initial).1.
Lemma logging_across_swap_panics_witness :
  exists s', logOn (slogger (CloseLogger demoPackage)) "shutting down" (CloseLogger demoPackage) = Some s' /\ crashed s'.
Proof.
  exact (proj2 (proj2 (logging_across_swap_panics demoConfig demoPackage 0%nat (newAsyncWriter asyncQueueSize)
    "shutting down" eq_refl eq_refl eq_refl)) eq_refl).
Defined.

Definition demoSink : list HTTPSink.sinkEvent :=
  [HTTPSink.SWrite "a"; HTTPSink.SWrite "b"; HTTPSink.SWrite "lost"; HTTPSink.SReceive; HTTPSink.STick;
   HTTPSink.SClose; HTTPSink.SReceive; HTTPSink.SReceive].
Definition demoSinkEnd : HTTPSink.httpSink :=
  match HTTPSink.sinkSteps (HTTPSink.newHTTPSink 2) demoSink with
  | Some (Some h) => h
  | _ => HTTPSink.newHTTPSink 2
  end.

Lemma httpSink_posts_all_accepted_witness :
  HTTPSink.posts demoSinkEnd = ["a"; "b"] /\ HTTPSink.dropped demoSinkEnd = 1%nat /\
  String.concat "" (HTTPSink.posts demoSinkEnd) = String.concat "" (HTTPSink.accepted demoSinkEnd).
Proof.
  split; [reflexivity|]. split; [reflexivity|].
  exact (proj2 (proj2 (proj2 (HTTPSink.httpSink_posts_all_accepted 2 demoSink demoSinkEnd eq_refl))) eq_refl).
Defined.
