(* ===== verification/Redis.v ===== *)
(** * The Redis client (src/db/redis/client.go)

    The wrappers around the go-redis client, which implement what the
    idempotency store needs, and the token bucket script together with what the
    distributed rate limiter does with it. *)

From S2P Require Import Prelude GoStrings Float64 Http Idempotency RateLimit.

Open Scope string_scope.
Open Scope Z_scope.

(** ** The go-redis client

    [None] stands for goredis.Nil; a duration of 0 for no expiration. *)
Class goredis (W : Type) := {
  rcGet : string -> W -> result (option string);
  rcGetDel : string -> W -> W * result (option string);
  rcMGet : list string -> W -> result (list (option string));
  rcSet : string -> string -> Z -> W -> W * option error;
  rcIncr : string -> W -> W * result Z;
  rcSetNX : string -> string -> Z -> W -> W * result bool;
  rcPing : W -> option error;
  rcExists : string -> W -> result Z;
  rcDel : string -> W -> W * option error;
  rcExpire : string -> Z -> W -> W * option error;
}.

(** ** Construction and deadlines *)

Record RedisConfig := { Addr : string; Password : string; DB : Z; DialTimeout : Z; OpTimeout : Z }.
(** Address, password and database of the underlying client; [opTimeout]. *)
Record Client := { rcAddr : string; rcPassword : string; rcDB : Z; opTimeout : Z }.

(** [ping address password db timeout]: the server's answer to the first ping. *)
Definition NewRedis (ping : string -> string -> Z -> Z -> option error) (cfg : RedisConfig) : result Client :=
  if String.eqb (Addr cfg) "" then Err (Errorf "missing addr") else
  let dialTimeout := if DialTimeout cfg =? 0 then 3 * Second else DialTimeout cfg in
  match ping (Addr cfg) (Password cfg) (DB cfg) dialTimeout with
  | Some e => Err (Wrap "failed to ping" e)
  | None => Ok {| rcAddr := Addr cfg; rcPassword := Password cfg; rcDB := DB cfg; opTimeout := OpTimeout cfg |}
  end.
Definition NewFromString (parseURL : string -> result (string * string * Z))
    (ping : string -> string -> Z -> Z -> option error) (connStr : string) : result Client :=
  match parseURL connStr with
  | Err e => Err (Wrap "invalid connection string" e)
  | Ok (addr, password, db) =>
      match ping addr password db (3 * Second) with
      | Some e => Err (Wrap "failed to ping" e)
      | None => Ok {| rcAddr := addr; rcPassword := password; rcDB := db; opTimeout := 0 |}
      end
  end.
Definition NewFromDBString (ping : string -> string -> Z -> Z -> option error)
    (addr password dbStr : string) : result Client :=
  match Atoi dbStr with
  | None => Err (Errorf "invalid db string")
  | Some db => NewRedis ping {| Addr := addr; Password := password; DB := db; DialTimeout := 0; OpTimeout := 0 |}
  end.

(** The deadline an operation started at [t] runs under. *)
Definition redisDeadline (c : Client) (t : Z) (deadline : option Z) : Z :=
  match deadline with
  | Some d => d
  | None => t + (if opTimeout c =? 0 then 2 * Second else opTimeout c)
  end.

(** ** The operations *)

(** [time.Duration(ttl) * time.Second] for a positive time to live. *)
Definition ttlDuration (ttl : Z) : Z := if 0 <? ttl then wrap64 (ttl * Second) else 0.

Section Operations.
Context {W : Type} `{goredis W}.

Definition nilIsEmpty (r : result (option string)) : result string :=
  match r with
  | Ok None => Ok ""
  | Ok (Some v) => Ok v
  | Err e => Err e
  end.
Definition redisGet (key : string) (w : W) : result string := nilIsEmpty (rcGet key w).
Definition GetDel (key : string) (w : W) : W * result string :=
  let '(w, r) := rcGetDel key w in (w, nilIsEmpty r).
Definition MGet (keys : list string) (w : W) : result (list string) :=
  match keys with
  | [] => Ok []
  | _ => rmap (map (default "")) (rcMGet keys w)
  end.
Definition redisSet (key value : string) (ttl : Z) (w : W) : W * option error :=
  rcSet key value (ttlDuration ttl) w.
Definition Incr (key : string) (w : W) : W * result Z := rcIncr key w.
Definition redisSetNX (key value : string) (ttl : Z) (w : W) : W * result bool :=
  rcSetNX key value (ttlDuration ttl) w.
Definition Ping (w : W) : option error := rcPing w.
Definition redisExists (key : string) (w : W) : result bool := rmap (fun n => 0 <? n) (rcExists key w).
Definition redisDelete (key : string) (w : W) : W * option error := rcDel key w.
Definition Expire (key : string) (ttl : Z) (w : W) : W * option error :=
  if ttl <=? 0 then (w, None) else rcExpire key (wrap64 (ttl * Second)) w.

(** The methods the idempotency store calls; it drops the error of Delete. *)
#[export] Instance client_RedisKV : RedisKV W := {
  Exists := redisExists;
  SetKV := redisSet;
  SetNX := redisSetNX;
  Del := fun k w => (redisDelete k w).1;
}.
End Operations.

(** ** The token bucket script

    Lua numbers are float64.  [tostring] prints 14 significant digits and
    [tonumber] reads them back: [lua14] is the number read. *)

(** The largest [k] with 10^k <= x for [x >= 1]. *)
Fixpoint expUp (fuel : nat) (x : Q) (k : Z) : Z :=
  match fuel with
  | O => k
  | S fuel => if Qle_bool 10 x then expUp fuel (Qred (x / 10)) (k + 1) else k
  end.
(** The least [k] with x * 10^k >= 1. *)
Fixpoint expDown (fuel : nat) (x : Q) (k : Z) : Z :=
  match fuel with
  | O => k
  | S fuel => if Qle_bool 1 x then k else expDown fuel (Qred (x * 10)) (k + 1)
  end.
Definition decExp (x : Q) : Z :=
  if Qle_bool 1 x then expUp (S (Z.to_nat (Z.log2 (Qnum x)))) x 0
  else - expDown (S (Z.to_nat (Z.log2 (Zpos (Qden x)) + 1))) x 0.

(** To the nearest multiple of 10^(k-13), ties to even. *)
Definition digits14 (x : Q) : Q :=
  let q := pow10 (decExp x - 13) in
  let y := Qred (x / q) in
  (inject_Z (nearest (Qnum y) (Zpos (Qden y))) * q)%Q.
Definition lua14 (x : Q) : Q :=
  let x := Qred x in
  if Qeq_bool x 0 then 0%Q
  else if Qle_bool 0 x then fround (digits14 x) else fround (- digits14 (- x)).

(** The hash under a key, with the time (ms, server clock) after which it is gone. *)
Record luaBucket := { lbTokens : Q; lbTs : Q; lbExpire : Z }.

Definition requestedOne : Q := 1.
(** The numbers of the script from reading the hash to writing it: tokens to store,
    allowed, wait. *)
Definition luaTake (now rate burst requested : Q) (data : option (Q * Q)) : Q * Z * Q :=
  let '(tokens, ts) := default (burst, now) data in
  let elapsed := fdiv (fsub now ts) 1000 in
  let elapsed := if qltb elapsed 0 then 0%Q else elapsed in
  let new_tokens := fadd tokens (fmul elapsed rate) in
  let new_tokens := if qltb burst new_tokens then burst else new_tokens in
  if Qle_bool requested new_tokens then (fsub new_tokens requested, 1, 0%Q)
  else
    let deficit := fsub requested new_tokens in
    (new_tokens, 0, if qltb 0 rate then inject_Z (Qceiling (fmul (fdiv deficit rate) 1000)) else 0%Q).

(** What HMGET reads at server time [srv]. *)
Definition readBucket (srv : Z) (key : string) (m : gmap string luaBucket) : option (Q * Q) :=
  match m !! key with
  | Some b => if srv <=? lbExpire b then Some (lbTokens b, lbTs b) else None
  | None => None
  end.
(** EXPIRE with a time that is not positive deletes the key. *)
Definition expireKey (srv ttl : Z) (key : string) (b : luaBucket) (m : gmap string luaBucket) : gmap string luaBucket :=
  if ttl <=? 0 then delete key m
  else <[key := {| lbTokens := lbTokens b; lbTs := lbTs b; lbExpire := srv + ttl * 1000 |}]> m.
Definition tokenBucketScript (srv : Z) (key : string) (now rate burst requested : Q) (ttl : Z)
    (m : gmap string luaBucket) : gmap string luaBucket * (Z * Q) :=
  let '(new_tokens, allowed, wait_ms) := luaTake now rate burst requested (readBucket srv key m) in
  (expireKey srv ttl key {| lbTokens := lua14 new_tokens; lbTs := lua14 now; lbExpire := 0 |} m,
   (allowed, wait_ms)).

(** [strconv.ParseInt] of the printed wait: from 10^14 on it has an exponent, which
    is refused and leaves 0. *)
Definition parseWait (wait_ms : Q) : Z :=
  let n := Qfloor wait_ms in if n <? 10 ^ 14 then n else 0.

(** [now] is UnixMilli of the caller's clock, [srv] the server's; [fails] the error
    of a script run that did not reach the server. *)
Definition AllowDistributed (fails : option error) (srv now : Z) (key : string) (rate burst : Q) (ttlSec : Z)
    (m : gmap string luaBucket) : gmap string luaBucket * result (bool * Z) :=
  match fails with
  | Some e => (m, Err e)
  | None =>
      let '(m, (allowed, wait)) := tokenBucketScript srv key (float64 now) rate burst requestedOne ttlSec m in
      (m, Ok (allowed =? 1, wrap64 (parseWait wait * Millisecond)))
  end.

(** ** What printing loses *)

Lemma pow10_pos e : (0 < pow10 e)%Q.
Proof.
  unfold pow10. destruct (Z.leb_spec 0 e); [|reflexivity].
  change 0%Q with (inject_Z 0). rewrite <- Zlt_Qlt. apply Z.pow_pos_nonneg; lia.
Qed.

Lemma pow10_succ e : (pow10 (e + 1) == 10 * pow10 e)%Q.
Proof.
  unfold pow10. destruct (Z.leb_spec 0 e), (Z.leb_spec 0 (e + 1)); try lia.
  - rewrite Z.pow_add_r, inject_Z_mult by lia. change (inject_Z (10 ^ 1)) with 10%Q. ring.
  - replace e with (-1) by lia. reflexivity.
  - replace (- e) with (- (e + 1) + 1) by lia.
    rewrite Z.pow_add_r by lia. set (p := 10 ^ (- (e + 1))).
    assert (Hp : 0 < p) by (apply Z.pow_pos_nonneg; lia). change (10 ^ 1) with 10.
    destruct p as [|p|p]; try lia. unfold Qeq. simpl. lia.
Qed.

Lemma pow10_add e n : (pow10 (e + Z.of_nat n) == pow10 e * pow10 (Z.of_nat n))%Q.
Proof.
  induction n as [|n IH].
  - rewrite Z.add_0_r. change (pow10 (Z.of_nat 0)) with 1%Q. ring.
  - replace (Z.of_nat (S n)) with (Z.of_nat n + 1) by lia. rewrite Z.add_assoc, !pow10_succ, IH. ring.
Qed.

Lemma pow10_minus e n : (pow10 (e - Z.of_nat n) * pow10 (Z.of_nat n) == pow10 e)%Q.
Proof. rewrite <- pow10_add. by replace (e - Z.of_nat n + Z.of_nat n) with e by lia. Qed.

Lemma expUp_spec fuel : forall x k, (1 <= x)%Q ->
  exists d : nat, expUp fuel x k = k + Z.of_nat d /\ (pow10 (Z.of_nat d) <= x)%Q.
Proof.
  induction fuel as [|fuel IH]; intros x k Hx; simpl.
  - exists 0%nat. split; [lia|exact Hx].
  - destruct (Qle_bool 10 x) eqn:E; [|exists 0%nat; split; [lia|exact Hx]].
    apply Qle_bool_iff in E.
    assert (Hx' : (Qred (x / 10) == x * (1 # 10))%Q) by (rewrite Qred_correct; field).
    destruct (IH (Qred (x / 10)) (k + 1)) as (d & Hd & Hp); [lra|].
    exists (S d). split; [lia|]. replace (Z.of_nat (S d)) with (Z.of_nat d + 1) by lia.
    rewrite pow10_succ. lra.
Qed.

Lemma expDown_spec fuel : forall x k, (1 <= x * inject_Z (2 ^ Z.of_nat fuel))%Q ->
  exists d : nat, expDown fuel x k = k + Z.of_nat d /\ (1 <= x * pow10 (Z.of_nat d))%Q.
Proof.
  induction fuel as [|fuel IH]; intros x k Hx; simpl.
  - exists 0%nat. split; [lia|]. change (inject_Z _) with 1%Q in Hx. exact Hx.
  - destruct (Qle_bool 1 x) eqn:E.
    { apply Qle_bool_iff in E. exists 0%nat. split; [lia|]. change (pow10 _) with 1%Q. lra. }
    assert (Hx' : (Qred (x * 10) == x * 10)%Q) by apply Qred_correct.
    assert (H2 : (inject_Z (2 ^ Z.of_nat (S fuel)) == 2 * inject_Z (2 ^ Z.of_nat fuel))%Q).
    { rewrite Nat2Z.inj_succ, Z.pow_succ_r, inject_Z_mult by lia. reflexivity. }
    assert (Hp : (0 < inject_Z (2 ^ Z.of_nat fuel))%Q).
    { change 0%Q with (inject_Z 0). rewrite <- Zlt_Qlt. apply Z.pow_pos_nonneg; lia. }
    destruct (IH (Qred (x * 10)) (k + 1)) as (d & Hd & Hd').
    { rewrite Hx'. rewrite H2 in Hx. set (p := inject_Z _) in *.
      assert (He : (x * 10 * p == (5 # 1) * (x * (2 * p)))%Q) by ring. rewrite He. lra. }
    exists (S d). split; [lia|]. replace (Z.of_nat (S d)) with (Z.of_nat d + 1) by lia.
    rewrite pow10_succ. rewrite Hx' in Hd'. lra.
Qed.

Lemma decExp_lower x : (0 < x)%Q -> (pow10 (decExp x) <= x)%Q.
Proof.
  intros Hx. unfold decExp. destruct (Qle_bool 1 x) eqn:E.
  - apply Qle_bool_iff in E. destruct (expUp_spec (S (Z.to_nat (Z.log2 (Qnum x)))) x 0 E) as (d & -> & H). exact H.
  - set (f := S _). destruct (expDown_spec f x 0) as (d & -> & H).
    + unfold f. rewrite Nat2Z.inj_succ, Z2Nat.id by (pose proof (Z.log2_nonneg (Zpos (Qden x))); lia).
      assert (Hn : 1 <= Qnum x) by (unfold Qlt in Hx; simpl in Hx; lia).
      pose proof (Z.log2_spec (Zpos (Qden x)) eq_refl) as [_ Hd].
      pose proof (Z.log2_nonneg (Zpos (Qden x))) as Hl. set (l := Z.log2 _) in *.
      set (p := 2 ^ Z.succ (l + 1)). assert (Hp : Zpos (Qden x) <= p).
      { unfold p. rewrite Z.pow_succ_r by lia. replace (l + 1) with (Z.succ l) by lia. lia. }
      destruct x as [n d]. cbn [Qnum Qden] in *. clearbody p. unfold Qle, Qmult, inject_Z.
      cbn [Qnum Qden]. rewrite Pos.mul_1_r. nia.
    + assert (Hm : (pow10 (- (0 + Z.of_nat d)) * pow10 (Z.of_nat d) == 1)%Q).
      { replace (- (0 + Z.of_nat d)) with (0 - Z.of_nat d) by lia. by rewrite pow10_minus. }
      pose proof (pow10_pos (Z.of_nat d)). nra.
Qed.

(** Fourteen digits are kept: the error is at most half a unit of the last. *)
Lemma digits14_error x : (0 < x)%Q ->
  (- x <= (20000000000000 # 1) * (digits14 x - x) <= x)%Q.
Proof.
  intros Hx. unfold digits14. set (q := pow10 (decExp x - 13)).
  assert (Hq : (0 < q)%Q) by apply pow10_pos.
  assert (Hqx : (10000000000000 * q <= x)%Q).
  { pose proof (decExp_lower x Hx) as Hl. pose proof (pow10_minus (decExp x) 13) as Hm.
    change (Z.of_nat 13) with 13 in Hm. fold q in Hm. change (pow10 13) with (10000000000000 # 1) in Hm. lra. }
  set (y := Qred (x / q)). assert (Hy : (y * q == x)%Q).
  { unfold y. rewrite Qred_correct. field. lra. }
  assert (Hy0 : 0 <= Qnum y).
  { assert (0 < y)%Q as H0 by nra. unfold Qlt in H0. simpl in H0. lia. }
  pose proof (nearest_error (Qnum y) (Zpos (Qden y)) eq_refl Hy0) as [H1 H2].
  set (n := nearest _ _) in *.
  assert (HB : (- (1) <= 2 * (inject_Z n - y) <= 1)%Q).
  { destruct y as [a b]. cbn [Qnum Qden] in *. unfold Qle, Qminus, Qplus, Qmult, Qopp, inject_Z. simpl.
    split; nia. }
  assert (HC : ((20000000000000 # 1) * (inject_Z n * q - x) == (10000000000000 * q) * (2 * (inject_Z n - y)))%Q).
  { rewrite <- Hy. ring. }
  rewrite HC. split; nra.
Qed.

Lemma lua14_bound x : (0 <= x)%Q ->
  (0 <= lua14 x)%Q /\ ((10000000000000 # 1) * (lua14 x - x) <= x)%Q.
Proof.
  intros Hx. unfold lua14. pose proof (Qred_correct x) as E. set (y := Qred x) in *.
  destruct (Qeq_bool y 0) eqn:E0.
  { apply Qeq_bool_iff in E0. rewrite <- E, E0. split; lra. }
  apply Qeq_bool_neq in E0. assert (Hy : (0 < y)%Q).
  { apply Qle_lteq in Hx as [H|H]; [by rewrite E|]. destruct E0. by rewrite E, H. }
  assert (Hle : Qle_bool 0 y = true) by (apply Qle_bool_iff; lra). rewrite Hle.
  pose proof (digits14_error y Hy) as [H1 H2].
  pose proof (fround_error (digits14 y) ltac:(lra)) as [H3 H4].
  rewrite <- E. split; [apply fround_nonneg; lra|]. lra.
Qed.

Lemma Qred_int n x : (x == inject_Z n)%Q -> Qred x = inject_Z n.
Proof. intros H. by rewrite (Qred_complete _ _ H), Qred_inject_Z. Qed.

(** Integers of at most 14 digits are printed exactly. *)
Lemma lua14_int n x : 0 <= n < 10 ^ 14 -> (x == inject_Z n)%Q -> (lua14 x == inject_Z n)%Q.
Proof.
  intros [Hn0 Hn] Hx. unfold lua14. rewrite (Qred_int n x Hx).
  destruct (Qeq_bool (inject_Z n) 0) eqn:E0; [by apply Qeq_bool_iff in E0|].
  apply Qeq_bool_neq in E0. assert (Hpos : 0 < n).
  { destruct (decide (n = 0)) as [->|]; [by destruct E0|lia]. }
  assert (Hq0 : (0 < inject_Z n)%Q) by (change 0%Q with (inject_Z 0); by rewrite <- Zlt_Qlt).
  assert (Hle : Qle_bool 0 (inject_Z n) = true) by (apply Qle_bool_iff; lra). rewrite Hle.
  assert (Hd : (digits14 (inject_Z n) == inject_Z n)%Q).
  { unfold digits14. pose proof (decExp_lower _ Hq0) as Hl.
    assert (He : decExp (inject_Z n) <= 13).
    { apply Z.lt_succ_r, Z.nle_gt. intros Hge.
      assert (pow10 14 <= inject_Z n)%Q.
      { eapply Qle_trans; [|exact Hl]. replace (decExp (inject_Z n)) with (14 + Z.of_nat (Z.to_nat (decExp (inject_Z n) - 14))) by lia.
        rewrite pow10_add. set (k := Z.to_nat _). assert (H1 : (1 <= pow10 (Z.of_nat k))%Q).
        { unfold pow10. destruct (Z.leb_spec 0 (Z.of_nat k)); [|lia]. change 1%Q with (inject_Z 1).
          rewrite <- Zle_Qle. pose proof (Z.pow_pos_nonneg 10 (Z.of_nat k)). lia. }
        pose proof (pow10_pos 14). nra. }
      change (pow10 14) with (inject_Z (10 ^ 14)) in *. rewrite <- Zle_Qle in *. lia. }
    set (e := decExp _) in *. set (q := pow10 (e - 13)).
    assert (Hq : (0 < q)%Q) by apply pow10_pos.
    assert (Hqi : (q * inject_Z (10 ^ (13 - e)) == 1)%Q).
    { unfold q. replace (inject_Z (10 ^ (13 - e))) with (pow10 (Z.of_nat (Z.to_nat (13 - e)))).
      - replace (e - 13) with (0 - Z.of_nat (Z.to_nat (13 - e))) by lia. apply pow10_minus.
      - unfold pow10. rewrite Z2Nat.id by lia. by destruct (Z.leb_spec 0 (13 - e)); [|lia]. }
    assert (Hy : Qred (inject_Z n / q) = inject_Z (n * 10 ^ (13 - e))).
    { apply Qred_int. rewrite inject_Z_mult. apply Qmult_inj_r with q; [lra|].
      transitivity (inject_Z n); [field; lra|]. rewrite <- Qmult_assoc, (Qmult_comm _ q), Hqi. ring. }
    rewrite Hy. set (i := n * 10 ^ (13 - e)).
    change (nearest (Qnum (inject_Z i)) (Zpos (Qden (inject_Z i)))) with (nearest i 1).
    unfold nearest. rewrite Z.div_1_r, Z.mod_1_r. change (2 * 0 ?= 1) with Lt. unfold i.
    rewrite inject_Z_mult, <- Qmult_assoc, (Qmult_comm _ q), Hqi. ring. }
  rewrite Hd. apply float64_exact. lia.
Qed.

(** ** The token bucket's bound *)

(** The error a call may add, relative to the burst: the roundings of the script's
    arithmetic and of printing 14 digits. *)
Definition scriptError : Q := 3 # 10000000000000.

Lemma fround_zero x : (x == 0)%Q -> fround x = 0%Q.
Proof. intros ->. reflexivity. Qed.

Lemma clamp_nonneg e : (0 <= if qltb e 0 then 0%Q else e)%Q.
Proof. destruct (qltb e 0) eqn:E; [lra|by apply qltb_false in E]. Qed.

(** The tokens before the request is served, and what is left of them. *)
Lemma luaTake_left now rate burst tokens ts nt al wait :
  (0 <= tokens)%Q -> (0 <= rate)%Q -> (0 <= burst)%Q ->
  luaTake now rate burst requestedOne (Some (tokens, ts)) = (nt, al, wait) ->
  exists x, (0 <= x <= burst)%Q /\
    (x <= fadd tokens (fmul (if qltb (fdiv (fsub now ts) 1000) 0 then 0%Q else fdiv (fsub now ts) 1000) rate))%Q /\
    (0 <= lua14 nt)%Q /\ (al = 0 \/ al = 1) /\
    (lua14 nt + inject_Z al <= x + (2 # 10000000000000) * x)%Q.
Proof.
  intros HT Hr Hb. unfold luaTake. cbn [default from_option id].
  set (e := fdiv (fsub now ts) 1000). pose proof (clamp_nonneg e) as He.
  set (e' := if qltb e 0 then 0%Q else e) in *.
  assert (Hm : (0 <= fmul e' rate)%Q) by (apply fround_nonneg; nra).
  assert (Hx0 : (0 <= fadd tokens (fmul e' rate))%Q) by (apply fround_nonneg; lra).
  set (x0 := fadd tokens (fmul e' rate)) in *.
  set (x := if qltb burst x0 then burst else x0).
  assert (Hx : (0 <= x <= burst)%Q /\ (x <= x0)%Q).
  { unfold x. destruct (qltb burst x0) eqn:E; [apply qltb_true in E|apply qltb_false in E]; lra. }
  destruct Hx as [Hxb Hxx]. unfold requestedOne.
  destruct (Qle_bool 1 x) eqn:E1.
  - apply Qle_bool_iff in E1. intros [= <- <- _]. exists x. split_and!; try done; try apply Hxb.
    + apply lua14_bound, fround_nonneg. lra.
    + by right.
    + unfold fsub. pose proof (fround_error (x - 1) ltac:(lra)) as [_ H1].
      pose proof (fround_nonneg (x - 1) ltac:(lra)) as H0.
      pose proof (lua14_bound (fround (x - 1)) H0) as [_ H2].
      change (inject_Z 1) with 1%Q. lra.
  - intros [= <- <- _]. exists x. split_and!; try done; try apply Hxb.
    + apply lua14_bound. apply Hxb.
    + by left.
    + pose proof (lua14_bound x ltac:(apply Hxb)) as [_ H2]. change (inject_Z 0) with 0%Q. lra.
Qed.

(** From one call to the next, the clock not going back: at most what the rate adds
    in between. *)
Lemma luaTake_refill now rate burst tokens ts nt al wait a b :
  (0 <= tokens)%Q -> (0 <= rate)%Q -> (0 <= burst)%Q ->
  (ts == inject_Z a)%Q -> (now == inject_Z b)%Q -> 0 <= a <= b -> b < 10 ^ 14 ->
  luaTake now rate burst requestedOne (Some (tokens, ts)) = (nt, al, wait) ->
  (lua14 nt + inject_Z al <= tokens + inject_Z (b - a) * (1 # 1000) * rate + scriptError * burst)%Q.
Proof.
  intros HT Hr Hb Ha Hbn [Ha0 Hab] Hb14 H.
  destruct (luaTake_left _ _ _ _ _ _ _ _ HT Hr Hb H) as (x & Hxb & Hx & _ & _ & Hl).
  assert (Hd : (fsub now ts == inject_Z (b - a))%Q).
  { assert (E : (now - ts == inject_Z (b - a))%Q).
    { rewrite Ha, Hbn. unfold Zminus. rewrite inject_Z_plus, inject_Z_opp. reflexivity. }
    unfold fsub. rewrite E. apply float64_exact. lia. }
  set (d := inject_Z (b - a)) in *.
  assert (Hd0 : (0 <= d)%Q) by (apply inject_Z_nonneg; lia).
  assert (Hq : (fsub now ts / 1000 == d * (1 # 1000))%Q) by (rewrite Hd; field).
  assert (Hfd : fdiv (fsub now ts) 1000 = fround (d * (1 # 1000))) by (unfold fdiv; by rewrite Hq).
  rewrite Hfd in Hx.
  pose proof (fround_nonneg (d * (1 # 1000)) ltac:(lra)) as He0.
  pose proof (fround_error (d * (1 # 1000)) ltac:(lra)) as [_ He].
  set (e := fround (d * (1 # 1000))) in *.
  assert (Hq0 : qltb e 0 = false) by by apply qltb_false.
  rewrite Hq0 in Hx. set (p := (d * (1 # 1000) * rate)%Q).
  assert (Hp0 : (0 <= p)%Q) by (unfold p; nra).
  assert (Hep : ((9007199254740992 # 1) * (e * rate) <= (9007199254740993 # 1) * p)%Q).
  { unfold p. assert ((9007199254740992 # 1) * e <= (9007199254740993 # 1) * (d * (1 # 1000)))%Q as H1 by lra.
    pose proof (Qmult_le_compat_r _ _ rate H1 Hr) as H2. lra. }
  assert (Her : (0 <= e * rate)%Q) by nra.
  unfold fmul, fadd in Hx. pose proof (fround_nonneg (e * rate) Her) as Hm0.
  pose proof (fround_error (e * rate) Her) as [_ Hm]. set (m := fround (e * rate)) in *.
  pose proof (fround_error (tokens + m) ltac:(lra)) as [_ Hf]. set (f := fround (tokens + m)) in *.
  unfold scriptError. lra.
Qed.

(** ** Sequences of calls *)

(** A call that reached the server: the server's clock and the caller's. *)
Record hit := { hSrv : Z; hNow : Z }.

Section Bucket.
Variables (key : string) (rate burst : Q) (ttl : Z).

Definition callAt (h : hit) (m : gmap string luaBucket) : gmap string luaBucket * result (bool * Z) :=
  AllowDistributed None (hSrv h) (hNow h) key rate burst ttl m.
Definition admitted (r : result (bool * Z)) : Z := match r with Ok (true, _) => 1 | _ => 0 end.
Fixpoint callsAt (hs : list hit) (m : gmap string luaBucket) : gmap string luaBucket * Z :=
  match hs with
  | [] => (m, 0)
  | h :: hs => let '(m, r) := callAt h m in let '(m, n) := callsAt hs m in (m, admitted r + n)
  end.

Definition clockOk (h : hit) : Prop := 0 <= hNow h < 10 ^ 14.
Definition bucketOk (m : gmap string luaBucket) : Prop :=
  forall b, m !! key = Some b -> (0 <= lbTokens b)%Q /\ exists a, (lbTs b == inject_Z a)%Q /\ 0 <= a < 10 ^ 14.
Definition storedTokens (m : gmap string luaBucket) : Q :=
  match m !! key with Some b => lbTokens b | None => 0%Q end.

Hypothesis Hrate : (0 <= rate)%Q.
Hypothesis Hburst : (0 <= burst)%Q.
Hypothesis Httl : 0 < ttl.

Lemma float64_clock h : clockOk h -> (float64 (hNow h) == inject_Z (hNow h))%Q.
Proof. intros H. apply float64_exact. unfold clockOk in H. lia. Qed.

(** One call leaves a bucket stamped with the caller's clock. *)
Lemma callAt_spec h m : clockOk h -> bucketOk m ->
  bucketOk (callAt h m).1 /\
  (exists b, (callAt h m).1 !! key = Some b /\ (lbTs b == inject_Z (hNow h))%Q /\ lbExpire b = hSrv h + ttl * 1000) /\
  (storedTokens (callAt h m).1 + inject_Z (admitted (callAt h m).2) <= burst + scriptError * burst)%Q /\
  (forall b a, m !! key = Some b -> hSrv h <= lbExpire b -> (lbTs b == inject_Z a)%Q -> 0 <= a <= hNow h ->
     (storedTokens (callAt h m).1 + inject_Z (admitted (callAt h m).2) <=
      lbTokens b + inject_Z (hNow h - a) * (1 # 1000) * rate + scriptError * burst)%Q).
Proof.
  intros Hc Hm. unfold callAt, AllowDistributed, tokenBucketScript.
  set (data := readBucket (hSrv h) key m).
  destruct (luaTake _ _ _ _ data) as [[nt al] wait] eqn:E. cbn [fst snd].
  assert (Hd : exists tokens ts, (0 <= tokens)%Q /\
    luaTake (float64 (hNow h)) rate burst requestedOne (Some (tokens, ts)) = (nt, al, wait)).
  { destruct data as [[tokens ts]|] eqn:Ed; [|exists burst, (float64 (hNow h)); by split].
    exists tokens, ts. split; [|done]. unfold data, readBucket in Ed.
    destruct (m !! key) as [b|] eqn:Eb; [|done]. destruct (_ <=? _); [|done]. injection Ed as <- <-.
    by apply (Hm b Eb). }
  destruct Hd as (tokens & ts & HT & E').
  destruct (luaTake_left _ _ _ _ _ _ _ _ HT Hrate Hburst E') as (x & Hxb & _ & Hnt & Hal & Hl).
  assert (Hstored : forall g : Q -> Prop, g (lua14 nt) -> g (storedTokens (expireKey (hSrv h) ttl key
    {| lbTokens := lua14 nt; lbTs := lua14 (float64 (hNow h)); lbExpire := 0 |} m))).
  { intros g Hg. unfold storedTokens, expireKey. destruct (Z.leb_spec ttl 0); [lia|].
    by rewrite lookup_insert_eq. }
  assert (Hadm : admitted (Ok (al =? 1, wrap64 (parseWait wait * Millisecond))) = al).
  { destruct Hal as [->| ->]; reflexivity. }
  assert (Hts : (lua14 (float64 (hNow h)) == inject_Z (hNow h))%Q).
  { apply lua14_int; [done|]. by apply float64_clock. }
  cbn [fst snd]. rewrite Hadm. split_and!.
  - intros b. unfold expireKey. destruct (Z.leb_spec ttl 0); [lia|]. rewrite lookup_insert_eq.
    intros [= <-]. cbn [lbTokens lbTs]. split; [done|]. by exists (hNow h).
  - unfold expireKey. destruct (Z.leb_spec ttl 0); [lia|]. rewrite lookup_insert_eq. by eexists.
  - apply Hstored. unfold scriptError. lra.
  - intros b a Hb Hsrv Ha Han. apply Hstored.
    assert (Hdata : data = Some (lbTokens b, lbTs b)).
    { unfold data, readBucket. rewrite Hb. by destruct (Z.leb_spec (hSrv h) (lbExpire b)); [|lia]. }
    rewrite Hdata in E. destruct (Hm b Hb) as [HT' _].
    eapply luaTake_refill; [exact HT'|done|done|exact Ha|by apply float64_clock|done|apply Hc|exact E].
Qed.

Lemma bucketOk_calls hs m : Forall clockOk hs -> bucketOk m -> bucketOk (callsAt hs m).1.
Proof.
  intros Hh. revert m. induction Hh as [|h hs Hc _ IH]; intros m Hm; [done|]. simpl.
  pose proof (callAt_spec h m Hc Hm) as (H & _). destruct (callAt h m) as [m' r]. simpl in H.
  specialize (IH m' H). by destruct (callsAt hs m').
Qed.

(** Clocks that do not go back, and a key that does not expire in between. *)
Fixpoint steady (h : hit) (hs : list hit) : Prop :=
  match hs with
  | [] => True
  | h' :: hs => hNow h <= hNow h' /\ hSrv h' <= hSrv h + ttl * 1000 /\ steady h' hs
  end.
Definition lastNow (h : hit) (hs : list hit) : Z := hNow (List.last hs h).

Lemma steady_bound hs : forall h m, Forall clockOk hs -> bucketOk m -> 0 <= hNow h ->
  (exists b, m !! key = Some b /\ (lbTs b == inject_Z (hNow h))%Q /\ lbExpire b = hSrv h + ttl * 1000) ->
  steady h hs ->
  (storedTokens (callsAt hs m).1 + inject_Z (callsAt hs m).2 <=
   storedTokens m + inject_Z (lastNow h hs - hNow h) * (1 # 1000) * rate +
   inject_Z (Z.of_nat (length hs)) * (scriptError * burst))%Q.
Proof.
  induction hs as [|h' hs IH]; intros h m Hf Hm Hh (b & Hb & Hts & Hexp) Hst.
  - simpl. unfold lastNow. simpl. rewrite Z.sub_diag. change (inject_Z 0) with 0%Q.
    change (inject_Z (Z.of_nat 0)) with 0%Q. lra.
  - inversion Hf as [|? ? Hc Hf']; subst. destruct Hst as (Hn & Hs & Hst).
    pose proof (callAt_spec h' m Hc Hm) as (Hok & Hb' & _ & Hr).
    specialize (Hr b (hNow h) Hb ltac:(lia) Hts ltac:(lia)).
    cbn [callsAt]. destruct (callAt h' m) as [m' r]. cbn [fst snd] in *.
    specialize (IH h' m' Hf' Hok ltac:(unfold clockOk in Hc; lia) Hb' Hst).
    destruct (callsAt hs m') as [m'' n]. cbn [fst snd] in *.
    assert (Htok : storedTokens m = lbTokens b) by (unfold storedTokens; by rewrite Hb).
    assert (Hlast : lastNow h (h' :: hs) = lastNow h' hs).
    { unfold lastNow. cbn [List.last]. destruct hs as [|h2 hs]; [done|]. f_equal.
      clear. revert h2. induction hs as [|h3 hs IH]; intros h2; [done|]. exact (IH h3). }
    rewrite Hlast, Htok. cbn [List.length]. rewrite Nat2Z.inj_succ. unfold Z.succ, Z.sub in *.
    rewrite !inject_Z_plus, !inject_Z_opp in *. change (inject_Z 1) with 1%Q. lra.
Qed.
End Bucket.

(** (C4) As long as no clock goes back and the key does not expire in between, any
    calls admit at most the burst plus what the rate adds between the first and the
    last of them, up to a relative rounding error of 3/10^13 of the burst a call;
    whatever was called before. *)
Theorem distributed_window_bound key rate burst ttl pre h hs :
  (0 <= rate)%Q -> (0 <= burst)%Q -> 0 < ttl ->
  Forall clockOk pre -> Forall clockOk (h :: hs) -> steady ttl h hs ->
  let m := (callsAt key rate burst ttl pre ∅).1 in
  (inject_Z (callsAt key rate burst ttl (h :: hs) m).2 <=
   burst + inject_Z (lastNow h hs - hNow h) * (1 # 1000) * rate +
   inject_Z (Z.of_nat (S (length hs))) * (scriptError * burst))%Q.
Proof.
  intros Hr Hb Ht Hpre Hhs Hst m.
  assert (Hm : bucketOk key m).
  { unfold m. apply bucketOk_calls; try done. }
  inversion Hhs as [|? ? Hc Hf]; subst.
  pose proof (callAt_spec key rate burst ttl Hr Hb Ht h m Hc Hm) as (Hok & Hb' & Hcap & _).
  cbn [callsAt]. destruct (callAt key rate burst ttl h m) as [m' r]. cbn [fst snd] in *.
  pose proof (steady_bound key rate burst ttl Hr Hb Ht hs h m' Hf Hok ltac:(unfold clockOk in Hc; lia) Hb' Hst) as H.
  pose proof (bucketOk_calls key rate burst ttl Hr Hb Ht hs m' Hf Hok) as Hend.
  destruct (callsAt key rate burst ttl hs m') as [m'' n]. cbn [fst snd] in *.
  assert (H0 : (0 <= storedTokens key m'')%Q).
  { unfold storedTokens. destruct (m'' !! key) as [b|] eqn:E; [by apply (Hend b E)|lra]. }
  rewrite inject_Z_plus, Nat2Z.inj_succ. unfold Z.succ. rewrite inject_Z_plus.
  change (inject_Z 1) with 1%Q. lra.
Qed.

(** ** The limiter's default: no limit

    [RateLimit.Allow] hands the script the bucket time to live it read from the
    environment, 0 when the variable is unset. *)

(** The server during one call: its clock, the caller's, and the hashes it holds. *)
Record redisHost := { rhSrv : Z; rhNow : Z; rhBuckets : gmap string luaBucket }.
(** The client of a server that can be reached, as [SetRedisClient] gets it. *)
Definition limiterClient : redisAPI redisHost := fun key rate burst ttl h =>
  let '(m, res) := AllowDistributed None (rhSrv h) (rhNow h) key rate burst ttl (rhBuckets h) in
  ({| rhSrv := rhSrv h; rhNow := rhNow h; rhBuckets := m |}, res).
(** The limiter's answers to calls at the given times; what each call does to the server is
    what [Allow] makes of it. *)
Fixpoint limiterCalls (e : Env) (hs : list (hit * string)) (s : rlState redisHost) (m : gmap string luaBucket) :
    list (result (bool * Z)) :=
  match hs with
  | [] => []
  | (h, key) :: hs =>
      let '(s, server, r) := Allow e (hNow h * Millisecond) key s
        {| rhSrv := hSrv h; rhNow := hNow h; rhBuckets := m |} in
      r :: limiterCalls e hs s (rhBuckets server)
  end.

(** A fresh bucket admits the request, whatever the burst from 1 on. *)
Lemma luaTake_fresh now rate burst :
  (1 <= burst)%Q -> exists nt, luaTake now rate burst requestedOne None = (nt, 1, 0%Q).
Proof.
  intros Hb. unfold luaTake. cbn [default].
  assert (H0 : fsub now now = 0%Q) by (apply fround_zero; ring).
  rewrite H0. assert (H1 : fdiv 0 1000 = 0%Q) by reflexivity. rewrite H1.
  change (qltb 0 0) with false. cbv iota.
  assert (H2 : fmul 0 rate = 0%Q) by (apply fround_zero; ring). rewrite H2.
  assert (H3 : (1 <= fadd burst 0)%Q) by (apply fround_ge_1; lra).
  set (x := if qltb burst (fadd burst 0) then burst else fadd burst 0).
  assert (Hx : Qle_bool requestedOne x = true).
  { apply Qle_bool_iff. unfold requestedOne, x. by destruct (qltb _ _). }
  rewrite Hx. by eexists.
Qed.

(** A limiter whose configuration, once loaded, admits a request: it was not set to a
    burst below one token. *)
Definition unlimited (s : rlState redisHost) : Prop :=
  match cfgPtr s with
  | Some c => (1 <= burst c)%Q
  | None => cfgLoaded s = false
  end.

Lemma loadEnv_keeps e (s : rlState redisHost) :
  cfgPtr (loadEnv e s).1 = cfgPtr s /\ cfgLoaded (loadEnv e s).1 = cfgLoaded s /\
  redisClient (loadEnv e s).1 = redisClient s /\ envPtr (loadEnv e s).1 = Some (loadEnv e s).2.
Proof. unfold loadEnv. destruct (envPtr s) eqn:E; by rewrite ?E. Qed.
Lemma loadCfg_admits e (s : rlState redisHost) : unlimited s ->
  (1 <= burst (loadCfg e s).2)%Q /\ unlimited (loadCfg e s).1 /\
  redisClient (loadCfg e s).1 = redisClient s /\ envPtr (loadCfg e s).1 = envPtr s.
Proof.
  unfold unlimited, loadCfg. destruct (cfgPtr s) as [c|] eqn:Ec.
  - intros Hb. destruct (cfgLoaded s); cbn [cfgPtr with_cfg fst snd redisClient envPtr]; rewrite ?Ec; split_and!; done.
  - intros ->. cbn [cfgPtr with_cfg default from_option burst fst snd envPtr redisClient]. unfold id. cbn [burst].
    destruct (qltb _ 1) eqn:E; [by split_and!|]. apply qltb_false in E. by split_and!.
Qed.

Definition deployed (ec : envCfg) : Prop := (env ec = "prod" \/ env ec = "staging") /\ ttlSec ec = 0.

(** One call: the server forgets the bucket it wrote. *)
Lemma Allow_unset e t key s srv now :
  deployed (loadEnv e s).2 -> unlimited s -> redisClient s = Some limiterClient ->
  exists s', Allow e t key s {| rhSrv := srv; rhNow := now; rhBuckets := ∅ |} =
    (s', {| rhSrv := srv; rhNow := now; rhBuckets := ∅ |}, Ok (true, 0)) /\
    (loadEnv e s').2 = (loadEnv e s).2 /\ unlimited s' /\ redisClient s' = Some limiterClient.
Proof.
  intros [Hen Hz] Hu Hr. destruct (loadEnv_keeps e s) as (E1 & E2 & E3 & E4).
  assert (Hen' : String.eqb (env (loadEnv e s).2) "prod" || String.eqb (env (loadEnv e s).2) "staging" = true)
    by by destruct Hen as [->| ->].
  unfold Allow. destruct (loadEnv e s) as [s1 ec]. cbn [fst snd] in *. rewrite Hen'. unfold loadRedis. rewrite E3, Hr.
  destruct (loadCfg_admits e s1) as (Hb & Hu2 & Hr2 & He2); [unfold unlimited; by rewrite E1, E2|].
  destruct (loadCfg e s1) as [s2 c]. cbn [fst snd] in *. rewrite Hz.
  destruct (luaTake_fresh (float64 now) (rps c) (burst c) Hb) as (nt & Hnt).
  assert (Hc : redisClient s2 = Some limiterClient) by congruence.
  unfold limiterClient, AllowDistributed, tokenBucketScript, readBucket. cbn [rhSrv rhNow rhBuckets].
  rewrite lookup_empty, Hnt. exists s2. split_and!; [|unfold loadEnv; by rewrite He2, E4|done|exact Hc].
  unfold expireKey. cbn. by rewrite delete_empty.
Qed.

(** (C3) In production and staging the rate limiter does not limit unless
    RATE_LIMIT_BUCKET_TTL_SEC is set.  With a Redis client set whose server can be reached,
    and unless [LoadConfig] set a burst below one token: [Allow] passes the script a time
    to live of 0, with which EXPIRE deletes the bucket it has just written, so that every
    call of every key at any time finds a full bucket and is admitted. *)
Theorem distributed_limit_off_by_default e s hs :
  redisClient s = Some limiterClient -> unlimited s -> envPtr s = None ->
  (ToLower (TrimSpace (e "ENV")) = "prod" \/ ToLower (TrimSpace (e "ENV")) = "staging") ->
  TrimSpace (e "RATE_LIMIT_BUCKET_TTL_SEC") = "" ->
  limiterCalls e hs s ∅ = repeat (Ok (true, 0)) (length hs).
Proof.
  intros Hr Hu Hn Henv Httl.
  assert (Hd : deployed (loadEnv e s).2) by (unfold loadEnv; rewrite Hn; split; [exact Henv|cbn; by rewrite Httl]).
  clear Hn Henv Httl. revert s Hr Hu Hd.
  induction hs as [|[h key] hs IH]; intros s Hr Hu Hd; [done|]. cbn [limiterCalls].
  destruct (Allow_unset e (hNow h * Millisecond) key s (hSrv h) (hNow h) Hd Hu Hr) as (s' & -> & He & Hu' & Hr').
  cbn [List.length repeat rhBuckets]. f_equal. apply IH; [done..|by rewrite He].
Qed.

(** ** Hosts whose clocks differ

    The script stores the caller's clock and takes the next caller's: going back
    costs nothing, going forward refills. *)
Definition ahead : hit := {| hSrv := 0; hNow := 1000 |}.
Definition behind : hit := {| hSrv := 0; hNow := 0 |}.
Definition alternating (n : nat) : list hit := List.concat (repeat [ahead; behind] n).
Definition emptied : gmap string luaBucket := (callsAt "k" 1 1 60 [ahead; behind] ∅).1.

(** Two hosts whose clocks are one second apart, calling in turn at the same
    time, get a new token at every second call: with rate and burst 1, n requests are
    admitted at one instant, for every n. *)
Theorem skewed_clocks_refill n :
  (callsAt "k" 1 1 60 (alternating n) ∅).2 = Z.of_nat n.
Proof.
  assert (Hstep : callsAt "k" 1 1 60 [ahead; behind] emptied = (emptied, 1)) by (vm_compute; reflexivity).
  assert (Happ : forall hs hs' m, callsAt "k" 1 1 60 (hs ++ hs') m =
    let '(m1, a) := callsAt "k" 1 1 60 hs m in let '(m2, b) := callsAt "k" 1 1 60 hs' m1 in (m2, a + b)).
  { induction hs as [|h hs IH]; intros hs' m; [simpl; by destruct (callsAt _ _ _ _ hs' m)|].
    cbn [callsAt app]. destruct (callAt _ _ _ _ h m) as [m1 r]. rewrite IH.
    destruct (callsAt _ _ _ _ hs m1) as [m2 a], (callsAt _ _ _ _ hs' m2) as [m3 b]. f_equal. lia. }
  assert (Hloop : forall k, callsAt "k" 1 1 60 (alternating k) emptied = (emptied, Z.of_nat k)).
  { induction k as [|k IH]; [done|]. change (alternating (S k)) with ([ahead; behind] ++ alternating k)%list.
    rewrite Happ, Hstep, IH. f_equal. lia. }
  destruct n as [|n]; [done|]. change (alternating (S n)) with ([ahead; behind] ++ alternating n)%list.
  assert (Hfirst : callsAt "k" 1 1 60 [ahead; behind] ∅ = (emptied, 1)) by (vm_compute; reflexivity).
  rewrite Happ, Hfirst, Hloop. cbn [snd]. lia.
Qed.

(** ** Times to live *)

(** A time to live beyond the range of Duration becomes negative or shorter. *)
Lemma ttlDuration_overflows : ttlDuration 9223372037 < 0 /\ 0 < ttlDuration 18446744074 < Second.
Proof. by split. Qed.
Lemma ttlDuration_exact ttl : 0 < ttl <= 9223372036 -> ttlDuration ttl = ttl * Second.
Proof.
  intros H. unfold ttlDuration. destruct (Z.ltb_spec 0 ttl); [|lia].
  apply wrap64_id. unfold int64_ok, int64_min, int64_max, Second. lia.
Qed.

(** ** Witnesses *)

Definition demoPre : list hit := [{| hSrv := 0; hNow := 100 |}].
Definition demoFirst : hit := {| hSrv := 500; hNow := 600 |}.
Definition demoRest : list hit := [{| hSrv := 700; hNow := 800 |}; {| hSrv := 1500; hNow := 1600 |}].

Lemma distributed_window_bound_witness :
  (callsAt "k" 1 2 60 (demoFirst :: demoRest) (callsAt "k" 1 2 60 demoPre ∅).1).2 = 2 /\
  (inject_Z (callsAt "k" 1 2 60 (demoFirst :: demoRest) (callsAt "k" 1 2 60 demoPre ∅).1).2 <=
   2 + inject_Z (lastNow demoFirst demoRest - hNow demoFirst) * (1 # 1000) * 1 +
   inject_Z 3 * (scriptError * 2))%Q.
Proof.
  split; [vm_compute; reflexivity|].
  apply (distributed_window_bound "k" 1 2 60 demoPre demoFirst demoRest).
  - discriminate.
  - discriminate.
  - reflexivity.
  - repeat constructor; discriminate.
  - repeat constructor; discriminate.
  - repeat split; discriminate.
Defined.

Definition prodEnv : Env := fun k => if String.eqb k "ENV" then "prod" else "".
Definition demoHits : list (hit * string) := repeat (demoFirst, "10.0.0.7") 100.
Lemma distributed_limit_off_by_default_witness :
  limiterCalls prodEnv demoHits (SetRedisClient limiterClient initial) ∅ = repeat (Ok (true, 0)) 100.
Proof.
  apply (distributed_limit_off_by_default prodEnv (SetRedisClient limiterClient initial) demoHits);
    [reflexivity..|left; reflexivity|reflexivity].
Defined.

(** With a time to live of a minute the same hundred calls at one time get the twenty tokens
    of the burst. *)
Definition ttlEnv : Env := fun k => if String.eqb k "RATE_LIMIT_BUCKET_TTL_SEC" then "60" else prodEnv k.
Example limit_on_with_ttl :
  length (List.filter (fun r => match r with Ok (b, _) => b | Err _ => false end)
    (limiterCalls ttlEnv demoHits (SetRedisClient limiterClient initial) ∅)) = 20%nat.
Proof. vm_compute. reflexivity. Qed.
