(* ===== verification/Aws.v ===== *)
(** * What the AWS clients share

    The options every client package under src/aws builds its SDK client from.
    Loading the shared AWS configuration is an argument. *)

From S2P Require Import Prelude GoStrings.

Open Scope string_scope.
Open Scope Z_scope.

Record Config := { Region : string; AccessKey : string; SecretKey : string; Endpoint : string }.

(** The static credentials: given ones, else fixed ones for a custom endpoint. *)
Definition staticCredentials (cfg : Config) : option (string * string) :=
  if negb (String.eqb (AccessKey cfg) "") && negb (String.eqb (SecretKey cfg) "")
  then Some (AccessKey cfg, SecretKey cfg)
  else if negb (String.eqb (Endpoint cfg) "") then Some ("test", "test") else None.
Definition baseEndpoint (cfg : Config) : option string :=
  if String.eqb (Endpoint cfg) "" then None else Some (Endpoint cfg).

(** [awsconfig.LoadDefaultConfig] with a region and credentials. *)
Definition loader : Type := string -> option (string * string) -> option error.
(** Check the region, load, and hand over the endpoint; [wrap] is the package's wrapping of
    the error. *)
Definition newSDK (missing : error) (wrap : error -> error) (load : loader) (cfg : Config) : result (option string) :=
  if String.eqb (Region cfg) "" then Err missing else
  match load (Region cfg) (staticCredentials cfg) with
  | Some e => Err (wrap e)
  | None => Ok (baseEndpoint cfg)
  end.

Lemma newSDK_ok missing wrap load cfg ep :
  newSDK missing wrap load cfg = Ok ep -> Region cfg <> "" /\ ep = baseEndpoint cfg /\
  load (Region cfg) (staticCredentials cfg) = None.
Proof.
  unfold newSDK. destruct (String.eqb_spec (Region cfg) ""); [done|].
  destruct (load _ _); [done|]. by intros [= <-].
Qed.

(** An optional string field of an SDK input: nil for the empty string. *)
Definition ofString (s : string) : option string := if String.eqb s "" then None else Some s.
(** [aws.ToString]. *)
Definition ToString (s : option string) : string := default "" s.

Lemma ToString_ofString s : ToString (ofString s) = s.
Proof. unfold ToString, ofString. by destruct (String.eqb_spec s "") as [->|]. Qed.
