(* ===== verification/Rds.v ===== *)
(** * The RDS Data API client (src/aws/rds)

    Conversion of parameters to fields and of fields to values, decoding of
    records, and the client's operations against the service's interface. *)

From S2P Require Import Prelude GoStrings Aws.
From Stdlib Require Import QArith.

Open Scope string_scope.
Open Scope Z_scope.

(** ** Values and fields (fields.go) *)

(** The dynamic type of a value, as [toField] tells them apart. *)
Inductive goval : Type :=
  | GNil
  | GString (s : string)
  | GInt (n : Z)
  | GInt32 (n : Z)
  | GInt64 (n : Z)
  | GFloat32 (q : Q)
  | GFloat64 (q : Q)
  | GBool (b : bool)
  | GBytes (s : string)
  | GOther (type : string).

(** [types.Field]. *)
Inductive field : Type :=
  | FString (s : string)
  | FLong (n : Z)
  | FDouble (q : Q)
  | FBoolean (b : bool)
  | FBlob (s : string)
  | FIsNull (b : bool)
  | FArray
  | FUnknown (type : string).

Definition toField (v : goval) : result field :=
  match v with
  | GNil => Ok (FIsNull true)
  | GString s => Ok (FString s)
  | GInt n | GInt32 n | GInt64 n => Ok (FLong n)
  | GFloat32 q | GFloat64 q => Ok (FDouble q)
  | GBool b => Ok (FBoolean b)
  | GBytes s => Ok (FBlob s)
  | GOther _ => Err (Errorf "unsupported parameter type")
  end.
Definition fromField (f : field) : result goval :=
  match f with
  | FString s => Ok (GString s)
  | FLong n => Ok (GInt64 n)
  | FDouble q => Ok (GFloat64 q)
  | FBoolean b => Ok (GBool b)
  | FBlob s => Ok (GBytes s)
  | FIsNull _ => Ok GNil
  | FArray => Err (Errorf "array fields are not supported in v1: use scalar types only")
  | FUnknown _ => Err (Errorf "unknown field type")
  end.

(** ** Parameters and records (client.go) *)

Record sqlParameter := { pName : string; pValue : field }.

(** [params] in the order the map is ranged over. *)
Fixpoint buildSQLParameters (params : list (string * goval)) : result (list sqlParameter) :=
  match params with
  | [] => Ok []
  | (name, val) :: params =>
      match toField val with
      | Err e => Err (Wrap "failed to convert parameter" e)
      | Ok f => rmap (cons {| pName := name; pValue := f |}) (buildSQLParameters params)
      end
  end.

Abbreviation row := (gmap string goval).
(** The name of column [j]; a column's name may be missing. *)
Definition columnName (cols : list (option string)) (j : nat) : string :=
  let name := match cols !! j with Some n => default "" n | None => "" end in
  if String.eqb name "" then "col_" +:+ Itoa (Z.of_nat j) else name.
Fixpoint decodeRecord (cols : list (option string)) (j : nat) (record : list field) (r : row) : result row :=
  match record with
  | [] => Ok r
  | f :: record =>
      match fromField f with
      | Err e => Err (Wrap "failed to decode field" e)
      | Ok v => decodeRecord cols (S j) record (<[columnName cols j := v]> r)
      end
  end.
Fixpoint decodeRecords (records : list (list field)) (cols : list (option string)) : result (list row) :=
  match records with
  | [] => Ok []
  | record :: records =>
      rbind (decodeRecord cols 0 record ∅) (fun r => rmap (cons r) (decodeRecords records cols))
  end.
Fixpoint decodeFields (fields : list field) : result (list goval) :=
  match fields with
  | [] => Ok []
  | f :: fields =>
      match fromField f with
      | Err e => Err (Wrap "failed to decode field" e)
      | Ok v => rmap (cons v) (decodeFields fields)
      end
  end.

(** ** The client *)

Record RdsConfig := { rdsAWS : Aws.Config; ResourceArn : string; SecretArn : string; Database : string }.
Record Client := { resourceARN : string; secretARN : string; database : string; endpoint : option string }.

Definition New (load : loader) (cfg : RdsConfig) : result Client :=
  if String.eqb (Region (rdsAWS cfg)) "" then Err (Errorf "missing region")
  else if String.eqb (ResourceArn cfg) "" then Err (Errorf "missing ResourceArn")
  else if String.eqb (SecretArn cfg) "" then Err (Errorf "missing SecretArn")
  else rmap (fun ep => {| resourceARN := ResourceArn cfg; secretARN := SecretArn cfg; database := Database cfg;
                          endpoint := ep |})
            (newSDK (Errorf "missing region") (Wrap "failed to load AWS config") load (rdsAWS cfg)).

Record ExecuteStatementInput := {
  SQL : string; Parameters : list (string * goval); TransactionID : string; InDatabase : string
}.
Record BatchExecuteStatementInput := {
  bSQL : string; ParameterSets : list (list (string * goval)); bTransactionID : string; bDatabase : string
}.
Record ExecuteStatementOutput := { Rows : list row; NumRecords : Z; GeneratedFields : list goval }.

(** What the SDK is asked and answers; [sMetadata] is IncludeResultMetadata, which
    a batch does not have, and a statement has one set of parameters. *)
Record sdkInput := {
  sResource : string; sSecret : string; sSql : string; sDatabase : option string; sTransaction : option string;
  sMetadata : bool; sParameters : list (list sqlParameter)
}.
Record sdkOutput := {
  Records : list (list field); ColumnMetadata : list (option string); NumberOfRecordsUpdated : Z;
  sGenerated : list field
}.
Class rdsDataAPI (W : Type) := {
  sdkExecute : sdkInput -> W -> W * result sdkOutput;
  sdkBatch : sdkInput -> W -> W * result (list (list field));
  sdkBegin : string -> string -> option string -> W -> W * result (option string);
  sdkCommit : string -> string -> string -> W -> W * option error;
  sdkRollback : string -> string -> string -> W -> W * option error;
}.

Definition chooseDatabase (c : Client) (db : string) : string := if String.eqb db "" then database c else db.

Section Client.
Context {W : Type} `{rdsDataAPI W}.

Definition ExecuteStatement (c : Client) (input : ExecuteStatementInput) (w : W) : W * result ExecuteStatementOutput :=
  if String.eqb (SQL input) "" then (w, Err (Errorf "SQL is required")) else
  match buildSQLParameters (Parameters input) with
  | Err e => (w, Err (Wrap "failed to build SQL parameters" e))
  | Ok params =>
      let '(w, r) := sdkExecute {| sResource := resourceARN c; sSecret := secretARN c; sSql := SQL input;
                                   sDatabase := ofString (chooseDatabase c (InDatabase input));
                                   sTransaction := ofString (TransactionID input); sMetadata := true;
                                   sParameters := [params] |} w in
      match r with
      | Err e => (w, Err (Wrap "failed to execute statement" e))
      | Ok out =>
          match decodeRecords (Records out) (ColumnMetadata out) with
          | Err e => (w, Err (Wrap "failed to decode result rows" e))
          | Ok rows =>
              match decodeFields (sGenerated out) with
              | Err e => (w, Err (Wrap "failed to decode generated fields" e))
              | Ok gs => (w, Ok {| Rows := rows; NumRecords := NumberOfRecordsUpdated out; GeneratedFields := gs |})
              end
          end
      end
  end.

Fixpoint buildParameterSets (sets : list (list (string * goval))) : result (list (list sqlParameter)) :=
  match sets with
  | [] => Ok []
  | ps :: sets =>
      match buildSQLParameters ps with
      | Err e => Err (Wrap "failed to build SQL parameters for set" e)
      | Ok built => rmap (cons built) (buildParameterSets sets)
      end
  end.
Fixpoint decodeUpdates (us : list (list field)) : result (list (list goval)) :=
  match us with
  | [] => Ok []
  | u :: us =>
      match decodeFields u with
      | Err e => Err (Wrap "failed to decode generated fields for update result" e)
      | Ok gf => rmap (cons gf) (decodeUpdates us)
      end
  end.
Definition BatchExecuteStatement (c : Client) (input : BatchExecuteStatementInput) (w : W)
    : W * result (list (list goval)) :=
  if String.eqb (bSQL input) "" then (w, Err (Errorf "SQL is required")) else
  match buildParameterSets (ParameterSets input) with
  | Err e => (w, Err e)
  | Ok sets =>
      let '(w, r) := sdkBatch {| sResource := resourceARN c; sSecret := secretARN c; sSql := bSQL input;
                                 sDatabase := ofString (chooseDatabase c (bDatabase input));
                                 sTransaction := ofString (bTransactionID input); sMetadata := false;
                                 sParameters := sets |} w in
      match r with
      | Err e => (w, Err (Wrap "failed to batch execute statement" e))
      | Ok us => (w, decodeUpdates us)
      end
  end.

Definition BeginTransaction (c : Client) (w : W) : W * result string :=
  let '(w, r) := sdkBegin (resourceARN c) (secretARN c) (ofString (database c)) w in
  (w, match r with Ok id => Ok (default "" id) | Err e => Err (Wrap "failed to begin transaction" e) end).
Definition CommitTransaction (c : Client) (id : string) (w : W) : W * option error :=
  let '(w, e) := sdkCommit (resourceARN c) (secretARN c) id w in
  (w, Wrap "failed to commit transaction" <$> e).
Definition RollbackTransaction (c : Client) (id : string) (w : W) : W * option error :=
  let '(w, e) := sdkRollback (resourceARN c) (secretARN c) id w in
  (w, Wrap "failed to rollback transaction" <$> e).
End Client.

(** ** Round trips *)

(** How a value is stored, and how a stored value is read. *)
Inductive encodes : goval -> field -> Prop :=
  | enc_nil : encodes GNil (FIsNull true)
  | enc_string s : encodes (GString s) (FString s)
  | enc_int n : encodes (GInt n) (FLong n)
  | enc_int32 n : encodes (GInt32 n) (FLong n)
  | enc_int64 n : encodes (GInt64 n) (FLong n)
  | enc_float32 q : encodes (GFloat32 q) (FDouble q)
  | enc_float64 q : encodes (GFloat64 q) (FDouble q)
  | enc_bool b : encodes (GBool b) (FBoolean b)
  | enc_bytes s : encodes (GBytes s) (FBlob s).
Inductive decodes : field -> goval -> Prop :=
  | dec_null b : decodes (FIsNull b) GNil
  | dec_string s : decodes (FString s) (GString s)
  | dec_long n : decodes (FLong n) (GInt64 n)
  | dec_double q : decodes (FDouble q) (GFloat64 q)
  | dec_boolean b : decodes (FBoolean b) (GBool b)
  | dec_blob s : decodes (FBlob s) (GBytes s).
(** The widest type of the value's kind. *)
Definition widen (v : goval) : goval :=
  match v with
  | GInt n | GInt32 n => GInt64 n
  | GFloat32 q => GFloat64 q
  | _ => v
  end.

Lemma toField_encodes v f : toField v = Ok f <-> encodes v f.
Proof. split; [destruct v; intros [= <-]; constructor|by intros []]. Qed.
Lemma fromField_decodes f v : fromField f = Ok v <-> decodes f v.
Proof. split; [destruct f; intros [= <-]; constructor|by intros []]. Qed.

(** A value comes back widened. *)
Lemma encodes_decodes v f : encodes v f -> decodes f (widen v).
Proof. intros []; constructor. Qed.

Lemma buildSQLParameters_spec params :
  match buildSQLParameters params with
  | Ok ps => Forall2 (fun p s => pName s = p.1 /\ encodes p.2 (pValue s)) params ps
  | Err _ => exists p, In p params /\ forall f, ~ encodes p.2 f
  end.
Proof.
  induction params as [|[n v] params IH]; [constructor|]. cbn [buildSQLParameters].
  destruct (toField v) as [f|e] eqn:E.
  - destruct (buildSQLParameters params) as [ps|e]; simpl.
    + constructor; [|done]. split; [done|]. by apply toField_encodes.
    + destruct IH as (p & Hin & Hp). exists p. auto.
  - exists (n, v). split; [by left|]. intros f Hf%toField_encodes. simpl in Hf. congruence.
Qed.

Lemma decodeFields_spec fs :
  match decodeFields fs with
  | Ok vs => Forall2 decodes fs vs
  | Err _ => ~ Forall (fun f => exists v, decodes f v) fs
  end.
Proof.
  induction fs as [|f fs IH]; [constructor|]. cbn [decodeFields]. destruct (fromField f) as [v|e] eqn:E.
  - apply fromField_decodes in E. destruct (decodeFields fs); simpl; [by constructor|]. by intros [_ H]%Forall_cons_1.
  - intros [[v Hv] _]%Forall_cons_1. apply fromField_decodes in Hv. congruence.
Qed.

(** The row of a record: the value of every column under its name. *)
Definition rowOf (columns : list string) (record : list field) (r : row) : Prop :=
  forall n v, r !! n = Some v <-> exists j f, columns !! j = Some n /\ record !! j = Some f /\ decodes f v.

Lemma columnName_some columns j n : columns !! j = Some n -> n <> "" -> columnName (map Some columns) j = n.
Proof.
  intros Hj Hn%String.eqb_neq. unfold columnName. change (map Some columns) with (Some <$> columns).
  rewrite list_lookup_fmap, Hj. simpl. by rewrite Hn.
Qed.

Lemma decodeRecord_spec (columns : list string) :
  NoDup columns -> Forall (fun n => n <> "") columns -> forall record j r,
  (j + length record <= length columns)%nat ->
  match decodeRecord (map Some columns) j record r with
  | Ok r' => Forall (fun f => exists v, decodes f v) record /\ forall n v, r' !! n = Some v <->
      (exists i f, columns !! (j + i)%nat = Some n /\ record !! i = Some f /\ decodes f v) \/
      ((forall i, (i < length record)%nat -> columns !! (j + i)%nat <> Some n) /\ r !! n = Some v)
  | Err _ => ~ Forall (fun f => exists v, decodes f v) record
  end.
Proof.
  intros Hnd Hne. induction record as [|f record IH]; intros j r Hlen; cbn [decodeRecord].
  { split; [constructor|]. intros n v. split; [intros H; right; split; [simpl; lia|done]|]. by intros [(i & f & _ & H & _)|[_ H]]. }
  simpl in Hlen. assert (is_Some (columns !! j)) as [c Hc] by (apply lookup_lt_is_Some; lia).
  assert (c <> "") as Hcn by (rewrite Forall_forall in Hne; apply Hne; by eapply list_elem_of_lookup_2).
  rewrite (columnName_some _ _ _ Hc Hcn). destruct (fromField f) as [u|e] eqn:Ef.
  2:{ intros [[v Hv] _]%Forall_cons_1. apply fromField_decodes in Hv. congruence. }
  specialize (IH (S j) (<[c:=u]> r) ltac:(lia)).
  destruct (decodeRecord _ (S j) record _) as [r'|e]; [|by intros [_ ?]%Forall_cons_1].
  destruct IH as [Hread IH]. apply fromField_decodes in Ef. split; [constructor; [by exists u|done]|].
  intros n v. rewrite IH. clear IH. split.
  - intros [(i & g & H1 & H2 & H3)|[H1 H2]].
    + left. exists (S i), g. by rewrite <- Nat.add_succ_comm.
    + destruct (decide (n = c)) as [->|Hn].
      * rewrite lookup_insert_eq in H2. injection H2 as <-. left. exists 0%nat, f. by rewrite Nat.add_0_r.
      * rewrite lookup_insert_ne in H2 by done. right. split; [|done]. intros [|i] Hi; [rewrite Nat.add_0_r; congruence|].
        rewrite <- Nat.add_succ_comm. apply H1. simpl in Hi. lia.
  - intros [([|i] & g & H1 & H2 & H3)|[H1 H2]].
    + rewrite Nat.add_0_r, Hc in H1. injection H1 as <-. injection H2 as <-. right. split.
      * intros i Hi Hci. assert (j = (S j + i)%nat) by (by eapply NoDup_lookup). lia.
      * rewrite lookup_insert_eq. f_equal. destruct Ef; inversion H3; congruence.
    + left. exists i, g. by rewrite Nat.add_succ_comm.
    + right. split.
      * intros i Hi. rewrite Nat.add_succ_comm. apply H1. simpl. lia.
      * rewrite lookup_insert_ne; [done|]. intros ->. apply (H1 0%nat); [simpl; lia|]. by rewrite Nat.add_0_r.
Qed.

Lemma decodeRecords_spec columns records :
  NoDup columns -> Forall (fun n => n <> "") columns ->
  Forall (fun record => (length record <= length columns)%nat) records ->
  match decodeRecords records (map Some columns) with
  | Ok rows => Forall (Forall (fun f => exists v, decodes f v)) records /\ Forall2 (rowOf columns) records rows
  | Err _ => ~ Forall (Forall (fun f => exists v, decodes f v)) records
  end.
Proof.
  intros Hnd Hne Hl. induction Hl as [|record records Hr Hl IH]; [by split|]. cbn [decodeRecords].
  pose proof (decodeRecord_spec columns Hnd Hne record 0 ∅ Hr) as H.
  destruct (decodeRecord _ 0 record ∅) as [r|e]; simpl; [|by intros [? _]%Forall_cons_1].
  destruct (decodeRecords records _) as [rows|e]; simpl; [|by intros [_ ?]%Forall_cons_1].
  destruct H as [H1 H], IH as [H2 IH]. split; [by constructor|].
  constructor; [|done]. intros n v. rewrite H. split; [|auto].
  intros [(i & f & Hi)|[_ Hn]]; [by exists i, f|]. by rewrite lookup_empty in Hn.
Qed.

(** A database: a statement in a database and a transaction with its named
    parameters, and its table. *)
Record table := { columns : list string; contents : list (list field); updated : Z; generated : list field }.
Abbreviation engine W := (string -> option string -> option string -> gmap string field -> W -> W * result table).
(** The Data API in front of it, as its reference documents it: the parameters are
    bound by name, and the names of the columns are part of the answer only if the
    caller asks for the result's metadata. *)
Definition fronts {W} `{rdsDataAPI W} (db : engine W) : Prop :=
  forall i ps w, sParameters i = [ps] ->
    sdkExecute i w =
    let '(w', r) := db (sSql i) (sDatabase i) (sTransaction i)
                       (list_to_map (map (fun p => (pName p, pValue p)) ps)) w in
    (w', rmap (fun t => {| Records := contents t;
                           ColumnMetadata := if sMetadata i then map Some (columns t) else [];
                           NumberOfRecordsUpdated := updated t; sGenerated := generated t |}) r).
(** The columns have distinct names that are not empty, and records at most a field
    for each. *)
Definition named (t : table) : Prop :=
  NoDup (columns t) /\ Forall (fun n => n <> "") (columns t) /\
  Forall (fun record => (length record <= length (columns t))%nat) (contents t).
Definition readable (t : table) : Prop :=
  Forall (Forall (fun f => exists v, decodes f v)) (contents t) /\ Forall (fun f => exists v, decodes f v) (generated t).

Lemma bound_spec params ps : NoDup (map fst params) ->
  Forall2 (fun (p : string * goval) s => pName s = p.1 /\ encodes p.2 (pValue s)) params ps ->
  forall n f, (list_to_map (map (fun p => (pName p, pValue p)) ps) : gmap string field) !! n = Some f <->
    exists v, In (n, v) params /\ encodes v f.
Proof.
  intros Hnd HF. induction HF as [|[n0 v0] s params ps [Hn Hv] HF IH]; intros n f; simpl.
  - split; [by rewrite lookup_empty|by intros (? & [] & _)].
  - simpl in Hn, Hv. subst n0. inversion Hnd as [|? ? Hnin Hnd']; subst. destruct (decide (pName s = n)) as [<-|Hne].
    + rewrite lookup_insert_eq. split; [intros [= <-]; eauto|]. intros (v & [[= <-]|Hin] & He).
      * f_equal. destruct Hv; by inversion He.
      * exfalso. apply Hnin. apply list_elem_of_In. by apply (in_map fst) in Hin.
    + rewrite lookup_insert_ne by done. rewrite (IH Hnd'). split; intros (v & H & He); exists v; (split; [|done]); [auto|].
      destruct H as [[= E _]|H]; [by destruct Hne|done].
Qed.

(** (C27) Parameters and results make the round trip through the Data API, in front
    of any database.  Exactly the parameters, in any order, are bound by name in the
    chosen database and transaction, and each row of the result has exactly the
    columns' values under the columns' names: a parameter that a statement selects
    comes back with its value and the widest type of its kind.  Unless every
    parameter has a supported type nothing is sent; an error of the service, or a
    field that cannot be read, is an error. *)
Theorem parameters_round_trip {W} `{rdsDataAPI W} (db : engine W) (c : Client) (sql : string)
    (params : list (string * goval)) (tx dbname : string) (w : W) :
  fronts db -> NoDup (map fst params) -> sql <> "" ->
  let input := {| SQL := sql; Parameters := params; TransactionID := tx; InDatabase := dbname |} in
  let target := if decide (dbname = "") then database c else dbname in
  let given := fun s => if decide (s = "") then None else Some s in
  (forall v f, encodes v f -> decodes f (widen v)) /\
  (forall p, In p params -> (forall f, ~ encodes p.2 f) -> exists e, ExecuteStatement c input w = (w, Err e)) /\
  ((forall p, In p params -> exists f, encodes p.2 f) ->
   exists bound : gmap string field,
     (forall n f, bound !! n = Some f <-> exists v, In (n, v) params /\ encodes v f) /\
     let '(w', r) := db sql (given target) (given tx) bound w in
     match r with
     | Err e => exists msg, ExecuteStatement c input w = (w', Err (Wrap msg e))
     | Ok t => named t ->
         (readable t -> exists out, ExecuteStatement c input w = (w', Ok out) /\
            Forall2 (rowOf (columns t)) (contents t) (Rows out) /\ NumRecords out = updated t /\
            Forall2 decodes (generated t) (GeneratedFields out)) /\
         (~ readable t -> exists e, ExecuteStatement c input w = (w', Err e))
     end).
Proof.
  intros Hdb Hnd Hsql input target given. split; [apply encodes_decodes|].
  assert (Hgiven : forall s, given s = ofString s).
  { intros s. unfold given, ofString. destruct (String.eqb_spec s ""); by case_decide. }
  assert (Htarget : target = chooseDatabase c dbname).
  { unfold target, chooseDatabase. destruct (String.eqb_spec dbname ""); by case_decide. }
  rewrite !Hgiven, Htarget. clear given target Hgiven Htarget. apply String.eqb_neq in Hsql.
  unfold ExecuteStatement, input. cbn [SQL Parameters InDatabase TransactionID]. rewrite Hsql.
  pose proof (buildSQLParameters_spec params) as Hp. split.
  - intros p Hin Hno. destruct (buildSQLParameters params) as [ps|e]; [|by eexists]. exfalso.
    apply list_elem_of_In in Hin. apply list_elem_of_lookup in Hin as [i Hi].
    destruct (Forall2_lookup_l _ _ _ _ _ Hp Hi) as (s & _ & _ & He). by apply Hno in He.
  - intros Hall. destruct (buildSQLParameters params) as [ps|e].
    2:{ destruct Hp as (p & Hin & Hno). destruct (Hall p Hin) as [f Hf]. by apply Hno in Hf. }
    exists (list_to_map (map (fun p => (pName p, pValue p)) ps)). split; [by apply bound_spec|].
    rewrite (Hdb _ ps) by done. cbn [sSql sDatabase sTransaction sMetadata].
    destruct (db _ _ _ _ w) as [w' [t|e]]; [|by eexists]. cbn [rmap Records ColumnMetadata sGenerated NumberOfRecordsUpdated].
    intros (Hn1 & Hn2 & Hn3). pose proof (decodeRecords_spec _ _ Hn1 Hn2 Hn3) as Hr.
    pose proof (decodeFields_spec (generated t)) as Hg. unfold readable. split.
    + intros [H1 H2]. destruct (decodeRecords _ _) as [rows|e]; [destruct Hr as [_ Hr]|by apply Hr in H1].
      destruct (decodeFields _) as [gs|e]; [|by apply Hg in H2]. eexists. by split.
    + intros Hno. destruct (decodeRecords _ _) as [rows|e]; [|by eexists].
      destruct (decodeFields _) as [gs|e]; [|by eexists]. exfalso. apply Hno. split; [apply Hr|].
      clear -Hg. induction Hg; constructor; eauto.
Qed.

(** ** Columns of one name *)

(** Of two columns with the same name, as a join of two tables with an id column
    has, only the last is in the row; an unnamed column can replace one that is
    called col_ and its index. *)
Theorem equal_columns_overwrite n a b va vb :
  n <> "" -> fromField a = Ok va -> fromField b = Ok vb ->
  decodeRecords [[a; b]] [Some n; Some n] = Ok [{[ n := vb ]}] /\
  decodeRecords [[a; b]] [Some "col_1"; None] = Ok [{[ "col_1" := vb ]}].
Proof.
  intros Hn%String.eqb_neq Ha Hb. cbn [decodeRecords decodeRecord]. rewrite Ha, Hb. unfold columnName.
  cbn [lookup list_lookup default from_option id]. rewrite Hn. cbn.
  by rewrite !insert_insert_eq.
Qed.

(** ** Witnesses *)

(** A database that answers every statement with the table of its parameters. *)
Inductive paramDB : Type := ParamDB.
Definition paramTable (bound : gmap string field) : table :=
  {| columns := map fst (map_to_list bound); contents := [map snd (map_to_list bound)]; updated := 0; generated := [] |}.
Definition param_engine : engine paramDB := fun _ _ _ bound w => (w, Ok (paramTable bound)).
#[export] Instance param_api : rdsDataAPI paramDB := {
  sdkExecute := fun i w =>
    let ps := match sParameters i with ps :: _ => ps | [] => [] end in
    let t := paramTable (list_to_map (map (fun p => (pName p, pValue p)) ps)) in
    (w, Ok {| Records := contents t; ColumnMetadata := if sMetadata i then map Some (columns t) else [];
              NumberOfRecordsUpdated := updated t; sGenerated := generated t |});
  sdkBatch := fun _ w => (w, Ok []);
  sdkBegin := fun _ _ _ w => (w, Ok None);
  sdkCommit := fun _ _ _ w => (w, None);
  sdkRollback := fun _ _ _ w => (w, None);
}.
Definition demoClient : Client :=
  {| resourceARN := "arn:db"; secretARN := "arn:secret"; database := "shop"; endpoint := None |}.
Definition demoParams : list (string * goval) := [("id", GInt32 7); ("name", GString "x")].
Definition demoStatement (ps : list (string * goval)) : ExecuteStatementInput :=
  {| SQL := "select :id, :name"; Parameters := ps; TransactionID := ""; InDatabase := "" |}.

(** The parameters come back; a value of another type is not sent. *)
Lemma parameters_round_trip_witness :
  (exists r, ExecuteStatement demoClient (demoStatement demoParams) ParamDB =
     (ParamDB, Ok {| Rows := [r]; NumRecords := 0; GeneratedFields := [] |}) /\
     r = {["id" := GInt64 7; "name" := GString "x"]}) /\
  exists e, ExecuteStatement demoClient (demoStatement [("at", GOther "time.Time")]) ParamDB = (ParamDB, Err e).
Proof.
  split; [eexists; split; [vm_compute; reflexivity|vm_compute; reflexivity]|].
  assert (Hdb : fronts param_engine) by (intros i ps w Hps; unfold sdkExecute, param_api; by rewrite Hps).
  destruct (parameters_round_trip param_engine demoClient "select :id, :name" [("at", GOther "time.Time")] "" "" ParamDB
    Hdb ltac:(apply (bool_decide_unpack _); vm_compute; exact I) ltac:(discriminate)) as (_ & H & _).
  apply (H ("at", GOther "time.Time")); [by left|]. intros f Hf. inversion Hf.
Defined.

Lemma equal_columns_overwrite_witness :
  decodeRecords [[FLong 1; FLong 2]] [Some "id"; Some "id"] = Ok [{[ "id" := GInt64 2 ]}].
Proof. apply (equal_columns_overwrite "id" (FLong 1) (FLong 2) (GInt64 1) (GInt64 2)); [discriminate|reflexivity..]. Defined.
