(* ===== verification/Crypto.v ===== *)
(** * Password hashes and encrypted blobs (src/security/hashing, src/security/encryption)

    The encoded form of an argon2id hash with its parameters, and the layout of an
    encrypted blob.  The primitives (argon2.IDKey, cipher.AEAD, the random source)
    are arguments; unpadded base64, fmt.Sscanf on the two formats used and the
    checks of the parameters are the code's. *)

From S2P Require Import Prelude GoStrings Float64.

Open Scope string_scope.
Open Scope Z_scope.

(** ** Unpadded standard base64 *)

Definition b64char (v : Z) : ascii :=
  ascii_of_N (Z.to_N (if v <? 26 then 65 + v else if v <? 52 then 71 + v else if v <? 62 then v - 4
                      else if v =? 62 then 43 else 47)).
Definition b64val (c : ascii) : option Z :=
  let b := byteZ c in
  if isUpper c then Some (b - 65) else if isLower c then Some (b - 71)
  else if isDigit c then Some (b + 4) else if b =? 43 then Some 62 else if b =? 47 then Some 63 else None.

Fixpoint EncodeToString (s : string) : string :=
  match s with
  | String a (String b (String c s)) =>
      let '(x, y, z) := (byteZ a, byteZ b, byteZ c) in
      String (b64char (x / 4)) (String (b64char (x mod 4 * 16 + y / 16))
        (String (b64char (y mod 16 * 4 + z / 64)) (String (b64char (z mod 64)) (EncodeToString s))))
  | String a (String b "") =>
      let '(x, y) := (byteZ a, byteZ b) in
      String (b64char (x / 4)) (String (b64char (x mod 4 * 16 + y / 16)) (String (b64char (y mod 16 * 4)) ""))
  | String a "" =>
      let x := byteZ a in String (b64char (x / 4)) (String (b64char (x mod 4 * 16)) "")
  | "" => ""
  end.

(** The decoder skips line breaks; unused low bits are not looked at. *)
Fixpoint b64values (s : string) : option (list Z) :=
  match s with
  | "" => Some []
  | String c s =>
      if Ascii.eqb c "010" || Ascii.eqb c "013" then b64values s
      else v ← b64val c; vs ← b64values s; Some (v :: vs)
  end.
Fixpoint b64decode (vs : list Z) : option string :=
  match vs with
  | p :: q :: r :: t :: vs =>
      s ← b64decode vs;
      Some (String (byteOf (p * 4 + q / 16)) (String (byteOf (q mod 16 * 16 + r / 4))
        (String (byteOf (r mod 4 * 64 + t)) s)))
  | [p; q; r] => Some (String (byteOf (p * 4 + q / 16)) (String (byteOf (q mod 16 * 16 + r / 4)) ""))
  | [p; q] => Some (String (byteOf (p * 4 + q / 16)) "")
  | [_] => None
  | [] => Some ""
  end.
Definition DecodeString (s : string) : option string := vs ← b64values s; b64decode vs.

Lemma b64char_spec v : 0 <= v < 64 ->
  b64val (b64char v) = Some v /\ Ascii.eqb (b64char v) "010" || Ascii.eqb (b64char v) "013" = false /\
  b64char v <> "$"%char.
Proof.
  intros Hv.
  assert (Hall : forallb (fun n => let v := Z.of_nat n in
    bool_decide (b64val (b64char v) = Some v) && negb (Ascii.eqb (b64char v) "010" || Ascii.eqb (b64char v) "013") &&
    negb (Ascii.eqb (b64char v) "$")) (List.seq 0 64) = true) by (vm_compute; done).
  rewrite forallb_forall in Hall. specialize (Hall (Z.to_nat v) ltac:(apply in_seq; lia)).
  cbv zeta in Hall. rewrite Z2Nat.id in Hall by lia. rewrite !andb_true_iff, !negb_true_iff in Hall.
  destruct Hall as [[H1 H2] H3]. split_and!; [by apply bool_decide_eq_true in H1|done|by apply Ascii.eqb_neq].
Qed.

Lemma b64values_char v s : 0 <= v < 64 -> b64values (String (b64char v) s) = cons v <$> b64values s.
Proof.
  intros Hv. destruct (b64char_spec v Hv) as (H1 & H2 & _). cbn [b64values]. rewrite H2, H1. simpl.
  by destruct (b64values s).
Qed.

(** Recursion three bytes at a time. *)
Lemma string_ind3 (P : string -> Prop) :
  P "" -> (forall a, P (String a "")) -> (forall a b, P (String a (String b ""))) ->
  (forall a b c s, P s -> P (String a (String b (String c s)))) -> forall s, P s.
Proof.
  intros H0 H1 H2 H3. assert (H : forall n s, (String.length s <= n)%nat -> P s); [|intros s; by eapply H].
  induction n as [|n IH]; intros s Hs; [by destruct s; [|simpl in Hs; lia]|].
  destruct s as [|a [|b [|c s]]]; auto. apply H3, IH. simpl in Hs. lia.
Qed.

Ltac sextets := Z.to_euclidean_division_equations; lia.

Lemma EncodeToString_values s :
  exists vs, b64values (EncodeToString s) = Some vs /\ b64decode vs = Some s.
Proof.
  induction s as [|a|a b|a b c s (vs & Hvs & Hd)] using string_ind3; cbn [EncodeToString].
  - by exists [].
  - pose proof (byteZ_range a). set (x := byteZ a) in *. rewrite !b64values_char by sextets.
    eexists. split; [done|]. cbn [b64decode]. do 2 f_equal.
    rewrite <- (byteOf_byteZ a). f_equal. fold x. sextets.
  - pose proof (byteZ_range a). pose proof (byteZ_range b).
    set (x := byteZ a) in *. set (y := byteZ b) in *. rewrite !b64values_char by sextets.
    eexists. split; [done|]. cbn [b64decode]. f_equal.
    rewrite <- (byteOf_byteZ a), <- (byteOf_byteZ b). fold x y. f_equal; [f_equal|f_equal; f_equal]; sextets.
  - pose proof (byteZ_range a). pose proof (byteZ_range b). pose proof (byteZ_range c).
    set (x := byteZ a) in *. set (y := byteZ b) in *. set (z := byteZ c) in *.
    rewrite !b64values_char by sextets. rewrite Hvs. eexists. split; [done|].
    cbn [b64decode fmap option_fmap option_map]. rewrite Hd. cbn [mbind option_bind]. f_equal.
    rewrite <- (byteOf_byteZ a), <- (byteOf_byteZ b), <- (byteOf_byteZ c). fold x y z.
    f_equal; [f_equal; sextets|]. f_equal; [f_equal; sextets|]. f_equal. f_equal. sextets.
Qed.

Lemma base64_roundtrip s : DecodeString (EncodeToString s) = Some s.
Proof. unfold DecodeString. destruct (EncodeToString_values s) as (vs & -> & H). exact H. Qed.

(** What holds of every character of the alphabet holds of every encoded one. *)
Lemma EncodeToString_forall (P : ascii -> bool) s :
  (forall v, 0 <= v < 64 -> P (b64char v) = true) -> sforall P (EncodeToString s) = true.
Proof.
  intros HP. assert (Hc : forall v r, 0 <= v < 64 -> sforall P r = true -> sforall P (String (b64char v) r) = true).
  { intros v r Hv Hr. cbn [sforall]. by rewrite HP, Hr. }
  induction s as [|a|a b|a b c s IH] using string_ind3; cbn [EncodeToString]; try done;
    repeat match goal with x : ascii |- _ => pose proof (byteZ_range x); generalize dependent (byteZ x); clear x end;
    intros; repeat (apply Hc; [sextets|]); done.
Qed.

Lemma EncodeToString_no_dollar s : ~ sIn "$" (EncodeToString s).
Proof.
  apply (sforall_notIn (fun c => negb (Ascii.eqb c "$"))); [|done].
  apply EncodeToString_forall. intros v Hv. by apply negb_true_iff, Ascii.eqb_neq, (b64char_spec v Hv).
Qed.

(** ** Scanning: fmt.Sscanf *)

(** Blanks before a number are skipped; a line break is an error. *)
Fixpoint skipSpace (fuel : nat) (s : string) : option string :=
  match fuel with
  | O => Some s
  | S fuel =>
      match s with
      | String "010" _ => None
      | _ => match cutAny spaces s with Some r => skipSpace fuel r | None => Some s end
      end
  end.
Definition scanDigits (s : string) : option (Z * string) :=
  let '(n, k, r) := takeDigits s 0 0 in if k =? 0 then None else Some (n, r).
(** [%d] into a uint32 and into an int. *)
Definition scanUint32 (s : string) : option (Z * string) :=
  s ← skipSpace (String.length s) s;
  '(n, r) ← scanDigits s;
  if n <? 2 ^ 32 then Some (n, r) else None.
Definition scanInt (s : string) : option (Z * string) :=
  s ← skipSpace (String.length s) s;
  let '(sign, s) := match s with
                    | String "-" s => (-1, s)
                    | String "+" s => (1, s)
                    | _ => (1, s)
                    end in
  '(n, r) ← scanDigits s;
  let n := sign * n in
  if (int64_min <=? n) && (n <=? int64_max) then Some (n, r) else None.

(** What follows the last number in the input is not looked at. *)
Definition scanVersion (s : string) : option Z :=
  s ← CutPrefix s "v="; '(v, _) ← scanInt s; Some v.
Definition scanParams (s : string) : option (Z * Z * Z) :=
  s ← CutPrefix s "m="; '(m, s) ← scanUint32 s;
  s ← CutPrefix s ",t="; '(t, s) ← scanUint32 s;
  s ← CutPrefix s ",p="; '(p, _) ← scanUint32 s;
  Some (m, t, p).

(** ** Hashing *)

Definition DefaultMemory : Z := 64 * 1024.
Definition DefaultTime : Z := 3.
Definition DefaultParallelism : Z := 2.
Definition DefaultSaltLen : Z := 16.
Definition DefaultKeyLen : Z := 32.
Definition argonVersion : Z := 19.

Record HashConfig := { cMemory : Z; cTime : Z; cParallelism : Z; cSaltLen : Z; cKeyLen : Z }.
Record Hasher := { memory : Z; time : Z; parallelism : Z; saltLen : Z; keyLen : Z }.

Definition orDefault (v d : Z) : Z := if v =? 0 then d else v.
(** The configuration's numbers are uint32, the parallelism uint8. *)
Definition NewHasher (cfg : HashConfig) : result Hasher :=
  let h := {| memory := orDefault (cMemory cfg) DefaultMemory; time := orDefault (cTime cfg) DefaultTime;
              parallelism := orDefault (cParallelism cfg) DefaultParallelism;
              saltLen := orDefault (cSaltLen cfg) DefaultSaltLen; keyLen := orDefault (cKeyLen cfg) DefaultKeyLen |} in
  if memory h <? 8 * parallelism h then Err (Errorf "requires memory of at least 8 KiB per lane")
  else if saltLen h <? 8 then Err (Errorf "requires a salt of at least 8 bytes")
  else if keyLen h <? 16 then Err (Errorf "requires a key of at least 16 bytes")
  else Ok h.

Record params := { pMemory : Z; pTime : Z; pParallelism : Z }.

Section Hashing.
(** argon2.IDKey: password, salt, time, memory, threads, key length. *)
Variable IDKey : string -> string -> Z -> Z -> Z -> Z -> string.

Definition encode (h : Hasher) (salt key : string) : string :=
  "$argon2id$v=" +:+ Itoa argonVersion +:+ "$m=" +:+ Itoa (memory h) +:+ ",t=" +:+ Itoa (time h) +:+
  ",p=" +:+ Itoa (parallelism h) +:+ "$" +:+ EncodeToString salt +:+ "$" +:+ EncodeToString key.

(** [rand n] is what crypto/rand delivers. *)
Definition Hash (rand : Z -> result string) (h : Hasher) (plaintext : string) : result string :=
  match rand (saltLen h) with
  | Err e => Err (Wrap "failed to generate salt" e)
  | Ok salt => Ok (encode h salt (IDKey plaintext salt (time h) (memory h) (parallelism h) (keyLen h)))
  end.

Definition decode (encodedHash : string) : result (params * string * string) :=
  match Split encodedHash "$" with
  | [""; alg; v; ps; salt; key] =>
      if negb (String.eqb alg "argon2id") then Err (Errorf "unsupported algorithm") else
      match scanVersion v with
      | None => Err (Errorf "failed to parse hash version")
      | Some version =>
          if negb (version =? argonVersion) then Err (Errorf "unsupported argon2 version") else
          match scanParams ps with
          | None => Err (Errorf "failed to parse hash parameters")
          | Some (mem, tm, par) =>
              if (tm =? 0) || (par =? 0) || (255 <? par) || (mem <? 8 * par)
              then Err (Errorf "failed to parse hash: invalid parameters") else
              match DecodeString salt with
              | None => Err (Errorf "failed to decode salt")
              | Some salt =>
                  match DecodeString key with
                  | None => Err (Errorf "failed to decode hash")
                  | Some key =>
                      if String.eqb salt "" || String.eqb key ""
                      then Err (Errorf "failed to parse hash: empty salt or key")
                      else Ok ({| pMemory := mem; pTime := tm; pParallelism := par |}, salt, key)
                  end
              end
          end
      end
  | _ => Err (Errorf "failed to parse hash: malformed encoding")
  end.

Definition Verify (plaintext encodedHash : string) : result bool :=
  match decode encodedHash with
  | Err e => Err e
  | Ok (p, salt, key) =>
      Ok (String.eqb (IDKey plaintext salt (pTime p) (pMemory p) (pParallelism p) (len key)) key)
  end.
End Hashing.

(** ** Encryption *)

Definition KeySize : Z := 32.

(** cipher.AEAD of AES-GCM under a key. *)
Record AEAD := { NonceSize : nat; Seal : string -> string -> string; Open_ : string -> string -> option string }.

Definition NewCipher (gcm : string -> result AEAD) (key : string) : result AEAD :=
  if negb (len key =? KeySize) then Err (Errorf "requires a 32-byte key") else
  match gcm key with
  | Err e => Err (Wrap "failed to create cipher" e)
  | Ok a => Ok a
  end.
Definition Encrypt (rand : nat -> result string) (c : AEAD) (plaintext : string) : result string :=
  match rand (NonceSize c) with
  | Err e => Err (Wrap "failed to generate nonce" e)
  | Ok nonce => Ok (nonce +:+ Seal c nonce plaintext)
  end.
Definition Decrypt (c : AEAD) (blob : string) : result string :=
  if (String.length blob <? NonceSize c)%nat then Err (Errorf "failed to decrypt: ciphertext shorter than nonce") else
  match Open_ c (stake (NonceSize c) blob) (sdrop (NonceSize c) blob) with
  | None => Err (Errorf "failed to decrypt")
  | Some p => Ok p
  end.

(** ** Round trips *)

Lemma skipSpace_digit n c s : isDigit c = true -> skipSpace n (String c s) = Some (String c s).
Proof.
  destruct n; [done|]. intros Hc.
  assert (Hnone : cutAny spaces (String c s) = None).
  { apply cutAny_None. intros p Hp.
    assert (Hall : forallb (fun p => match p with String x _ => negb (isDigit x) | "" => false end) spaces = true)
      by (vm_compute; done).
    rewrite forallb_forall in Hall. specialize (Hall p Hp). destruct p as [|x p]; [done|].
    apply not_true_is_false. intros [r Hr]%HasPrefix_spec. injection Hr as -> _. by rewrite Hc in Hall. }
  cbn [skipSpace]. rewrite Hnone. destruct c as [[] [] [] [] [] [] [] []]; try done.
Qed.

Lemma Itoa_head n : 0 <= n -> exists c s, Itoa n = String c s /\ isDigit c = true.
Proof.
  intros Hn. destruct (takeDigits_Itoa n "" Hn I) as (k & Hk & E). rewrite sapp_nil_r in E.
  pose proof (pretty_N_digits (Z.to_N n)) as Hd. rewrite <- Itoa_nonneg in Hd by done.
  destruct (Itoa n) as [|c s]; [injection E; lia|]. exists c, s. split; [done|].
  cbn [sforall] in Hd. by apply andb_true_iff in Hd as [Hd _].
Qed.

Definition noDigit (r : string) : Prop := match r with String c _ => isDigit c = false | "" => True end.

Lemma scanUint32_Itoa n r : 0 <= n < 2 ^ 32 -> noDigit r -> scanUint32 (Itoa n +:+ r) = Some (n, r).
Proof.
  intros Hn Hr. unfold scanUint32, scanDigits.
  destruct (Itoa_head n ltac:(lia)) as (c & s & E & Hc). rewrite E, sapp_cons, skipSpace_digit by done.
  cbn [mbind option_bind]. rewrite <- sapp_cons, <- E.
  destruct (takeDigits_Itoa n r ltac:(lia) Hr) as (k & Hk & ->).
  destruct (Z.eqb_spec k 0); [lia|]. cbn [mbind option_bind].
  by destruct (Z.ltb_spec n (2 ^ 32)); [|lia].
Qed.

Lemma scanParams_encoded m t p :
  0 <= m < 2 ^ 32 -> 0 <= t < 2 ^ 32 -> 0 <= p < 2 ^ 32 ->
  scanParams ("m=" +:+ Itoa m +:+ ",t=" +:+ Itoa t +:+ ",p=" +:+ Itoa p) = Some (m, t, p).
Proof.
  intros Hm Ht Hp. unfold scanParams.
  assert (HC : forall a r, CutPrefix (a +:+ r) a = Some r) by (intros; by apply CutPrefix_Some).
  rewrite (HC "m="). cbn [mbind option_bind]. rewrite scanUint32_Itoa by done. cbn [mbind option_bind].
  rewrite (HC ",t="). cbn [mbind option_bind]. rewrite scanUint32_Itoa by done. cbn [mbind option_bind].
  rewrite (HC ",p="). cbn [mbind option_bind]. rewrite <- (sapp_nil_r (Itoa p)).
  by rewrite scanUint32_Itoa by done.
Qed.

Lemma Itoa_no_dollar n : 0 <= n -> ~ sIn "$" (Itoa n).
Proof.
  intros Hn. rewrite Itoa_nonneg by done. eapply sforall_notIn; [apply pretty_N_digits|reflexivity].
Qed.

(** What [NewHasher] accepts, for numbers of the width of the fields. *)
Definition widths (cfg : HashConfig) : Prop :=
  0 <= cMemory cfg < 2 ^ 32 /\ 0 <= cTime cfg < 2 ^ 32 /\ 0 <= cParallelism cfg < 256 /\
  0 <= cSaltLen cfg < 2 ^ 32 /\ 0 <= cKeyLen cfg < 2 ^ 32.

Lemma NewHasher_ok cfg h : widths cfg -> NewHasher cfg = Ok h ->
  8 * parallelism h <= memory h < 2 ^ 32 /\ 0 < time h < 2 ^ 32 /\ 0 < parallelism h < 256 /\
  8 <= saltLen h /\ 16 <= keyLen h.
Proof.
  intros (H1 & H2 & H3 & H4 & H5). unfold NewHasher.
  set (h0 := Build_Hasher _ _ _ _ _).
  destruct (Z.ltb_spec (memory h0) (8 * parallelism h0)); [done|].
  destruct (Z.ltb_spec (saltLen h0) 8); [done|]. destruct (Z.ltb_spec (keyLen h0) 16); [done|].
  intros [= <-]. unfold h0, orDefault, DefaultMemory, DefaultTime, DefaultParallelism in *. cbn in *.
  destruct (Z.eqb_spec (cMemory cfg) 0), (Z.eqb_spec (cTime cfg) 0), (Z.eqb_spec (cParallelism cfg) 0);
    split_and!; lia.
Qed.

(** An encoded hash is read back as it was. *)
Lemma decode_encode h salt key :
  8 * parallelism h <= memory h < 2 ^ 32 -> 0 < time h < 2 ^ 32 -> 0 < parallelism h < 256 ->
  salt <> "" -> key <> "" ->
  decode (encode h salt key) =
  Ok ({| pMemory := memory h; pTime := time h; pParallelism := parallelism h |}, salt, key).
Proof.
  intros Hm Ht Hp Hs%String.eqb_neq Hk%String.eqb_neq. unfold decode.
  assert (HS : Split (encode h salt key) "$" =
    [""; "argon2id"; "v=19"; "m=" +:+ Itoa (memory h) +:+ ",t=" +:+ Itoa (time h) +:+ ",p=" +:+ Itoa (parallelism h);
     EncodeToString salt; EncodeToString key]).
  { unfold encode. change (Itoa argonVersion) with "19".
    set (ps := "m=" +:+ Itoa (memory h) +:+ ",t=" +:+ Itoa (time h) +:+ ",p=" +:+ Itoa (parallelism h)).
    assert (Hps : ~ sIn "$" ps).
    { unfold ps. rewrite !sIn_app.
      intros H. repeat destruct H as [H|H]; try (simpl in H; intuition discriminate);
        revert H; apply Itoa_no_dollar; lia. }
    replace (_ +:+ _) with ("" +:+ String "$" ("argon2id" +:+ String "$" ("v=19" +:+ String "$" (ps +:+ String "$"
      (EncodeToString salt +:+ String "$" (EncodeToString key)))))).
    - rewrite !Split_app, (Split_plain ps), !(Split_plain (EncodeToString _)) by (done || apply EncodeToString_no_dollar).
      reflexivity.
    - unfold ps. rewrite !sapp_assoc. reflexivity. }
  rewrite HS. cbn [negb String.eqb]. change (String.eqb "argon2id" "argon2id") with true. cbv iota.
  change (scanVersion "v=19") with (Some 19). change (negb (19 =? argonVersion)) with false. cbn [negb]. cbv iota.
  rewrite scanParams_encoded by lia.
  destruct (Z.eqb_spec (time h) 0), (Z.eqb_spec (parallelism h) 0), (Z.ltb_spec 255 (parallelism h)),
    (Z.ltb_spec (memory h) (8 * parallelism h)); try lia. cbn [orb].
  rewrite !base64_roundtrip, Hs, Hk. reflexivity.
Qed.

(** (C13) A hash made by any accepted hasher verifies its password: the encoded string
    is read back as the parameters, salt and key that went into it, whatever bytes
    they are, so that verifying any password recomputes the key with them. *)
Theorem hash_round_trip IDKey rand cfg h plaintext salt
    (Hlen : forall p s t m th n, 0 < n -> len (IDKey p s t m th n) = n) :
  widths cfg -> NewHasher cfg = Ok h -> rand (saltLen h) = Ok salt -> len salt = saltLen h ->
  exists enc, Hash IDKey rand h plaintext = Ok enc /\ Verify IDKey plaintext enc = Ok true /\
    forall other, Verify IDKey other enc =
      Ok (String.eqb (IDKey other salt (time h) (memory h) (parallelism h) (keyLen h))
                     (IDKey plaintext salt (time h) (memory h) (parallelism h) (keyLen h))).
Proof.
  intros Hw Hn Hr Hs. destruct (NewHasher_ok cfg h Hw Hn) as (H1 & H2 & H3 & H4 & H5).
  unfold Hash. rewrite Hr. eexists. split; [done|].
  set (key := IDKey plaintext salt _ _ _ _).
  assert (Hkey : len key = keyLen h) by (apply Hlen; lia).
  assert (HV : forall other, Verify IDKey other (encode h salt key) =
    Ok (String.eqb (IDKey other salt (time h) (memory h) (parallelism h) (keyLen h)) key)).
  { intros other. unfold Verify. rewrite decode_encode; try done.
    - cbn [pTime pMemory pParallelism]. by rewrite Hkey.
    - intros ->. unfold len in Hs. simpl in Hs. lia.
    - intros He. rewrite He in Hkey. unfold len in Hkey. simpl in Hkey. lia. }
  split; [|exact HV]. rewrite HV. by rewrite String.eqb_refl.
Qed.

(** Decrypting what was encrypted gives the plaintext back, for every nonce the
    random source delivers; and a blob shorter than a nonce is refused. *)
Theorem encryption_round_trip c rand plaintext nonce
    (Hlaw : forall n p, Open_ c n (Seal c n p) = Some p) :
  rand (NonceSize c) = Ok nonce -> String.length nonce = NonceSize c ->
  (exists blob, Encrypt rand c plaintext = Ok blob /\ Decrypt c blob = Ok plaintext) /\
  (forall blob, (String.length blob < NonceSize c)%nat -> is_ok (Decrypt c blob) = false).
Proof.
  intros Hr Hn. split.
  - unfold Encrypt. rewrite Hr. eexists. split; [done|]. unfold Decrypt.
    rewrite slen_app. destruct (Nat.ltb_spec (String.length nonce + String.length (Seal c nonce plaintext)) (NonceSize c)); [lia|].
    by rewrite <- Hn, stake_app, sdrop_app, Hlaw.
  - intros blob Hb. unfold Decrypt. by destruct (Nat.ltb_spec (String.length blob) (NonceSize c)); [|lia].
Qed.

(** The encoding of a hash is not unique: text behind the version number and
    behind the parameters is not looked at, so a stored hash that was altered there
    still verifies. *)
Theorem altered_hash_verifies IDKey plaintext :
  let a := "$argon2id$v=19$m=64,t=1,p=1$c2FsdHNhbHQ$a2V5a2V5" in
  let b := "$argon2id$v=19.1$m= 64,t=+1,p=1;x=9$c2FsdHNhbHQ$a2V5a2V5" in
  let c := "$argon2id$v=19.1$m= 64,t= 1,p=1;x=9$c2FsdHNhbHQ$a2V5a2V5" in
  Verify IDKey plaintext c = Verify IDKey plaintext a /\ is_ok (Verify IDKey plaintext a) = true /\
  is_ok (Verify IDKey plaintext b) = false.
Proof. cbv zeta. unfold Verify. split_and!; vm_compute; reflexivity. Qed.

(** ** Witnesses *)

Definition padKey (p s : string) (t m th n : Z) : string :=
  stakeZ n (p +:+ String.concat "" (repeat "0" (Z.to_nat n))).
Lemma zeros_len n : String.length (String.concat "" (repeat "0" n)) = n.
Proof.
  induction n as [|n IH]; [done|]. destruct n as [|n]; [done|].
  change (String.concat "" (repeat "0" (S (S n)))) with ("0" +:+ "" +:+ String.concat "" (repeat "0" (S n))).
  rewrite !slen_app, IH. simpl. lia.
Qed.
Lemma stakeZ_exact s : forall n, 0 <= n <= len s -> len (stakeZ n s) = n.
Proof.
  unfold len. induction s as [|c s IH]; intros n Hn; simpl in *; [lia|].
  destruct (Z.ltb_spec 0 n); cbn [String.length]; [|simpl; lia]. rewrite Nat2Z.inj_succ, IH; lia.
Qed.
Lemma padKey_len p s t m th n : 0 < n -> len (padKey p s t m th n) = n.
Proof.
  intros Hn. apply stakeZ_exact. unfold len. rewrite slen_app, zeros_len. lia.
Qed.
Definition demoConfig : HashConfig :=
  {| cMemory := 64; cTime := 1; cParallelism := 1; cSaltLen := 8; cKeyLen := 16 |}.
Definition demoHasher : Hasher :=
  {| memory := 64; time := 1; parallelism := 1; saltLen := 8; keyLen := 16 |}.
Definition demoRand (n : Z) : result string := Ok "saltsalt".

Lemma hash_round_trip_witness :
  exists enc, Hash padKey demoRand demoHasher "hunter2" = Ok enc /\ Verify padKey "hunter2" enc = Ok true /\
    forall other, Verify padKey other enc =
      Ok (String.eqb (padKey other "saltsalt" 1 64 1 16) (padKey "hunter2" "saltsalt" 1 64 1 16)).
Proof.
  apply (hash_round_trip padKey demoRand demoConfig demoHasher "hunter2" "saltsalt" padKey_len);
    [|reflexivity..]. repeat split; discriminate.
Defined.

Definition plainAEAD : AEAD :=
  {| NonceSize := 12; Seal := fun n p => n +:+ p; Open_ := fun n c => CutPrefix c n |}.
Lemma encryption_round_trip_witness :
  exists blob, Encrypt (fun _ => Ok "123456789012") plainAEAD "secret" = Ok blob /\ Decrypt plainAEAD blob = Ok "secret".
Proof.
  apply (encryption_round_trip plainAEAD (fun _ => Ok "123456789012") "secret" "123456789012").
  - intros n p. apply CutPrefix_Some. reflexivity.
  - reflexivity.
  - reflexivity.
Defined.
