(* ===== verification/Events.v ===== *)
(** * Events (src/events, src/aws/sqs, src/aws/sns)

    The event envelope, publishing to an SNS FIFO topic, the SQS client, and the
    subscriber's poll loop as a function of what the polls answer. *)

From S2P Require Import Prelude GoStrings Http Aws.

Open Scope string_scope.
Open Scope Z_scope.

(** ** SQS *)

Abbreviation attributes := (gmap string string).

Module Sqs.
Record SendInput := { QueueURL : string; Body : string; GroupID : string; DedupID : string; Attrs : attributes }.
Record Message := { MsgID : string; MsgBody : string; ReceiptHandle : string; MsgAttrs : attributes }.

(** The SDK's inputs and outputs. *)
Record sdkMessage := {
  mId : option string; mBody : option string; mReceipt : option string; mAttrs : gmap string (option string)
}.
Record sdkSend := {
  sQueue : string; sBody : string; sGroup : option string; sDedup : option string;
  sAttrs : option (gmap string string)
}.
Class sdk (W : Type) := {
  SendMessage : sdkSend -> W -> W * result (option string);
  ReceiveMessage : string -> Z -> Z -> W -> W * result (list sdkMessage);
  DeleteMessage : string -> string -> W -> W * option error;
}.

Definition New : loader -> Config -> result (option string) :=
  newSDK (Errorf "missing region") (Wrap "failed to load config").

Section Client.
Context {W : Type} `{sdk W}.

Definition messageAttributes (attrs : attributes) : option attributes :=
  if bool_decide (attrs = ∅) then None else Some attrs.
Definition Send (input : SendInput) (w : W) : W * result string :=
  let '(w, r) := SendMessage {| sQueue := QueueURL input; sBody := Body input; sGroup := ofString (GroupID input);
                                sDedup := ofString (DedupID input); sAttrs := messageAttributes (Attrs input) |} w in
  (w, match r with Ok id => Ok (ToString id) | Err e => Err (Wrap "failed to send message" e) end).

Definition fromSDK (m : sdkMessage) : Message :=
  {| MsgID := ToString (mId m); MsgBody := ToString (mBody m); ReceiptHandle := ToString (mReceipt m);
     MsgAttrs := omap id (mAttrs m) |}.
Definition Receive (queueURL : string) (maxMessages : Z) (w : W) : W * result (list Message) :=
  let maxMessages := if 10 <? maxMessages then 10 else maxMessages in
  let '(w, r) := ReceiveMessage queueURL maxMessages 20 w in
  (w, match r with Ok ms => Ok (map fromSDK ms) | Err e => Err (Wrap "failed to receive message" e) end).
Definition Delete (queueURL receiptHandle : string) (w : W) : W * option error :=
  let '(w, e) := DeleteMessage queueURL receiptHandle w in (w, Wrap "failed to delete message" <$> e).
End Client.
End Sqs.

(** ** SNS *)

Module Sns.
Record PublishInput := { TopicARN : string; Message : string; GroupID : string; DedupID : string; Attrs : attributes }.
Record sdkPublish := {
  pTopic : string; pMessage : string; pGroup : option string; pDedup : option string; pAttrs : option attributes
}.
Class sdk (W : Type) := sdkSNS : sdkPublish -> W -> W * result (option string).

Definition New : loader -> Config -> result (option string) :=
  newSDK (Errorf "missing region") (Wrap "failed to load config").
Definition Publish {W} `{sdk W} (input : PublishInput) (w : W) : W * result string :=
  let '(w, r) := sdkSNS {| pTopic := TopicARN input; pMessage := Message input; pGroup := ofString (GroupID input);
                           pDedup := ofString (DedupID input); pAttrs := Sqs.messageAttributes (Attrs input) |} w in
  (w, match r with Ok id => Ok (ToString id) | Err e => Err (Wrap "failed to publish message" e) end).
End Sns.

(** ** Events *)

Definition EntityTypes : list string :=
  ["order"; "user"; "payment"; "cart"; "inventory"; "product"; "shipment"; "review"].

Section Events.
(** The payload, a JSON object. *)
Context {P : Type}.

Record Event := {
  evID : string; evType : string; evSource : string; evEntityID : string; evEntityType : string;
  evOccurredAt : Z; evVersion : string; evPayload : P; evCorrelationID : string
}.
(** [id] is uuid.NewString, [t] the clock. *)
Definition NewEvent (id : string) (t : Z) (eventType source entityID entityType : string) (payload : P) : Event :=
  {| evID := id; evType := eventType; evSource := source; evEntityID := entityID; evEntityType := entityType;
     evOccurredAt := t; evVersion := "1"; evPayload := payload; evCorrelationID := "" |}.
Definition WithCorrelation (e : Event) (id : string) : Event :=
  {| evID := evID e; evType := evType e; evSource := evSource e; evEntityID := evEntityID e;
     evEntityType := evEntityType e; evOccurredAt := evOccurredAt e; evVersion := evVersion e;
     evPayload := evPayload e; evCorrelationID := id |}.
Definition WithCorrelationFromContext (e : Event) (ctx : context) : Event :=
  let id := GetCorrelationID ctx in if String.eqb id "" then e else WithCorrelation e id.

(** ** Publisher *)

Section Publisher.
Context {W : Type} `{Sns.sdk W}.
Variable marshal : Event -> result string.

Definition Publish (topicARN : string) (event : Event) (w : W) : W * option error :=
  match marshal event with
  | Err e => (w, Some (Wrap "failed to marshal event" e))
  | Ok body =>
      let '(w, r) := Sns.Publish {| Sns.TopicARN := topicARN; Sns.Message := body; Sns.GroupID := evEntityID event;
                                    Sns.DedupID := evID event; Sns.Attrs := ∅ |} w in
      (w, match r with Ok _ => None | Err e => Some e end)
  end.
End Publisher.

(** ** Subscriber *)

(** [NewSubscriber]'s batch size. *)
Definition batchSize (maxBatch : Z) : Z := if (maxBatch <=? 0) || (10 <? maxBatch) then 10 else maxBatch.

Definition maxBackoff : Z := 30 * Second.
Definition nextBackoff (backoff : Z) : Z :=
  if backoff =? 0 then Second
  else let b := backoff * 2 in if maxBackoff <? b then maxBackoff else b.

(** What one round of the loop meets: whether the context is cancelled when it starts,
    after a failed poll, and during the wait; and what the poll answers. *)
Record poll := {
  cancelledBefore : bool; answer : result (list Sqs.Message); cancelledAfter : bool; cancelledWaiting : bool
}.
Inductive action : Type :=
  | AHandle (e : Event)
  | ADelete (receipt : string)
  | ASleep (d : Z).

Variable decode : string -> option Event.
(** Whether the n-th call of the handler, which gets an event, returns nil: a handler
    may answer a redelivered event differently. *)
Variable handler : nat -> Event -> bool.

(** [n] counts the calls of the handler. *)
Definition serveMessage (n : nat) (m : Sqs.Message) : list action * nat :=
  match decode (Sqs.MsgBody m) with
  | None => ([ADelete (Sqs.ReceiptHandle m)], n)
  | Some evt => (if handler n evt then [AHandle evt; ADelete (Sqs.ReceiptHandle m)] else [AHandle evt], S n)
  end.
Fixpoint serveBatch (n : nat) (msgs : list Sqs.Message) : list action * nat :=
  match msgs with
  | [] => ([], n)
  | m :: msgs =>
      let '(acts, n) := serveMessage n m in
      let '(acts', n) := serveBatch n msgs in ((acts ++ acts')%list, n)
  end.

(** The loop over the rounds given: what it does, and whether it has returned. *)
Fixpoint subscribeLoop (n : nat) (backoff : Z) (polls : list poll) : list action * bool :=
  match polls with
  | [] => ([], false)
  | p :: polls =>
      if cancelledBefore p then ([], true) else
      match answer p with
      | Err _ =>
          if cancelledAfter p then ([], true) else
          let backoff := nextBackoff backoff in
          if cancelledWaiting p then ([ASleep backoff], true)
          else let '(acts, ret) := subscribeLoop n backoff polls in (ASleep backoff :: acts, ret)
      | Ok msgs =>
          let '(acts, n) := serveBatch n msgs in
          let '(acts', ret) := subscribeLoop n 0 polls in ((acts ++ acts')%list, ret)
      end
  end.
Definition Subscribe (polls : list poll) : list action * bool := subscribeLoop 0 0 polls.

(** ** Properties *)

(** The messages of the rounds before the loop returned. *)
Fixpoint delivered (polls : list poll) : list Sqs.Message :=
  match polls with
  | [] => []
  | p :: polls =>
      if cancelledBefore p then [] else
      match answer p with
      | Err _ => if cancelledAfter p || cancelledWaiting p then [] else delivered polls
      | Ok ms => (ms ++ delivered polls)%list
      end
  end.
Definition handled (acts : list action) : list Event :=
  omap (fun a => match a with AHandle e => Some e | _ => None end) acts.
Definition deleted (acts : list action) : list string :=
  omap (fun a => match a with ADelete r => Some r | _ => None end) acts.
Definition slept (acts : list action) : list Z :=
  omap (fun a => match a with ASleep d => Some d | _ => None end) acts.

(** The messages that may be removed, the handler having been called [n] times:
    nothing can read the message, or the call that got its event returned nil. *)
Fixpoint removable (n : nat) (ms : list Sqs.Message) : list Sqs.Message :=
  match ms with
  | [] => []
  | m :: ms =>
      match decode (Sqs.MsgBody m) with
      | None => m :: removable n ms
      | Some e => if handler n e then m :: removable (S n) ms else removable (S n) ms
      end
  end.
Definition calls (ms : list Sqs.Message) : nat := length (omap (fun m => decode (Sqs.MsgBody m)) ms).

Lemma removable_app ms ms' : forall n, removable n (ms ++ ms') = (removable n ms ++ removable (n + calls ms) ms')%list.
Proof.
  induction ms as [|m ms IH]; intros n; simpl; [by rewrite Nat.add_0_r|]. unfold calls. cbn [omap list_omap].
  destruct (decode (Sqs.MsgBody m)); rewrite IH; [|done]. cbn [List.length]. rewrite Nat.add_succ_r. by destruct (handler n e).
Qed.

Lemma serveBatch_spec ms : forall n,
  handled (serveBatch n ms).1 = omap (fun m => decode (Sqs.MsgBody m)) ms /\
  deleted (serveBatch n ms).1 = map Sqs.ReceiptHandle (removable n ms) /\
  slept (serveBatch n ms).1 = [] /\ (serveBatch n ms).2 = (n + calls ms)%nat.
Proof.
  induction ms as [|m ms IH]; intros n; [by rewrite Nat.add_0_r|]. cbn [serveBatch removable omap list_omap].
  unfold serveMessage, calls. cbn [omap list_omap]. destruct (decode (Sqs.MsgBody m)) as [e|].
  - destruct (IH (S n)) as (H1 & H2 & H3 & H4). destruct (serveBatch (S n) ms) as [acts n']. cbn [fst snd] in *.
    unfold handled, deleted, slept in *. rewrite !omap_app, H1, H2, H3, H4. cbn [List.length]. unfold calls.
    destruct (handler n e); (split_and!; [done|done|done|lia]).
  - destruct (IH n) as (H1 & H2 & H3 & H4). destruct (serveBatch n ms) as [acts n']. cbn [fst snd] in *.
    unfold handled, deleted, slept in *. by rewrite !omap_app, H1, H2, H3, H4.
Qed.

Lemma subscribeLoop_delivers polls : forall n b,
  handled (subscribeLoop n b polls).1 = omap (fun m => decode (Sqs.MsgBody m)) (delivered polls) /\
  deleted (subscribeLoop n b polls).1 = map Sqs.ReceiptHandle (removable n (delivered polls)).
Proof.
  induction polls as [|p polls IH]; intros n b; [done|]. cbn [subscribeLoop delivered].
  destruct (cancelledBefore p); [done|]. destruct (answer p) as [ms|e].
  - destruct (serveBatch_spec ms n) as (B1 & B2 & _ & B4). destruct (serveBatch n ms) as [acts n']. cbn [fst snd] in *. subst n'.
    destruct (IH (n + calls ms)%nat 0) as [I1 I2]. destruct (subscribeLoop _ 0 polls) as [acts' ret]. cbn [fst] in *.
    unfold handled, deleted in *. by rewrite !omap_app, B1, B2, I1, I2, removable_app, map_app.
  - destruct (cancelledAfter p); [done|]. destruct (cancelledWaiting p); [done|].
    destruct (IH n (nextBackoff b)) as [I1 I2]. by destruct (subscribeLoop n (nextBackoff b) polls) as [acts ret].
Qed.

(** (C36) Delivery: the loop calls the handler once for every readable message of every
    batch received before it returned, in the order received; it deletes exactly
    the messages whose event the handler accepted and those that cannot be read, so
    that a message whose handler failed stays in the queue.  The handler may answer
    every call differently. *)
Theorem Subscribe_delivers polls :
  handled (Subscribe polls).1 = omap (fun m => decode (Sqs.MsgBody m)) (delivered polls) /\
  deleted (Subscribe polls).1 = map Sqs.ReceiptHandle (removable 0 (delivered polls)).
Proof. apply subscribeLoop_delivers. Qed.

(** The wait after the n-th failure in a row. *)
Definition backoffAfter (n : nat) : Z := Z.min maxBackoff (Second * 2 ^ Z.of_nat n).
Lemma nextBackoff_spec n : nextBackoff (backoffAfter n) = backoffAfter (S n).
Proof.
  unfold nextBackoff, backoffAfter, maxBackoff, Second. rewrite Nat2Z.inj_succ, Z.pow_succ_r by lia.
  pose proof (Z.pow_pos_nonneg 2 (Z.of_nat n)). cbv zeta.
  destruct (Z.eqb_spec (Z.min (30 * 1000000000) (1000000000 * 2 ^ Z.of_nat n)) 0); [lia|].
  destruct (Z.ltb_spec (30 * 1000000000) (Z.min (30 * 1000000000) (1000000000 * 2 ^ Z.of_nat n) * 2)); lia.
Qed.

Definition failing (e : error) : poll :=
  {| cancelledBefore := false; answer := Err e; cancelledAfter := false; cancelledWaiting := false |}.
Definition successful (ms : list Sqs.Message) : poll :=
  {| cancelledBefore := false; answer := Ok ms; cancelledAfter := false; cancelledWaiting := false |}.

Lemma Subscribe_backoff_from es : forall n k,
  slept (subscribeLoop n (backoffAfter k) (map failing es)).1 = map (fun i => backoffAfter (S k + i)) (List.seq 0 (length es)).
Proof.
  induction es as [|e es IH]; intros n k; [done|].
  cbn [map failing subscribeLoop cancelledBefore answer cancelledAfter cancelledWaiting].
  rewrite nextBackoff_spec. specialize (IH n (S k)). destruct (subscribeLoop n (backoffAfter (S k)) _) as [acts ret].
  cbn [fst slept omap list_omap] in *. unfold slept in *. cbn [omap list_omap List.length List.seq map].
  rewrite IH, Nat.add_0_r. f_equal. rewrite <- seq_shift, map_map. apply map_ext. intros i. f_equal. lia.
Qed.
Lemma Subscribe_backoff_zero es n :
  slept (subscribeLoop n 0 (map failing es)).1 = map backoffAfter (List.seq 0 (length es)).
Proof.
  destruct es as [|e l]; [done|]. cbn [map failing subscribeLoop cancelledBefore answer cancelledAfter cancelledWaiting].
  change (nextBackoff 0) with (backoffAfter 0). pose proof (Subscribe_backoff_from l n 0) as H.
  destruct (subscribeLoop n (backoffAfter 0) _) as [acts ret]. cbn [fst] in *. unfold slept in *.
  cbn [omap list_omap List.length List.seq map]. rewrite H. f_equal. rewrite <- seq_shift, map_map. done.
Qed.
Lemma slept_app_failing es rest : forall n b, exists b',
  slept (subscribeLoop n b (map failing es ++ rest)).1 =
  (slept (subscribeLoop n b (map failing es)).1 ++ slept (subscribeLoop n b' rest).1)%list.
Proof.
  induction es as [|e l IH]; intros n b; [by exists b|].
  cbn [map app failing subscribeLoop cancelledBefore answer cancelledAfter cancelledWaiting].
  destruct (IH n (nextBackoff b)) as (b' & H). exists b'.
  destruct (subscribeLoop n (nextBackoff b) (map failing l ++ rest)) as [acts ret].
  destruct (subscribeLoop n (nextBackoff b) (map failing l)) as [acts' ret']. cbn [fst] in *.
  unfold slept in *. cbn [omap list_omap app]. by rewrite H.
Qed.

(** The waits between failing polls are 1, 2, 4, ... seconds and never more than
    30; a successful poll starts the sequence over. *)
Theorem Subscribe_backoff es ms es' :
  slept (Subscribe (map failing es ++ successful ms :: map failing es')).1 =
  (map backoffAfter (List.seq 0 (length es)) ++ map backoffAfter (List.seq 0 (length es')))%list /\
  Forall (fun d => Second <= d <= maxBackoff)
    (slept (Subscribe (map failing es ++ successful ms :: map failing es')).1).
Proof.
  unfold Subscribe. destruct (slept_app_failing es (successful ms :: map failing es') 0 0) as (b & ->).
  assert (Hs : slept (subscribeLoop 0 b (successful ms :: map failing es')).1 = map backoffAfter (List.seq 0 (length es'))).
  { cbn [successful subscribeLoop cancelledBefore answer]. destruct (serveBatch_spec ms 0) as (_ & _ & B & _).
    destruct (serveBatch 0 ms) as [acts n]. pose proof (Subscribe_backoff_zero es' n) as H.
    destruct (subscribeLoop n 0 (map failing es')) as [acts' ret]. cbn [fst] in *. unfold slept in *. by rewrite omap_app, B, H. }
  rewrite Subscribe_backoff_zero, Hs. split; [done|].
  apply Forall_app. split; apply Forall_forall; intros d (i & -> & _)%list_elem_of_fmap;
    unfold backoffAfter, maxBackoff, Second; pose proof (Z.pow_pos_nonneg 2 (Z.of_nat i)); lia.
Qed.

(** Order within an entity is lost when a handler fails: the messages behind it in
    the batch, of the same group, are handled and deleted while it waits for its
    redelivery, so that the later event takes effect first. *)
Theorem failed_event_overtaken m1 m2 e1 e2 :
  decode (Sqs.MsgBody m1) = Some e1 -> decode (Sqs.MsgBody m2) = Some e2 ->
  evEntityID e1 = evEntityID e2 -> handler 0 e1 = false -> handler 1 e2 = true -> handler 2 e1 = true ->
  let acts := (Subscribe [successful [m1; m2]; successful [m1]]).1 in
  handled acts = [e1; e2; e1] /\ deleted acts = [Sqs.ReceiptHandle m2; Sqs.ReceiptHandle m1].
Proof.
  intros D1 D2 _ H1 H2 H3. cbv zeta. unfold Subscribe. cbn [subscribeLoop successful cancelledBefore answer serveBatch].
  unfold serveMessage. rewrite D1, D2, H1, H2, H3. by split.
Qed.
End Events.

(** ** Witnesses *)

Definition demoEvent (id : string) : @Event unit :=
  NewEvent id 0 "order.created" "komodo-order-api" "o-1" "order" tt.
Definition demoMessage (id : string) : Sqs.Message :=
  {| Sqs.MsgID := id; Sqs.MsgBody := id; Sqs.ReceiptHandle := "r" +:+ id; Sqs.MsgAttrs := ∅ |}.
Definition demoDecode (body : string) : option (@Event unit) :=
  if String.eqb body "" then None else Some (demoEvent body).
(** The first delivery of event 1 fails. *)
Definition demoHandler (n : nat) (e : @Event unit) : bool := negb (Nat.eqb n 0).

Example demo_subscribe :
  Subscribe demoDecode demoHandler [failing (Errorf "x"); successful [demoMessage "1"; demoMessage ""; demoMessage "2"]] =
  ([ASleep Second; AHandle (demoEvent "1"); ADelete "r"; AHandle (demoEvent "2"); ADelete "r2"], false).
Proof. reflexivity. Qed.

Lemma failed_event_overtaken_witness :
  deleted (Subscribe demoDecode demoHandler
    [successful [demoMessage "1"; demoMessage "2"]; successful [demoMessage "1"]]).1 = ["r2"; "r1"].
Proof.
  apply (failed_event_overtaken demoDecode demoHandler (demoMessage "1") (demoMessage "2") (demoEvent "1") (demoEvent "2"));
    reflexivity.
Defined.
