(* ===== verification/CloudWatch.v ===== *)
(** * CloudWatch logs and metrics (src/aws/cloudwatch)

    Sorting, partitioning and sending of log events, the paged search, and the
    chunked metric upload. *)

From S2P Require Import Prelude GoStrings Float64 Aws.
From Stdlib Require Import Sorting.Sorted.

Open Scope string_scope.
Open Scope Z_scope.

(** [time.Time.UnixMilli]. *)
Definition UnixMilli (t : Z) : Z := t / Millisecond.

(** ** Log events *)

Definition maxEventsPerCall : nat := Z.to_nat 10000.
Definition maxBatchBytes : Z := 1 * 1024 * 1024.
Definition logEventOverhead : Z := 26.

Record LogEvent := { Timestamp : Z; Message : string }.

Definition NewLogs : loader -> Config -> result (option string) :=
  newSDK (Errorf "missing region") (Wrap "failed to load AWS config").

(** The partition loop: the batch being built and its size. *)
Definition msgSize (e : LogEvent) : Z := len (Message e) + logEventOverhead.
Fixpoint partitionLoop (events : list LogEvent) (current : list LogEvent) (currentBytes : Z) : list (list LogEvent) :=
  match events with
  | [] => if Nat.eqb (length current) 0 then [] else [current]
  | e :: events =>
      if ((maxEventsPerCall <=? length current)%nat ||
          ((maxBatchBytes <? currentBytes + msgSize e) && (0 <? length current)%nat))
      then current :: partitionLoop events [e] (msgSize e)
      else partitionLoop events (current ++ [e])%list (currentBytes + msgSize e)
  end.
Definition partitionLogEvents (events : list LogEvent) : list (list LogEvent) := partitionLoop events [] 0.

(** [sort.SliceStable] by timestamp. *)
Fixpoint insertEvent (e : LogEvent) (l : list LogEvent) : list LogEvent :=
  match l with
  | [] => [e]
  | x :: l => if Timestamp x <? Timestamp e then x :: insertEvent e l else e :: x :: l
  end.
Definition sortEvents (l : list LogEvent) : list LogEvent := foldr insertEvent [] l.

(** Events without a time get the clock's; [clock i] is read for the i-th event. *)
Definition resolveEvents (clock : nat -> Z) (events : list LogEvent) : list LogEvent :=
  imap (fun i e => if isZero (Timestamp e) then {| Timestamp := clock i; Message := Message e |} else e) events.

(** What is sent of an event: milliseconds and the message. *)
Definition wire (e : LogEvent) : Z * string := (UnixMilli (Timestamp e), Message e).

(** [types.FilteredLogEvent] and the search's input. *)
Record sdkFiltered := {
  fTimestamp : option Z; fMessage : option string; fStream : option string; fID : option string
}.
Record FilteredLogEvent := { feTimestamp : Z; feMessage : string; feStream : string; feID : string }.
Record FilterLogEventsInput := {
  GroupName : string; FilterPattern : string; StartTime : Z; EndTime : Z; Limit : Z
}.
Record sdkFilter := {
  qGroup : string; qPattern : string; qStart : option Z; qEnd : option Z; qLimit : option Z; qToken : option string
}.

(** What a successful answer says about events that were not stored: the index of the
    first one that is too new, and the index behind the last one that is too old or
    expired. *)
Record RejectedLogEventsInfo := {
  TooNewLogEventStartIndex : option Z; TooOldLogEventEndIndex : option Z; ExpiredLogEventEndIndex : option Z
}.

Class cwLogsAPI (W : Type) := {
  putLogEvents : string -> string -> list (Z * string) -> W -> W * result (option RejectedLogEventsInfo);
  filterLogEvents : sdkFilter -> W -> result (list sdkFiltered * option string);
}.

Section Logs.
Context {W : Type} `{cwLogsAPI W}.

(** The answer is not looked at. *)
Fixpoint putBatches (group stream : string) (batches : list (list LogEvent)) (w : W) : W * option error :=
  match batches with
  | [] => (w, None)
  | b :: batches =>
      match putLogEvents group stream (map wire b) w with
      | (w, Err e) => (w, Some (Wrap "failed to put log events" e))
      | (w, Ok _) => putBatches group stream batches w
      end
  end.
Definition PutLogEvents (clock : nat -> Z) (group stream : string) (events : list LogEvent) (w : W) : W * option error :=
  if String.eqb group "" then (w, Some (Errorf "group name is required"))
  else if String.eqb stream "" then (w, Some (Errorf "stream name is required"))
  else putBatches group stream (partitionLogEvents (sortEvents (resolveEvents clock events))) w.

Definition fromSDK (e : sdkFiltered) : FilteredLogEvent :=
  {| feTimestamp := match fTimestamp e with Some ms => ms * Millisecond | None => zeroTime end;
     feMessage := ToString (fMessage e); feStream := ToString (fStream e); feID := ToString (fID e) |}.
Definition filterQuery (input : FilterLogEventsInput) (token : option string) : sdkFilter :=
  {| qGroup := GroupName input; qPattern := FilterPattern input;
     qStart := if isZero (StartTime input) then None else Some (UnixMilli (StartTime input));
     qEnd := if isZero (EndTime input) then None else Some (UnixMilli (EndTime input));
     qLimit := if 0 <? Limit input then Some (Limit input) else None; qToken := token |}.
(** Take over a page event by event: [inr] when the limit is reached. *)
Fixpoint takePage (limit : Z) (page : list sdkFiltered) (acc : list FilteredLogEvent)
    : list FilteredLogEvent + list FilteredLogEvent :=
  match page with
  | [] => inl acc
  | e :: page =>
      let acc := (acc ++ [fromSDK e])%list in
      if (0 <? limit) && (limit <=? wrap32 (Z.of_nat (length acc))) then inr (take (Z.to_nat limit) acc)
      else takePage limit page acc
  end.
(** The page loop; [None] when the fuel is used up. *)
Fixpoint filterLoop (fuel : nat) (input : FilterLogEventsInput) (token : option string)
    (acc : list FilteredLogEvent) (w : W) : option (result (list FilteredLogEvent)) :=
  match fuel with
  | O => None
  | S fuel =>
      match filterLogEvents (filterQuery input token) w with
      | Err e => Some (Err (Wrap "failed to filter log events" e))
      | Ok (page, next) =>
          match takePage (Limit input) page acc with
          | inr res => Some (Ok res)
          | inl acc =>
              match next with
              | None => Some (Ok acc)
              | Some t => filterLoop fuel input (Some t) acc w
              end
          end
      end
  end.
Definition FilterLogEvents (fuel : nat) (input : FilterLogEventsInput) (w : W) : option (result (list FilteredLogEvent)) :=
  if String.eqb (GroupName input) "" then Some (Err (Errorf "group name is required"))
  else filterLoop fuel input None [] w.
End Logs.

(** *** Partition *)

Definition batchBytes (b : list LogEvent) : Z := foldr (fun e n => msgSize e + n) 0 b.
Definition withinLimits (b : list LogEvent) : Prop :=
  b <> [] /\ (length b <= maxEventsPerCall)%nat /\ (batchBytes b <= maxBatchBytes \/ length b = 1%nat).

Lemma batchBytes_app a b : batchBytes (a ++ b) = batchBytes a + batchBytes b.
Proof. induction a as [|e a IH]; simpl; [done|]. rewrite IH. lia. Qed.

Lemma partitionLoop_spec events : forall current,
  (current = [] \/ withinLimits current) ->
  List.concat (partitionLoop events current (batchBytes current)) = (current ++ events)%list /\
  Forall withinLimits (partitionLoop events current (batchBytes current)).
Proof.
  induction events as [|e events IH]; intros current Hc.
  - cbn [partitionLoop]. destruct current as [|c current]; simpl; [done|].
    rewrite !app_nil_r. split; [done|]. constructor; [by destruct Hc|done].
  - cbn [partitionLoop]. destruct (_ || _) eqn:E.
    + assert (Hne : current <> []).
      { intros ->. cbn in E. rewrite andb_false_r in E.
        unfold maxEventsPerCall in E. by destruct (Z.to_nat 10000) eqn:E0. }
      destruct (IH [e]) as [I1 I2].
      { right. split_and!; [done|unfold maxEventsPerCall; simpl; lia|by right]. }
      assert (Hb : batchBytes [e] = msgSize e) by (simpl; lia). rewrite Hb in I1, I2.
      split; [simpl; by rewrite I1|]. constructor; [by destruct Hc|done].
    + apply orb_false_iff in E as [E1 E2]. apply Nat.leb_gt in E1.
      destruct (IH (current ++ [e])%list) as [I1 I2].
      { right. split_and!; [by destruct current|rewrite length_app; simpl; lia|].
        apply andb_false_iff in E2 as [E2|E2].
        - left. rewrite batchBytes_app. apply Z.ltb_ge in E2. simpl. lia.
        - right. apply Nat.ltb_ge in E2. rewrite length_app. simpl. lia. }
      assert (Hb : batchBytes (current ++ [e]) = batchBytes current + msgSize e)
        by (rewrite batchBytes_app; simpl; lia).
      rewrite Hb in I1, I2. split; [by rewrite I1, <- (assoc_L (++)%list)|done].
Qed.

Lemma partitionLogEvents_spec events :
  List.concat (partitionLogEvents events) = events /\ Forall withinLimits (partitionLogEvents events).
Proof. apply (partitionLoop_spec events []). by left. Qed.

(** *** Sorting *)

Definition before (a b : LogEvent) : Prop := Timestamp a <= Timestamp b.

Lemma insertEvent_perm e l : insertEvent e l ≡ₚ e :: l.
Proof. induction l as [|x l IH]; simpl; [done|]. destruct (_ <? _); [|done]. rewrite IH. by apply Permutation_swap. Qed.

Lemma sortEvents_perm l : sortEvents l ≡ₚ l.
Proof. induction l as [|e l IH]; [done|]. simpl. by rewrite insertEvent_perm, IH. Qed.

Lemma insertEvent_sorted e l : StronglySorted before l -> StronglySorted before (insertEvent e l).
Proof.
  induction 1 as [|x l Hl IH Hx]; simpl; [repeat constructor|].
  destruct (Z.ltb_spec (Timestamp x) (Timestamp e)) as [Hlt|Hge].
  - constructor; [done|]. rewrite insertEvent_perm. constructor; [unfold before; lia|done].
  - constructor; [by constructor|]. constructor; [done|]. eapply Forall_impl; [exact Hx|].
    unfold before. intros; lia.
Qed.

Lemma sortEvents_sorted l : StronglySorted before (sortEvents l).
Proof. induction l as [|e l IH]; [constructor|]. by apply insertEvent_sorted. Qed.

Definition atTime (t : Z) (e : LogEvent) : bool := Timestamp e =? t.
Lemma insertEvent_stable t e l :
  List.filter (atTime t) (insertEvent e l) = List.filter (atTime t) (e :: l).
Proof.
  induction l as [|x l IH]; [done|]. cbn [insertEvent]. destruct (Z.ltb_spec (Timestamp x) (Timestamp e)); [|done].
  cbn [List.filter] in *. rewrite IH. unfold atTime.
  destruct (Z.eqb_spec (Timestamp x) t), (Z.eqb_spec (Timestamp e) t); try done. lia.
Qed.

Lemma sortEvents_stable t l : List.filter (atTime t) (sortEvents l) = List.filter (atTime t) l.
Proof.
  induction l as [|e l IH]; [done|]. change (sortEvents (e :: l)) with (insertEvent e (sortEvents l)).
  rewrite insertEvent_stable. cbn [List.filter]. by rewrite IH.
Qed.

(** *** Delivery *)

(** The events of a request that an answer does not name as rejected. *)
Definition stored {A} (info : option RejectedLogEventsInfo) (b : list A) : list A :=
  match info with
  | None => b
  | Some i =>
      let from := Z.max (default 0 (TooOldLogEventEndIndex i)) (default 0 (ExpiredLogEventEndIndex i)) in
      let upto := default (Z.of_nat (length b)) (TooNewLogEventStartIndex i) in
      drop (Z.to_nat from) (take (Z.to_nat upto) b)
  end.
(** What is stored of requests, with their answers. *)
Definition storedAll {A} (infos : list (option RejectedLogEventsInfo)) (bs : list (list A)) : list A :=
  List.concat (zip_with stored infos bs).

Section Delivery.
Context {W : Type} `{cwLogsAPI W}.
(** The requests a stream got, and the events it has. *)
Variable requests : W -> list (list (Z * string)).
Variable accepted : W -> list (Z * string).
Variables group stream : string.

(** The documented behaviour: a successful answer names the events that were not
    stored; after an error nothing more than what an answer could have left is stored. *)
Definition recordsEvents : Prop := forall b w w' r, putLogEvents group stream b w = (w', r) ->
  requests w' = (requests w ++ [b])%list /\
  match r with
  | Ok info => accepted w' = (accepted w ++ stored info b)%list
  | Err _ => accepted w' = accepted w \/ exists info, accepted w' = (accepted w ++ stored info b)%list
  end.
(** The service can answer a request for the stream with this. *)
Definition answers (info : option RejectedLogEventsInfo) : Prop :=
  exists b w w', putLogEvents group stream b w = (w', Ok info).

Lemma putBatches_spec bs : recordsEvents -> forall w w' r, putBatches group stream bs w = (w', r) ->
  exists sent rest infos, bs = (sent ++ rest)%list /\ requests w' = (requests w ++ map (map wire) sent)%list /\
    Forall answers infos /\
    match r with
    | None => rest = [] /\ length infos = length sent /\
        accepted w' = (accepted w ++ storedAll infos (map (map wire) sent))%list
    | Some _ => exists ok failed more, sent = (ok ++ [failed])%list /\ length infos = length ok /\
        accepted w' = (accepted w ++ storedAll infos (map (map wire) ok) ++ more)%list /\
        (more = [] \/ exists info, more = stored info (map wire failed))
    end.
Proof.
  intros Hrec. induction bs as [|b bs IH]; intros w w' r; simpl.
  - intros [= <- <-]. exists [], [], []. by rewrite !app_nil_r.
  - destruct (putLogEvents group stream (map wire b) w) as [w1 [info|e]] eqn:E; destruct (Hrec _ _ _ _ E) as [Hq Ha].
    + intros Hr. destruct (IH _ _ _ Hr) as (sent & rest & infos & -> & Hq' & Hi & Ho).
      exists (b :: sent), rest, (info :: infos). split_and!; [done|by rewrite Hq', Hq, <- (assoc_L (++)%list)| |].
      { constructor; [by exists (map wire b), w, w1|done]. }
      destruct r as [e|].
      * destruct Ho as (ok & failed & more & -> & Hlen & Hacc & Hm). exists (b :: ok), failed, more.
        split_and!; [done|simpl; congruence| |done]. rewrite Hacc, Ha. unfold storedAll. simpl. by rewrite <- !(assoc_L (++)%list).
      * destruct Ho as (-> & Hlen & Hacc). split_and!; [done|simpl; congruence|]. rewrite Hacc, Ha. unfold storedAll.
        simpl. by rewrite <- (assoc_L (++)%list).
    + intros [= <- <-]. exists [b], bs, []. split_and!; [done|done|constructor|].
      destruct Ha as [Ha|[info Ha]]; [exists [], b, []|exists [], b, (stored info (map wire b))];
        (split_and!; [done|done|by rewrite Ha, ?app_nil_r|]); [by left|right; by eexists].
Qed.

Lemma storedAll_none bs : forall infos : list (option RejectedLogEventsInfo),
  length infos = length bs -> Forall (fun i => i = None) infos ->
  storedAll infos (bs : list (list (Z * string))) = List.concat bs.
Proof.
  induction bs as [|b bs IH]; intros [|i infos]; try done. intros [= Hl] [-> Hi]%Forall_cons_1.
  unfold storedAll in *. simpl. by rewrite IH.
Qed.
End Delivery.

(** (C38) Events are sent in the order of their times, those of one time in the order
    given, each once, in requests of at most 10000 events and 1 MiB, except that an
    event larger than 1 MiB is sent alone.  When PutLogEvents returns no error all of
    them were sent, and the stream has gained them except those the answers name as
    rejected: all of them only if the service rejects none.  When it returns an error
    the requests before the failed one were stored in that way. *)
Theorem PutLogEvents_delivers {W} `{cwLogsAPI W} requests accepted group stream
    (Hput : recordsEvents requests accepted group stream) clock events (w w' : W) r :
  group <> "" -> stream <> "" -> PutLogEvents clock group stream events w = (w', r) ->
  exists sent rest infos, let all := (List.concat sent ++ List.concat rest)%list in
    (StronglySorted before all /\ all ≡ₚ resolveEvents clock events /\
     (forall t, List.filter (atTime t) all = List.filter (atTime t) (resolveEvents clock events))) /\
    requests w' = (requests w ++ map (map wire) sent)%list /\ Forall withinLimits sent /\ Forall (answers group stream) infos /\
    match r with
    | None => rest = [] /\ length infos = length sent /\
        accepted w' = (accepted w ++ storedAll infos (map (map wire) sent))%list /\
        ((forall info, answers group stream info -> info = None) ->
           accepted w' = (accepted w ++ map wire all)%list)
    | Some _ => exists ok failed more, sent = (ok ++ [failed])%list /\ length infos = length ok /\
        accepted w' = (accepted w ++ storedAll infos (map (map wire) ok) ++ more)%list /\
        (more = [] \/ exists info, more = stored info (map wire failed))
    end.
Proof.
  intros Hg%String.eqb_neq Hs%String.eqb_neq. unfold PutLogEvents. rewrite Hg, Hs. intros Hp.
  destruct (putBatches_spec requests accepted group stream _ Hput _ _ _ Hp) as (sent & rest & infos & Hbs & Hreq & Hi & Hr).
  destruct (partitionLogEvents_spec (sortEvents (resolveEvents clock events))) as [Hc Hl].
  rewrite Hbs in Hc, Hl. rewrite concat_app in Hc. apply Forall_app in Hl as [Hl _].
  exists sent, rest, infos. split_and!; try done.
  - rewrite Hc. apply sortEvents_sorted.
  - rewrite Hc. apply sortEvents_perm.
  - intros t. rewrite Hc. apply sortEvents_stable.
  - destruct r as [e|]; [done|]. destruct Hr as (-> & Hlen & Ha). split_and!; [done..|]. intros Hnone.
    rewrite Ha. rewrite storedAll_none.
    + cbn [List.concat]. by rewrite app_nil_r, <- concat_map.
    + by rewrite length_map.
    + eapply Forall_impl; [exact Hi|]. exact Hnone.
Qed.

(** *** Search *)

(** The service's pages from a token on. *)
Fixpoint servesFrom {W} `{cwLogsAPI W} (input : FilterLogEventsInput) (token : option string)
    (pages : list (list sdkFiltered)) (w : W) : Prop :=
  match pages with
  | [] => False
  | [p] => filterLogEvents (filterQuery input token) w = Ok (p, None)
  | p :: pages => exists t, filterLogEvents (filterQuery input token) w = Ok (p, Some t) /\ servesFrom input (Some t) pages w
  end.

Lemma wrap32_small n : 0 <= n < 2 ^ 31 -> wrap32 n = n.
Proof. intros Hn. unfold wrap32. rewrite Z.mod_small by lia. lia. Qed.

Lemma takePage_limit limit page : forall acc,
  0 < limit < 2 ^ 31 -> (Z.of_nat (length acc) < limit) ->
  takePage limit page acc =
  (if (limit <=? Z.of_nat (length acc + length page)) then inr (take (Z.to_nat limit) (acc ++ map fromSDK page))
   else inl (acc ++ map fromSDK page))%list.
Proof.
  induction page as [|e page IH]; intros acc Hl Ha; cbn [takePage map].
  - rewrite app_nil_r, Nat.add_0_r. by destruct (Z.leb_spec limit (Z.of_nat (length acc))); [lia|].
  - destruct (Z.ltb_spec 0 limit); [|lia]. cbn [andb].
    assert (Hlen : length (acc ++ [fromSDK e])%list = S (length acc)) by (rewrite length_app; simpl; lia).
    rewrite wrap32_small by lia. rewrite Hlen.
    destruct (Z.leb_spec limit (Z.of_nat (S (length acc)))) as [Hr|Hr].
    + destruct (Z.leb_spec limit (Z.of_nat (length acc + length (e :: page)))); [|simpl in *; lia].
      f_equal. change (fromSDK e :: map fromSDK page) with ([fromSDK e] ++ map fromSDK page)%list.
      rewrite (assoc_L (++)%list), (take_app_le (acc ++ [fromSDK e])); [done|]. rewrite Hlen. lia.
    + rewrite IH by (rewrite ?Hlen; lia). rewrite Hlen. cbn [List.length].
      replace (S (length acc) + length page)%nat with (length acc + S (length page))%nat by lia.
      by rewrite <- (assoc_L (++)%list).
Qed.

Lemma takePage_nolimit limit page : forall acc, limit <= 0 -> takePage limit page acc = inl (acc ++ map fromSDK page)%list.
Proof.
  induction page as [|e page IH]; intros acc Hl; cbn [takePage map]; [by rewrite app_nil_r|].
  destruct (Z.ltb_spec 0 limit); [lia|]. cbn [andb]. rewrite IH by done. by rewrite <- (assoc_L (++)%list).
Qed.

Definition limited (limit : Z) (l : list FilteredLogEvent) : list FilteredLogEvent :=
  if 0 <? limit then take (Z.to_nat limit) l else l.

Lemma filterLoop_pages {W} `{cwLogsAPI W} input w pages : forall token acc fuel,
  Limit input < 2 ^ 31 -> (0 < Limit input -> Z.of_nat (length acc) < Limit input) ->
  servesFrom input token pages w -> (length pages <= fuel)%nat ->
  filterLoop fuel input token acc w =
  Some (Ok (limited (Limit input) (acc ++ map fromSDK (List.concat pages)))).
Proof.
  induction pages as [|p pages IH]; intros token acc fuel Hl Ha Hs Hf; [done|].
  destruct fuel as [|fuel]; [simpl in Hf; lia|]. cbn [filterLoop].
  assert (Hp : exists next, filterLogEvents (filterQuery input token) w = Ok (p, next) /\
    match next with None => pages = [] | Some t => servesFrom input (Some t) pages w end).
  { destruct pages as [|p2 pages]; [by exists None|]. destruct Hs as (t & Ht & Hs). by exists (Some t). }
  destruct Hp as (next & -> & Hnext). unfold limited.
  destruct (Z.ltb_spec 0 (Limit input)) as [Hpos|Hneg].
  - rewrite takePage_limit by (auto || lia). destruct (Z.leb_spec (Limit input) (Z.of_nat (length acc + length p))) as [Hr|Hr].
    + do 2 f_equal. cbn [List.concat]. rewrite map_app, (assoc_L (++)%list), (take_app_le (acc ++ map fromSDK p)); [done|].
      rewrite length_app, length_map. lia.
    + destruct next as [t|].
      * rewrite IH; try done; [|intros _; rewrite length_app, length_map; lia|simpl in Hf; lia].
        unfold limited. destruct (Z.ltb_spec 0 (Limit input)); [|lia]. cbn [List.concat].
        by rewrite map_app, (assoc_L (++)%list).
      * subst pages. cbn [List.concat]. rewrite app_nil_r, take_ge; [done|].
        rewrite length_app, length_map. lia.
  - rewrite takePage_nolimit by done. destruct next as [t|].
    + rewrite IH; try done; [|lia|simpl in Hf; lia]. unfold limited.
      destruct (Z.ltb_spec 0 (Limit input)); [lia|]. cbn [List.concat]. by rewrite map_app, (assoc_L (++)%list).
    + subst pages. cbn [List.concat]. by rewrite app_nil_r.
Qed.

(** (C40) The search returns, with one request per page at most, the first [Limit] events
    of all the service's pages in order, all of them when no limit is set; the limit
    is taken to be below 2^31, since the request has it in 32 bits. *)
Theorem FilterLogEvents_pages {W} `{cwLogsAPI W} input w pages fuel :
  GroupName input <> "" -> Limit input < 2 ^ 31 -> servesFrom input None pages w -> (length pages <= fuel)%nat ->
  FilterLogEvents fuel input w = Some (Ok (limited (Limit input) (map fromSDK (List.concat pages)))).
Proof.
  intros Hg%String.eqb_neq Hl Hs Hf. unfold FilterLogEvents. rewrite Hg.
  by rewrite (filterLoop_pages input w pages None []).
Qed.

(** ** Metrics *)

Module Metrics.
Definition maxDatumsPerCall : nat := Z.to_nat 1000.

Record MetricDatum := { Name : string; Value : Q; Unit : string; Timestamp : Z; Dimensions : list (string * string) }.
Record sdkDatum := { dName : string; dValue : Q; dTimestamp : Z; dUnit : option string; dDimensions : list (string * string) }.
Record GetMetricStatisticsInput := {
  sNamespace : string; sMetricName : string; sStart : Z; sEnd : Z; sPeriod : Z; sStatistics : list string;
  sDimensions : list (string * string)
}.
Record MetricStat := {
  mTimestamp : Z; Average : option Q; Sum : option Q; Minimum : option Q; Maximum : option Q; SampleCount : option Q;
  mUnit : string
}.
Record datapoint := {
  pTimestamp : option Z; pAverage : option Q; pSum : option Q; pMinimum : option Q; pMaximum : option Q;
  pCount : option Q; pUnit : string
}.

Class cloudwatchAPI (W : Type) := {
  putMetricData : string -> list sdkDatum -> W -> W * option error;
  getStatistics : string -> string -> Z -> Z -> Z -> list string -> list (string * string) -> W -> result (list datapoint);
}.

Definition New : loader -> Config -> result (option string) :=
  newSDK (Errorf "missing region") (Wrap "failed to load AWS config").

(** [metrics[start:end]] for start = 0, 1000, ... *)
Fixpoint chunks (fuel : nat) (l : list MetricDatum) : list (list MetricDatum) :=
  match fuel, l with
  | S fuel, _ :: _ => take maxDatumsPerCall l :: chunks fuel (drop maxDatumsPerCall l)
  | _, _ => []
  end.

Section Client.
Context {W : Type} `{cloudwatchAPI W}.

(** [now] is read for a datum without a time; [clock i] is the reading at the i-th datum. *)
Definition toSDK (now : Z) (m : MetricDatum) : sdkDatum :=
  {| dName := Name m; dValue := Value m; dTimestamp := if isZero (Timestamp m) then now else Timestamp m;
     dUnit := ofString (Unit m); dDimensions := Dimensions m |}.
Fixpoint putChunks (clock : nat -> Z) (start : nat) (namespace : string) (cs : list (list MetricDatum)) (w : W) : W * option error :=
  match cs with
  | [] => (w, None)
  | c :: cs =>
      match putMetricData namespace (imap (fun i m => toSDK (clock (start + i)%nat) m) c) w with
      | (w, Some e) => (w, Some (Wrap "failed to put metric data" e))
      | (w, None) => putChunks clock (start + length c) namespace cs w
      end
  end.
Definition PutMetricData (clock : nat -> Z) (namespace : string) (metrics : list MetricDatum) (w : W) : W * option error :=
  if String.eqb namespace "" then (w, Some (Errorf "namespace is required"))
  else putChunks clock 0 namespace (chunks (length metrics) metrics) w.

(** Periods below a second are a minute; [int32] of a value out of range, which Go leaves
    to the implementation, keeps the low bits as on amd64. *)
Definition periodSecs (p : Z) : Z := let s := wrap32 (ftrunc (seconds p)) in if s <? 1 then 60 else s.
Definition toStat (dp : datapoint) : MetricStat :=
  {| mTimestamp := default zeroTime (pTimestamp dp); Average := pAverage dp; Sum := pSum dp; Minimum := pMinimum dp;
     Maximum := pMaximum dp; SampleCount := pCount dp; mUnit := pUnit dp |}.
Definition GetMetricStatistics (input : GetMetricStatisticsInput) (w : W) : result (list MetricStat) :=
  if String.eqb (sNamespace input) "" then Err (Errorf "namespace is required")
  else if String.eqb (sMetricName input) "" then Err (Errorf "metric name is required")
  else match getStatistics (sNamespace input) (sMetricName input) (sStart input) (sEnd input)
               (periodSecs (sPeriod input)) (sStatistics input) (sDimensions input) w with
       | Err e => Err (Wrap "failed to get metric statistics" e)
       | Ok dps => Ok (map toStat dps)
       end.
End Client.

Lemma metric_chunks_spec fuel : forall l, (length l <= fuel)%nat ->
  List.concat (chunks fuel l) = l /\ Forall (fun c => c <> [] /\ (length c <= maxDatumsPerCall)%nat) (chunks fuel l).
Proof.
  induction fuel as [|fuel IH]; intros [|x l] Hl; try done; [simpl in Hl; lia|]. cbn [chunks].
  destruct (IH (drop maxDatumsPerCall (x :: l))) as [I1 I2].
  { rewrite length_drop. unfold maxDatumsPerCall. simpl in *. lia. }
  split; [cbn [List.concat]; by rewrite I1, take_drop|]. constructor; [|done]. split.
  - unfold maxDatumsPerCall. destruct (Z.to_nat 1000) eqn:E; [lia|done].
  - rewrite length_take. lia.
Qed.

(** A single failure stops the upload: what was accepted is a prefix. *)
Lemma putChunks_spec {W} `{cloudwatchAPI W} (accepted : W -> list sdkDatum) clock ns
    (Hput : forall c w w' r, (length c <= maxDatumsPerCall)%nat -> putMetricData ns c w = (w', r) ->
       accepted w' = match r with None => (accepted w ++ c)%list | Some _ => accepted w end) cs :
  Forall (fun c => c <> [] /\ (length c <= maxDatumsPerCall)%nat) cs -> forall start w w' r, putChunks clock start ns cs w = (w', r) ->
  exists sent rest, cs = (sent ++ rest)%list /\
    accepted w' = (accepted w ++ imap (fun i m => toSDK (clock (start + i)%nat) m) (List.concat sent))%list /\
    (r = None -> rest = []).
Proof.
  induction 1 as [|c cs [_ Hlen] _ IH]; intros start w w' r; simpl.
  - intros [= <- <-]. exists [], []. simpl. by rewrite app_nil_r.
  - rewrite <- (length_imap (fun i m => toSDK (clock (start + i)%nat) m)) in Hlen.
    destruct (putMetricData ns _ w) as [w1 [e|]] eqn:E; pose proof (Hput _ _ _ _ Hlen E) as Ha.
    + intros [= <- <-]. exists [], (c :: cs). split_and!; [done|simpl; by rewrite app_nil_r|done].
    + intros Hr. destruct (IH _ _ _ _ Hr) as (sent & rest & -> & Hacc & Hn).
      exists (c :: sent), rest. split_and!; [done| |done]. rewrite Hacc, Ha. simpl.
      rewrite imap_app, <- (assoc_L (++)%list). do 2 f_equal. apply imap_ext. intros i m _. simpl.
      by rewrite Nat.add_assoc.
Qed.

(** PutMetricData without error has handed the service every datum, in order and with a
    time; after an error the service has a prefix. No request holds more than 1000. *)
Theorem PutMetricData_delivers {W} `{cloudwatchAPI W} (accepted : W -> list sdkDatum) clock ns
    (Hput : forall c w w' r, (length c <= maxDatumsPerCall)%nat -> putMetricData ns c w = (w', r) ->
       accepted w' = match r with None => (accepted w ++ c)%list | Some _ => accepted w end)
    metrics w w' r :
  ns <> "" -> PutMetricData clock ns metrics w = (w', r) ->
  exists sent rest, metrics = (sent ++ rest)%list /\
    accepted w' = (accepted w ++ imap (fun i m => toSDK (clock i) m) sent)%list /\ (r = None -> rest = []).
Proof.
  intros Hns%String.eqb_neq. unfold PutMetricData. rewrite Hns. intros Hp.
  destruct (metric_chunks_spec (length metrics) metrics ltac:(done)) as [Hm Hc1].
  destruct (putChunks_spec accepted clock ns Hput _ Hc1 _ _ _ _ Hp) as (sent & rest & Hc & Ha & Hn).
  rewrite Hc, concat_app in Hm. exists (List.concat sent), (List.concat rest).
  split_and!; [by symmetry|done|]. intros H0. by rewrite (Hn H0).
Qed.
End Metrics.

(** ** Witnesses *)

(** A service that keeps the requests and what it accepted, refuses a message "bad" and
    rejects what is not later than one second as too old. *)
Definition logStore : Type := list (list (Z * string)) * list (Z * string).
Definition emptyStore : logStore := ([], []).
Definition tooOld (b : list (Z * string)) : option RejectedLogEventsInfo :=
  match List.filter (fun e => e.1 <=? 1000) b with
  | [] => None
  | l => Some {| TooNewLogEventStartIndex := None; TooOldLogEventEndIndex := Some (Z.of_nat (length l));
                 ExpiredLogEventEndIndex := None |}
  end.
#[export] Instance logStore_api : cwLogsAPI logStore := {
  putLogEvents := fun _ _ b w =>
    if existsb (fun e => String.eqb e.2 "bad") b then (((w.1 ++ [b])%list, w.2), Err (Errorf "rejected"))
    else (((w.1 ++ [b])%list, (w.2 ++ stored (tooOld b) b)%list), Ok (tooOld b));
  filterLogEvents := fun q w =>
    match qToken q with
    | None => Ok ([{| fTimestamp := Some 1; fMessage := Some "a"; fStream := None; fID := None |}], Some "t")
    | Some _ => Ok ([{| fTimestamp := None; fMessage := Some "b"; fStream := None; fID := None |}], None)
    end;
}.
Definition demoEvents : list LogEvent :=
  [{| Timestamp := 2 * Second; Message := "late" |}; {| Timestamp := Second; Message := "early" |};
   {| Timestamp := zeroTime; Message := "now" |}].
Definition demoClock (i : nat) : Z := 3 * Second.

Lemma logStore_records : recordsEvents (W := logStore) fst snd "g" "s".
Proof.
  intros b w w' r. unfold putLogEvents, logStore_api. destruct (existsb _ b); intros H; injection H as <- <-.
  - split; [reflexivity|by left].
  - split; reflexivity.
Qed.

(** The early event is rejected as too old; the call succeeds all the same. *)
Lemma PutLogEvents_delivers_witness :
  PutLogEvents demoClock "g" "s" demoEvents emptyStore =
    (([[(1000, "early"); (2000, "late"); (3000, "now")]], [(2000, "late"); (3000, "now")]), None) /\
  exists sent rest : list (list LogEvent), let all := (List.concat sent ++ List.concat rest)%list in
    map (map wire) sent = [[(1000, "early"); (2000, "late"); (3000, "now")]] /\ StronglySorted before all /\
    all ≡ₚ resolveEvents demoClock demoEvents.
Proof.
  split; [vm_compute; reflexivity|].
  destruct (PutLogEvents_delivers (W := logStore) fst snd "g" "s" logStore_records demoClock demoEvents emptyStore
    ([[(1000, "early"); (2000, "late"); (3000, "now")]], [(2000, "late"); (3000, "now")]) None
    ltac:(discriminate) ltac:(discriminate) ltac:(vm_compute; reflexivity))
    as (sent & rest & infos & (Hs & Hp & _) & Hq & _).
  exists sent, rest. split; [symmetry; exact Hq|]. split; [exact Hs|exact Hp].
Defined.

Definition demoInput : FilterLogEventsInput :=
  {| GroupName := "g"; FilterPattern := ""; StartTime := zeroTime; EndTime := zeroTime; Limit := 1 |}.
Definition demoPages : list (list sdkFiltered) :=
  [[{| fTimestamp := Some 1; fMessage := Some "a"; fStream := None; fID := None |}];
   [{| fTimestamp := None; fMessage := Some "b"; fStream := None; fID := None |}]].
Lemma FilterLogEvents_pages_witness :
  FilterLogEvents 2 demoInput emptyStore =
  Some (Ok [{| feTimestamp := Millisecond; feMessage := "a"; feStream := ""; feID := "" |}]).
Proof.
  apply (FilterLogEvents_pages demoInput emptyStore demoPages 2).
  - discriminate.
  - reflexivity.
  - exists "t". split; reflexivity.
  - apply Nat.leb_le. reflexivity.
Defined.

Definition metricStore : Type := list Metrics.sdkDatum.
#[export] Instance metricStore_api : Metrics.cloudwatchAPI metricStore := {
  Metrics.putMetricData := fun _ c w => ((w ++ c)%list, None);
  Metrics.getStatistics := fun _ _ _ _ _ _ _ _ => Ok [];
}.
Definition demoDatum : Metrics.MetricDatum :=
  {| Metrics.Name := "latency"; Metrics.Value := 3; Metrics.Unit := ""; Metrics.Timestamp := zeroTime;
     Metrics.Dimensions := [] |}.
Lemma PutMetricData_delivers_witness :
  exists sent rest, [demoDatum] = (sent ++ rest)%list /\
    [Metrics.toSDK 5 demoDatum] = imap (fun _ m => Metrics.toSDK 5 m) sent /\ (@None error = None -> rest = []).
Proof.
  apply (Metrics.PutMetricData_delivers (W := metricStore) (fun w => w) (fun _ => 5) "ns") with (w := []).
  - intros c w w' r _ H. injection H as <- <-. reflexivity.
  - discriminate.
  - reflexivity.
Defined.
