(* ===== verification/Moxtox.v ===== *)
(** * The mock server (src/testing/moxtox)

    Reading the mappings of a configuration, the lookup tables of the two
    modes, matching a request against them and answering with a mock. *)

From S2P Require Import Prelude GoStrings Http Net.
From Stdlib Require Import Sorting.Sorted.

Open Scope string_scope.
Open Scope Z_scope.

(** ** Values

    What YAML and JSON documents decode into; a map in the order it is ranged
    over, its keys distinct. *)

Inductive value : Type :=
  | VNil
  | VBool (b : bool)
  | VInt (n : Z)
  | VFloat (text : string)
  | VStr (s : string)
  | VSeq (l : list value)                    (* []any *)
  | VMap (m : list (string * value))         (* map[string]any *)
  | VGen (m : list (value * value)).         (* map[any]any *)

(** ** Configuration (helpers.go) *)

Record Scenario := mkScenario {
  Name : string; File : string; Dynamic : bool; Template : string; Delay : Z; Log : bool; Priority : Z;
  Conditions : list (string * value)
}.
Definition Method := list Scenario.
Definition Mapping := gmap string Method.
Record MockResponse := { mrStatus : Z; mrBody : string; mrHeaders : list (string * string) }.

Record MoxtoxConfig := {
  EnableMoxtox : bool; Debug : bool; DefaultDelay : Z; PerformanceMode : string;
  AllowedEnvironments : list string; IgnoredRoutes : list string;
  Mappings : list (string * value);
  LookupMap : gmap string (gmap string (list Scenario));
  HashLookupMap : gmap string (gmap string (gmap string Scenario));
}.
Definition withLookup (c : MoxtoxConfig) m : MoxtoxConfig :=
  {| EnableMoxtox := EnableMoxtox c; Debug := Debug c; DefaultDelay := DefaultDelay c;
     PerformanceMode := PerformanceMode c; AllowedEnvironments := AllowedEnvironments c;
     IgnoredRoutes := IgnoredRoutes c; Mappings := Mappings c; LookupMap := m; HashLookupMap := HashLookupMap c |}.
Definition withHashes (c : MoxtoxConfig) m : MoxtoxConfig :=
  {| EnableMoxtox := EnableMoxtox c; Debug := Debug c; DefaultDelay := DefaultDelay c;
     PerformanceMode := PerformanceMode c; AllowedEnvironments := AllowedEnvironments c;
     IgnoredRoutes := IgnoredRoutes c; Mappings := Mappings c; LookupMap := LookupMap c; HashLookupMap := m |}.

(** The parsers convert every key with [key.(string)]: [None] is the panic of a
    key that is no string. *)
Definition keyString (k : value) : option string := match k with VStr s => Some s | _ => None end.

Definition emptyScenario : Scenario :=
  {| Name := ""; File := ""; Dynamic := false; Template := ""; Delay := 0; Log := false; Priority := 0; Conditions := [] |}.

Definition scenarioField (s : Scenario) (key : string) (v : value) : option Scenario :=
  let '(mkScenario name file dyn tmpl delay log prio conds) := s in
  match key, v with
  | "name", VStr x => Some (mkScenario x file dyn tmpl delay log prio conds)
  | "file", VStr x => Some (mkScenario name x dyn tmpl delay log prio conds)
  | "dynamic", VBool b => Some (mkScenario name file b tmpl delay log prio conds)
  | "template", VStr x => Some (mkScenario name file dyn x delay log prio conds)
  | "delay", VInt n => Some (mkScenario name file dyn tmpl n log prio conds)
  | "log", VBool b => Some (mkScenario name file dyn tmpl delay b prio conds)
  | "priority", VInt n => Some (mkScenario name file dyn tmpl delay log n conds)
  | "conditions", VGen m =>
      cs ← mapM (fun '(k, x) => k ← keyString k; Some (k, x)) m;
      Some (mkScenario name file dyn tmpl delay log prio (conds ++ cs)%list)
  | _, _ => Some s
  end.
Fixpoint scenarioFields (data : list (value * value)) (s : Scenario) : option Scenario :=
  match data with
  | [] => Some s
  | (key, v) :: data => key ← keyString key; s ← scenarioField s key v; scenarioFields data s
  end.
Definition parseScenario (data : list (value * value)) : option Scenario := scenarioFields data emptyScenario.

(** The scenario list under a key [scenarios]; other entries are skipped. *)
Fixpoint scenarioList (l : list value) (acc : Method) : option Method :=
  match l with
  | [] => Some acc
  | VGen m :: l => s ← parseScenario m; scenarioList l (acc ++ [s])%list
  | _ :: l => scenarioList l acc
  end.
Fixpoint methodFields (data : list (value * value)) (acc : Method) : option Method :=
  match data with
  | [] => Some acc
  | (key, v) :: data =>
      key ← keyString key;
      match String.eqb key "scenarios", v with
      | true, VSeq l => acc ← scenarioList l acc; methodFields data acc
      | _, _ => methodFields data acc
      end
  end.
Definition parseMethod (data : list (value * value)) : option Method := methodFields data [].

Fixpoint methodEntries (data : list (value * value)) (acc : Mapping) : option Mapping :=
  match data with
  | [] => Some acc
  | (key, v) :: data =>
      key ← keyString key;
      match v with
      | VGen m => method ← parseMethod m; methodEntries data (<[key := method]> acc)
      | _ => methodEntries data acc
      end
  end.

(** A value that is no map[any]any is skipped by the callers, which is an empty mapping. *)
Fixpoint parseMapping (v : value) : option Mapping :=
  match v with
  | VGen data =>
      (fix fields (data : list (value * value)) (mapping : Mapping) : option Mapping :=
         match data with
         | [] => Some mapping
         | (key, x) :: data =>
             key ← keyString key;
             if String.eqb key "methods" then
               match x with
               | VGen m => mapping ← methodEntries m mapping; fields data mapping
               | _ => fields data mapping
               end
             else (* sub-paths: maps.Copy *)
               sub ← parseMapping x; fields data (sub ∪ mapping)
         end) data ∅
  | _ => Some ∅
  end.

(** The mappings that are a map[any]any, with their paths; the others are skipped. *)
Definition general (v : value) : bool := match v with VGen _ => true | _ => false end.
Definition usedMappings (cfg : MoxtoxConfig) : list (string * value) :=
  List.filter (fun m => general m.2) (Mappings cfg).

Definition scenarioCount (m : Mapping) : Z :=
  fold_left Z.add (map (fun md => Z.of_nat (length md.2)) (map_to_list m)) 0.
Definition countTotalScenarios (cfg : MoxtoxConfig) : option Z :=
  l ← mapM (fun m => mapping ← parseMapping m.2; Some (scenarioCount mapping)) (usedMappings cfg);
  Some (fold_left Z.add l 0).

(** ** Lookup tables (default_mode.go, quick_mode.go) *)

Section Tables.
(** [sort.Slice] by descending priority, which does not keep the order of equals. *)
Variable sortScenarios : list Scenario -> list Scenario.
(** [fmt.Sprintf] with the verb [%v], and [%x] of an MD5 sum. *)
Variable sprint : value -> string.
Variable md5hex : string -> string.

Fixpoint buildTable {A} (row : Mapping -> A) (l : list (string * value)) (acc : gmap string A) : option (gmap string A) :=
  match l with
  | [] => Some acc
  | (path, v) :: l => mapping ← parseMapping v; buildTable row l (<[path := row mapping]> acc)
  end.
Definition buildSliceLookupMap (cfg : MoxtoxConfig) : option MoxtoxConfig :=
  m ← buildTable (fun mapping => sortScenarios <$> mapping) (usedMappings cfg) ∅;
  Some (withLookup cfg m).

Definition hashConditions (conditions : list (string * value)) : string :=
  match conditions with
  | [] => "default"
  | _ =>
      let keys := foldr insertKey [] (map fst conditions) in
      let line k := k +:+ ":" +:+ sprint (default VNil (snd <$> List.find (fun c => String.eqb c.1 k) conditions)) in
      md5hex (Join (map line keys) "|")
  end.
Definition hashRow (mapping : Mapping) : gmap string (gmap string Scenario) :=
  (fun scenarios => fold_left (fun m s => <[hashConditions (Conditions s) := s]> m) scenarios ∅) <$> mapping.
Definition buildHashLookupMap (cfg : MoxtoxConfig) : option MoxtoxConfig :=
  m ← buildTable hashRow (usedMappings cfg) ∅;
  Some (withHashes cfg m).

(** ** Matching *)

(** The JSON decoder on a reader: the object read (empty on failure) and what is left. *)
Variable decodeJSON : string -> list (string * value) * string.

Definition isJSON (r : Request) : bool := Contains (hget (Header r) "Content-Type") "application/json".
Definition field (k : string) (m : list (string * value)) : option value :=
  snd <$> List.find (fun c => String.eqb c.1 k) m.

(** Reads the body if there is a JSON one; the request keeps what the decoder left. *)
Definition takeBody (r : Request) : option (list (string * value) * Request) :=
  match ReqBody r with
  | Some b =>
      if isJSON r then
        let '(body, rest) := decodeJSON (BodyBytes b) in
        Some (body, withBody r (Some {| BodyBytes := rest; BodyErr := BodyErr b |}) (ContentLength r))
      else None
  | None => None
  end.

(** All entries satisfy [ok], tested in order up to the first that does not;
    [None] is the panic of a key that is no string. *)
Fixpoint allEntries (ok : string -> value -> bool) (m : list (value * value)) : option bool :=
  match m with
  | [] => Some true
  | (k, v) :: m => k ← keyString k; if ok k v then allEntries ok m else Some false
  end.

Definition matchesBody (r : Request) (condMap : list (value * value)) : option (bool * Request) :=
  match takeBody r with
  | None => Some (false, r)
  | Some (body, r) =>
      ok ← allEntries (fun k v => match field k body with
                                  | Some b => String.eqb (sprint b) (sprint v)
                                  | None => false
                                  end) condMap;
      Some (ok, r)
  end.
Definition queryGet (q : values) (k : string) : string := match q !! k with Some (v :: _) => v | _ => "" end.
Definition matchesQuery (u : URL) (condMap : list (value * value)) : option bool :=
  allEntries (fun k v => String.eqb (queryGet (Query (RawQuery u)) k) (sprint v)) condMap.
Definition matchesHeaders (r : Request) (condMap : list (value * value)) : option bool :=
  allEntries (fun k v => String.eqb (hget (Header r) k) (sprint v)) condMap.
Definition matchesPath (path : string) (condMap : list (value * value)) : option bool :=
  allEntries (fun k v => Contains path ("/" +:+ k +:+ "/" +:+ sprint v)) condMap.

(** A condition of a known type that is no map[any]any panics. *)
Definition matchesCondition (u : URL) (r : Request) (condType : string) (cond : value) : option (bool * Request) :=
  match condType with
  | "body" | "query" | "headers" | "path" =>
      match cond with
      | VGen m =>
          match condType with
          | "body" => matchesBody r m
          | "query" => ok ← matchesQuery u m; Some (ok, r)
          | "headers" => ok ← matchesHeaders r m; Some (ok, r)
          | _ => ok ← matchesPath (Path u) m; Some (ok, r)
          end
      | _ => None
      end
  | _ => Some (true, r)
  end.
Fixpoint matchesConditions (u : URL) (r : Request) (cond : list (string * value)) : option (bool * Request) :=
  match cond with
  | [] => Some (true, r)
  | (condType, c) :: cond =>
      match matchesCondition u r condType c with
      | Some (true, r) => matchesConditions u r cond
      | res => res
      end
  end.

(** The first scenario of the list that matches. *)
Fixpoint firstMatch (u : URL) (r : Request) (l : list Scenario) : option (option Scenario * Request) :=
  match l with
  | [] => Some (None, r)
  | s :: l =>
      match matchesConditions u r (Conditions s) with
      | None => None
      | Some (true, r) => Some (Some s, r)
      | Some (false, r) => firstMatch u r l
      end
  end.
Definition scenariosFor (cfg : MoxtoxConfig) (path method : string) : list Scenario :=
  default [] (m ← LookupMap cfg !! path; m !! method).
Definition matchesRequestSlice (cfg : MoxtoxConfig) (u : URL) (r : Request) : option (option Scenario * Request) :=
  match firstMatch u r (scenariosFor cfg (Path u) (Http.Method r)) with
  | Some (None, r) => firstMatch u r (scenariosFor cfg (Path u) "*")
  | res => res
  end.

(** Quick mode: the conditions a request is looked up under; [order] is how
    the maps of query values and headers are ranged over. *)
Variable order : gmap string (list string) -> list (string * list string).
Definition firstValues (f : string -> string) (m : list (string * list string)) : list (string * value) :=
  omap (fun '(k, vs) => match vs with v :: _ => Some (f k, VStr v) | [] => None end) m.
Definition extractRequestConditions (u : URL) (r : Request) : list (string * value) * Request :=
  let '(body, r) := match takeBody r with
                    | Some (body, r) => ([("body", VMap body)], r)
                    | None => ([], r)
                    end in
  let query := firstValues (fun k => k) (order (Query (RawQuery u))) in
  let hdrs := firstValues ToLower (order (Header r)) in
  ((body ++ match query with [] => [] | _ => [("query", VMap query)] end
         ++ match hdrs with [] => [] | _ => [("headers", VMap hdrs)] end
         ++ [("path", VMap [("path", VStr (Path u))])])%list, r).
Definition hashed (cfg : MoxtoxConfig) (path method hash : string) : option Scenario :=
  m ← HashLookupMap cfg !! path; m ← m !! method; m !! hash.
Definition matchesRequestHash (cfg : MoxtoxConfig) (u : URL) (r : Request) : option Scenario * Request :=
  let '(conditions, r) := extractRequestConditions u r in
  let hash := hashConditions conditions in
  (match hashed cfg (Path u) (Http.Method r) hash with
   | Some s => Some s
   | None => hashed cfg (Path u) "*" hash
   end, r).

(** Dynamic mode counts the scenarios again for every request. *)
Definition quickMode (cfg : MoxtoxConfig) : option bool :=
  if String.eqb (PerformanceMode cfg) "quick" then Some true
  else if String.eqb (PerformanceMode cfg) "dynamic" then n ← countTotalScenarios cfg; Some (10 <? n)
  else Some false.
Definition matchesRequest (cfg : MoxtoxConfig) (u : URL) (r : Request) : option (option Scenario * Request) :=
  match quickMode cfg with
  | None => None
  | Some true => Some (matchesRequestHash cfg u r)
  | Some false => matchesRequestSlice cfg u r
  end.

(** ** Answering *)

(** [os.ReadFile], [json.Unmarshal] into a MockResponse. *)
Variable readFile : string -> result string.
Variable unmarshalMock : string -> result MockResponse.

Definition generateDynamicResponse (r : Request) (template : string) : string :=
  let body := match takeBody r with Some (body, _) => body | None => [] end in
  fold_left (fun result '(key, val) => ReplaceAll result ("{{.body." +:+ key +:+ "}}") (sprint val)) body template.

(** The status, headers and body a scenario answers with. *)
Definition mockOf (r : Request) (s : Scenario) : result MockResponse :=
  if Dynamic s
  then Ok {| mrStatus := 200; mrBody := generateDynamicResponse r (Template s); mrHeaders := [] |}
  else match readFile (File s) with
       | Err e => Err (Errorf ("failed to read mock file " +:+ File s))
       | Ok data => match unmarshalMock data with
                    | Err e => Err (Errorf ("failed to parse mock file " +:+ File s))
                    | Ok m => Ok m
                    end
       end.
(** net/http refuses a status of other than three digits with a panic. *)
Definition validStatus (status : Z) : bool := (100 <=? status) && (status <=? 999).

Section Serve.
Context {W : Type} `{Clock W}.
Variable sleep : Z -> W -> W.

Definition injectMock (cfg : MoxtoxConfig) (s : Scenario) : handler W := fun req wtr w =>
  let delay := if Delay s =? 0 then DefaultDelay cfg else Delay s in
  let w := if 0 <? delay then sleep (wrap64 (delay * Millisecond)) w else w in
  match mockOf req s with
  | Err _ =>
      (w, SendError (now w) wtr req (UnprocessableEntity Global) [WithDetail "failed to inject mock"], Returned)
  | Ok m =>
      let wtr := fold_left (fun wtr '(k, v) => setHeader wtr k v) (mrHeaders m) wtr in
      match WStatus wtr, validStatus (mrStatus m) with
      | None, false => (w, wtr, Panicked "invalid WriteHeader code")
      | _, _ => (w, Write (WriteHeader wtr (mrStatus m)) (ChText (mrBody m)), Returned)
      end
  end.

Definition mockResponseHandler (cfg : MoxtoxConfig) : middleware W := fun next req wtr w =>
  match ReqURL req with
  | None => (w, wtr, Panicked "invalid memory address or nil pointer dereference")
  | Some u =>
      if existsb (String.eqb (Path u)) (IgnoredRoutes cfg) then next req wtr w else
      match matchesRequest cfg u req with
      | None => (w, wtr, Panicked "interface conversion")
      | Some (Some s, req) => injectMock cfg s req wtr w
      | Some (None, req) => (w, SendCustomError (now w) wtr req 418 "no mocks found" "" "MOXTOX_001", Returned)
      end
  end.

(** *** Start (middleware.go) *)

(** The package variables; [once] is [None] before the first call. *)
Record moxState := { once : bool; dir : string; config : option MoxtoxConfig; allowMocks : bool }.
Definition initState : moxState := {| once := false; dir := ""; config := None; allowMocks := true |}.

(** What the process sees: its directory and the file moxtox_config.yml of a directory,
    and the YAML decoder. *)
Variable getwd : result string.
Variable readConfig : string -> result string.
Variable unmarshalYAML : string -> result MoxtoxConfig.

Definition joinDir (cwd : string) : string := (if String.eqb cwd "/" then "" else cwd) +:+ "/test/moxtox".
(** The lookup table of the configured mode. *)
Definition buildLookup (cfg : MoxtoxConfig) : option MoxtoxConfig :=
  if String.eqb (PerformanceMode cfg) "quick" then buildHashLookupMap cfg
  else if String.eqb (PerformanceMode cfg) "dynamic" then
    n ← countTotalScenarios cfg; (if 10 <? n then buildHashLookupMap cfg else buildSliceLookupMap cfg)
  else buildSliceLookupMap cfg.

(** The body of [once.Do]: the state it leaves and whether it panicked.  It stops
    with mocks switched off when something is missing or not allowed. *)
Definition stop (d : string) (c : option MoxtoxConfig) : moxState * bool :=
  ({| once := true; dir := d; config := c; allowMocks := false |}, false).
Definition loadFrom (env : string) (s : moxState) (d : string) : moxState * bool :=
  match readConfig d with
  | Err _ => stop d (config s)
  | Ok data =>
      match unmarshalYAML data with
      | Err _ => stop d (config s)
      | Ok cfg =>
          if negb (EnableMoxtox cfg) then stop d (Some cfg)
          else if negb (existsb (String.eqb env) (AllowedEnvironments cfg)) then stop d (Some cfg)
          else match buildLookup cfg with
               | Some cfg => ({| once := true; dir := d; config := Some cfg; allowMocks := allowMocks s |}, false)
               | None => ({| once := true; dir := d; config := Some cfg; allowMocks := allowMocks s |}, true)
               end
      end
  end.
Definition configDir (configPath : list string) : result string :=
  let fromCwd := match getwd with Err e => Err e | Ok cwd => Ok (joinDir cwd) end in
  match configPath with
  | p :: _ => if String.eqb p "" then fromCwd else Ok p
  | [] => fromCwd
  end.
Definition loadMocks (env : string) (configPath : list string) (s : moxState) : moxState * bool :=
  match configDir configPath with
  | Err _ => stop (dir s) (config s)
  | Ok d => loadFrom env s d
  end.

Definition zeroConfig : MoxtoxConfig :=
  {| EnableMoxtox := false; Debug := false; DefaultDelay := 0; PerformanceMode := ""; AllowedEnvironments := [];
     IgnoredRoutes := []; Mappings := []; LookupMap := ∅; HashLookupMap := ∅ |}.
(** The middleware, [None] when the call panics. *)
Definition InitMoxtoxMiddleware (env : string) (configPath : list string) (s : moxState)
    : moxState * option (middleware W) :=
  let '(s, panicked) := if once s then (s, false) else loadMocks env configPath s in
  if panicked then (s, None)
  else (s, Some (if allowMocks s then mockResponseHandler (default zeroConfig (config s)) else fun next => next)).
End Serve.
End Tables.

(** ** No mock is ever served

    yaml.v3 decodes a mapping into an interface value as a map[string]any, and as
    a map[any]any only when some key is not a string. *)

Definition stringKey (k : value) : bool := match keyString k with Some _ => true | None => false end.
Definition yamlV3 (v : value) : Prop :=
  match v with VGen m => existsb (fun kv => negb (stringKey kv.1)) m = true | _ => True end.

Lemma parseMapping_badKey m : existsb (fun kv => negb (stringKey kv.1)) m = true -> parseMapping (VGen m) = None.
Proof.
  intros Hb. cbn [parseMapping]. generalize (∅ : Mapping) as acc.
  induction m as [|[k x] m IH]; intros acc; [done|]. simpl in Hb |- *. unfold stringKey in Hb.
  destruct (keyString k) as [key|]; [|done]. simpl in Hb |- *. specialize (IH Hb).
  destruct (String.eqb key "methods").
  - destruct x; try apply IH. destruct (methodEntries m0 acc); simpl; [apply IH|done].
  - destruct (parseMapping x); simpl; [apply IH|done].
Qed.

(** A table is built only if no mapping can be used at all. *)
Lemma buildTable_yaml {A} (row : Mapping -> A) cfg m :
  (forall p v, In (p, v) (Mappings cfg) -> yamlV3 v) ->
  buildTable row (usedMappings cfg) ∅ = Some m -> usedMappings cfg = [] /\ m = ∅.
Proof.
  intros Hy. destruct (usedMappings cfg) as [|[p v] l] eqn:E; [by intros [= <-]|].
  assert (Hin : In (p, v) (usedMappings cfg)) by (rewrite E; by left).
  apply List.filter_In in Hin as [Hin Hg]. specialize (Hy _ _ Hin).
  destruct v as [| | | | | | |m']; try done. cbn [buildTable]. by rewrite (parseMapping_badKey m' Hy).
Qed.

Section NoMocks.
Context {W : Type} `{Clock W}.
Variables (sortScenarios : list Scenario -> list Scenario) (sprint : value -> string) (md5hex : string -> string)
  (decodeJSON : string -> list (string * value) * string)
  (order : gmap string (list string) -> list (string * list string))
  (readFile : string -> result string) (unmarshalMock : string -> result MockResponse) (sleep : Z -> W -> W)
  (getwd : result string) (readConfig : string -> result string) (unmarshalYAML : string -> result MoxtoxConfig).

(** A configuration as it is after loading: nothing usable and empty tables. *)
Definition barren (cfg : MoxtoxConfig) : Prop :=
  usedMappings cfg = [] /\ LookupMap cfg = ∅ /\ HashLookupMap cfg = ∅.

Lemma buildLookup_barren cfg cfg' :
  (forall p v, In (p, v) (Mappings cfg) -> yamlV3 v) -> LookupMap cfg = ∅ -> HashLookupMap cfg = ∅ ->
  buildLookup sortScenarios sprint md5hex cfg = Some cfg' -> barren cfg' /\ IgnoredRoutes cfg' = IgnoredRoutes cfg.
Proof.
  intros Hy Hl Hh. unfold buildLookup, buildHashLookupMap, buildSliceLookupMap.
  assert (Hhash : forall A (row : Mapping -> A) f, (forall m, m = ∅ -> usedMappings cfg = [] -> barren (f m)
      /\ IgnoredRoutes (f m) = IgnoredRoutes cfg) ->
    (m ← buildTable row (usedMappings cfg) ∅; Some (f m)) = Some cfg' ->
    barren cfg' /\ IgnoredRoutes cfg' = IgnoredRoutes cfg).
  { intros A row f Hf Hb. destruct (buildTable row _ _) as [m|] eqn:E; simpl in Hb; [|done].
    injection Hb as <-. destruct (buildTable_yaml _ _ _ Hy E). by apply Hf. }
  destruct (String.eqb _ _); [apply Hhash; intros m -> Hu; by repeat split|].
  destruct (String.eqb _ _); [|apply Hhash; intros m -> Hu; by repeat split].
  destruct (countTotalScenarios cfg) as [n|]; [simpl|done].
  destruct (10 <? n); apply Hhash; intros m -> Hu; by repeat split.
Qed.

Lemma matchesRequest_barren cfg u r : barren cfg ->
  exists r', matchesRequest sprint md5hex decodeJSON order cfg u r = Some (None, r') /\ Ctx r' = Ctx r /\ Header r' = Header r.
Proof.
  intros (Hu & Hl & Hh). unfold matchesRequest, quickMode, countTotalScenarios. rewrite Hu. simpl.
  assert (Hs : matchesRequestSlice sprint decodeJSON cfg u r = Some (None, r)).
  { unfold matchesRequestSlice, scenariosFor. rewrite Hl. by rewrite lookup_empty. }
  destruct (String.eqb _ "quick").
  - unfold matchesRequestHash, extractRequestConditions, hashed. rewrite Hh.
    destruct (takeBody decodeJSON r) as [[body r']|] eqn:E; rewrite !lookup_empty; simpl; [|by exists r].
    exists r'. split; [done|]. unfold takeBody in E. destruct (ReqBody r); [|done]. destruct (isJSON r); [|done].
    destruct (decodeJSON _). by injection E as _ <-.
  - exists r. by destruct (String.eqb _ "dynamic").
Qed.

Hypothesis yaml_maps : forall data cfg, unmarshalYAML data = Ok cfg ->
  (forall p v, In (p, v) (Mappings cfg) -> yamlV3 v) /\ LookupMap cfg = ∅ /\ HashLookupMap cfg = ∅.

Lemma loadMocks_barren env path s :
  loadMocks sortScenarios sprint md5hex getwd readConfig unmarshalYAML env path initState = (s, false) ->
  allowMocks s = false \/ exists cfg, config s = Some cfg /\ barren cfg.
Proof.
  unfold loadMocks, loadFrom. destruct (configDir _ _) as [d|]; [|intros [= <-]; by left].
  destruct (readConfig d) as [data|]; [|intros [= <-]; by left].
  destruct (unmarshalYAML data) as [cfg|] eqn:Ey; [|intros [= <-]; by left].
  destruct (negb (EnableMoxtox cfg)); [intros [= <-]; by left|].
  destruct (negb _); [intros [= <-]; by left|].
  destruct (buildLookup _ _ _ cfg) as [cfg'|] eqn:Eb; [|done]. intros [= <-]. right. exists cfg'. split; [done|].
  destruct (yaml_maps _ _ Ey) as (Y1 & Y2 & Y3). by destruct (buildLookup_barren cfg cfg' Y1 Y2 Y3 Eb).
Qed.

(** (C37) Mappings are read with assertions to map[any]any, but yaml.v3 decodes a mapping to
    map[string]any unless some key is no string, and such a key panics.  So whatever
    the configuration, no mock is ever served: starting the server panics, or it
    passes every request on, or it answers every request of a route that is not
    ignored with 418. *)
Theorem mocks_never_served env path s mw :
  InitMoxtoxMiddleware sortScenarios sprint md5hex decodeJSON order readFile unmarshalMock sleep getwd readConfig
    unmarshalYAML env path initState = (s, Some mw) ->
  (forall next req wtr w, mw next req wtr w = next req wtr w) \/
  exists ignored, forall next req u wtr w, ReqURL req = Some u -> WStatus wtr = None ->
    if existsb (String.eqb (Path u)) ignored then mw next req wtr w = next req wtr w
    else exists wtr', mw next req wtr w = (w, wtr', Returned) /\ WStatus wtr' = Some 418.
Proof.
  unfold InitMoxtoxMiddleware. cbn [once initState].
  destruct (loadMocks _ _ _ _ _ _ env path initState) as [s' []] eqn:El; [done|]. intros [= <- <-].
  destruct (loadMocks_barren _ _ _ El) as [->|(cfg & -> & Hb)]; [by left|].
  destruct (allowMocks s'); [|by left]. right. exists (IgnoredRoutes cfg). intros next req u wtr w Hu Hw.
  unfold mockResponseHandler. cbn [from_option id]. rewrite Hu. destruct (existsb _ _); [done|].
  destruct (matchesRequest_barren cfg u req Hb) as (r' & -> & _). eexists. split; [done|]. by apply SendError_status.
Qed.
End NoMocks.

(** ** The matchers on tables given to them *)

Section Match.
Variables (sortScenarios : list Scenario -> list Scenario) (sprint : value -> string) (md5hex : string -> string)
  (decodeJSON : string -> list (string * value) * string)
  (order : gmap string (list string) -> list (string * list string)).
Variables (u : URL) (r : Request).

Definition matches (s : Scenario) : option (bool * Request) := matchesConditions sprint decodeJSON u r (Conditions s).
Definition bodyless (s : Scenario) : bool := forallb (fun c => negb (String.eqb c.1 "body")) (Conditions s).

Lemma buildTable_lookup {A} (row : Mapping -> A) l : forall acc m p x,
  buildTable row l acc = Some m -> m !! p = Some x ->
  acc !! p = Some x \/ exists v mapping, In (p, v) l /\ parseMapping v = Some mapping /\ x = row mapping.
Proof.
  induction l as [|[q v] l IH]; intros acc m p x; cbn [buildTable]; [intros [= <-]; by left|].
  destruct (parseMapping v) as [mapping|] eqn:E; [simpl|done]. intros Hb Hx.
  destruct (IH _ _ _ _ Hb Hx) as [Ha|(v' & mp & Hin & Hp & He)].
  - destruct (decide (q = p)) as [->|Hne].
    + rewrite lookup_insert_eq in Ha. injection Ha as <-. right. exists v, mapping. by split_and!; [left|..].
    + rewrite lookup_insert_ne in Ha by done. by left.
  - right. exists v', mp. by split_and!; [right|..].
Qed.

Lemma matchesCondition_bodyless r0 c v ok r' : c <> "body" ->
  matchesCondition sprint decodeJSON u r0 c v = Some (ok, r') -> r' = r0.
Proof.
  intros Hc. unfold matchesCondition.
  repeat match goal with |- context [match ?c with _ => _ end] => destruct c; try done end;
    try (by intros [= <- <-]); try (by intros [= _ <-]).
  all: try (match goal with |- context [x ← ?e; _] => destruct e; simpl; try done end; by intros [= _ <-]).
Qed.

Lemma matches_bodyless s ok r' : bodyless s = true -> matches s = Some (ok, r') -> r' = r.
Proof.
  unfold bodyless, matches. generalize r as r0. induction (Conditions s) as [|[c v] cond IH]; intros r0.
  - by intros _ [= _ <-].
  - cbn [matchesConditions forallb fst]. intros [Hc Hb]%andb_true_iff.
    destruct (matchesCondition _ _ u r0 c v) as [[ok' r1]|] eqn:E; [|done].
    assert (r1 = r0) as ->.
    { eapply matchesCondition_bodyless; [|done]. intros ->. by rewrite String.eqb_refl in Hc. }
    destruct ok'; [by apply IH|]. by intros [= _ <-].
Qed.

Lemma firstMatch_spec l res r' : Forall (fun s => bodyless s = true) l ->
  firstMatch sprint decodeJSON u r l = Some (res, r') ->
  r' = r /\ match res with
            | Some s => exists l1 l2, l = (l1 ++ s :: l2)%list /\ matches s = Some (true, r) /\
                          Forall (fun x => matches x = Some (false, r)) l1
            | None => Forall (fun x => matches x = Some (false, r)) l
            end.
Proof.
  induction 1 as [|s l Hs Hl IH]; cbn [firstMatch]; [by intros [= <- <-]|].
  fold (matches s). destruct (matches s) as [[[] r1]|] eqn:E; [| |done];
    pose proof (matches_bodyless _ _ _ Hs E) as ->.
  - intros [= <- <-]. split; [done|]. exists [], l. by split_and!.
  - intros Hf. destruct (IH Hf) as [-> Hres]. split; [done|]. destruct res as [s'|]; [|by constructor].
    destruct Hres as (l1 & l2 & -> & Hm & H1). exists (s :: l1), l2. split_and!; [done|done|by constructor].
Qed.

Lemma StronglySorted_behind {A} (R : A -> A -> Prop) l1 l2 x y :
  StronglySorted R (l1 ++ x :: l2) -> y ∈ l2 -> R x y.
Proof.
  induction l1 as [|z l1 IH]; simpl; intros Hs Hy; apply StronglySorted_inv in Hs as [Hs Hh]; [|by apply IH].
  rewrite Forall_forall in Hh. by apply Hh.
Qed.

(** In the default mode, when no scenario has a body condition: a scenario that is
    served belongs to the request's path and to its method or to "*", the latter
    only when none of the method's own scenarios matches; it matches the request,
    and no matching scenario of the same method has a higher priority. *)
Theorem slice_serves_highest cfg cfg' s r'
    (Hsort : forall l, sortScenarios l ≡ₚ l /\ StronglySorted (fun a b => Priority b <= Priority a) (sortScenarios l)) :
  buildSliceLookupMap sortScenarios cfg = Some cfg' -> LookupMap cfg = ∅ ->
  (forall m, Forall (fun s => bodyless s = true) (scenariosFor cfg' (Path u) m)) ->
  matchesRequestSlice sprint decodeJSON cfg' u r = Some (Some s, r') ->
  exists v mapping method l, In (Path u, v) (usedMappings cfg) /\ parseMapping v = Some mapping /\
    mapping !! method = Some l /\ In s l /\ matches s = Some (true, r) /\
    (forall s' r1, In s' l -> matches s' = Some (true, r1) -> Priority s' <= Priority s) /\
    (method = Http.Method r \/
     method = "*" /\ Forall (fun x => matches x = Some (false, r)) (scenariosFor cfg' (Path u) (Http.Method r))).
Proof.
  intros Hb Hl Hplain Hm.
  assert (Hfound : forall method, firstMatch sprint decodeJSON u r (scenariosFor cfg' (Path u) method) = Some (Some s, r') ->
    exists v mapping l, In (Path u, v) (usedMappings cfg) /\ parseMapping v = Some mapping /\
      mapping !! method = Some l /\ In s l /\ matches s = Some (true, r) /\
      (forall s' r1, In s' l -> matches s' = Some (true, r1) -> Priority s' <= Priority s)).
  { intros method Hf. destruct (firstMatch_spec _ _ _ (Hplain method) Hf) as (_ & l1 & l2 & Hl12 & Hs & Hne).
    unfold scenariosFor in Hl12. unfold buildSliceLookupMap in Hb.
    destruct (buildTable _ _ _) as [tbl|] eqn:E; simpl in Hb; [|done]. injection Hb as <-.
    cbn [LookupMap withLookup] in Hl12. destruct (tbl !! Path u) as [row|] eqn:Er; simpl in Hl12; [|by destruct l1].
    destruct (buildTable_lookup _ _ _ _ _ _ E Er) as [Ha|(v & mapping & Hin & Hp & ->)]; [by rewrite lookup_empty in Ha|].
    unfold Mapping, Method in *. rewrite lookup_fmap in Hl12.
    destruct (mapping !! method) as [l|] eqn:El; simpl in Hl12; [|by destruct l1].
    destruct (Hsort l) as [Hperm Hsorted]. exists v, mapping, l. rewrite Hl12 in Hperm, Hsorted. split_and!; try done.
    - apply list_elem_of_In. rewrite <- Hperm. apply elem_of_app. right. by left.
    - intros s' r1 Hin' Hs'. apply list_elem_of_In in Hin'. rewrite <- Hperm in Hin'.
      apply elem_of_app in Hin' as [H1|H2].
      + rewrite Forall_forall in Hne. rewrite (Hne _ H1) in Hs'. done.
      + apply elem_of_cons in H2 as [->|H2]; [lia|].
        by apply (StronglySorted_behind _ l1 l2 s s') in Hsorted. }
  unfold matchesRequestSlice in Hm.
  destruct (firstMatch _ _ u r (scenariosFor cfg' (Path u) (Http.Method r))) as [[[s0|] r0]|] eqn:E; [| |done].
  - injection Hm as -> ->. destruct (Hfound _ E) as (v & mapping & l & H). exists v, mapping, (Http.Method r), l.
    destruct H as (?&?&?&?&?&?). split_and!; try done. by left.
  - destruct (firstMatch_spec _ _ _ (Hplain _) E) as [-> Hnone].
    destruct (Hfound _ Hm) as (v & mapping & l & ?&?&?&?&?&?). exists v, mapping, "*", l. split_and!; try done.
    by right.
Qed.

(** The first scenario with a body condition consumes the body: a later scenario is
    tested against what is left, which is no document, and never matches. *)
Theorem body_condition_consumes b obj rest rest' m1 m2 s1 s2 k v :
  ReqBody r = Some b -> isJSON r = true -> decodeJSON (BodyBytes b) = (obj, rest) -> decodeJSON rest = ([], rest') ->
  Conditions s1 = [("body", VGen m1)] -> Conditions s2 = [("body", VGen ((VStr k, v) :: m2))] ->
  (exists r1, matches s1 = Some (false, r1)) ->
  exists r2, firstMatch sprint decodeJSON u r [s1; s2] = Some (None, r2).
Proof.
  intros Hb Hj Hd Hrest H1 H2 [r1 Hm]. cbn [firstMatch]. fold (matches s1). rewrite Hm.
  revert Hm. unfold matches. rewrite H1, H2. cbn [matchesConditions matchesCondition].
  unfold matchesBody at 1, takeBody at 1. rewrite Hb, Hj, Hd.
  destruct (allEntries _ m1) as [[]|]; simpl; try done. intros [= <-].
  unfold matchesBody, takeBody. cbn [ReqBody withBody]. 
  change (isJSON (withBody r _ _)) with (isJSON r). rewrite Hj. cbn [BodyBytes]. rewrite Hrest. simpl. by eexists.
Qed.

Lemma hashRow_hash scenarios : forall (acc : gmap string Scenario) h s,
  (forall h s, acc !! h = Some s -> hashConditions sprint md5hex (Conditions s) = h) ->
  fold_left (fun m s => <[hashConditions sprint md5hex (Conditions s) := s]> m) scenarios acc !! h = Some s ->
  hashConditions sprint md5hex (Conditions s) = h.
Proof.
  induction scenarios as [|x l IH]; simpl; intros acc h s Ha; [by apply Ha|]. apply IH. intros h' s'.
  destruct (decide (hashConditions sprint md5hex (Conditions x) = h')) as [<-|Hne].
  - rewrite lookup_insert_eq. by intros [= <-].
  - rewrite lookup_insert_ne by done. apply Ha.
Qed.

Lemma hashed_hash cfg cfg' p m h s :
  buildHashLookupMap sprint md5hex cfg = Some cfg' -> hashed cfg' p m h = Some s ->
  hashConditions sprint md5hex (Conditions s) = h.
Proof.
  unfold buildHashLookupMap, hashed. destruct (buildTable _ _ _) as [tbl|] eqn:E; [simpl|done]. intros [= <-].
  cbn [HashLookupMap withHashes]. destruct (tbl !! p) as [row|] eqn:Er; [simpl|done].
  destruct (buildTable_lookup _ _ _ _ _ _ E Er) as [Ha|(v & mapping & _ & _ & ->)]; [by rewrite lookup_empty in Ha|].
  unfold hashRow, Mapping, Method in *. rewrite lookup_fmap.
  destruct (mapping !! m) as [l|]; [simpl|done]. apply hashRow_hash. intros h' s'. by rewrite lookup_empty.
Qed.

(** In the quick mode a scenario without conditions, kept under the hash "default", is
    never served: the conditions taken from a request always contain its path. *)
Theorem quick_default_unreachable cfg cfg' s (Hmd5 : forall x, md5hex x <> "default") :
  buildHashLookupMap sprint md5hex cfg = Some cfg' ->
  (matchesRequestHash sprint md5hex decodeJSON order cfg' u r).1 = Some s -> Conditions s <> [].
Proof.
  intros Hb. unfold matchesRequestHash.
  destruct (extractRequestConditions decodeJSON order u r) as [conds r'] eqn:E.
  assert (Hh : hashConditions sprint md5hex conds <> "default").
  { unfold extractRequestConditions in E.
    assert (conds <> []) as Hne.
    { destruct (match takeBody decodeJSON r with Some _ => _ | None => _ end) as [body r1].
      injection E as <- _. intros Hn. apply (f_equal (@List.length _)) in Hn. rewrite !length_app in Hn. simpl in Hn. lia. }
    destruct conds; [done|]. apply Hmd5. }
  assert (Hs : forall m, hashed cfg' (Path u) m (hashConditions sprint md5hex conds) = Some s -> Conditions s <> []).
  { intros m Hm Hc. apply (hashed_hash _ _ _ _ _ _ Hb) in Hm. rewrite Hc in Hm. by rewrite <- Hm in Hh. }
  cbn [fst]. destruct (hashed cfg' (Path u) (Http.Method r') _) as [s0|] eqn:E1; [|apply Hs].
  intros [= ->]. by apply (Hs (Http.Method r')).
Qed.
End Match.

(** ** Witnesses *)

(** Scalars print as themselves; a toy JSON decoder that knows one document; a toy hash. *)
Definition demoPrint (v : value) : string := match v with VStr s => s | VInt n => Itoa n | _ => "?" end.
Definition demoJSON (s : string) : list (string * value) * string :=
  if String.eqb s "" then ([], "") else ([("id", VStr s)], "").
Definition demoMD5 (s : string) : string := "h" +:+ s.
Definition demoOrder (m : gmap string (list string)) : list (string * list string) := map_to_list m.
(** What yaml.v3 makes of a configuration with one mapping. *)
Definition demoConfig : MoxtoxConfig :=
  {| EnableMoxtox := true; Debug := false; DefaultDelay := 0; PerformanceMode := "default";
     AllowedEnvironments := ["test"]; IgnoredRoutes := ["/health"];
     Mappings := [("/a", VMap [("methods", VMap [("GET", VMap [("scenarios", VSeq [VMap [("name", VStr "x")]])])])])];
     LookupMap := ∅; HashLookupMap := ∅ |}.
#[local] Instance demoClock : Clock unit := fun _ => 0.
Definition demoInit : moxState * option (middleware unit) :=
  InitMoxtoxMiddleware (fun l => l) demoPrint demoMD5 demoJSON demoOrder (fun _ => Err (Errorf "no file"))
    (fun _ => Err (Errorf "no mock")) (fun _ w => w) (Ok "/srv") (fun _ => Ok "yaml") (fun _ => Ok demoConfig)
    "test" [] initState.

Lemma mocks_never_served_witness :
  match demoInit.2 with
  | None => False
  | Some mw =>
      (forall next req wtr w, mw next req wtr w = next req wtr w) \/
      exists ignored, forall next req u wtr w, ReqURL req = Some u -> WStatus wtr = None ->
        if existsb (String.eqb (Path u)) ignored then mw next req wtr w = next req wtr w
        else exists wtr', mw next req wtr w = (w, wtr', Returned) /\ WStatus wtr' = Some 418
  end.
Proof.
  destruct demoInit as [s [mw|]] eqn:E; cbn [snd].
  - apply (mocks_never_served (fun l => l) demoPrint demoMD5 demoJSON demoOrder (fun _ => Err (Errorf "no file"))
      (fun _ => Err (Errorf "no mock")) (fun _ w => w) (Ok "/srv") (fun _ => Ok "yaml") (fun _ => Ok demoConfig))
      with (env := "test") (path := []) (s := s); [|exact E].
    intros data cfg [= <-]. split; [|split; reflexivity]. intros p v [[= <- <-]|[]]. exact I.
  - discriminate E.
Defined.

(** Were the mapping a map[any]any with string keys, the scenario would be served. *)
Definition gen (k : string) (v : value) : value := VGen [(VStr k, v)].
Definition scen (name : string) (prio : Z) (extra : list (value * value)) : value :=
  VGen ((VStr "name", VStr name) :: (VStr "priority", VInt prio) :: extra).
Definition genConfig (scenarios : list value) : MoxtoxConfig :=
  {| EnableMoxtox := true; Debug := false; DefaultDelay := 0; PerformanceMode := "default"; AllowedEnvironments := ["test"];
     IgnoredRoutes := []; Mappings := [("/a", gen "methods" (gen "GET" (gen "scenarios" (VSeq scenarios))))];
     LookupMap := ∅; HashLookupMap := ∅ |}.
(** A stable insertion sort is one [sort.Slice] is allowed to be. *)
Fixpoint insertScenario (s : Scenario) (l : list Scenario) : list Scenario :=
  match l with
  | [] => [s]
  | x :: r => if Priority x <=? Priority s then s :: l else x :: insertScenario s r
  end.
Definition demoSort (l : list Scenario) : list Scenario := foldr insertScenario [] l.
Lemma demoSort_ok l : demoSort l ≡ₚ l /\ StronglySorted (fun a b => Priority b <= Priority a) (demoSort l).
Proof.
  induction l as [|s l [IH1 IH2]]; simpl; [by repeat constructor|].
  assert (Hp : forall l, insertScenario s l ≡ₚ s :: l).
  { clear. induction l as [|x l IH]; simpl; [done|]. destruct (_ <=? _); [done|]. rewrite IH. apply Permutation_swap. }
  split; [by rewrite Hp, IH1|]. clear IH1. induction IH2 as [|x r Hr IH Hx]; simpl; [by repeat constructor|].
  destruct (Z.leb_spec (Priority x) (Priority s)).
  - constructor; [by constructor|]. constructor; [done|]. eapply Forall_impl; [exact Hx|]. simpl. lia.
  - constructor; [done|]. rewrite Hp. constructor; [lia|done].
Qed.

Lemma bodyless_row cfg path (row : gmap string (list Scenario)) :
  LookupMap cfg !! path = Some row ->
  bool_decide (map_Forall (fun _ l => forallb bodyless l = true) row) = true ->
  forall m, Forall (fun s => bodyless s = true) (scenariosFor cfg path m).
Proof.
  unfold scenariosFor. intros -> Hr%bool_decide_eq_true m. simpl.
  destruct (row !! m) as [l|] eqn:E; simpl; [|done]. apply Forall_forall. intros s Hs%list_elem_of_In.
  apply forallb_forall with (l := l) (x := s); [by eapply Hr|done].
Qed.

Definition demoReq (method path body : string) : Request :=
  {| Http.Method := method; ReqURL := Some {| Path := path; RawQuery := "" |};
     Header := {["Content-Type" := ["application/json"]]};
     RemoteAddr := ""; ContentLength := -1; ReqBody := Some {| BodyBytes := body; BodyErr := None |};
     RequestURI := path; ReqPattern := ""; PathValues := ∅; Ctx := [] |}.
Definition demoURL : URL := {| Path := "/a"; RawQuery := "" |}.
Definition table (scenarios : list value) : MoxtoxConfig :=
  default zeroConfig (buildSliceLookupMap demoSort (genConfig scenarios)).
Definition lowHigh : list value := [scen "low" 1 []; scen "high" 2 []].

Example demo_high :
  (Name <$> (matchesRequestSlice demoPrint demoJSON (table lowHigh) demoURL (demoReq "GET" "/a" "") ≫= fst)) = Some "high".
Proof. vm_compute. reflexivity. Qed.

Lemma slice_serves_highest_witness :
  match matchesRequestSlice demoPrint demoJSON (table lowHigh) demoURL (demoReq "GET" "/a" "") with
  | Some (Some s, _) => exists v mapping method l, In ("/a", v) (usedMappings (genConfig lowHigh)) /\
      parseMapping v = Some mapping /\ mapping !! method = Some l /\ In s l /\
      matches demoPrint demoJSON demoURL (demoReq "GET" "/a" "") s = Some (true, demoReq "GET" "/a" "") /\
      (forall s' r1, In s' l -> matches demoPrint demoJSON demoURL (demoReq "GET" "/a" "") s' = Some (true, r1) ->
         Priority s' <= Priority s) /\
      (method = "GET" \/ method = "*" /\ Forall (fun x =>
         matches demoPrint demoJSON demoURL (demoReq "GET" "/a" "") x = Some (false, demoReq "GET" "/a" ""))
         (scenariosFor (table lowHigh) "/a" "GET"))
  | _ => False
  end.
Proof.
  destruct (matchesRequestSlice _ _ _ _ _) as [[[s|] r']|] eqn:E; [|vm_compute in E; discriminate E..].
  apply (slice_serves_highest demoSort demoPrint demoJSON demoURL (demoReq "GET" "/a" "") (genConfig lowHigh) (table lowHigh) s r').
  - exact demoSort_ok.
  - vm_compute. reflexivity.
  - reflexivity.
  - apply (bodyless_row _ _ (default ∅ (LookupMap (table lowHigh) !! "/a"))); vm_compute; reflexivity.
  - exact E.
Defined.

Definition bodyCond (id : string) : list (value * value) := [(VStr "conditions", gen "body" (gen "id" (VStr id)))].
Definition bodyScenario (id : string) : Scenario :=
  default emptyScenario (match scen id 0 (bodyCond id) with VGen m => parseScenario m | _ => None end).
Lemma body_condition_consumes_witness :
  firstMatch demoPrint demoJSON demoURL (demoReq "POST" "/a" "two") [bodyScenario "two"]
    = Some (Some (bodyScenario "two"), withBody (demoReq "POST" "/a" "two") (Some {| BodyBytes := ""; BodyErr := None |}) (-1)) /\
  exists r2, firstMatch demoPrint demoJSON demoURL (demoReq "POST" "/a" "two") [bodyScenario "one"; bodyScenario "two"]
    = Some (None, r2).
Proof.
  split; [vm_compute; reflexivity|].
  apply (body_condition_consumes demoPrint demoJSON demoURL (demoReq "POST" "/a" "two"))
    with (b := {| BodyBytes := "two"; BodyErr := None |}) (obj := [("id", VStr "two")]) (rest := "") (rest' := "")
         (m1 := [(VStr "id", VStr "one")]) (m2 := []) (k := "id") (v := VStr "two"); try (vm_compute; reflexivity).
  eexists. vm_compute. reflexivity.
Defined.

Definition quickTable : MoxtoxConfig :=
  default zeroConfig (buildHashLookupMap demoPrint demoMD5 (genConfig [scen "default" 0 []; scen "x" 0
    [(VStr "conditions", gen "path" (VStr "?"))]])).
Lemma quick_default_unreachable_witness :
  match (matchesRequestHash demoPrint demoMD5 demoJSON (fun _ => []) quickTable demoURL
           (withHeader (demoReq "GET" "/a" "") ∅)).1 with
  | Some s => Conditions s <> []
  | None => False
  end.
Proof.
  destruct (matchesRequestHash _ _ _ _ _ _ _).1 as [s|] eqn:E.
  - apply (quick_default_unreachable demoPrint demoMD5 demoJSON (fun _ => []) demoURL
      (withHeader (demoReq "GET" "/a" "") ∅) (genConfig [scen "default" 0 []; scen "x" 0
        [(VStr "conditions", gen "path" (VStr "?"))]]) quickTable s).
    + discriminate.
    + vm_compute. reflexivity.
    + exact E.
  - vm_compute in E. discriminate E.
Defined.
