(* ===== verification/Telemetry.v ===== *)
(** * Telemetry and server start (src/api/telemetry, src/api/server, src/api/response)

    The middleware that recovers panics and records what was answered, the
    server's start and shutdown, and the binding of client responses. *)

From S2P Require Import Prelude GoStrings Http LogLine.

Open Scope string_scope.
Open Scope Z_scope.

(** ** Telemetry

    The next handler gets the recording writer: what it does to it is a list of
    actions, and it may panic in the end. *)

Inductive action : Type :=
  | ASetHeader (k v : string)
  | AOp (o : rwop).
Definition act (w : ResponseWriter) (a : action) : ResponseWriter :=
  match a with
  | ASetHeader k v =>
      {| Under := setHeader (Under w) k v; rwStatus := rwStatus w; BytesWritten := BytesWritten w;
         WroteHeader := WroteHeader w |}
  | AOp o => rwapply w o
  end.
Definition perform (w : ResponseWriter) (l : list action) : ResponseWriter := fold_left act l w.

Definition inner (W : Type) : Type := Request -> Writer -> W -> W * list action * exit.

(** The log of the world, [logger.Error] and [logger.Info]. *)
Class LogSink (W : Type) := {
  logError : string -> error -> list attr -> W -> W;
  logInfo : string -> list attr -> W -> W;
}.

Section Telemetry.
Context {W : Type} `{Clock W, LogSink W}.
(** Request fields the handlers of this development do not look at, and the RFC 3339 form of a time. *)
Variables (Proto Host : Request -> string).
Variable formatTime : Z -> string.

Definition accessAttrs (req : Request) (u : URL) (status bytes ms start finish : Z) : list attr :=
  [("request_id", VString (GetRequestID req)); ("method", VString (Http.Method req)); ("path", VString (Path u));
   ("query", VString (RawQuery u)); ("status", VInt status); ("bytes", VInt bytes); ("latency_ms", VInt ms);
   ("ip", VString (RemoteAddr req)); ("user_agent", VString (hget (Header req) "User-Agent"));
   ("referer", VString (hget (Header req) "Referer")); ("proto", VString (Proto req)); ("host", VString (Host req));
   ("start_time", VString (formatTime start)); ("finish_time", VString (formatTime finish))].

(** The deferred function: [rec] is what [recover] returned. *)
Definition finish (req : Request) (start : Z) (rec : option string) (rw : ResponseWriter) : W -> W * Writer * exit :=
  fun w =>
  let ms := Z.quot (timeSub (now w) start) Millisecond in
  match rec with
  | Some msg =>
      let wtr := if rwStatus rw =? 0
                 then SendError (now w) (Under rw) req (Internal Global) [WithDetail "error occured while logging telemetry"]
                 else Under rw in
      (logError "telemetry panicked!" (Errorf ("telemetry panicked: " +:+ msg)) [] w, wtr, Returned)
  | None =>
      let status := if rwStatus rw =? 0 then 200 else rwStatus rw in
      match ReqURL req with
      | None => (w, Under rw, Panicked "invalid memory address or nil pointer dereference")
      | Some u =>
          let attrs := accessAttrs req u status (BytesWritten rw) ms start (now w) in
          (if 400 <=? status then logError "request failed" (Errorf ("status " +:+ Itoa status)) attrs w
           else logInfo "request completed" attrs w, Under rw, Returned)
      end
  end.

Definition TelemetryMiddleware (next : inner W) : handler W := fun req wtr w =>
  let start := now w in
  let '(w, actions, ex) := next req wtr w in
  finish req start (match ex with Panicked msg => Some msg | Returned => None end)
    (perform (wrapWriter wtr) actions) w.
End Telemetry.

(** ** The server (src/api/server) *)

Definition DefaultReadHeaderTimeout : Z := 10 * Second.
Definition DefaultReadTimeout : Z := 30 * Second.
Definition DefaultWriteTimeout : Z := 30 * Second.
Definition DefaultIdleTimeout : Z := 120 * Second.

Record Server := {
  Addr : string; ReadHeaderTimeout : Z; ReadTimeout : Z; WriteTimeout : Z; IdleTimeout : Z
}.
Definition orDefault (t d : Z) : Z := if t =? 0 then d else t.
Definition applyTimeoutDefaults (srv : Server) : Server :=
  {| Addr := Addr srv; ReadHeaderTimeout := orDefault (ReadHeaderTimeout srv) DefaultReadHeaderTimeout;
     ReadTimeout := orDefault (ReadTimeout srv) DefaultReadTimeout;
     WriteTimeout := orDefault (WriteTimeout srv) DefaultWriteTimeout;
     IdleTimeout := orDefault (IdleTimeout srv) DefaultIdleTimeout |}.

(** What happens to a started server: [listen] is the error ListenAndServe returns
    without a shutdown, [signal] whether a signal arrives, [shutdown] what Shutdown returns. *)
Record life := { listen : option error; signal : bool; shutdown : option error }.
Inductive ending : Type :=
  | Blocked                       (* waits for a signal *)
  | Done                          (* returns to the caller *)
  | Exited (code : Z)
  | Lambda.                       (* hands over to the Lambda runtime *)
Definition ErrServerClosed : error := Sentinel "http.ErrServerClosed".
Definition serveFails (l : life) : bool :=
  match listen l with Some e => negb (bool_decide (e = ErrServerClosed)) | None => false end.
(** The server as it is started, the messages logged in order, and how the call ends. *)
Definition InitAndServe (srv : Server) (p : string) (l : life) : Server * list string * ending :=
  let srv := applyTimeoutDefaults {| Addr := p; ReadHeaderTimeout := ReadHeaderTimeout srv; ReadTimeout := ReadTimeout srv;
    WriteTimeout := WriteTimeout srv; IdleTimeout := IdleTimeout srv |} in
  let started := "server starting" :: if serveFails l then ["server failed to start"] else [] in
  if signal l || serveFails l then
    match shutdown l with
    | Some _ => (srv, started ++ ["server shutting down..."; "server forced to shutdown"], Exited 1)%list
    | None => (srv, started ++ ["server shutting down..."; "server shutdown complete"], Done)%list
    end
  else (srv, started, Blocked).
Definition Run (lambdaName : string) (srv : Server) (port : string) (l : life) : Server * list string * ending :=
  if negb (String.eqb lambdaName "") then (srv, [], Lambda) else InitAndServe srv port l.

(** ** Binding a response (src/api/response)

    A response body is a reader; [rdJSON] is what [json.Marshal] makes of the reader
    itself, the exported fields of its type. *)

Record Reader := { rdBytes : string; rdJSON : result string }.
Record Response := { rsStatus : Z; rsHeader : headers; rsBody : Reader }.
Record APIResponse := {
  arStatus : Z; arBody : string; arHeaders : headers; arRequestID : string; arError : option ErrorCode
}.
(** The answer and the target, which is what it was. *)
Definition Bind {T} (res : option Response) (target : T) : result APIResponse * T :=
  match res with
  | None => (Err (Errorf "failed to bind response - response is nil"), target)
  | Some res =>
      match rdJSON (rsBody res) with
      | Err e => (Err (Errorf "failed to bind response - failed to marshal response body"), target)
      | Ok body => (Ok {| arStatus := rsStatus res; arBody := body; arHeaders := rsHeader res;
                          arRequestID := hget (rsHeader res) "X-Request-ID"; arError := None |}, target)
      end
  end.

(** ** Properties *)

(** Statuses net/http accepts: it panics on others. *)
Definition action_valid (a : action) : Prop :=
  match a with AOp (OpWriteHeader s) => 100 <= s <= 999 | _ => True end.
(** The first status the handler asks for, 0 when it sends nothing. *)
Fixpoint firstStatus (l : list action) : Z :=
  match l with
  | [] => 0
  | ASetHeader _ _ :: l => firstStatus l
  | AOp (OpWriteHeader s) :: _ => s
  | AOp (OpWrite _ _) :: _ => 200
  end.

(** Once a header was written the recorded status stays. *)
Lemma perform_latched l : forall w, WroteHeader w = true -> rwStatus (perform w l) = rwStatus w.
Proof.
  induction l as [|a l IH]; intros w Hw; [done|]. simpl. rewrite IH; destruct a as [k v|[s|b n]]; simpl;
    unfold rwWriteHeader, rwWrite; simpl; by rewrite ?Hw.
Qed.
(** The recorded status is the first one. *)
Lemma perform_first l : forall w, WroteHeader w = false -> rwStatus w = 0 -> rwStatus (perform w l) = firstStatus l.
Proof.
  induction l as [|a l IH]; intros w Hw Hz; [done|]. destruct a as [k v|[s|b n]]; simpl; [by apply IH|..];
    rewrite perform_latched; simpl; unfold rwWriteHeader, rwWrite; simpl; by rewrite ?Hw.
Qed.

Lemma perform_committed l : forall w s, WStatus (Under w) = Some s ->
  WStatus (Under (perform w l)) = Some s /\ WInfo (Under (perform w l)) = WInfo (Under w).
Proof.
  induction l as [|a l IH]; intros w s Hw; [done|]. simpl.
  assert (H : WStatus (Under (act w a)) = Some s /\ WInfo (Under (act w a)) = WInfo (Under w)).
  { destruct a as [k v|[s'|b n]]; simpl; [done|by rewrite (WriteHeader_committed _ _ _ Hw)|].
    unfold rwWrite, rwWriteHeader, Write.
    destruct (WroteHeader w); simpl; rewrite ?(WriteHeader_committed _ _ _ Hw); by rewrite ?(WriteHeader_committed _ _ _ Hw). }
  destruct H as [H1 H2]. destruct (IH _ _ H1) as [-> ->]. by rewrite H2.
Qed.

Lemma WriteHeader_informs w s : WStatus w = None -> informational s = true ->
  WStatus (WriteHeader w s) = None /\ WInfo (WriteHeader w s) = (WInfo w ++ [s])%list.
Proof. unfold WriteHeader. by intros -> ->. Qed.

(** Informational statuses are only added. *)
Lemma perform_informs l : forall w, exists ext, WInfo (Under (perform w l)) = (WInfo (Under w) ++ ext)%list.
Proof.
  assert (H : forall w s, exists ext, WInfo (WriteHeader w s) = (WInfo w ++ ext)%list).
  { intros w s. unfold WriteHeader. destruct (WStatus w); [exists []; by rewrite app_nil_r|].
    destruct (informational s); [by eexists|exists []; by rewrite app_nil_r]. }
  induction l as [|a l IH]; intros w; [exists []; by rewrite app_nil_r|]. simpl. destruct (IH (act w a)) as [e1 ->].
  assert (Ha : exists ext, WInfo (Under (act w a)) = (WInfo (Under w) ++ ext)%list).
  { destruct a as [k v|[s|b n]]; simpl; [exists []; by rewrite app_nil_r|apply H|].
    unfold rwWrite, Write. destruct (WroteHeader w); simpl; [apply H|]. destruct (H (Under w) 200) as [x Hx].
    destruct (H (WriteHeader (Under w) 200) 200) as [y Hy]. rewrite Hy, Hx, <- (assoc_L (++)%list). by eexists. }
  destruct Ha as [e2 ->]. rewrite <- (assoc_L (++)%list). by eexists.
Qed.

(** What was sent, by the first status: nothing, that status, or a hint and whatever
    followed. *)
Lemma perform_sent l : forall w, WStatus (Under w) = None -> WroteHeader w = false -> Forall action_valid l ->
  let sent := Under (perform w l) in
  (firstStatus l = 0 /\ WStatus sent = None /\ WInfo sent = WInfo (Under w)) \/
  (firstStatus l <> 0 /\ informational (firstStatus l) = false /\ WStatus sent = Some (firstStatus l)) \/
  (firstStatus l <> 0 /\ informational (firstStatus l) = true /\ WInfo sent <> WInfo (Under w)).
Proof.
  induction l as [|a l IH]; intros w Hw Hn Hv; [by left|]. inversion_clear Hv as [|? ? Ha Hl].
  destruct a as [k v|[s|b n]]; simpl in *; [by apply (IH (act w (ASetHeader k v)))|right|right; left].
  - destruct (informational s) eqn:Ei; [right|left]; (split; [lia|split; [done|]]).
    + destruct (WriteHeader_informs _ _ Hw Ei) as [_ Hx].
      destruct (perform_informs l (rwWriteHeader w s)) as [ext ->]. cbn [Under rwWriteHeader]. rewrite Hx.
      intros E. apply (f_equal (@List.length _)) in E. rewrite !length_app in E. simpl in E. lia.
    + apply perform_committed. cbn [Under rwWriteHeader]. by apply WriteHeader_fresh.
  - split_and!; try done. apply perform_committed. unfold rwWrite. rewrite Hn. cbn [Under rwWriteHeader].
    pose proof (WriteHeader_fresh _ 200 Hw eq_refl) as Hf. by rewrite Write_status, Hf by (by rewrite Hf).
Qed.

Section Outcome.
Context {W : Type} `{Clock W, LogSink W}.
Variables (Proto Host : Request -> string) (formatTime : Z -> string).

(** The status in the access record: the hint, if the handler began with one, otherwise
    the status of the response, 200 if the handler sent none. *)
Definition shownStatus (actions : list action) (sent : Writer) : Z :=
  if informational (firstStatus actions) then firstStatus actions else default 200 (WStatus sent).

(** A handler that returns. *)
Lemma telemetry_returns (next : inner W) req u wtr w w1 actions :
  ReqURL req = Some u -> WStatus wtr = None -> next req wtr w = (w1, actions, Returned) ->
  Forall action_valid actions ->
  let sent := Under (perform (wrapWriter wtr) actions) in
  let status := shownStatus actions sent in
  exists attrs, In ("status", VInt status) attrs /\ In ("path", VString (Path u)) attrs /\
    TelemetryMiddleware Proto Host formatTime next req wtr w =
    (if 400 <=? status then logError "request failed" (Errorf ("status " +:+ Itoa status)) attrs w1
     else logInfo "request completed" attrs w1, sent, Returned).
Proof.
  intros Hu Hw Hn Hv sent status. unfold TelemetryMiddleware. rewrite Hn. unfold finish.
  rewrite (perform_first actions (wrapWriter wtr)), Hu by done. fold sent.
  assert (E : (if firstStatus actions =? 0 then 200 else firstStatus actions) = status).
  { unfold status, shownStatus.
    pose proof (perform_sent actions (wrapWriter wtr) Hw eq_refl Hv) as Hc. cbv zeta in Hc. fold sent in Hc.
    destruct Hc as [(-> & Hs & _)|[(Hz & -> & Hs)|(Hz & -> & _)]]; rewrite ?Hs; [done|..]; by destruct (Z.eqb_spec (firstStatus actions) 0). }
  rewrite E. eexists. split; [|split; [|done]]; simpl; tauto.
Qed.

(** A handler that panics: nothing is answered after a hint. *)
Lemma telemetry_panics (next : inner W) req wtr w w1 actions msg :
  WStatus wtr = None -> next req wtr w = (w1, actions, Panicked msg) -> Forall action_valid actions ->
  let sent := Under (perform (wrapWriter wtr) actions) in
  exists wtr', TelemetryMiddleware Proto Host formatTime next req wtr w =
    (logError "telemetry panicked!" (Errorf ("telemetry panicked: " +:+ msg)) [] w1, wtr', Returned) /\
  if informational (firstStatus actions) then wtr' = sent
  else WStatus wtr' = Some (default 500 (WStatus sent)) /\ (WStatus sent <> None -> wtr' = sent).
Proof.
  intros Hw Hn Hv sent. unfold TelemetryMiddleware. rewrite Hn. unfold finish.
  rewrite (perform_first actions (wrapWriter wtr)) by done. fold sent. eexists. split; [done|].
  pose proof (perform_sent actions (wrapWriter wtr) Hw eq_refl Hv) as Hc. cbv zeta in Hc. fold sent in Hc.
  destruct Hc as [(-> & Hs & _)|[(Hz & -> & Hs)|(Hz & -> & _)]].
  - change (informational 0) with false. change (0 =? 0) with true. cbn iota. rewrite Hs. cbn [default from_option]. unfold id.
    split; [by apply SendError_status|done].
  - apply Z.eqb_neq in Hz. by rewrite Hz, Hs.
  - apply Z.eqb_neq in Hz. by rewrite Hz.
Qed.

(** A panic does not get past the middleware, and is logged: if nothing had been sent
    the client gets a 500, otherwise what was begun.  When the handler returns, the client
    gets what it sent, and one record is logged with the status the client sees, as an
    error from 400 on.  Both fail when the handler began with an informational status: the
    record shows that one, and a panic is not answered. *)
Theorem telemetry_records_outcome (next : inner W) req u wtr w w1 actions ex :
  ReqURL req = Some u -> WStatus wtr = None -> next req wtr w = (w1, actions, ex) ->
  Forall action_valid actions ->
  let sent := Under (perform (wrapWriter wtr) actions) in
  exists w' wtr', TelemetryMiddleware Proto Host formatTime next req wtr w = (w', wtr', Returned) /\
  match ex with
  | Panicked msg =>
      (if informational (firstStatus actions) then wtr' = sent
       else WStatus wtr' = Some (default 500 (WStatus sent)) /\ (WStatus sent <> None -> wtr' = sent)) /\
      w' = logError "telemetry panicked!" (Errorf ("telemetry panicked: " +:+ msg)) [] w1
  | Returned =>
      wtr' = sent /\ let status := shownStatus actions sent in
      exists attrs, In ("status", VInt status) attrs /\ In ("path", VString (Path u)) attrs /\
        w' = if 400 <=? status then logError "request failed" (Errorf ("status " +:+ Itoa status)) attrs w1
             else logInfo "request completed" attrs w1
  end.
Proof.
  intros Hu Hw Hn Hf sent. destruct ex as [|msg].
  - destruct (telemetry_returns next req u wtr w w1 actions Hu Hw Hn Hf) as (attrs & Hs & Hp & E).
    do 2 eexists. split; [exact E|]. split; [done|]. by exists attrs.
  - destruct (telemetry_panics next req wtr w w1 actions msg Hw Hn Hf) as (wtr' & E & Hs).
    do 2 eexists. by split; [exact E|].
Qed.
End Outcome.

(** After an informational status a panic is not answered at all: the recorded status
    is not 0, so no error is sent, and the server completes the response with an
    implicit 200 and an empty body. *)
Theorem telemetry_hides_panic_after_hints {W} `{Clock W, LogSink W} Proto Host formatTime (next : inner W)
    req wtr w w1 hint msg :
  WStatus wtr = None -> informational hint = true -> next req wtr w = (w1, [AOp (OpWriteHeader hint)], Panicked msg) ->
  exists w' wtr', TelemetryMiddleware Proto Host formatTime next req wtr w = (w', wtr', Returned) /\
    WStatus wtr' = None /\ WBody wtr' = WBody wtr.
Proof.
  intros Hw Hh Hn. unfold TelemetryMiddleware. rewrite Hn. unfold finish. cbn [perform fold_left act rwapply].
  unfold rwWriteHeader, wrapWriter, WriteHeader. cbn [rwStatus Under WroteHeader]. rewrite Hw, Hh.
  assert ((hint =? 0) = false) as ->.
  { apply Z.eqb_neq. intros ->. discriminate Hh. }
  do 2 eexists. by split_and!.
Qed.

(** ** The server *)

Lemma orDefault_spec t d : d <> 0 -> orDefault t d <> 0 /\ (t <> 0 -> orDefault t d = t).
Proof. unfold orDefault. intros Hd. by destruct (Z.eqb_spec t 0). Qed.

(** A started server has every timeout set, those of the caller where there are any. *)
Theorem server_timeouts_set srv p l :
  let srv' := (InitAndServe srv p l).1.1 in
  Forall (fun t => t.1 <> 0 /\ (t.2 <> 0 -> t.1 = t.2))
    [(ReadHeaderTimeout srv', ReadHeaderTimeout srv); (ReadTimeout srv', ReadTimeout srv);
     (WriteTimeout srv', WriteTimeout srv); (IdleTimeout srv', IdleTimeout srv)] /\ Addr srv' = p.
Proof.
  assert (H : (InitAndServe srv p l).1.1 = applyTimeoutDefaults {| Addr := p; ReadHeaderTimeout := ReadHeaderTimeout srv;
    ReadTimeout := ReadTimeout srv; WriteTimeout := WriteTimeout srv; IdleTimeout := IdleTimeout srv |}).
  { unfold InitAndServe. destruct (_ || _); [|done]. by destruct (shutdown l). }
  cbv zeta. rewrite H. split; [|done]. repeat constructor; cbn; by apply orDefault_spec.
Qed.

(** When the server cannot start (its port is taken, say) the failure is only logged: the
    call shuts down in good order and returns to its caller as after a signal, so the
    process ends with status 0; an exit status of 1 only follows a failed shutdown. *)
Theorem failed_start_returns srv p l e :
  listen l = Some e -> e <> ErrServerClosed ->
  (shutdown l = None ->
    InitAndServe srv p l = ((InitAndServe srv p {| listen := None; signal := true; shutdown := None |}).1.1,
      ["server starting"; "server failed to start"; "server shutting down..."; "server shutdown complete"], Done)) /\
  ((InitAndServe srv p l).2 = Exited 1 <-> shutdown l <> None).
Proof.
  intros Hl He. unfold InitAndServe, serveFails. rewrite Hl, bool_decide_false, orb_true_r by done.
  destruct (shutdown l); simpl; split; try done; split; congruence.
Qed.

(** A bound response does not depend on what the reader delivers, and the target stays
    what it was: the body is never unmarshalled. *)
Theorem Bind_ignores_body {T} (r : Response) bytes (target : T) :
  Bind (Some r) target =
    Bind (Some {| rsStatus := rsStatus r; rsHeader := rsHeader r;
                  rsBody := {| rdBytes := bytes; rdJSON := rdJSON (rsBody r) |} |}) target /\
  (Bind (Some r) target).2 = target.
Proof. split; [done|]. simpl. by destruct (rdJSON _). Qed.

(** ** Witnesses *)

Definition demoWorld : Type := list string.
#[local] Instance demo_clock : Clock demoWorld := fun _ => 0.
#[local] Instance demo_log : LogSink demoWorld := {
  logError m _ _ w := (w ++ [m])%list; logInfo m _ w := (w ++ [m])%list
}.
Definition demoReq : Request :=
  {| Http.Method := "GET"; ReqURL := Some {| Path := "/a"; RawQuery := "token=hunter2" |}; Header := ∅;
     RemoteAddr := ""; ContentLength := 0; ReqBody := None; RequestURI := "/a"; ReqPattern := "";
     PathValues := ∅; Ctx := [] |}.
Definition demoNext (l : list action) (ex : exit) : inner demoWorld := fun _ _ w => (w, l, ex).

Lemma telemetry_records_outcome_witness :
  exists w' wtr', TelemetryMiddleware (fun _ => "") (fun _ => "") Itoa (demoNext [ASetHeader "X" "1"] (Panicked "boom"))
      demoReq newWriter ([] : demoWorld) = (w', wtr', Returned) /\
    WStatus wtr' = Some 500 /\ w' = ["telemetry panicked!"].
Proof.
  destruct (telemetry_records_outcome (W := demoWorld) (fun _ => "") (fun _ => "") Itoa (demoNext [ASetHeader "X" "1"] (Panicked "boom"))
    demoReq {| Path := "/a"; RawQuery := "token=hunter2" |} newWriter [] [] [ASetHeader "X" "1"] (Panicked "boom")
    eq_refl eq_refl eq_refl ltac:(repeat constructor)) as (w' & wtr' & E & [Hs _] & Hw).
  exists w', wtr'. split; [exact E|]. split; [exact Hs|exact Hw].
Defined.

Lemma telemetry_hides_panic_after_hints_witness :
  exists w' wtr', TelemetryMiddleware (fun _ => "") (fun _ => "") Itoa (demoNext [AOp (OpWriteHeader 103)] (Panicked "boom"))
      demoReq newWriter [] = (w', wtr', Returned) /\ WStatus wtr' = None /\ WBody wtr' = [].
Proof.
  apply (telemetry_hides_panic_after_hints (fun _ => "") (fun _ => "") Itoa
    (demoNext [AOp (OpWriteHeader 103)] (Panicked "boom")) demoReq newWriter [] [] 103 "boom"); reflexivity.
Defined.

Definition demoServer : Server :=
  {| Addr := ""; ReadHeaderTimeout := 0; ReadTimeout := 0; WriteTimeout := 0; IdleTimeout := 0 |}.
Definition portTaken : life := {| listen := Some (Errorf "address already in use"); signal := false; shutdown := None |}.
Lemma failed_start_returns_witness :
  (shutdown portTaken = None -> InitAndServe demoServer ":80" portTaken =
     ((InitAndServe demoServer ":80" {| listen := None; signal := true; shutdown := None |}).1.1,
      ["server starting"; "server failed to start"; "server shutting down..."; "server shutdown complete"], Done)) /\
  ((InitAndServe demoServer ":80" portTaken).2 = Exited 1 <-> shutdown portTaken <> None).
Proof. apply (failed_start_returns demoServer ":80" portTaken (Errorf "address already in use")); [reflexivity|discriminate]. Defined.

(** The query string of an access record keeps its secrets in every mode. *)
Example query_logged_verbatim mode :
  redactAttr mode ("query", VString "token=hunter2") = ("query", VString "token=hunter2").
Proof. by destruct mode; vm_compute. Qed.
