(* ===== verification/Ses.v ===== *)
(** * Mail (src/aws/ses)

    Validation of a message, its MIME form and the call of the mail service. *)

From S2P Require Import Prelude GoStrings Net LogLine Crypto Aws.

Open Scope string_scope.
Open Scope Z_scope.

(** ** Line ends and hexadecimal bytes *)

Definition CR : ascii := "013".
Definition LF : ascii := "010".
Definition CRLF : string := String CR (String LF "").
Definition DQ : string := String "034" "".
(** [strings.ContainsAny] with the line ends. *)
Definition lineEnd (c : ascii) : bool := Ascii.eqb c CR || Ascii.eqb c LF.
Definition ContainsLineEnd (s : string) : bool := negb (sforall (fun c => negb (lineEnd c)) s).
Definition hexEqual (c : ascii) : string :=
  String "=" (String (hexDigit (byteZ c / 16)) (String (hexDigit (byteZ c mod 16)) "")).

(** ** Header words: [mime.QEncoding.Encode] with utf-8 *)

Definition printable (c : ascii) : bool := (32 <=? byteZ c) && (byteZ c <=? 126).
Definition needsEncoding (s : string) : bool := negb (sforall (fun c => printable c || Ascii.eqb c "009") s).
Definition qPlain (c : ascii) : bool :=
  printable c && negb (Ascii.eqb c "=" || Ascii.eqb c "?" || Ascii.eqb c "_").
Definition qByte (c : ascii) : string :=
  if Ascii.eqb c " " then "_" else if qPlain c then String c "" else hexEqual c.
Fixpoint qString (s : string) : string :=
  match s with "" => "" | String c s => qByte c +:+ qString s end.

Definition maxContentLen : Z := 75 - 10 - 2.
Definition openWord : string := "=?utf-8?q?".
Definition closeWord : string := "?=".
(** The bytes of the rune at the front; an invalid byte stands alone. *)
Definition runeLen (s : string) : nat := match decodeRune s with Some (_, n) => n | None => 1%nat end.
(** Words are split between runes; [used] is the length of the current word. *)
Fixpoint qWords (fuel : nat) (s : string) (used : Z) : string :=
  match fuel, s with
  | S fuel, String c _ =>
      let n := if qPlain c then 1%nat else runeLen s in
      let w := if qPlain c then 1 else 3 * Z.of_nat n in
      if maxContentLen <? used + w
      then closeWord +:+ " " +:+ openWord +:+ qString (stake n s) +:+ qWords fuel (sdrop n s) w
      else qString (stake n s) +:+ qWords fuel (sdrop n s) (used + w)
  | _, _ => ""
  end.
Definition QEncode (s : string) : string :=
  if needsEncoding s then openWord +:+ qWords (String.length s) s 0 +:+ closeWord else s.

(** ** Quoted-printable bodies: [quotedprintable.Writer] in text mode

    The state is the current line and whether the last line end was a lone CR. *)

Record qpState := { qpLine : string; qpCR : bool; qpOut : string }.
Definition qpFlush (st : qpState) (tail : string) (cr : bool) : qpState :=
  {| qpLine := ""; qpCR := cr; qpOut := qpOut st +:+ qpLine st +:+ tail |}.
Definition qpSoft (st : qpState) : qpState := qpFlush st ("=" +:+ CRLF) (qpCR st).
Definition qpAdd (st : qpState) (s : string) (cr : bool) : qpState :=
  {| qpLine := qpLine st +:+ s; qpCR := cr; qpOut := qpOut st |}.
Definition qpEncode (st : qpState) (c : ascii) : qpState :=
  let st := if 75 - len (qpLine st) <? 3 then qpSoft st else st in
  qpAdd st (hexEqual c) (qpCR st).
(** A blank at the end of a line is encoded. *)
Definition qpLast (st : qpState) : qpState :=
  match srev (qpLine st) with
  | String c r =>
      if Ascii.eqb c " " || Ascii.eqb c "009"
      then qpEncode {| qpLine := srev r; qpCR := qpCR st; qpOut := qpOut st |} c
      else st
  | "" => st
  end.
Definition qpByte (st : qpState) (c : ascii) : qpState :=
  if lineEnd c then
    if qpCR st && Ascii.eqb c LF then {| qpLine := qpLine st; qpCR := false; qpOut := qpOut st |}
    else qpFlush (qpLast st) CRLF (Ascii.eqb c CR)
  else if (printable c && negb (Ascii.eqb c "=")) || Ascii.eqb c "009" then
    qpAdd (if len (qpLine st) =? 75 then qpSoft st else st) (String c "") false
  else qpEncode st c.
Fixpoint qpBytes (st : qpState) (s : string) : qpState :=
  match s with "" => st | String c s => qpBytes (qpByte st c) s end.
Definition quotedPrintable (body : string) : string :=
  qpOut (qpFlush (qpLast (qpBytes {| qpLine := ""; qpCR := false; qpOut := "" |} body)) "" false).

(** ** Multipart documents: [multipart.Writer] on a buffer

    A part's headers are in ascending order; writing to a buffer does not fail. *)

Record part := { partHeader : list (string * string); partBody : string }.
Fixpoint headerLines (h : list (string * string)) : string :=
  match h with [] => "" | (k, v) :: h => k +:+ ": " +:+ v +:+ CRLF +:+ headerLines h end.
Definition partText (p : part) : string := headerLines (partHeader p) +:+ CRLF +:+ partBody p.
Fixpoint moreParts (boundary : string) (l : list part) : string :=
  match l with
  | [] => CRLF +:+ "--" +:+ boundary +:+ "--" +:+ CRLF
  | p :: l => CRLF +:+ "--" +:+ boundary +:+ CRLF +:+ partText p +:+ moreParts boundary l
  end.
Definition multipart (boundary : string) (l : list part) : string :=
  match l with
  | [] => CRLF +:+ "--" +:+ boundary +:+ "--" +:+ CRLF
  | p :: l => "--" +:+ boundary +:+ CRLF +:+ partText p +:+ moreParts boundary l
  end.

(** [base64.StdEncoding]: the encoding of [Crypto] with padding. *)
Definition padding (s : string) : string :=
  match (String.length s mod 3)%nat with 1%nat => "==" | 2%nat => "=" | _ => "" end.
Definition base64Std (s : string) : string := EncodeToString s +:+ padding s.

(** ** Messages *)

Record Attachment := { Filename : string; ContentType : string; Data : string }.
Record SendEmailInput := {
  From : string; To : list string; Cc : list string; Bcc : list string; Subject : string;
  TextBody : string; HTMLBody : string; ReplyTo : list string; Attachments : list Attachment
}.

Definition New : loader -> Config -> result (option string) :=
  newSDK (Errorf "missing region") (Wrap "failed to load aws config").

Definition validateAddressHeaders (input : SendEmailInput) : option error :=
  if existsb ContainsLineEnd ([From input; Subject input] ++ To input ++ Cc input ++ Bcc input ++ ReplyTo input)
  then Some (Errorf "failed to build email: header value contains CR or LF")
  else None.

Definition writeQPPart (contentType body : string) : part :=
  {| partHeader := [("Content-Transfer-Encoding", "quoted-printable"); ("Content-Type", contentType)];
     partBody := quotedPrintable body |}.
(** [alt] is the boundary of the alternative part. *)
Definition writeBodyParts (alt : string) (input : SendEmailInput) : list part :=
  let text := writeQPPart "text/plain; charset=UTF-8" (TextBody input) in
  let html := writeQPPart "text/html; charset=UTF-8" (HTMLBody input) in
  match String.eqb (TextBody input) "", String.eqb (HTMLBody input) "" with
  | false, false =>
      [{| partHeader := [("Content-Type", "multipart/alternative; boundary=" +:+ DQ +:+ alt +:+ DQ)];
          partBody := multipart alt [text; html] |}]
  | false, true => [text]
  | true, false => [html]
  | true, true => []
  end.
Definition attachmentPart (att : Attachment) : part :=
  {| partHeader :=
       [("Content-Disposition", "attachment; filename=" +:+ DQ +:+ Filename att +:+ DQ);
        ("Content-Transfer-Encoding", "base64");
        ("Content-Type", if String.eqb (ContentType att) "" then "application/octet-stream" else ContentType att)];
     partBody := base64Std (Data att) |}.

Definition messageHeader (boundary : string) (input : SendEmailInput) : list (string * string) :=
  ([("From", From input); ("To", Join (To input) ", ")]
   ++ match Cc input with [] => [] | l => [("Cc", Join l ", ")] end
   ++ match ReplyTo input with [] => [] | l => [("Reply-To", Join l ", ")] end
   ++ [("Subject", QEncode (Subject input)); ("MIME-Version", "1.0");
       ("Content-Type", "multipart/mixed; boundary=" +:+ DQ +:+ boundary +:+ DQ)])%list.
Definition messageParts (alt : string) (input : SendEmailInput) : list part :=
  (writeBodyParts alt input ++ map attachmentPart (Attachments input))%list.
(** [boundary] and [alt] are the random boundaries of the two writers. *)
Definition buildRawMessage (boundary alt : string) (input : SendEmailInput) : string :=
  headerLines (messageHeader boundary input) +:+ CRLF +:+ multipart boundary (messageParts alt input).

(** The request of the SDK. *)
Inductive content : Type :=
  | Raw (data : string)
  | Simple (subject : string) (html text : option string).
Record sdkEmail := {
  seFrom : string; seTo : list string; seCc : list string; seBcc : list string; seReplyTo : list string;
  seContent : content
}.
Class sesAPI (W : Type) := sdkSendEmail : sdkEmail -> W -> W * result (option string).

Definition sdkMessage (boundary alt : string) (input : SendEmailInput) : sdkEmail :=
  {| seFrom := From input; seTo := To input; seCc := Cc input; seBcc := Bcc input; seReplyTo := ReplyTo input;
     seContent := match Attachments input with
                  | _ :: _ => Raw (buildRawMessage boundary alt input)
                  | [] => Simple (Subject input) (ofString (HTMLBody input)) (ofString (TextBody input))
                  end |}.
Definition SendEmail {W} `{sesAPI W} (boundary alt : string) (input : SendEmailInput) (w : W) : W * result string :=
  if String.eqb (From input) "" then (w, Err (Errorf "missing from address")) else
  match To input with
  | [] => (w, Err (Errorf "missing To address"))
  | _ :: _ =>
      match validateAddressHeaders input with
      | Some e => (w, Err e)
      | None =>
          match sdkSendEmail (sdkMessage boundary alt input) w with
          | (w, Err e) => (w, Err (Wrap "failed to send email" e))
          | (w, Ok id) => (w, Ok (ToString id))
          end
      end
  end.

(** ** Reading a message back: a reference reader *)

(** Cut at every occurrence of [d]. *)
Fixpoint splitOn (fuel : nat) (d s : string) : list string :=
  match fuel, Index s d with
  | S fuel, Some i => stake i s :: splitOn fuel d (sdrop (i + String.length d) s)
  | _, _ => [s]
  end.
(** The lines up to the first empty one, and what follows it. *)
Fixpoint readHeader (fuel : nat) (s : string) : list string * string :=
  match fuel, Index s CRLF with
  | S fuel, Some i =>
      let r := sdrop (i + 2) s in
      if Nat.eqb i 0 then ([], r) else let '(ls, body) := readHeader fuel r in (stake i s :: ls, body)
  | _, _ => ([], s)
  end.
Definition readMessage (s : string) : list string * string := readHeader (String.length s) s.
Definition delimiter (boundary : string) : string := CRLF +:+ "--" +:+ boundary.
Definition readParts (boundary body : string) : list string :=
  splitOn (S (String.length body)) (delimiter boundary) (CRLF +:+ body).
Fixpoint untilPad (s : string) : string :=
  match s with "" => "" | String c s => if Ascii.eqb c "=" then "" else String c (untilPad s) end.
(** A part behind its delimiter, as its header lines and its decoded data. *)
Definition readAttachment (piece : string) : list string * option string :=
  let '(header, body) := readMessage (sdrop 2 piece) in (header, DecodeString (untilPad body)).
Definition line (kv : string * string) : string := kv.1 +:+ ": " +:+ kv.2.

(** *** Searching for a delimiter that begins with CR *)

Definition noCR : string -> bool := sforall (fun c => negb (Ascii.eqb c CR)).

Lemma HasPrefix_cut c d : forall a r, HasPrefix (a +:+ String c r) d = true -> ~ sIn c d -> HasPrefix a d = true.
Proof.
  induction d as [|x d IH]; intros a r Hp Hn; [apply HasPrefix_nil|]. destruct a as [|y a].
  - rewrite sapp_nil_l in Hp. cbn in Hp. destruct (ascii_dec x c) as [->|]; [|done]. exfalso. apply Hn. by left.
  - rewrite sapp_cons in Hp. cbn in Hp |- *. destruct (ascii_dec x y); [|done]. eapply IH; [exact Hp|]. intros H. apply Hn. by right.
Qed.

Lemma Contains_cons x s d : Contains (String x s) d = HasPrefix (String x s) d || Contains s d.
Proof. unfold Contains. cbn [Index]. destruct (HasPrefix _ _); [done|]. by destruct (Index s d). Qed.

Lemma Index_delim c d a r : ~ sIn c d -> Contains a (String c d) = false ->
  Index (a +:+ String c d +:+ r) (String c d) = Some (String.length a).
Proof.
  intros Hd. induction a as [|x a IH]; intros Hc.
  - rewrite sapp_nil_l. pose proof (HasPrefix_app (String c d) r) as Hp. rewrite sapp_cons in Hp |- *.
    cbn [Index]. by rewrite Hp.
  - rewrite Contains_cons in Hc. apply orb_false_iff in Hc as [Hp Hc]. rewrite sapp_cons. cbn [Index].
    destruct (HasPrefix (String x (a +:+ String c d +:+ r)) (String c d)) eqn:E; [|by rewrite IH].
    exfalso. cbn in E, Hp. destruct (ascii_dec c x); [|done].
    rewrite sapp_cons in E. apply HasPrefix_cut in E; [|done]. unfold HasPrefix in E. congruence.
Qed.

Lemma HasPrefix_ne x c s d : x <> c -> HasPrefix (String x s) (String c d) = false.
Proof. intros Hx. unfold HasPrefix. simpl. destruct (ascii_dec c x); [congruence|done]. Qed.
Lemma HasPrefix_eq c s d : HasPrefix (String c s) (String c d) = HasPrefix s d.
Proof. unfold HasPrefix. simpl. by destruct (ascii_dec c c). Qed.
Lemma HasPrefix_dash s d : HasPrefix s "-" = false -> HasPrefix s (String "-" d) = false.
Proof.
  destruct s as [|x s]; [done|]. destruct (ascii_dec x "-") as [->|Hx]; [|by intros _; apply HasPrefix_ne].
  rewrite (HasPrefix_eq "-" s ""), HasPrefix_nil. done.
Qed.

Lemma Contains_line p s d : noCR p = true -> Contains (p +:+ s) (String CR d) = Contains s (String CR d).
Proof.
  induction p as [|x p IH]; [by rewrite sapp_nil_l|]. unfold noCR. cbn [sforall]. intros [Hx Hp]%andb_true_iff.
  rewrite sapp_cons, Contains_cons, IH, HasPrefix_ne; [done| |done].
  intros ->. by rewrite Ascii.eqb_refl in Hx.
Qed.

Lemma Contains_break b s : HasPrefix s "-" = false -> Contains (CRLF +:+ s) (delimiter b) = Contains s (delimiter b).
Proof.
  intros Hs. change (delimiter b) with (String CR (String LF (String "-" (String "-" b)))).
  unfold CRLF. rewrite sapp_cons, sapp_cons, sapp_nil_l, !Contains_cons, (HasPrefix_ne LF) by done.
  rewrite !HasPrefix_eq, HasPrefix_dash by done. by rewrite orb_false_l.
Qed.

(** *** Cutting at a delimiter *)

Lemma cut_at c d a r : ~ sIn c d -> Contains a (String c d) = false ->
  let s := a +:+ String c d +:+ r in
  Index s (String c d) = Some (String.length a) /\ stake (String.length a) s = a /\
  sdrop (String.length a + String.length (String c d)) s = r.
Proof.
  intros Hd Ha s. split; [by apply Index_delim|]. unfold s. split; [apply stake_app|].
  rewrite <- slen_app, <- sapp_assoc. apply sdrop_app.
Qed.

Lemma delimiter_once b : ~ sIn CR b -> ~ sIn CR (String LF (String "-" (String "-" b))).
Proof. intros Hb [H|[H|[H|H]]]; [discriminate H..|by apply Hb]. Qed.

Lemma moreParts_cut b l : exists r, moreParts b l = delimiter b +:+ r.
Proof. destruct l; [by exists ("--" +:+ CRLF)|]. cbn [moreParts]. unfold delimiter. eexists. by rewrite !sapp_assoc. Qed.

Lemma splitOn_parts b l : ~ sIn CR b -> forall p fuel,
  Contains p (delimiter b) = false ->
  Forall (fun q => Contains (CRLF +:+ partText q) (delimiter b) = false) l -> (S (length l) < fuel)%nat ->
  splitOn fuel (delimiter b) (p +:+ moreParts b l) =
  p :: (map (fun q => CRLF +:+ partText q) l ++ ["--" +:+ CRLF])%list.
Proof.
  intros Hb. pose proof (delimiter_once b Hb) as Hd.
  assert (Hcut : forall p r, Contains p (delimiter b) = false ->
    forall fuel, splitOn (S fuel) (delimiter b) (p +:+ delimiter b +:+ r) = p :: splitOn fuel (delimiter b) r).
  { intros p r Hp fuel. destruct (cut_at CR _ p r Hd Hp) as (Hi & Ht & Hr). cbn [splitOn].
    change (String CR (String LF (String "-" (String "-" b)))) with (delimiter b) in *. by rewrite Hi, Ht, Hr. }
  induction l as [|q l IH]; intros p fuel Hp Hl Hf; (destruct fuel as [|fuel]; [lia|]).
  - change (moreParts b []) with (delimiter b +:+ "--" +:+ CRLF). rewrite Hcut by done.
    destruct fuel; [simpl in Hf; lia|]. reflexivity.
  - inversion_clear Hl as [|? ? Hq Hl']. 
    assert (moreParts b (q :: l) = delimiter b +:+ (CRLF +:+ partText q) +:+ moreParts b l) as ->.
    { cbn [moreParts]. unfold delimiter. by rewrite !sapp_assoc. }
    rewrite Hcut by done. cbn [map]. rewrite IH; [done|done|done|simpl in Hf; lia].
Qed.

(** *** Reading lines *)

Lemma readHeader_lines h : forall fuel body,
  Forall (fun kv => noCR (line kv) = true /\ kv.1 <> "") h -> (length h < fuel)%nat ->
  readHeader fuel (headerLines h +:+ CRLF +:+ body) = (map line h, body).
Proof.
  assert (Hlf : ~ sIn CR (String LF "")) by (intros [H|[]]; discriminate H).
  induction h as [|[k v] h IH]; intros fuel body Hh Hf; (destruct fuel as [|fuel]; [lia|]).
  - cbn [headerLines]. rewrite sapp_nil_l.
    destruct (cut_at CR (String LF "") "" body Hlf eq_refl) as (Hi & _ & Hr). rewrite sapp_nil_l in Hi, Hr.
    cbn [readHeader]. fold CRLF in Hi, Hr. rewrite Hi. by rewrite <- Hr at 2.
  - inversion_clear Hh as [|? ? [Hl Hk] Hh'].
    assert (Hc : Contains (line (k, v)) (String CR (String LF "")) = false).
    { rewrite <- (sapp_nil_r (line (k, v))), Contains_line by done. reflexivity. }
    destruct (cut_at CR (String LF "") (line (k, v)) (headerLines h +:+ CRLF +:+ body) Hlf Hc) as (Hi & Ht & Hr).
    assert (headerLines ((k, v) :: h) +:+ CRLF +:+ body =
            line (k, v) +:+ String CR (String LF "") +:+ headerLines h +:+ CRLF +:+ body) as ->.
    { cbn [headerLines]. unfold line, CRLF. cbn [fst snd]. by rewrite !sapp_assoc. }
    cbn [readHeader]. fold CRLF in Hi, Ht, Hr |- *. rewrite Hi. change (String.length CRLF) with 2%nat in Hr.
    rewrite Hr, Ht. 
    destruct (Nat.eqb_spec (String.length (line (k, v))) 0) as [He|_].
    + exfalso. unfold line in He. cbn [fst] in He. rewrite slen_app in He. destruct k; [done|]. simpl in He. lia.
    + by rewrite IH by (done || (simpl in Hf; lia)).
Qed.

(** *** Every header is one line *)

Definition plain (s : string) : Prop := ContainsLineEnd s = false.
Definition plainByte (c : ascii) : bool := negb (lineEnd c).

Lemma plain_spec s : plain s <-> sforall plainByte s = true.
Proof. unfold plain, ContainsLineEnd. by rewrite negb_false_iff. Qed.

Lemma plain_app a b : plain (a +:+ b) <-> plain a /\ plain b.
Proof. by rewrite !plain_spec, sforall_app, andb_true_iff. Qed.

Lemma plain_noCR s : plain s -> noCR s = true.
Proof.
  rewrite plain_spec. unfold noCR. induction s as [|c s IH]; [done|]. cbn [sforall].
  intros [Hc Hs]%andb_true_iff. rewrite IH by done. unfold plainByte, lineEnd in Hc.
  rewrite negb_true_iff, orb_false_iff in Hc. by destruct Hc as [-> _].
Qed.

Lemma plain_Join l : Forall plain l -> plain (Join l ", ").
Proof.
  induction 1 as [|x l Hx Hl IH]; [done|]. destruct l as [|y l]; [done|].
  rewrite (Join_cons x) by done. rewrite !plain_app. by split_and!.
Qed.

Lemma plain_hexEqual c : plain (hexEqual c).
Proof.
  assert (Hall : forallb (fun n => sforall plainByte (hexEqual (ascii_of_nat n))) (List.seq 0 256) = true)
    by (vm_compute; reflexivity).
  rewrite forallb_forall in Hall. apply plain_spec. rewrite <- (ascii_nat_embedding c). apply Hall, in_seq.
  pose proof (nat_ascii_bounded c). lia.
Qed.

Lemma plain_printable c : printable c = true -> plain (String c "").
Proof.
  unfold printable. intros Hc. apply plain_spec. cbn [sforall]. unfold plainByte, lineEnd.
  destruct (Ascii.eqb_spec c CR) as [->|]; [done|]. by destruct (Ascii.eqb_spec c LF) as [->|].
Qed.

Lemma plain_qString s : plain (qString s).
Proof.
  induction s as [|c s IH]; [done|]. cbn [qString]. apply plain_app. split; [|done]. unfold qByte.
  destruct (Ascii.eqb c " "); [done|]. unfold qPlain. destruct (printable c) eqn:E; simpl; [|apply plain_hexEqual].
  destruct (negb _); [by apply plain_printable|apply plain_hexEqual].
Qed.

Lemma plain_qWords fuel : forall s used, plain (qWords fuel s used).
Proof.
  induction fuel as [|fuel IH]; intros s used; [done|]. destruct s as [|c s]; [done|]. cbn [qWords].
  destruct (_ <? _); rewrite !plain_app; split_and!; try done; apply plain_qString.
Qed.

(** Whatever the subject, its encoded form is one line. *)
Lemma plain_QEncode s : plain (QEncode s).
Proof.
  unfold QEncode. destruct (needsEncoding s) eqn:E.
  - rewrite !plain_app. split_and!; [done|apply plain_qWords|done].
  - unfold needsEncoding in E. rewrite negb_false_iff in E. clear -E. induction s as [|c s IH]; [done|].
    cbn [sforall] in E. apply andb_true_iff in E as [Hc Hs].
    change (String c s) with (String c "" +:+ s). apply plain_app. split; [|by apply IH].
    apply orb_true_iff in Hc as [Hc|Hc]; [by apply plain_printable|]. by apply Ascii.eqb_eq in Hc as ->.
Qed.

Lemma validate_plain input : validateAddressHeaders input = None ->
  plain (From input) /\ Forall plain (To input) /\ Forall plain (Cc input) /\ Forall plain (ReplyTo input).
Proof.
  unfold validateAddressHeaders. destruct (existsb _ _) eqn:E; [done|]. intros _.
  assert (H : Forall plain ([From input; Subject input] ++ To input ++ Cc input ++ Bcc input ++ ReplyTo input)).
  { apply Forall_forall. intros x Hx. unfold plain. apply not_true_iff_false. intros Hc.
    apply not_true_iff_false in E. apply E, existsb_exists. exists x. split; [by apply list_elem_of_In|done]. }
  simpl in H. inversion_clear H as [|? ? Hf H']. inversion_clear H' as [|? ? _ H''].
  rewrite !Forall_app in H''. naive_solver.
Qed.

Lemma messageHeader_plain b input : plain b -> validateAddressHeaders input = None ->
  Forall (fun kv => noCR (line kv) = true /\ kv.1 <> "") (messageHeader b input).
Proof.
  intros Hb (Hf & Ht & Hc & Hr)%validate_plain.
  assert (H : forall k v, k <> "" -> plain k -> plain v -> noCR (line (k, v)) = true /\ (k, v).1 <> "").
  { intros k v Hk Hpk Hpv. split; [|done]. apply plain_noCR. unfold line. rewrite !plain_app. by split_and!. }
  assert (Hcons : forall k v l, k <> "" -> plain k -> plain v ->
    Forall (fun kv => noCR (line kv) = true /\ kv.1 <> "") l ->
    Forall (fun kv => noCR (line kv) = true /\ kv.1 <> "") ((k, v) :: l)).
  { intros k v l Hk Hpk Hpv Hl. apply Forall_cons_2; [by apply H|done]. }
  unfold messageHeader. rewrite !Forall_app. split_and!.
  - apply Hcons; [done..|]. apply Hcons; [done|done|by apply plain_Join|constructor].
  - destruct (Cc input); [constructor|]. apply Hcons; [done|done|by apply plain_Join|constructor].
  - destruct (ReplyTo input); [constructor|]. apply Hcons; [done|done|by apply plain_Join|constructor].
  - apply Hcons; [done|done|apply plain_QEncode|]. apply Hcons; [done..|].
    apply Hcons; [done|done| |constructor]. rewrite !plain_app. by split_and!.
Qed.

Lemma headerLines_length h : (length h <= String.length (headerLines h))%nat.
Proof. induction h as [|[k v] h IH]; [done|]. cbn [headerLines]. rewrite !slen_app. simpl. lia. Qed.

Lemma readMessage_lines h body : Forall (fun kv => noCR (line kv) = true /\ kv.1 <> "") h ->
  readMessage (headerLines h +:+ CRLF +:+ body) = (map line h, body).
Proof.
  intros Hh. unfold readMessage. apply readHeader_lines; [done|].
  rewrite !slen_app. pose proof (headerLines_length h). simpl. lia.
Qed.

(** (C34) No address or subject can add a header to a message: an input with a line end in
    one of them is refused before the service is called; otherwise the raw message
    reads back as exactly the headers the code writes, one line each, and the
    multipart body.  Blind copies are not in it. *)
Theorem raw_message_headers {W} `{sesAPI W} boundary alt input (w : W) :
  plain boundary ->
  (existsb ContainsLineEnd ([From input; Subject input] ++ To input ++ Cc input ++ Bcc input ++ ReplyTo input) = true ->
     exists e, SendEmail boundary alt input w = (w, Err e)) /\
  (validateAddressHeaders input = None ->
     readMessage (buildRawMessage boundary alt input) =
       (map line (messageHeader boundary input), multipart boundary (messageParts alt input))) /\
  (forall bcc, buildRawMessage boundary alt input = buildRawMessage boundary alt
     {| From := From input; To := To input; Cc := Cc input; Bcc := bcc; Subject := Subject input;
        TextBody := TextBody input; HTMLBody := HTMLBody input; ReplyTo := ReplyTo input;
        Attachments := Attachments input |}).
Proof.
  intros Hb. split_and!.
  - intros Hbad. unfold SendEmail. destruct (String.eqb _ _); [by eexists|]. destruct (To input) eqn:E; [by eexists|].
    unfold validateAddressHeaders. rewrite E, Hbad. by eexists.
  - intros Hv. unfold buildRawMessage. apply readMessage_lines. by apply messageHeader_plain.
  - done.
Qed.

(** *** Attachments *)

Lemma b64_byte v : 0 <= v < 64 ->
  plainByte (b64char v) = true /\ b64char v <> "-"%char /\ b64char v <> "="%char.
Proof.
  intros Hv.
  assert (Hall : forallb (fun n => let c := b64char (Z.of_nat n) in
    plainByte c && negb (Ascii.eqb c "-") && negb (Ascii.eqb c "=")) (List.seq 0 64) = true) by (vm_compute; done).
  rewrite forallb_forall in Hall. specialize (Hall (Z.to_nat v) ltac:(apply in_seq; lia)).
  cbv zeta in Hall. rewrite Z2Nat.id in Hall by lia. rewrite !andb_true_iff, !negb_true_iff in Hall.
  destruct Hall as [[H1 H2] H3]. by split_and!; [|apply Ascii.eqb_neq..].
Qed.

Lemma plain_base64 s : plain (base64Std s).
Proof.
  unfold base64Std. apply plain_app. split.
  - apply plain_spec, EncodeToString_forall. intros v Hv. apply (b64_byte v Hv).
  - unfold padding. by destruct (_ mod 3)%nat as [|[|[|]]].
Qed.

Lemma base64_no_dash s : HasPrefix (base64Std s) "-" = false.
Proof.
  assert (H : sforall (fun c => negb (Ascii.eqb c "-")) (base64Std s) = true).
  { unfold base64Std. rewrite sforall_app. apply andb_true_iff. split.
    - apply EncodeToString_forall. intros v Hv. apply negb_true_iff, Ascii.eqb_neq, (b64_byte v Hv).
    - unfold padding. by destruct (_ mod 3)%nat as [|[|[|]]]. }
  destruct (base64Std s) as [|c r]; [done|]. cbn [sforall] in H. apply andb_true_iff in H as [Hc _].
  apply HasPrefix_ne. intros ->. discriminate Hc.
Qed.

Lemma untilPad_base64 s : untilPad (base64Std s) = EncodeToString s.
Proof.
  unfold base64Std. assert (H : sforall (fun c => negb (Ascii.eqb c "=")) (EncodeToString s) = true).
  { apply EncodeToString_forall. intros v Hv. apply negb_true_iff, Ascii.eqb_neq, (b64_byte v Hv). }
  assert (Hp : untilPad (padding s) = "") by (unfold padding; by destruct (_ mod 3)%nat as [|[|[|]]]).
  revert H. generalize (EncodeToString s) as e. induction e as [|c e IH]; [done|].
  cbn [sforall]. intros [Hc He]%andb_true_iff. rewrite sapp_cons. cbn [untilPad].
  rewrite negb_true_iff in Hc. by rewrite Hc, IH.
Qed.

Lemma Contains_line_delim p s b : noCR p = true -> Contains (p +:+ s) (delimiter b) = Contains s (delimiter b).
Proof. apply Contains_line. Qed.

Lemma Contains_headers b h body :
  Forall (fun kv => noCR (line kv) = true /\ HasPrefix (line kv) "-" = false) h ->
  Contains (CRLF +:+ headerLines h +:+ CRLF +:+ body) (delimiter b) = Contains (CRLF +:+ body) (delimiter b).
Proof.
  induction 1 as [|[k v] h [Hl Hk] Hh IH].
  - cbn [headerLines]. rewrite sapp_nil_l. by apply Contains_break.
  - assert (headerLines ((k, v) :: h) +:+ CRLF +:+ body = line (k, v) +:+ CRLF +:+ headerLines h +:+ CRLF +:+ body) as ->.
    { cbn [headerLines]. unfold line. cbn [fst snd]. by rewrite !sapp_assoc. }
    rewrite Contains_break; [by rewrite (Contains_line_delim (line (k, v)))|].
    destruct (line (k, v)) as [|c r]; [done|]. rewrite sapp_cons. 
    destruct (ascii_dec c "-") as [->|Hc]; [|by apply HasPrefix_ne].
    by rewrite HasPrefix_eq, HasPrefix_nil in Hk.
Qed.

Lemma attachment_lines a : plain (Filename a) -> plain (ContentType a) ->
  Forall (fun kv => noCR (line kv) = true /\ kv.1 <> "") (partHeader (attachmentPart a)) /\
  Forall (fun kv => noCR (line kv) = true /\ HasPrefix (line kv) "-" = false) (partHeader (attachmentPart a)).
Proof.
  intros Hf Hc. unfold attachmentPart. cbn [partHeader].
  assert (H : forall k v, k <> "" -> plain (k +:+ ": " +:+ v) -> HasPrefix (k +:+ ": " +:+ v) "-" = false ->
     (noCR (line (k, v)) = true /\ (k, v).1 <> "") /\ (noCR (line (k, v)) = true /\ HasPrefix (line (k, v)) "-" = false)).
  { intros k v Hk Hp Hd. unfold line. cbn [fst snd]. pose proof (plain_noCR _ Hp). by split. }
  set (ct := if String.eqb (ContentType a) "" then "application/octet-stream" else ContentType a). assert (Hct : plain ct) by (unfold ct; by destruct (String.eqb _ _)).
  destruct (H "Content-Disposition" ("attachment; filename=" +:+ DQ +:+ Filename a +:+ DQ)) as [? ?];
    [done|rewrite !plain_app; by split_and!|done|].
  destruct (H "Content-Transfer-Encoding" "base64") as [? ?]; [done..|].
  destruct (H "Content-Type" ct) as [? ?]; [done|rewrite !plain_app; by split_and!|done|].
  split; repeat (apply Forall_cons_2; [done|]); apply Forall_nil_2.
Qed.

Lemma attachment_free b a : plain (Filename a) -> plain (ContentType a) ->
  Contains (CRLF +:+ partText (attachmentPart a)) (delimiter b) = false.
Proof.
  intros Hf Hc. unfold partText. rewrite Contains_headers by apply (attachment_lines a Hf Hc).
  cbn [partBody attachmentPart]. rewrite Contains_break by apply base64_no_dash.
  rewrite <- (sapp_nil_r (base64Std (Data a))), Contains_line_delim; [done|]. apply plain_noCR, plain_base64.
Qed.

Lemma readAttachment_part a : plain (Filename a) -> plain (ContentType a) ->
  readAttachment (CRLF +:+ partText (attachmentPart a)) = (map line (partHeader (attachmentPart a)), Some (Data a)).
Proof.
  intros Hf Hc. unfold readAttachment.
  replace (sdrop 2 (CRLF +:+ partText (attachmentPart a))) with (partText (attachmentPart a)) by (symmetry; apply (sdrop_app CRLF)).
  unfold partText. rewrite readMessage_lines by apply (attachment_lines a Hf Hc).
  cbn [partBody attachmentPart]. by rewrite untilPad_base64, base64_roundtrip.
Qed.

Lemma moreParts_length b l : (6 * length l + 8 <= String.length (moreParts b l))%nat.
Proof. induction l as [|p l IH]; cbn [moreParts]; rewrite !slen_app; simpl; [lia|]. simpl in IH. lia. Qed.

Lemma moreParts_multipart b p l : CRLF +:+ multipart b (p :: l) = moreParts b (p :: l).
Proof. done. Qed.

(** *** Quoted-printable read back *)

Definition blankByte (c : ascii) : bool := Ascii.eqb c " " || Ascii.eqb c "009".
(** Nothing, or a line break, comes next. *)
Definition endOfLine (s : string) : bool :=
  match s with "" => true | String c _ => Ascii.eqb c CR end.
(** A strict reader of RFC 2045: soft breaks and escapes, no byte beyond printable
    ASCII and the tab, no blank at the end of a line, line ends CRLF. *)
Fixpoint qpRead (s : string) : option string :=
  match s with
  | "" => Some ""
  | String c r =>
      if Ascii.eqb c "=" then
        match r with
        | String a (String b r) =>
            if Ascii.eqb a CR && Ascii.eqb b LF then qpRead r
            else x ← hexVal a; y ← hexVal b; t ← qpRead r; Some (String (byteOf (16 * x + y)) t)
        | _ => None
        end
      else if Ascii.eqb c CR then
        match r with
        | String b r => if Ascii.eqb b LF then t ← qpRead r; Some (CRLF +:+ t) else None
        | "" => None
        end
      else if blankByte c && endOfLine r then None
      else if printable c || Ascii.eqb c "009" then t ← qpRead r; Some (String c t)
      else None
  end.
(** A text with its line ends as CRLF; [cr] after a CR. *)
Fixpoint canonical (cr : bool) (s : string) : string :=
  match s with
  | "" => ""
  | String c s =>
      if Ascii.eqb c LF then (if cr then canonical false s else CRLF +:+ canonical false s)
      else if Ascii.eqb c CR then CRLF +:+ canonical true s
      else String c (canonical false s)
  end.
(** Every CR is followed by LF. *)
Fixpoint noLoneCR (s : string) : bool :=
  match s with
  | "" => true
  | String c r =>
      (negb (Ascii.eqb c CR) || match r with String d _ => Ascii.eqb d LF | "" => false end) && noLoneCR r
  end.

(** [a] is read as [t] before anything that can be read; before anything that does
    not begin with the end of a line. *)
Definition closed (a t : string) : Prop :=
  forall r u, qpRead r = Some u -> qpRead (a +:+ r) = Some (t +:+ u).
Definition opened (a t : string) : Prop :=
  forall r u, endOfLine r = false -> qpRead r = Some u -> qpRead (a +:+ r) = Some (t +:+ u).

Lemma closed_opened a t : closed a t -> opened a t.
Proof. intros H r u _. apply H. Qed.

Lemma opened_soft a t : opened a t -> closed (a +:+ "=" +:+ CRLF) t.
Proof.
  intros H r u Hr. rewrite !sapp_assoc. apply H; [done|]. change ("=" +:+ CRLF +:+ r) with (String "=" (String CR (String LF r))).
  cbn [qpRead]. by rewrite Hr.
Qed.

Lemma opened_hex a t c : opened a t -> closed (a +:+ hexEqual c) (t +:+ String c "").
Proof.
  intros H r u Hr. rewrite !sapp_assoc. apply H; [done|]. unfold hexEqual. rewrite !sapp_cons, !sapp_nil_l. cbn [qpRead].
  pose proof (byte_nibbles c) as [H1 H2].
  assert (Ascii.eqb (hexDigit (byteZ c / 16)) CR = false) as ->.
  { apply Ascii.eqb_neq. intros E. pose proof (hexVal_hexDigit _ H1) as Hx. rewrite E in Hx. by vm_compute in Hx. }
  cbn [andb]. change (Ascii.eqb "=" "=") with true. cbv iota.
  rewrite !hexVal_hexDigit, Hr by done. cbn [mbind option_bind]. do 2 f_equal.
  rewrite <- Z.div_mod by done. apply byteOf_byteZ.
Qed.

Lemma closed_break a t : closed a t -> closed (a +:+ CRLF) (t +:+ CRLF).
Proof.
  intros H r u Hr. rewrite !sapp_assoc. apply H. change (CRLF +:+ r) with (String CR (String LF r)).
  cbn [qpRead]. by rewrite Hr.
Qed.

Lemma opened_plain a t c : opened a t -> (printable c && negb (Ascii.eqb c "=")) || Ascii.eqb c "009" = true ->
  opened (a +:+ String c "") (t +:+ String c "") /\
  (blankByte c = false -> closed (a +:+ String c "") (t +:+ String c "")).
Proof.
  intros H Hc.
  assert (Hne : Ascii.eqb c "=" = false /\ Ascii.eqb c CR = false /\ printable c || Ascii.eqb c "009" = true).
  { apply orb_true_iff in Hc as [Hc|Hc]; [|by apply Ascii.eqb_eq in Hc as ->].
    apply andb_true_iff in Hc as [Hp Hq]. rewrite Hp. apply negb_true_iff in Hq. split_and!; [done| |done].
    apply Ascii.eqb_neq. intros ->. by vm_compute in Hp. }
  destruct Hne as (H1 & H2 & H3).
  assert (R : forall r u, blankByte c && endOfLine r = false -> qpRead r = Some u ->
    qpRead (a +:+ String c r) = Some (t +:+ String c u)).
  { intros r u Hb Hr. apply H; [done|]. cbn [qpRead]. by rewrite H1, H2, H3, Hb, Hr. }
  split.
  - intros r u Hr Hu. rewrite !sapp_assoc. apply R; [|done]. by rewrite Hr, andb_false_r.
  - intros Hb r u Hu. rewrite !sapp_assoc. apply R; [|done]. by rewrite Hb.
Qed.

(** What the writer has put out so far reads as [t]. *)
Definition qpText (st : qpState) : string := qpOut st +:+ qpLine st.
Definition writes (st : qpState) (t : string) : Prop :=
  opened (qpText st) t /\
  match srev (qpLine st) with
  | String c r =>
      if blankByte c then exists t', t = t' +:+ String c "" /\ opened (qpOut st +:+ srev r) t'
      else closed (qpText st) t
  | "" => closed (qpText st) t
  end.

Lemma writes_closed st t : closed (qpText st) t ->
  (forall c r, srev (qpLine st) = String c r -> blankByte c = false) -> writes st t.
Proof.
  intros H Hb. split; [by apply closed_opened|]. destruct (srev (qpLine st)) as [|c r]; [done|]. by rewrite (Hb c r).
Qed.

Lemma writes_soft st t : writes st t -> writes (qpSoft st) t.
Proof.
  intros [H _]. apply writes_closed; [|done]. unfold qpText, qpSoft, qpFlush. cbn [qpOut qpLine].
  rewrite sapp_nil_r, <- !sapp_assoc. rewrite (sapp_assoc _ "=" CRLF). by apply opened_soft.
Qed.

Lemma srev_hexEqual c :
  srev (hexEqual c) = String (hexDigit (byteZ c mod 16)) (String (hexDigit (byteZ c / 16)) "=").
Proof. reflexivity. Qed.
Lemma hexDigit_no_blank c : blankByte (hexDigit (byteZ c mod 16)) = false.
Proof.
  pose proof (hexVal_hexDigit _ (proj2 (byte_nibbles c))) as Hv. unfold blankByte.
  destruct (Ascii.eqb_spec (hexDigit (byteZ c mod 16)) " ") as [E|]; [by rewrite E in Hv|].
  by destruct (Ascii.eqb_spec (hexDigit (byteZ c mod 16)) "009") as [E|]; [rewrite E in Hv|].
Qed.

Lemma writes_encode st t c : opened (qpText st) t -> writes (qpEncode st c) (t +:+ String c "").
Proof.
  intros H. unfold qpEncode. set (st' := if _ <? 3 then qpSoft st else st).
  assert (H' : opened (qpText st') t).
  { unfold st'. destruct (_ <? 3); [|done]. apply closed_opened. unfold qpText, qpSoft, qpFlush. cbn [qpOut qpLine].
    rewrite sapp_nil_r, <- !sapp_assoc. rewrite (sapp_assoc _ "=" CRLF). by apply opened_soft. }
  apply writes_closed.
  - unfold qpText, qpAdd. cbn [qpOut qpLine]. rewrite <- sapp_assoc. by apply opened_hex.
  - intros d r. unfold qpAdd. cbn [qpLine]. rewrite srev_app_distr, srev_hexEqual, !sapp_cons.
    intros [= <- _]. apply hexDigit_no_blank.
Qed.

Lemma writes_add st t c cr : writes st t -> (printable c && negb (Ascii.eqb c "=")) || Ascii.eqb c "009" = true ->
  writes (qpAdd st (String c "") cr) (t +:+ String c "").
Proof.
  intros [H _] Hc. destruct (opened_plain _ _ c H Hc) as [H1 H2]. unfold writes, qpText, qpAdd. cbn [qpOut qpLine].
  rewrite <- sapp_assoc. split; [exact H1|]. rewrite srev_app_distr. change (srev (String c "")) with (String c "").
  rewrite sapp_cons, sapp_nil_l. destruct (blankByte c); [|by apply H2]. exists t. split; [done|].
  by rewrite srev_involutive.
Qed.

Lemma writes_last st t : writes st t -> writes (qpLast st) t /\ closed (qpText (qpLast st)) t.
Proof.
  intros [H1 H2]. unfold qpLast. destruct (srev (qpLine st)) as [|c r] eqn:E.
  { split; [|done]. split; [done|]. by rewrite E. }
  fold (blankByte c). destruct (blankByte c) eqn:Eb.
  - destruct H2 as (t' & -> & H2).
    assert (W : writes (qpEncode {| qpLine := srev r; qpCR := qpCR st; qpOut := qpOut st |} c) (t' +:+ String c ""))
      by (by apply writes_encode). split; [done|].
    assert (Hx : exists l, qpLine (qpEncode {| qpLine := srev r; qpCR := qpCR st; qpOut := qpOut st |} c) = l +:+ hexEqual c)
      by (unfold qpEncode; destruct (_ <? 3); cbn [qpLine qpAdd]; by eexists).
    destruct W as [_ W], Hx as [l Hx].
    by rewrite Hx, srev_app_distr, srev_hexEqual, !sapp_cons, hexDigit_no_blank in W.
  - split; [|done]. split; [done|]. by rewrite E, Eb.
Qed.

Lemma qpSoft_CR st : qpCR (qpSoft st) = qpCR st.
Proof. done. Qed.
Lemma qpEncode_CR st c : qpCR (qpEncode st c) = qpCR st.
Proof. unfold qpEncode. by destruct (_ <? 3). Qed.

(** Not after a CR, unless a LF comes next. *)
Lemma qpBytes_writes body : forall st t, writes st t -> noLoneCR body = true ->
  (qpCR st = true -> match body with String d _ => Ascii.eqb d LF = true | "" => False end) ->
  writes (qpBytes st body) (t +:+ canonical (qpCR st) body).
Proof.
  induction body as [|c body IH]; intros st t Hw Hn Hcr.
  { simpl. by rewrite sapp_nil_r. }
  cbn [qpBytes canonical]. cbn [noLoneCR] in Hn. apply andb_true_iff in Hn as [Hc Hn].
  assert (Hbreak : forall cr, writes (qpFlush (qpLast st) CRLF cr) (t +:+ CRLF)).
  { intros cr. apply writes_closed; [|done]. unfold qpText, qpFlush. cbn [qpOut qpLine].
    rewrite sapp_nil_r, <- sapp_assoc. apply closed_break. by apply writes_last. }
  unfold qpByte. unfold lineEnd. destruct (Ascii.eqb_spec c LF) as [->|Hlf].
  - change (Ascii.eqb LF CR) with false. cbn [orb]. rewrite andb_true_r. destruct (qpCR st) eqn:Ecr.
    + apply (IH {| qpLine := qpLine st; qpCR := false; qpOut := qpOut st |}); [exact Hw|done|done].
    + rewrite <- sapp_assoc. apply (IH (qpFlush (qpLast st) CRLF false)); [apply Hbreak|done|done].
  - destruct (Ascii.eqb_spec c CR) as [->|Hcr'].
    + cbn [orb]. rewrite andb_false_r, <- sapp_assoc. apply (IH (qpFlush (qpLast st) CRLF true)); [apply Hbreak|done|].
      intros _. simpl in Hc. by destruct body.
    + cbn [orb]. assert (Ecr : qpCR st = false).
      { destruct (qpCR st); [|done]. by specialize (Hcr eq_refl). }
      destruct ((printable c && negb (Ascii.eqb c "=")) || Ascii.eqb c "009") eqn:Ep.
      * replace (t +:+ String c (canonical false body)) with ((t +:+ String c "") +:+ canonical false body)
          by (by rewrite sapp_assoc).
        apply (IH (qpAdd (if len (qpLine st) =? 75 then qpSoft st else st) (String c "") false)); [|done|done].
        apply writes_add; [|done]. destruct (_ =? 75); [by apply writes_soft|done].
      * replace (t +:+ String c (canonical false body)) with ((t +:+ String c "") +:+ canonical (qpCR (qpEncode st c)) body)
          by (by rewrite sapp_assoc, qpEncode_CR, Ecr).
        apply IH; [apply writes_encode, Hw|done|by rewrite qpEncode_CR, Ecr].
Qed.

(** A text whose line ends are LF or CRLF is read back with CRLF. *)
Lemma qpRead_quotedPrintable body : noLoneCR body = true ->
  qpRead (quotedPrintable body) = Some (canonical false body).
Proof.
  intros Hn. unfold quotedPrintable.
  assert (W0 : writes {| qpLine := ""; qpCR := false; qpOut := "" |} "").
  { apply writes_closed; [|done]. intros r u Hr. exact Hr. }
  pose proof (qpBytes_writes body _ _ W0 Hn ltac:(done)) as W. apply writes_last in W as [_ W].
  specialize (W "" "" eq_refl). cbn [qpCR] in W. rewrite !sapp_nil_r, sapp_nil_l in W.
  unfold qpFlush. cbn [qpOut]. by rewrite sapp_nil_r.
Qed.

(** *** The parts of a message *)

Lemma readParts_multipart b l : plain b -> l <> [] ->
  Forall (fun q => Contains (CRLF +:+ partText q) (delimiter b) = false) l ->
  readParts b (multipart b l) = "" :: (map (fun q => CRLF +:+ partText q) l ++ ["--" +:+ CRLF])%list.
Proof.
  intros Hb Hne Hl. destruct l as [|p l]; [done|]. unfold readParts.
  rewrite moreParts_multipart, <- (sapp_nil_l (moreParts _ _)). apply splitOn_parts; [|done|done|].
  - apply plain_spec in Hb. by apply (sforall_notIn plainByte).
  - pose proof (moreParts_length b (p :: l)) as H. rewrite <- moreParts_multipart, slen_app in H. simpl in H |- *. lia.
Qed.

(** A text part behind its delimiter, as its header lines and its decoded text. *)
Definition readText (piece : string) : list string * option string :=
  let '(header, body) := readMessage (sdrop 2 piece) in (header, qpRead body).

Lemma drop_CRLF s : sdrop 2 (CRLF +:+ s) = s.
Proof. exact (sdrop_app CRLF s). Qed.

Lemma readText_part ct body : plain ct -> noLoneCR body = true ->
  readText (CRLF +:+ partText (writeQPPart ct body)) =
    (["Content-Transfer-Encoding: quoted-printable"; "Content-Type: " +:+ ct], Some (canonical false body)).
Proof.
  intros Hc Hb. unfold readText, partText.
  rewrite drop_CRLF. cbn [writeQPPart partHeader partBody]. rewrite readMessage_lines.
  - by rewrite qpRead_quotedPrintable.
  - apply Forall_cons_2; [done|]. apply Forall_cons_2; [|constructor]. split; [|done].
    apply plain_noCR. unfold line. cbn [fst snd]. rewrite !plain_app. by split_and!.
Qed.

(** The boundaries do not occur in the text parts. *)
Definition unambiguous (boundary alt : string) (input : SendEmailInput) : Prop :=
  Forall (fun q => Contains (CRLF +:+ partText q) (delimiter boundary) = false) (writeBodyParts alt input) /\
  Forall (fun q => Contains (CRLF +:+ partText q) (delimiter alt) = false)
    [writeQPPart "text/plain; charset=UTF-8" (TextBody input); writeQPPart "text/html; charset=UTF-8" (HTMLBody input)].

(** (C35) Round trip: cut at its boundary, the body of a message with attachments gives
    back its text and every attachment.  The text is one plain or HTML part, or one
    part that cut at its own boundary gives both; decoded from quoted-printable each
    is the text of the input, with its line ends as CRLF.  Then there is one piece per
    attachment, with exactly the three header lines that describe it, and with its
    data once the base64 is decoded.  This holds provided that no file name or
    content type holds a line end, that a CR in the texts is followed by a LF, and
    that the random boundaries do not occur in the text parts. *)
Theorem attachments_round_trip boundary alt input :
  plain boundary -> plain alt -> Attachments input <> [] ->
  Forall (fun a => plain (Filename a) /\ plain (ContentType a)) (Attachments input) ->
  noLoneCR (TextBody input) = true -> noLoneCR (HTMLBody input) = true -> unambiguous boundary alt input ->
  let reads piece type text :=
    readText piece = (["Content-Transfer-Encoding: quoted-printable"; "Content-Type: " +:+ type +:+ "; charset=UTF-8"],
                      Some (canonical false text)) in
  exists texts pieces, readParts boundary (multipart boundary (messageParts alt input)) =
    "" :: (texts ++ pieces ++ ["--" +:+ CRLF])%list /\
  map readAttachment pieces =
    map (fun a => (["Content-Disposition: attachment; filename=" +:+ DQ +:+ Filename a +:+ DQ;
                    "Content-Transfer-Encoding: base64";
                    "Content-Type: " +:+ if decide (ContentType a = "") then "application/octet-stream" else ContentType a],
                   Some (Data a))) (Attachments input) /\
  match texts with
  | [] => TextBody input = "" /\ HTMLBody input = ""
  | [p] =>
      (TextBody input <> "" /\ HTMLBody input = "" /\ reads p "text/plain" (TextBody input)) \/
      (TextBody input = "" /\ HTMLBody input <> "" /\ reads p "text/html" (HTMLBody input)) \/
      (TextBody input <> "" /\ HTMLBody input <> "" /\ exists both t h,
         readMessage (sdrop 2 p) = (["Content-Type: multipart/alternative; boundary=" +:+ DQ +:+ alt +:+ DQ], both) /\
         readParts alt both = ["" ; t; h; "--" +:+ CRLF] /\
         reads t "text/plain" (TextBody input) /\ reads h "text/html" (HTMLBody input))
  | _ => False
  end.
Proof.
  intros Hb Halt Hne Ha Ht Hh [Hbody Halts] reads.
  exists (map (fun q => CRLF +:+ partText q) (writeBodyParts alt input)),
    (map (fun q => CRLF +:+ partText q) (map attachmentPart (Attachments input))). split_and!.
  - rewrite readParts_multipart; [|done| |].
    + unfold messageParts. by rewrite map_app, <- (assoc_L (++)%list).
    + unfold messageParts. destruct (writeBodyParts alt input), (Attachments input); done.
    + unfold messageParts. apply Forall_app. split; [done|]. apply Forall_map.
      eapply Forall_impl; [exact Ha|]. intros a [Hf Hc]. by apply attachment_free.
  - rewrite !map_map. apply map_ext_in. intros a Hin%list_elem_of_In. rewrite Forall_forall in Ha.
    destruct (Ha a Hin). rewrite readAttachment_part by done. unfold line. cbn [map attachmentPart partHeader fst snd].
    destruct (String.eqb_spec (ContentType a) "") as [E|E]; [by rewrite (decide_True _ _ E)|by rewrite (decide_False _ _ E)].
  - assert (Rt : forall ct, plain ct -> reads (CRLF +:+ partText (writeQPPart (ct +:+ "; charset=UTF-8") (TextBody input))) ct (TextBody input)).
    { intros ct Hct. unfold reads. rewrite readText_part; [done| |done]. rewrite plain_app. by split. }
    assert (Rh : forall ct, plain ct -> reads (CRLF +:+ partText (writeQPPart (ct +:+ "; charset=UTF-8") (HTMLBody input))) ct (HTMLBody input)).
    { intros ct Hct. unfold reads. rewrite readText_part; [done| |done]. rewrite plain_app. by split. }
    unfold writeBodyParts. destruct (String.eqb_spec (TextBody input) "") as [E1|E1], (String.eqb_spec (HTMLBody input) "") as [E2|E2];
      cbn [map]; [done| | |].
    + right. left. split_and!; [done|done|]. by apply (Rh "text/html").
    + left. split_and!; [done|done|]. by apply (Rt "text/plain").
    + right. right. split_and!; [done|done|].
      exists (multipart alt [writeQPPart "text/plain; charset=UTF-8" (TextBody input);
                             writeQPPart "text/html; charset=UTF-8" (HTMLBody input)]).
      do 2 eexists. split_and!; [| |by apply (Rt "text/plain")|by apply (Rh "text/html")].
      * rewrite drop_CRLF. unfold partText. cbn [partHeader partBody]. rewrite readMessage_lines; [done|].
        constructor; [|constructor]. split; [|done]. apply plain_noCR. unfold line. cbn [fst snd]. rewrite !plain_app. by split_and!.
      * by rewrite readParts_multipart by done.
Qed.

(** File names and content types of attachments are not checked: a file name with a line
    end puts a header of its sender's choice into its part, in a message that is
    sent as valid. *)
Theorem filename_injects_header a f k v :
  Filename a = f +:+ DQ +:+ CRLF +:+ k +:+ ": " +:+ v ->
  plain f -> plain k -> k <> "" -> plain v -> plain (ContentType a) ->
  readAttachment (CRLF +:+ partText (attachmentPart a)) =
    (map line [("Content-Disposition", "attachment; filename=" +:+ DQ +:+ f +:+ DQ); (k, v +:+ DQ);
               ("Content-Transfer-Encoding", "base64");
               ("Content-Type", if String.eqb (ContentType a) "" then "application/octet-stream" else ContentType a)],
     Some (Data a)) /\
  forall input, validateAddressHeaders input = validateAddressHeaders
     {| From := From input; To := To input; Cc := Cc input; Bcc := Bcc input; Subject := Subject input;
        TextBody := TextBody input; HTMLBody := HTMLBody input; ReplyTo := ReplyTo input; Attachments := [a] |}.
Proof.
  intros Hn Hf Hk Hk0 Hv Hc. split; [|done]. unfold readAttachment.
  replace (sdrop 2 (CRLF +:+ partText (attachmentPart a))) with (partText (attachmentPart a)) by (symmetry; apply (sdrop_app CRLF)).
  unfold partText, attachmentPart. cbn [partHeader partBody].
  set (ct := if String.eqb (ContentType a) "" then "application/octet-stream" else ContentType a).
  assert (Hct : plain ct) by (unfold ct; by destruct (String.eqb _ _)).
  rewrite Hn.
  assert (forall r, headerLines (("Content-Disposition", "attachment; filename=" +:+ DQ +:+
            (f +:+ DQ +:+ CRLF +:+ k +:+ ": " +:+ v) +:+ DQ) :: r) =
          headerLines (("Content-Disposition", "attachment; filename=" +:+ DQ +:+ f +:+ DQ) :: (k, v +:+ DQ) :: r)) as ->.
  { intros r. cbn [headerLines]. by rewrite !sapp_assoc. }
  rewrite readMessage_lines; [by rewrite untilPad_base64, base64_roundtrip|].
  assert (H : forall k v, k <> "" -> plain k -> plain v -> noCR (line (k, v)) = true /\ (k, v).1 <> "").
  { intros k' v' Hk' Hpk Hpv. split; [|done]. apply plain_noCR. unfold line. rewrite !plain_app. by split_and!. }
  apply Forall_cons_2; [apply H; [done|done|rewrite !plain_app; by split_and!]|].
  apply Forall_cons_2; [apply H; [done|done|rewrite plain_app; by split]|].
  apply Forall_cons_2; [by apply H|]. apply Forall_cons_2; [by apply H|]. apply Forall_nil_2.
Qed.

Lemma base64_length s : String.length (base64Std s) = (4 * ((String.length s + 2) / 3))%nat.
Proof.
  unfold base64Std. rewrite slen_app. induction s as [|a|a b|a b c s IH] using string_ind3; [done..|].
  cbn [EncodeToString String.length].
  assert (padding (String a (String b (String c s))) = padding s) as ->.
  { unfold padding. cbn [String.length].
    by replace (S (S (S (String.length s))) mod 3)%nat with (String.length s mod 3)%nat
      by (replace (S (S (S (String.length s)))) with (String.length s + 1 * 3)%nat by lia; by rewrite Nat.Div0.mod_add). }
  replace (S (S (S (String.length s))) + 2)%nat with ((String.length s + 2) + 1 * 3)%nat by lia.
  rewrite Nat.div_add by lia. lia.
Qed.

(** The base64 text is one line: from 749 bytes on it is longer than the 998
    characters RFC 5322 allows. *)
Theorem large_attachment_line a :
  plain (partBody (attachmentPart a)) /\
  ((749 <= String.length (Data a))%nat -> (998 < String.length (partBody (attachmentPart a)))%nat).
Proof.
  cbn [partBody attachmentPart]. split; [apply plain_base64|]. intros Hl. rewrite base64_length.
  assert ((250 <= (String.length (Data a) + 2) / 3)%nat); [|lia].
  apply Nat.div_le_lower_bound; lia.
Qed.

(** ** Witnesses *)

Definition demoAttachment : Attachment := {| Filename := "a.txt"; ContentType := ""; Data := "Hello" |}.
Definition demoInput : SendEmailInput :=
  {| From := "a@x.org"; To := ["b@x.org"; "c@x.org"]; Cc := []; Bcc := ["d@x.org"]; Subject := "Hi";
     TextBody := "plain=text"; HTMLBody := ""; ReplyTo := []; Attachments := [demoAttachment] |}.
#[local] Instance demoSES : sesAPI (list sdkEmail) := fun m w => ((w ++ [m])%list, Ok (Some "id-1")).

Example demo_qp : quotedPrintable "plain=text " = "plain=3Dtext=20".
Proof. vm_compute. reflexivity. Qed.
Example demo_subject :
  QEncode (String.append "caf" (String "195" (String "169" ""))) = "=?utf-8?q?caf=C3=A9?=".
Proof. vm_compute. reflexivity. Qed.
Example demo_raw : (readMessage (buildRawMessage "b0" "b1" demoInput)).1 =
  ["From: a@x.org"; "To: b@x.org, c@x.org"; "Subject: Hi"; "MIME-Version: 1.0";
   "Content-Type: multipart/mixed; boundary=" +:+ DQ +:+ "b0" +:+ DQ].
Proof. vm_compute. reflexivity. Qed.

Lemma raw_message_headers_witness :
  (validateAddressHeaders demoInput = None ->
     readMessage (buildRawMessage "b0" "b1" demoInput) =
       (map line (messageHeader "b0" demoInput), multipart "b0" (messageParts "b1" demoInput))) /\
  validateAddressHeaders demoInput = None.
Proof.
  split; [|reflexivity].
  apply (raw_message_headers (W := list sdkEmail) "b0" "b1" demoInput []). reflexivity.
Defined.

(** The text comes back with its line ends as CRLF, the attachment as it is. *)
Definition demoMail : SendEmailInput :=
  {| From := "a@x.org"; To := ["b@x.org"]; Cc := []; Bcc := []; Subject := "Hi";
     TextBody := "50 = half " +:+ String LF "end"; HTMLBody := "<p>50</p>"; ReplyTo := [];
     Attachments := [demoAttachment] |}.
Lemma attachments_round_trip_witness :
  exists texts pieces, readParts "b0" (multipart "b0" (messageParts "b1" demoMail)) =
    "" :: (texts ++ pieces ++ ["--" +:+ CRLF])%list /\
  map readAttachment pieces =
    [(["Content-Disposition: attachment; filename=" +:+ DQ +:+ "a.txt" +:+ DQ; "Content-Transfer-Encoding: base64";
       "Content-Type: application/octet-stream"], Some "Hello")] /\ length texts = 1%nat.
Proof.
  destruct (attachments_round_trip "b0" "b1" demoMail eq_refl eq_refl ltac:(discriminate)
    ltac:(repeat constructor) eq_refl eq_refl ltac:(split; repeat (constructor; [vm_compute; reflexivity|]); constructor))
    as (texts & pieces & H1 & H2 & H3).
  exists texts, pieces. split; [exact H1|]. split; [exact H2|].
  destruct texts as [|p [|q l]]; [destruct H3 as [H3 _]; discriminate H3|reflexivity|destruct H3].
Defined.
Example demo_text :
  qpRead (quotedPrintable ("50 = half " +:+ String LF "end")) = Some ("50 = half " +:+ CRLF +:+ "end").
Proof. vm_compute. reflexivity. Qed.

Definition evilAttachment : Attachment :=
  {| Filename := "a" +:+ DQ +:+ CRLF +:+ "X-Evil" +:+ ": " +:+ "1"; ContentType := ""; Data := "" |}.
Lemma filename_injects_header_witness :
  (readAttachment (CRLF +:+ partText (attachmentPart evilAttachment))).1 =
    ["Content-Disposition: attachment; filename=" +:+ DQ +:+ "a" +:+ DQ; "X-Evil: 1" +:+ DQ;
     "Content-Transfer-Encoding: base64"; "Content-Type: application/octet-stream"].
Proof.
  rewrite (proj1 (filename_injects_header evilAttachment "a" "X-Evil" "1" eq_refl eq_refl eq_refl
    ltac:(discriminate) eq_refl eq_refl)). reflexivity.
Defined.
