(* ===== verification/Clients.v ===== *)
(** * Wrappers of AWS services

    src/aws/connect, connect/contactlens, elasticache, opensearch, s3, lambda and
    bedrock: what they check, what they send and what they make of the answer.
    The services are interfaces over a world. *)

From S2P Require Import Prelude GoStrings Float64 Aws.
From Stdlib Require Import Sorting.Sorted.

Open Scope string_scope.
Open Scope Z_scope.

Definition isEmpty (s : string) : bool := String.eqb s "".

(** ** Listings page by page

    The loop every listing has: [fetch] asks for the page of a token, [conv]
    converts an entry.  [None] when the fuel is used up. *)

Section Pages.
Context {W S T : Type}.
Variables (fetch : option string -> W -> W * result (list S * option string)) (conv : S -> T) (failed : string).

Fixpoint listPages (fuel : nat) (token : option string) (acc : list T) (w : W) : W * option (result (list T)) :=
  match fuel with
  | O => (w, None)
  | Datatypes.S fuel =>
      match fetch token w with
      | (w, Err e) => (w, Some (Err (Wrap failed e)))
      | (w, Ok (page, next)) =>
          let acc := (acc ++ map conv page)%list in
          match next with
          | None => (w, Some (Ok acc))
          | Some t => listPages fuel (Some t) acc w
          end
      end
  end.

(** What a service serves from a token on: its pages, or some pages and an error. *)
Inductive serves : option string -> W -> list (list S) -> option error -> W -> Prop :=
  | serves_last t w p w' : fetch t w = (w', Ok (p, None)) -> serves t w [p] None w'
  | serves_error t w e w' : fetch t w = (w', Err e) -> serves t w [] (Some e) w'
  | serves_more t w p t' w1 ps r w' :
      fetch t w = (w1, Ok (p, Some t')) -> serves (Some t') w1 ps r w' -> serves t w (p :: ps) r w'.

(** All pages in order, or the error of the page that failed; a unit of fuel per request. *)
Lemma listPages_serves token w pages r w' : serves token w pages r w' -> forall fuel acc,
  (length pages < fuel)%nat ->
  listPages fuel token acc w =
  (w', Some (match r with None => Ok (acc ++ map conv (List.concat pages))%list | Some e => Err (Wrap failed e) end)).
Proof.
  induction 1 as [t w p w' E|t w e w' E|t w p t' w1 ps r w' E _ IH]; intros [|fuel] acc Hf; try (simpl in Hf; lia);
    cbn [listPages]; rewrite E.
  - simpl. by rewrite app_nil_r.
  - done.
  - rewrite IH by (simpl in Hf; lia). destruct r; [done|]. simpl. by rewrite map_app, <- (assoc_L (++)%list).
Qed.

(** A service that answers every request with a token keeps the loop going. *)
Lemma listPages_endless : (forall t w, exists w' p t', fetch t w = (w', Ok (p, Some t'))) ->
  forall fuel t acc w, (listPages fuel t acc w).2 = None.
Proof.
  intros Hf. induction fuel as [|fuel IH]; intros t acc w; [done|]. cbn [listPages].
  destruct (Hf t w) as (w' & p & t' & ->). apply IH.
Qed.
End Pages.

(** ** Amazon Connect *)

Module Connect.
Record OutboundVoiceContactInput := {
  InstanceID : string; ContactFlowID : string; DestinationPhone : string; SourcePhone : string;
  Attributes : list (string * string)
}.
Record ContactFlow := { ID : string; ARN : string; Name : string; Type_ : string }.
(** [types.ContactFlowSummary] and the input of a call. *)
Record sdkFlow := { sID : option string; sArn : option string; sName : option string; sType : string }.
Record sdkCall := {
  cInstance : string; cFlow : string; cDestination : string; cSource : option string;
  cAttributes : option (list (string * string))
}.
Class connectAPI (W : Type) := {
  startOutboundVoiceContact : sdkCall -> W -> W * result (option string);
  getContactAttributes : string -> string -> W -> W * result (option (list (string * string)));
  updateContactAttributes : string -> string -> list (string * string) -> W -> W * option error;
  listContactFlows : string -> option string -> W -> W * result (list sdkFlow * option string);
}.
Definition New : loader -> Config -> result (option string) :=
  newSDK (Errorf "missing region") (Wrap "failed to load AWS config").

Section Operations.
Context {W : Type} `{connectAPI W}.
Definition StartOutboundVoiceContact (input : OutboundVoiceContactInput) (w : W) : W * result string :=
  if isEmpty (InstanceID input) then (w, Err (Errorf "missing InstanceID"))
  else if isEmpty (ContactFlowID input) then (w, Err (Errorf "missing ContactFlowID"))
  else if isEmpty (DestinationPhone input) then (w, Err (Errorf "missing DestinationPhone"))
  else
    match startOutboundVoiceContact
            {| cInstance := InstanceID input; cFlow := ContactFlowID input; cDestination := DestinationPhone input;
               cSource := ofString (SourcePhone input);
               cAttributes := match Attributes input with [] => None | l => Some l end |} w with
    | (w, Err e) => (w, Err (Wrap "failed to start outbound voice contact" e))
    | (w, Ok id) => (w, Ok (ToString id))
    end.
Definition GetContactAttributes (instanceID contactID : string) (w : W) : W * result (list (string * string)) :=
  if isEmpty instanceID then (w, Err (Errorf "missing instanceID"))
  else if isEmpty contactID then (w, Err (Errorf "missing contactID"))
  else match getContactAttributes instanceID contactID w with
       | (w, Err e) => (w, Err (Wrap "failed to get contact attributes" e))
       | (w, Ok attrs) => (w, Ok (default [] attrs))
       end.
Definition UpdateContactAttributes (instanceID contactID : string) (attrs : list (string * string)) (w : W)
    : W * option error :=
  if isEmpty instanceID then (w, Some (Errorf "missing instanceID"))
  else if isEmpty contactID then (w, Some (Errorf "missing contactID"))
  else match attrs with
       | [] => (w, Some (Errorf "missing attrs"))
       | _ => match updateContactAttributes instanceID contactID attrs w with
              | (w, Some e) => (w, Some (Wrap "failed to update contact attributes" e))
              | (w, None) => (w, None)
              end
       end.
Definition toFlow (s : sdkFlow) : ContactFlow :=
  {| ID := ToString (sID s); ARN := ToString (sArn s); Name := ToString (sName s); Type_ := sType s |}.
Definition ListContactFlows (fuel : nat) (instanceID : string) (w : W) : W * option (result (list ContactFlow)) :=
  if isEmpty instanceID then (w, Some (Err (Errorf "missing instanceID")))
  else listPages (listContactFlows instanceID) toFlow "failed to list contact flows" fuel None [] w.
End Operations.
End Connect.

(** ** Contact Lens *)

Module ContactLens.
Record Segment := {
  Type_ : string; Content : string; BeginOffsetMillis : Z; EndOffsetMillis : Z; ParticipantID : string; Sentiment : string
}.
Record transcript := {
  tBegin : option Z; tEnd : option Z; tContent : option string; tParticipant : option string; tSentiment : string
}.
(** A segment of the service: a transcript or something else. *)
Class contactLensAPI (W : Type) :=
  listSegments : string -> string -> option string -> W -> W * result (list (option transcript) * option string).
Definition New : loader -> Config -> result (option string) :=
  newSDK (Errorf "missing region") (Wrap "failed to load AWS config").
Definition mapSegment (raw : option transcript) : Segment :=
  match raw with
  | None => {| Type_ := "UNKNOWN"; Content := ""; BeginOffsetMillis := 0; EndOffsetMillis := 0; ParticipantID := ""; Sentiment := "" |}
  | Some t =>
      {| Type_ := "TRANSCRIPT"; Content := ToString (tContent t); BeginOffsetMillis := default 0 (tBegin t);
         EndOffsetMillis := default 0 (tEnd t); ParticipantID := ToString (tParticipant t); Sentiment := tSentiment t |}
  end.
Definition ListRealtimeContactAnalysisSegments {W} `{contactLensAPI W} (fuel : nat) (instanceID contactID : string) (w : W)
    : W * option (result (list Segment)) :=
  if isEmpty instanceID then (w, Some (Err (Errorf "missing instanceID")))
  else if isEmpty contactID then (w, Some (Err (Errorf "missing contactID")))
  else listPages (listSegments instanceID contactID) mapSegment "failed to list realtime contact analysis segments"
         fuel None [] w.
End ContactLens.

(** ** ElastiCache *)

Module ElastiCache.
Record ReplicationGroup := { ID : string; Status : string; NodeType : string; NumNodeGroups : Z; GroupEndpoint : string }.
Record CacheCluster := {
  CID : string; CStatus : string; CNodeType : string; Engine : string; EngineVersion : string; NumCacheNodes : Z
}.
(** An endpoint is its address, which may be missing; [gNodeGroups] are the primary endpoints. *)
Record sdkGroup := {
  gID : option string; gStatus : option string; gNodeType : option string;
  gConfiguration : option (option string); gNodeGroups : list (option (option string))
}.
Record sdkCluster := {
  kID : option string; kStatus : option string; kNodeType : option string; kEngine : option string;
  kVersion : option string; kNodes : option Z
}.
Class elastiCacheAPI (W : Type) := {
  describeGroups : option string -> W -> W * result (list sdkGroup * option string);
  describeClusters : option string -> W -> W * result (list sdkCluster * option string);
}.
Definition New : loader -> Config -> result (option string) :=
  newSDK (Errorf "missing region") (Wrap "failed to load config").
Definition toGroup (g : sdkGroup) : ReplicationGroup :=
  {| ID := ToString (gID g); Status := ToString (gStatus g); NodeType := ToString (gNodeType g);
     NumNodeGroups := wrap32 (Z.of_nat (length (gNodeGroups g)));
     GroupEndpoint := match gConfiguration g with
                 | Some address => ToString address
                 | None => match gNodeGroups g with Some address :: _ => ToString address | _ => "" end
                 end |}.
Definition toCluster (c : sdkCluster) : CacheCluster :=
  {| CID := ToString (kID c); CStatus := ToString (kStatus c); CNodeType := ToString (kNodeType c);
     Engine := ToString (kEngine c); EngineVersion := ToString (kVersion c); NumCacheNodes := default 0 (kNodes c) |}.
Section Operations.
Context {W : Type} `{elastiCacheAPI W}.
Definition DescribeReplicationGroups (fuel : nat) (w : W) : W * option (result (list ReplicationGroup)) :=
  listPages describeGroups toGroup "failed to describe replication groups" fuel None [] w.
Definition DescribeCacheClusters (fuel : nat) (w : W) : W * option (result (list CacheCluster)) :=
  listPages describeClusters toCluster "failed to describe cache clusters" fuel None [] w.
End Operations.
End ElastiCache.

(** ** OpenSearch *)

Module OpenSearch.
Record Domain := {
  Name : string; DomainEndpoint : string; EngineVersion : string; ARN : string; Created : bool; Processing : bool
}.
Record sdkDomain := {
  dName : option string; dArn : option string; dEngine : option string; dEndpoint : option string;
  dCreated : option bool; dProcessing : option bool
}.
Class openSearchAPI (W : Type) := {
  describeDomain : string -> W -> W * result (option sdkDomain);
  listDomainNames : W -> W * result (list (option string));
}.
Definition New : loader -> Config -> result (option string) :=
  newSDK (Errorf "missing region") (Wrap "failed to load config").
Section Operations.
Context {W : Type} `{openSearchAPI W}.
Definition DescribeDomain (name : string) (w : W) : W * result Domain :=
  if isEmpty name then (w, Err (Errorf "domain name is required")) else
  match describeDomain name w with
  | (w, Err e) => (w, Err (Wrap "failed to describe domain" e))
  | (w, Ok None) => (w, Err (Errorf "describe domain returned empty status"))
  | (w, Ok (Some ds)) =>
      (w, Ok {| Name := ToString (dName ds); DomainEndpoint := ToString (dEndpoint ds);
                EngineVersion := ToString (dEngine ds); ARN := ToString (dArn ds);
                Created := default false (dCreated ds); Processing := default false (dProcessing ds) |})
  end.
Definition ListDomainNames (w : W) : W * result (list string) :=
  match listDomainNames w with
  | (w, Err e) => (w, Err (Wrap "failed to list domain names" e))
  | (w, Ok names) => (w, Ok (map ToString names))
  end.
End Operations.
End OpenSearch.

(** ** S3 *)

Module S3.
Definition wrapError : error -> error := Wrap "failed to execute s3 request".
Record sdkPut := { pBucket : string; pKey : string; pType : option string; pLength : option Z }.
(** The result of getting an object is its body, whose reading may fail. *)
Class s3API (W : Type) := {
  headBucket : string -> W -> W * option error;
  getObject : string -> string -> W -> W * result (result string);
  putObject : sdkPut -> string -> W -> W * option error;
  deleteObject : string -> string -> W -> W * option error;
  presignPutObject : sdkPut -> Z -> W -> result string;
}.
Definition New : loader -> Config -> result (option string) := newSDK (Errorf "missing region") wrapError.
(** A custom endpoint is addressed by path. *)
Definition UsePathStyle (cfg : Config) : bool := match baseEndpoint cfg with Some _ => true | None => false end.

Section Operations.
Context {W : Type} `{s3API W}.
Definition wrapped (r : W * option error) : W * option error := (r.1, wrapError <$> r.2).
Definition HeadBucket (bucket : string) (w : W) : W * option error := wrapped (headBucket bucket w).
Definition GetObject (bucket key : string) (w : W) : W * result string :=
  match getObject bucket key w with
  | (w, Err e) => (w, Err (wrapError e))
  | (w, Ok (Err e)) => (w, Err (wrapError e))
  | (w, Ok (Ok data)) => (w, Ok data)
  end.
(** [unmarshal] is [json.Unmarshal] into the caller's type. *)
Definition GetObjectAs {A} (unmarshal : string -> result A) (bucket key : string) (w : W) : W * result A :=
  match GetObject bucket key w with
  | (w, Err e) => (w, Err e)
  | (w, Ok data) => (w, match unmarshal data with Err e => Err (wrapError e) | Ok a => Ok a end)
  end.
Definition PutObject (bucket key data contentType : string) (w : W) : W * option error :=
  wrapped (putObject {| pBucket := bucket; pKey := key; pType := ofString contentType; pLength := None |} data w).
Definition DeleteObject (bucket key : string) (w : W) : W * option error := wrapped (deleteObject bucket key w).
Definition PresignPut (bucket key : string) (ttl : Z) (contentType : string) (contentLength : Z) (w : W) : result string :=
  if ttl <=? 0 then Err (Errorf "ttl must be greater than zero") else
  match presignPutObject {| pBucket := bucket; pKey := key; pType := ofString contentType;
                            pLength := if 0 <? contentLength then Some contentLength else None |} ttl w with
  | Err e => Err (wrapError e)
  | Ok url => Ok url
  end.
End Operations.
End S3.

(** ** Lambda *)

Module LambdaClient.
Inductive InvocationType : Type := RequestResponse | Event.
Class lambdaAPI (W : Type) :=
  invoke : string -> InvocationType -> string -> W -> W * result (option string * string).
Definition New : loader -> Config -> result (option string) :=
  newSDK (Errorf "missing region") (Wrap "failed to load config").
Section Operations.
Context {W : Type} `{lambdaAPI W}.
(** The payload and the error; a failed function gives both. *)
Definition Invoke (functionName payload : string) (w : W) : W * (string * option error) :=
  if isEmpty functionName then (w, ("", Some (Errorf "missing function name"))) else
  match invoke functionName RequestResponse payload w with
  | (w, Err e) => (w, ("", Some (Wrap "failed to invoke function" e)))
  | (w, Ok (Some fe, out)) => (w, (out, Some (Errorf "failed to invoke function: function returned an error")))
  | (w, Ok (None, out)) => (w, (out, None))
  end.
Definition InvokeAsync (functionName payload : string) (w : W) : W * option error :=
  if isEmpty functionName then (w, Some (Errorf "missing function name")) else
  match invoke functionName Event payload w with
  | (w, Err e) => (w, Some (Wrap "failed to invoke function async" e))
  | (w, Ok _) => (w, None)
  end.
End Operations.
End LambdaClient.

(** ** Bedrock *)

Module Bedrock.
Definition MODEL_CLAUDE_DEFAULT : string := "anthropic.claude-sonnet-4-20250514-v1:0".
Definition MODEL_CLAUDE_HAIKU : string := "anthropic.claude-haiku-4-5-20251001-v1:0".
Definition MODEL_GEMINI_DEFAULT : string := "google.gemini-2.5-flash".
Definition MODEL_GPT_DEFAULT : string := "openai.gpt-oss-120b".
Definition MODEL_DEEPSEEK_DEFAULT : string := "deepseek-v3.1".
Definition ErrUnknownModel : error := Sentinel "unknown bedrock model".
Definition validModels : list string :=
  [MODEL_CLAUDE_DEFAULT; MODEL_CLAUDE_HAIKU; MODEL_GEMINI_DEFAULT; MODEL_GPT_DEFAULT; MODEL_DEEPSEEK_DEFAULT].
Definition IsValid (m : string) : bool := existsb (String.eqb m) validModels.
Definition ParseModel (s : string) : result string := if IsValid s then Ok s else Err ErrUnknownModel.
Fixpoint insertModel (m : string) (l : list string) : list string :=
  match l with [] => [m] | x :: r => if String.leb m x then m :: l else x :: insertModel m r end.
Definition Models : list string := foldr insertModel [] validModels.

Record Message := { Role : string; Content : string }.
Record ConverseInput := {
  Model : string; Messages : list Message; System : string; MaxTokens : Z; Temperature : option Q
}.
Record ConverseOutput := { Text : string; StopReason : string; InputTokens : Z; OutputTokens : Z }.
Record anthropicRequestBody := { AnthropicVersion : string; AnthropicMaxTokens : Z; AnthropicMessages : list Message }.

(** The SDK's requests and answers: an inference configuration when something is set,
    content blocks that are texts or not, an answer that is a message or not. *)
Inductive role : Type := RoleUser | RoleAssistant.
Record sdkConverse := {
  qModel : string; qMessages : list (role * string); qSystem : option string;
  qInference : option (option Z * option Q)
}.
Record sdkAnswer := {
  aStop : string; aUsage : option (option Z * option Z); aMessage : option (list (option string))
}.
Class bedrockRuntimeAPI (W : Type) := {
  invokeModel : string -> string -> W -> W * result string;
  converse : sdkConverse -> W -> W * result sdkAnswer;
}.
Definition New : loader -> Config -> result (option string) :=
  newSDK (Errorf "missing region") (Wrap "failed to load aws config").

Section Operations.
Context {W : Type} `{bedrockRuntimeAPI W}.
(** [json.Marshal] of the request body, and the blocks (type and text) of an answer. *)
Variable marshalBody : anthropicRequestBody -> result string.
Variable unmarshalAnswer : string -> result (list (string * string)).

Definition InvokeJSON (model body : string) (w : W) : W * result string :=
  if negb (IsValid model) then (w, Err (Wrap model ErrUnknownModel)) else
  match invokeModel model body w with
  | (w, Err e) => (w, Err (Wrap "failed to invoke model" e))
  | (w, Ok out) => (w, Ok out)
  end.
Definition requestBody (prompt : string) : anthropicRequestBody :=
  {| AnthropicVersion := "bedrock-2023-05-31"; AnthropicMaxTokens := 1024;
     AnthropicMessages := [{| Role := "user"; Content := prompt |}] |}.
Fixpoint firstText (blocks : list (string * string)) : option string :=
  match blocks with
  | [] => None
  | (t, text) :: blocks => if String.eqb t "text" then Some text else firstText blocks
  end.
Definition Invoke (model prompt : string) (w : W) : W * result string :=
  if negb (IsValid model) then (w, Err (Wrap model ErrUnknownModel))
  else if negb (HasPrefix model "anthropic.")
  then (w, Err (Errorf "convenience Invoke not implemented for model family"))
  else
    match marshalBody (requestBody prompt) with
    | Err e => (w, Err (Wrap "failed to marshal invoke request body" e))
    | Ok body =>
        match InvokeJSON model body w with
        | (w, Err e) => (w, Err e)
        | (w, Ok out) =>
            (w, match unmarshalAnswer out with
                | Err e => Err (Wrap "failed to unmarshal invoke response" e)
                | Ok blocks => match firstText blocks with
                               | Some text => Ok text
                               | None => Err (Errorf "invoke response contained no text content")
                               end
                end)
        end
    end.

Definition toRole (r : string) : role := if String.eqb r "assistant" then RoleAssistant else RoleUser.
Definition converseQuery (input : ConverseInput) : sdkConverse :=
  {| qModel := Model input; qMessages := map (fun m => (toRole (Role m), Content m)) (Messages input);
     qSystem := ofString (System input);
     qInference := if (0 <? MaxTokens input) || match Temperature input with Some _ => true | None => false end
                   then Some (if 0 <? MaxTokens input then Some (MaxTokens input) else None, Temperature input)
                   else None |}.
Fixpoint firstBlock (blocks : list (option string)) : string :=
  match blocks with
  | [] => ""
  | Some text :: _ => text
  | None :: blocks => firstBlock blocks
  end.
Definition Converse (input : ConverseInput) (w : W) : W * result ConverseOutput :=
  if negb (IsValid (Model input)) then (w, Err (Wrap (Model input) ErrUnknownModel)) else
  match converse (converseQuery input) w with
  | (w, Err e) => (w, Err (Wrap "failed to converse" e))
  | (w, Ok out) =>
      (w, Ok {| Text := match aMessage out with Some blocks => firstBlock blocks | None => "" end;
                StopReason := aStop out;
                InputTokens := match aUsage out with Some (Some n, _) => n | _ => 0 end;
                OutputTokens := match aUsage out with Some (_, Some n) => n | _ => 0 end |})
  end.
End Operations.
End Bedrock.

(** ** Properties *)

(** Every listing of the AWS clients returns the entries of all pages of the service, in
    order and converted one by one, or the error of the page that failed and nothing;
    it makes one request per page, each with the token of the page before. *)
Theorem listings_complete {W} `{Connect.connectAPI W, ContactLens.contactLensAPI W, ElastiCache.elastiCacheAPI W}
    (instanceID contactID : string) (w w' : W) (fuel : nat) (r : option error) :
  instanceID <> "" -> contactID <> "" ->
  let outcome {S T} (conv : S -> T) (pages : list (list S)) failed :=
    (w', Some (match r with None => Ok (map conv (List.concat pages)) | Some e => Err (Wrap failed e) end)) in
  (forall pages, serves (Connect.listContactFlows instanceID) None w pages r w' -> (length pages < fuel)%nat ->
     Connect.ListContactFlows fuel instanceID w = outcome Connect.toFlow pages "failed to list contact flows") /\
  (forall pages, serves (ContactLens.listSegments instanceID contactID) None w pages r w' -> (length pages < fuel)%nat ->
     ContactLens.ListRealtimeContactAnalysisSegments fuel instanceID contactID w =
     outcome ContactLens.mapSegment pages "failed to list realtime contact analysis segments") /\
  (forall pages, serves ElastiCache.describeGroups None w pages r w' -> (length pages < fuel)%nat ->
     ElastiCache.DescribeReplicationGroups fuel w =
     outcome ElastiCache.toGroup pages "failed to describe replication groups") /\
  (forall pages, serves ElastiCache.describeClusters None w pages r w' -> (length pages < fuel)%nat ->
     ElastiCache.DescribeCacheClusters fuel w =
     outcome ElastiCache.toCluster pages "failed to describe cache clusters").
Proof.
  intros Hi%String.eqb_neq Hc%String.eqb_neq outcome.
  split_and!; intros pages Hs Hf;
    unfold Connect.ListContactFlows, ContactLens.ListRealtimeContactAnalysisSegments,
      ElastiCache.DescribeReplicationGroups, ElastiCache.DescribeCacheClusters, isEmpty;
    rewrite ?Hi, ?Hc; by rewrite (listPages_serves _ _ _ _ _ _ _ _ Hs).
Qed.

(** *** Models *)

Definition strLt (a b : string) : Prop := String.leb a b = true /\ a <> b.

(** [Models] lists exactly the valid models, ascending and each once, they are what
    [ParseModel] accepts, and no operation calls the service for any other model:
    the error is ErrUnknownModel. *)
Theorem models_guard {W} `{Bedrock.bedrockRuntimeAPI W} marshalBody unmarshalAnswer (m : string) :
  StronglySorted strLt Bedrock.Models /\ (Bedrock.IsValid m = true <-> In m Bedrock.Models) /\
  (In m Bedrock.Models -> Bedrock.ParseModel m = Ok m) /\
  (~ In m Bedrock.Models ->
     Bedrock.ParseModel m = Err Bedrock.ErrUnknownModel /\
     forall (w : W) prompt body input, exists e, errors_is e Bedrock.ErrUnknownModel = true /\
       Bedrock.Invoke marshalBody unmarshalAnswer m prompt w = (w, Err e) /\
       Bedrock.InvokeJSON m body w = (w, Err e) /\
       (Bedrock.Model input = m -> Bedrock.Converse input w = (w, Err e))).
Proof.
  assert (Hv : Bedrock.IsValid m = true <-> In m Bedrock.Models).
  { unfold Bedrock.IsValid. rewrite existsb_exists. split.
    - intros (x & Hx & ->%String.eqb_eq). simpl in Hx.
      repeat (destruct Hx as [<-|Hx]; [vm_compute; tauto|]). done.
    - intros Hin. exists m. split; [|apply String.eqb_refl]. vm_compute in Hin.
      repeat (destruct Hin as [<-|Hin]; [vm_compute; tauto|]). done. }
  split_and!; [|done| |].
  - vm_compute Bedrock.Models. repeat constructor; try reflexivity; discriminate.
  - intros Hin%Hv. unfold Bedrock.ParseModel. by rewrite Hin.
  - intros Hin. assert (Hf : Bedrock.IsValid m = false) by (apply not_true_iff_false; by rewrite Hv).
    unfold Bedrock.ParseModel. rewrite Hf. split; [done|]. intros w prompt body input.
    exists (Wrap m Bedrock.ErrUnknownModel). split; [done|].
    unfold Bedrock.Invoke, Bedrock.InvokeJSON, Bedrock.Converse. rewrite Hf. split_and!; try done.
    intros ->. by rewrite Hf.
Qed.

(** ** Witnesses *)

(** Services with two pages each. *)
#[local] Instance demoConnect : Connect.connectAPI unit := {
  Connect.startOutboundVoiceContact _ w := (w, Ok None); Connect.getContactAttributes _ _ w := (w, Ok None);
  Connect.updateContactAttributes _ _ _ w := (w, None);
  Connect.listContactFlows _ t w :=
    (w, Ok ([{| Connect.sID := t; Connect.sArn := None; Connect.sName := None; Connect.sType := "IVR" |}],
            match t with None => Some "p2" | Some _ => None end))
}.
#[local] Instance demoLens : ContactLens.contactLensAPI unit := fun _ _ t w =>
  (w, Ok ([None], match t with None => Some "p2" | Some _ => None end)).
#[local] Instance demoCache : ElastiCache.elastiCacheAPI unit := {
  ElastiCache.describeGroups t w := (w, Ok ([], match t with None => Some "p2" | Some _ => None end));
  ElastiCache.describeClusters t w := (w, Ok ([], match t with None => Some "p2" | Some _ => None end))
}.
Definition demoFlow (t : option string) : Connect.sdkFlow :=
  {| Connect.sID := t; Connect.sArn := None; Connect.sName := None; Connect.sType := "IVR" |}.

Lemma listings_complete_witness :
  Connect.ListContactFlows 3 "i" tt = (tt, Some (Ok (map Connect.toFlow [demoFlow None; demoFlow (Some "p2")]))).
Proof.
  apply (listings_complete "i" "c" tt tt 3 None ltac:(discriminate) ltac:(discriminate))
    with (pages := [[demoFlow None]; [demoFlow (Some "p2")]]).
  - eapply serves_more; [reflexivity|]. apply serves_last. reflexivity.
  - simpl. lia.
Defined.

#[local] Instance demoBedrock : Bedrock.bedrockRuntimeAPI unit := {
  Bedrock.invokeModel _ _ w := (w, Ok ""); Bedrock.converse _ w := (w, Err (Errorf "down"))
}.
Lemma models_guard_witness :
  Bedrock.ParseModel "gpt-5" = Err Bedrock.ErrUnknownModel /\ Bedrock.ParseModel "deepseek-v3.1" = Ok "deepseek-v3.1".
Proof.
  split.
  - apply (models_guard (W := unit) (fun _ => Ok "") (fun _ => Ok []) "gpt-5").
    vm_compute. intros H. repeat (destruct H as [H|H]; [discriminate H|]). exact H.
  - apply (models_guard (W := unit) (fun _ => Ok "") (fun _ => Ok []) "deepseek-v3.1"). vm_compute. tauto.
Defined.
