(* ===== verification/Otel.v ===== *)
(** * OpenTelemetry log records and WebSockets (src/logging/otel, src/http/websocket)

    The logger that filters and completes records, the exporter that writes
    them to a file, and the hardened WebSocket connection. *)

From S2P Require Import Prelude GoStrings Float64 Http.

Open Scope string_scope.
Open Scope Z_scope.

(** ** Attributes *)

(** log.Value by kind, and the Go values they become. *)
Inductive kvalue : Type :=
  | KString (s : string) | KInt64 (n : Z) | KFloat64 (q : Q) | KBool (b : bool) | KBytes (s : string)
  | KSlice (l : list kvalue) | KMap (l : list (string * kvalue)) | KEmpty.
Definition kv : Type := string * kvalue.
Inductive goany : Type :=
  | GNil | GString (s : string) | GInt64 (n : Z) | GFloat64 (q : Q) | GBool (b : bool) | GBytes (s : string)
  | GSlice (l : list goany) | GMap (m : list (string * goany)).

(** [m[k] = v] on a map kept as a list of distinct keys. *)
Fixpoint setKey {A} (m : list (string * A)) (k : string) (v : A) : list (string * A) :=
  match m with
  | [] => [(k, v)]
  | (k', v') :: m => if String.eqb k' k then (k, v) :: m else (k', v') :: setKey m k v
  end.
Definition getKey {A} (m : list (string * A)) (k : string) : option A :=
  snd <$> List.find (fun p => String.eqb p.1 k) m.

Fixpoint kvToAny (v : kvalue) : goany :=
  match v with
  | KString s => GString s
  | KInt64 n => GInt64 n
  | KFloat64 q => GFloat64 q
  | KBool b => GBool b
  | KBytes s => GBytes s
  | KSlice l => GSlice (map kvToAny l)
  | KMap l => GMap (fold_left (fun m kv => setKey m kv.1 kv.2) (map (fun kv => (kv.1, kvToAny kv.2)) l) [])
  | KEmpty => GNil
  end.

Definition String_ (key value : string) : kv := (key, KString value).
Definition Int (key : string) (value : Z) : kv := (key, KInt64 value).
Definition Int64 (key : string) (value : Z) : kv := (key, KInt64 value).
Definition Float64 (key : string) (value : Q) : kv := (key, KFloat64 value).
Definition Bool (key : string) (value : bool) : kv := (key, KBool value).
Definition Bytes (key value : string) : kv := (key, KBytes value).

(** ** The logger (otel.go) *)

Inductive Transport : Type := TransportHTTP | TransportGRPC.
Definition SeverityUndefined : Z := 0.
Definition SeverityTrace : Z := 1.
Definition SeverityDebug : Z := 5.
Definition SeverityInfo : Z := 9.
Definition SeverityWarn : Z := 13.
Definition SeverityError : Z := 17.
Definition SeverityFatal : Z := 21.

Record Config := {
  ServiceName : string; ServiceVersion : string; Environment : string; cfgLevel : Z; FilePath : string;
  Endpoint : string; cfgTransport : Transport; cfgHeaders : list (string * string); Insecure : bool
}.

(** The resource attributes; [getenv] are the environment variables. *)
Definition orElse (a b : string) : string := if String.eqb a "" then b else a.
Definition buildResource (getenv : string -> string) (cfg : Config) : list (string * string) :=
  let svcName := orElse (orElse (ServiceName cfg) (getenv "OTEL_SERVICE_NAME")) "unknown_service" in
  let svcVersion := orElse (ServiceVersion cfg) (getenv "OTEL_SERVICE_VERSION") in
  let env := orElse (Environment cfg) (getenv "OTEL_DEPLOYMENT_ENVIRONMENT") in
  ([("service.name", svcName)]
   ++ (if String.eqb svcVersion "" then [] else [("service.version", svcVersion)])
   ++ (if String.eqb env "" then [] else [("deployment.environment", env)]))%list.

(** Options of the OTLP exporter: endpoint, plain text, headers. *)
Record exporterOptions := { eoGRPC : bool; eoEndpoint : string; eoInsecure : bool; eoHeaders : list (string * string) }.
Definition newHTTPExporter (cfg : Config) : exporterOptions :=
  {| eoGRPC := false; eoEndpoint := Endpoint cfg; eoInsecure := Insecure cfg; eoHeaders := cfgHeaders cfg |}.
Definition newGRPCExporter (cfg : Config) : exporterOptions :=
  {| eoGRPC := true; eoEndpoint := Endpoint cfg; eoInsecure := Insecure cfg; eoHeaders := cfgHeaders cfg |}.
Definition newOTLPExporter (cfg : Config) : exporterOptions :=
  match cfgTransport cfg with TransportGRPC => newGRPCExporter cfg | TransportHTTP => newHTTPExporter cfg end.

Record OtelLogger := { level : Z; attrs : list kv }.
(** What the provider exports to: a file, an OTLP endpoint, or both. *)
Record provider := { pResource : list (string * string); pFile : option string; pExporter : option exporterOptions }.
(** [openFile] and [connect] are the errors of opening the file and of creating the exporter. *)
Definition New (getenv : string -> string) (openFile : string -> option error) (connect : exporterOptions -> option error)
    (cfg : Config) : result (provider * OtelLogger) :=
  if String.eqb (FilePath cfg) "" && String.eqb (Endpoint cfg) ""
  then Err (Errorf "at least one output (FilePath or Endpoint) is required") else
  let lvl := if cfgLevel cfg =? SeverityUndefined then SeverityInfo else cfgLevel cfg in
  let res := buildResource getenv cfg in
  match (if String.eqb (FilePath cfg) "" then None else openFile (FilePath cfg)) with
  | Some e => Err e
  | None =>
      let file := if String.eqb (FilePath cfg) "" then None else Some (FilePath cfg) in
      if String.eqb (Endpoint cfg) "" then Ok ({| pResource := res; pFile := file; pExporter := None |}, {| level := lvl; attrs := [] |})
      else match connect (newOTLPExporter cfg) with
           | Some e => Err e
           | None => Ok ({| pResource := res; pFile := file; pExporter := Some (newOTLPExporter cfg) |},
                         {| level := lvl; attrs := [] |})
           end
  end.

Record logRecord := { rTime : Z; rSeverity : Z; rBody : string; rAttrs : list kv }.
Definition Enabled (l : OtelLogger) (severity : Z) : bool := level l <=? severity.
Definition WithAttributes (l : OtelLogger) (more : list kv) : OtelLogger :=
  {| level := level l; attrs := (attrs l ++ more)%list |}.
(** The record handed to the provider, if any. *)
Definition emit (l : OtelLogger) (time sev : Z) (msg : string) (more : list kv) : option logRecord :=
  if sev <? level l then None
  else Some {| rTime := time; rSeverity := sev; rBody := msg; rAttrs := (attrs l ++ more)%list |}.
Definition Trace l time msg more := emit l time SeverityTrace msg more.
Definition Debug l time msg more := emit l time SeverityDebug msg more.
Definition Info l time msg more := emit l time SeverityInfo msg more.
Definition Warn l time msg more := emit l time SeverityWarn msg more.
Definition Error_ l time msg more := emit l time SeverityError msg more.
Definition Fatal l time msg more := emit l time SeverityFatal msg more.
(** Handed over as it is, whatever its severity. *)
Definition Publish (l : OtelLogger) (rec : logRecord) : option logRecord := Some rec.

(** ** The file exporter (file.go) *)

Record fileRecord := {
  frTimestamp : string; frSeverity : string; frBody : string; frAttributes : option (list (string * goany));
  frTraceID : string; frSpanID : string; frResource : list (string * string)
}.
(** A record of the SDK: with the ids of the current span, empty when there is none,
    and the resource. *)
Record sdkRecord := { sRecord : logRecord; sTraceID : string; sSpanID : string; sResource : list (string * string) }.
Record fileExporter := { done : bool; lines : list fileRecord }.

Section FileExport.
Variables (formatTime : Z -> string) (severityName : Z -> string).
(** The error of writing a line. *)
Variable writeLine : fileRecord -> option error.

Definition toFile (r : sdkRecord) : fileRecord :=
  {| frTimestamp := formatTime (rTime (sRecord r)); frSeverity := severityName (rSeverity (sRecord r));
     frBody := rBody (sRecord r);
     frAttributes := match rAttrs (sRecord r) with
                     | [] => None
                     | l => Some (fold_left (fun m kv => setKey m kv.1 (kvToAny kv.2)) l [])
                     end;
     frTraceID := sTraceID r; frSpanID := sSpanID r;
     frResource := fold_left (fun m a => setKey m a.1 a.2) (sResource r) [] |}.
Fixpoint writeAll (records : list sdkRecord) (e : fileExporter) : fileExporter * option error :=
  match records with
  | [] => (e, None)
  | r :: records =>
      match writeLine (toFile r) with
      | Some err => (e, Some err)
      | None => writeAll records {| done := done e; lines := (lines e ++ [toFile r])%list |}
      end
  end.
Definition Export (records : list sdkRecord) (e : fileExporter) : fileExporter * option error :=
  if done e then (e, None) else writeAll records e.
(** [sync] and [close] are the errors of the file operations. *)
Definition Shutdown (close : option error) (e : fileExporter) : fileExporter * option error :=
  if done e then (e, None) else ({| done := true; lines := lines e |}, close).
Definition ForceFlush (sync : option error) (e : fileExporter) : option error := if done e then None else sync.

(** A log call on a logger, and the provider with its synchronous processor: [keep] is
    what the SDK keeps of a record's attributes, [span] the ids of the current span. *)
Record call := { cLogger : OtelLogger; cTime : Z; cSeverity : Z; cMessage : string; cAttrs : list kv }.
Variable keep : list kv -> list kv.
Variable span : string * string.
Definition sdkOf (res : list (string * string)) (r : logRecord) : sdkRecord :=
  {| sRecord := {| rTime := rTime r; rSeverity := rSeverity r; rBody := rBody r; rAttrs := keep (rAttrs r) |};
     sTraceID := span.1; sSpanID := span.2; sResource := res |}.
Definition doCall (res : list (string * string)) (e : fileExporter) (c : call) : fileExporter :=
  match emit (cLogger c) (cTime c) (cSeverity c) (cMessage c) (cAttrs c) with
  | None => e
  | Some r => (Export [sdkOf res r] e).1
  end.

(** The line of a call, and whether there is one. *)
Definition lineOf (res : list (string * string)) (c : call) : fileRecord :=
  toFile (sdkOf res {| rTime := cTime c; rSeverity := cSeverity c; rBody := cMessage c;
                       rAttrs := (attrs (cLogger c) ++ cAttrs c)%list |}).
Definition writes (res : list (string * string)) (c : call) : bool :=
  Enabled (cLogger c) (cSeverity c) && match writeLine (lineOf res c) with None => true | Some _ => false end.

Lemma doCall_spec res e c : doCall res e c =
  {| done := done e; lines := (lines e ++ if negb (done e) && writes res c then [lineOf res c] else [])%list |}.
Proof.
  destruct e as [d l]. unfold doCall, emit, writes, Enabled. rewrite (Z.leb_antisym (cSeverity c)).
  destruct (cSeverity c <? level (cLogger c)); cbn [negb andb done lines].
  - by rewrite andb_false_r, app_nil_r.
  - unfold Export. cbn [done writeAll]. destruct d; cbn [negb andb fst]; [by rewrite app_nil_r|].
    fold (lineOf res c). destruct (writeLine (lineOf res c)); cbn [fst]; [by rewrite app_nil_r|done].
Qed.

Lemma calls_spec res calls : forall e, fold_left (doCall res) calls e =
  {| done := done e;
     lines := (lines e ++ if done e then [] else map (lineOf res) (List.filter (writes res) calls))%list |}.
Proof.
  induction calls as [|c calls IH]; intros [d l]; cbn [fold_left]; [destruct d; simpl; by rewrite app_nil_r|].
  rewrite IH, doCall_spec. cbn [done lines List.filter]. destruct d; cbn [negb andb]; [by rewrite !app_nil_r|].
  rewrite <- (assoc_L (++)%list). by destruct (writes res c).
Qed.

(** The file holds, in order, one line for every call at or above its logger's level
    made before the shutdown whose line could be written, with the logger's and the
    call's attributes; calls after the shutdown leave it alone. *)
Theorem file_log_complete res calls later e close :
  done e = false ->
  fold_left (doCall res) later (Shutdown close (fold_left (doCall res) calls e)).1 =
    {| done := true; lines := (lines e ++ map (lineOf res) (List.filter (writes res) calls))%list |}.
Proof.
  intros Hd. rewrite !calls_spec. unfold Shutdown. cbn [done lines]. rewrite Hd. cbn [fst done lines].
  by rewrite app_nil_r.
Qed.
End FileExport.

Lemma getKey_setKey {A} (m : list (string * A)) k v k' :
  getKey (setKey m k v) k' = if String.eqb k k' then Some v else getKey m k'.
Proof.
  unfold getKey. induction m as [|[k0 v0] m IH]; simpl; [by destruct (String.eqb k k')|].
  destruct (String.eqb_spec k0 k) as [->|Hne]; simpl; [by destruct (String.eqb k k')|].
  destruct (String.eqb_spec k0 k') as [->|]; [|done].
  destruct (String.eqb_spec k k'); [congruence|done].
Qed.

(** The attribute shown under a key is the last one given, the call's before the logger's. *)
Lemma last_attribute_wins l k v more :
  ~ In k (map fst more) ->
  getKey (fold_left (fun m kv => setKey m kv.1 (kvToAny kv.2)) (l ++ (k, v) :: more) []) k = Some (kvToAny v).
Proof.
  intros Hn. rewrite fold_left_app. simpl. generalize (fold_left (fun m kv => setKey m kv.1 (kvToAny kv.2)) l []).
  intros m0. assert (H : forall more m, ~ In k (map fst more) -> getKey m k = Some (kvToAny v) ->
    getKey (fold_left (fun m kv => setKey m kv.1 (kvToAny kv.2)) more m) k = Some (kvToAny v)).
  { clear. induction more as [|[k' v'] more IH]; intros m Hn Hm; [done|]. simpl. apply IH; [intros Hi; apply Hn; by right|].
    rewrite getKey_setKey. simpl. destruct (String.eqb_spec k' k) as [->|]; [|done]. exfalso. apply Hn. by left. }
  apply H; [done|]. by rewrite getKey_setKey, String.eqb_refl.
Qed.

(** Every resource names a service, and a logger without a configured level logs from Info on. *)
Lemma New_ok getenv openFile connect cfg p l :
  New getenv openFile connect cfg = Ok (p, l) ->
  (exists name, In ("service.name", name) (pResource p) /\ name <> "") /\ level l <> SeverityUndefined /\ attrs l = [] /\
  (pFile p <> None \/ pExporter p <> None).
Proof.
  unfold New. destruct (String.eqb_spec (FilePath cfg) "") as [Hf|Hf], (String.eqb_spec (Endpoint cfg) "") as [He|He];
    cbn [andb]; try done; repeat match goal with |- context [match ?x with Some _ => _ | None => _ end] => destruct x; try done end;
    intros [= <- <-]; (split; [|split; [|split; [done|simpl; by (left + right)]]]);
    try (simpl; destruct (Z.eqb_spec (cfgLevel cfg) SeverityUndefined); done).
  all: exists (orElse (orElse (ServiceName cfg) (getenv "OTEL_SERVICE_NAME")) "unknown_service"); (split; [by left|]);
    unfold orElse; by repeat match goal with |- context [String.eqb ?a ?b] => destruct (String.eqb_spec a b) end.
Qed.

(** ** WebSockets *)

Module WebSocket.
Definition maxMessageBytes : Z := 2 ^ 20.
Definition readTimeout : Z := 60 * Second.
Definition writeTimeout : Z := 10 * Second.
Definition handshakeTimeout : Z := 10 * Second.

(** The allow list is a package variable. *)
Definition SetAllowedOrigins (origins : list string) : list string := map ToLower origins.
Definition checkOrigin (allowed : list string) (r : Request) : bool :=
  let origin := hget (Header r) "Origin" in
  if String.eqb origin "" then true else existsb (String.eqb (ToLower origin)) allowed.

(** The connection of the library, as far as the client configures it: a read limit and
    the deadlines (0 is none). *)
Record Client := { readLimit : Z; readDeadline : Z; writeDeadline : Z; extendsOnPong : bool }.
Definition NewClient (c : Client) : Client := c.
(** [upgrade] is the library's upgrade, which refuses what [CheckOrigin] refuses. *)
Definition Upgrade (allowed : list string) (upgrade : Request -> result unit) (now : Z) (req : Request) : result Client :=
  if checkOrigin allowed req then
    match upgrade req with
    | Err e => Err e
    | Ok tt => Ok {| readLimit := maxMessageBytes; readDeadline := now + readTimeout; writeDeadline := 0; extendsOnPong := true |}
    end
  else Err (Errorf "websocket: request origin not allowed by Upgrader.CheckOrigin").

Definition setRead (c : Client) (t : Z) : Client :=
  {| readLimit := readLimit c; readDeadline := t; writeDeadline := writeDeadline c; extendsOnPong := extendsOnPong c |}.
Definition Write (now : Z) (c : Client) : Client :=
  {| readLimit := readLimit c; readDeadline := readDeadline c; writeDeadline := now + writeTimeout;
     extendsOnPong := extendsOnPong c |}.
(** What the peer does: a message of some size arrives while a read waits, or a pong does. *)
Inductive peer : Type := Message (size : Z) | Pong.
(** The library fails a read past the deadline or over the limit; [None] is that failure. *)
Definition Read (now : Z) (m : peer) (c : Client) : option Client :=
  if readDeadline c <? now then None else
  match m with
  | Message size => if readLimit c <? size then None else Some (setRead c (now + readTimeout))
  | Pong => Some (if extendsOnPong c then setRead c (now + readTimeout) else c)
  end.

(** A browser request from an origin that is not on the list is refused whatever its
    case, one without an origin is admitted.  An upgraded connection lives only while
    its peer keeps sending: every accepted message is within 1 MiB and comes at most
    60 s after the previous message or pong. *)
Theorem hardened_connection allowed upgrade t0 req c :
  Upgrade (SetAllowedOrigins allowed) upgrade t0 req = Ok c ->
  (hget (Header req) "Origin" = "" \/
     exists o, In o allowed /\ ToLower o = ToLower (hget (Header req) "Origin")) /\
  forall l c', fold_left (fun oc '(t, m) => c ← oc; Read t m c) l (Some c) = Some c' ->
    Forall (fun e => match e.2 with Message size => size <= maxMessageBytes | Pong => True end) l /\
    forall i t m, l !! i = Some (t, m) ->
      t <= match i with O => t0 | S j => default t0 (fst <$> l !! j) end + readTimeout.
Proof.
  unfold Upgrade. destruct (checkOrigin _ req) eqn:Ec; [|done]. destruct (upgrade req) as [[]|]; [|done].
  intros [= <-]. split.
  { unfold checkOrigin in Ec. destruct (String.eqb_spec (hget (Header req) "Origin") "") as [|_]; [by left|]. right.
    apply existsb_exists in Ec as (x & Hx & He). apply in_map_iff in Hx as (o & <- & Ho). exists o. split; [done|].
    by apply String.eqb_eq in He. }
  assert (Hnone : forall l, fold_left (fun oc '(t, m) => c ← oc; Read t m c) l None = None).
  { induction l as [|[t m] l IH]; [done|]. simpl. apply IH. }
  assert (H : forall l t0 wd c', fold_left (fun oc '(t, m) => c ← oc; Read t m c) l
      (Some {| readLimit := maxMessageBytes; readDeadline := t0 + readTimeout; writeDeadline := wd; extendsOnPong := true |}) = Some c' ->
    Forall (fun e => match e.2 with Message size => size <= maxMessageBytes | Pong => True end) l /\
    forall i t m, l !! i = Some (t, m) -> t <= match i with O => t0 | S j => default t0 (fst <$> l !! j) end + readTimeout).
  { clear t0. induction l as [|[t m] l IH]; intros t0 wd c'; [by split|]. simpl. unfold Read at 2. cbn [readDeadline readLimit].
    destruct (Z.ltb_spec (t0 + readTimeout) t) as [Hlt|Hge]; [by rewrite Hnone|].
    assert (Hrest : fold_left (fun oc '(t, m) => c ← oc; Read t m c) l
        (Some {| readLimit := maxMessageBytes; readDeadline := t + readTimeout; writeDeadline := wd; extendsOnPong := true |}) = Some c' ->
      match m with Message size => size <= maxMessageBytes | Pong => True end ->
      Forall (fun e => match e.2 with Message size => size <= maxMessageBytes | Pong => True end) ((t, m) :: l) /\
      forall i t1 m1, ((t, m) :: l) !! i = Some (t1, m1) ->
        t1 <= match i with O => t0 | S j => default t0 (fst <$> ((t, m) :: l) !! j) end + readTimeout).
    { intros Hf Hm. destruct (IH _ _ _ Hf) as [H1 H2]. split; [by constructor|].
      intros [|i] t1 m1; simpl; [intros [= <- <-]; lia|]. intros Hl. specialize (H2 i t1 m1 Hl).
      destruct i as [|j]; simpl in H2 |- *; [done|]. destruct (l !! j) as [[t2 m2]|] eqn:Ej; [done|].
      apply lookup_lt_Some in Hl. apply lookup_ge_None in Ej. lia. }
    destruct m as [size|].
    - destruct (Z.ltb_spec maxMessageBytes size); [by rewrite Hnone|]. intros Hf. by apply Hrest.
    - cbn [extendsOnPong]. intros Hf. by apply Hrest. }
  intros l c' Hf. by eapply H.
Qed.
End WebSocket.

(** ** Witnesses *)

Definition demoLogger : OtelLogger := {| level := SeverityInfo; attrs := [String_ "svc" "api"] |}.
Definition demoCalls : list call :=
  [{| cLogger := demoLogger; cTime := 1; cSeverity := SeverityWarn; cMessage := "slow"; cAttrs := [Int "ms" 900] |};
   {| cLogger := demoLogger; cTime := 2; cSeverity := SeverityDebug; cMessage := "noise"; cAttrs := [] |}].
Definition demoLine : fileRecord :=
  {| frTimestamp := "1"; frSeverity := "13"; frBody := "slow";
     frAttributes := Some [("svc", GString "api"); ("ms", GInt64 900)]; frTraceID := ""; frSpanID := ""; frResource := [] |}.
Lemma file_log_complete_witness :
  fold_left (doCall Itoa Itoa (fun _ => None) (fun l => l) ("", "") []) demoCalls
    (Shutdown None (fold_left (doCall Itoa Itoa (fun _ => None) (fun l => l) ("", "") []) demoCalls
                      {| done := false; lines := [] |})).1 = {| done := true; lines := [demoLine] |}.
Proof. apply (file_log_complete Itoa Itoa (fun _ => None) (fun l => l) ("", "") [] demoCalls demoCalls {| done := false; lines := [] |} None eq_refl). Defined.

Definition demoUpgrade : Request :=
  {| Method := "GET"; ReqURL := None; Header := {["Origin" := ["https://APP.example"]]}; RemoteAddr := "";
     ContentLength := 0; ReqBody := None; RequestURI := "/"; ReqPattern := ""; PathValues := ∅; Ctx := [] |}.
Lemma hardened_connection_witness :
  match WebSocket.Upgrade (WebSocket.SetAllowedOrigins ["https://app.example"]) (fun _ => Ok tt) 0 demoUpgrade with
  | Ok c =>
      hget (Header demoUpgrade) "Origin" = "" \/
      exists o, In o ["https://app.example"] /\ ToLower o = ToLower (hget (Header demoUpgrade) "Origin")
  | Err _ => False
  end.
Proof.
  destruct (WebSocket.Upgrade _ _ _ _) as [c|e] eqn:E; [|vm_compute in E; discriminate E].
  apply (WebSocket.hardened_connection ["https://app.example"] (fun _ => Ok tt) 0 demoUpgrade c E).
Defined.
