(* ===== verification/Stack.v ===== *)
(** * Stacks of middlewares (src/api/middleware)

    The exported middlewares share an interface: each either answers itself
    with an error, or calls the next handler once, as its last action.  What
    holds of every chain of them follows from the interface alone. *)

From S2P Require Import Prelude GoStrings Http Requests IPAccess Headers Rules RateLimit Idempotency Jwt Auth Sanitize Redact LogLine Telemetry.

Open Scope string_scope.
Open Scope Z_scope.

(** ** The interface *)

Section Gates.
Context {W : Type}.

(** What a handler is called with. *)
Record state := { req : Request; wtr : Writer; world : W }.
Definition serve (h : handler W) (s : state) : W * Writer * exit := h (req s) (wtr s) (world s).

(** A request with a URL whose response has not begun. *)
Definition ready (s : state) : Prop := ReqURL (req s) <> None /\ WStatus (wtr s) = None.
(** The middleware hands over to whatever comes next, or answers with an error itself. *)
Definition passes (m : middleware W) (s s' : state) : Prop := forall next, serve (m next) s = serve next s'.
Definition rejects (m : middleware W) (s : state) : Prop :=
  exists w' wtr' status, (forall next, serve (m next) s = (w', wtr', Returned)) /\
    WStatus wtr' = Some status /\ 400 <= status < 600 /\ WInfo wtr' = WInfo (wtr s).

(** The scopes the handler will find. *)
Definition scopesOf (s : state) : list string := GetScopes (Ctx (req s)).

(** [grants s] are the scopes a middleware that is called with [s] may put into the context. *)
Class Gate (grants : state -> list string -> Prop) (m : middleware W) : Prop :=
  gate : forall s, ready s ->
    (exists s', passes m s s' /\ ready s' /\ (scopesOf s' = scopesOf s \/ grants s (scopesOf s')) /\
       WInfo (wtr s') = WInfo (wtr s)) \/
    rejects m s.

(** The states a request goes through in a chain. *)
Inductive through : list (middleware W) -> state -> state -> Prop :=
  | through_nil s : through [] s s
  | through_cons m ms s s1 s2 : passes m s s1 -> through ms s1 s2 -> through (m :: ms) s s2.

Lemma through_app a b s s' : through (a ++ b) s s' <-> exists s1, through a s s1 /\ through b s1 s'.
Proof.
  split.
  - revert s. induction a as [|m a IH]; intros s; simpl; [by exists s; split; [constructor|]|].
    intros H. inversion_clear H as [|? ? ? s1 ? Hm Ht]. destruct (IH _ Ht) as (s2 & H1 & H2).
    exists s2. split; [by econstructor|done].
  - intros (s1 & Ha & Hb). induction Ha as [|m ms s s2 s3 Hm Ht IH]; simpl; [done|]. econstructor; [done|by apply IH].
Qed.

Lemma through_serve ms s s' : through ms s s' -> forall f, serve (Chain f ms) s = serve f s'.
Proof. induction 1 as [|m ms s s1 s2 Hm Ht IH]; intros f; [done|]. by rewrite Chain_cons, Hm, IH. Qed.

Section Chains.
Variable grants : state -> list string -> Prop.

(** Where the scopes of a request that went through come from. *)
Definition provenance (ms : list (middleware W)) (s s' : state) : Prop :=
  scopesOf s' = scopesOf s \/
  exists a b s0, ms = (a ++ b)%list /\ through a s s0 /\ grants s0 (scopesOf s').
(** The answer does not depend on the handler, and is an error. *)
Definition refuses (ms : list (middleware W)) (s : state) : Prop :=
  exists w' wtr' status, (forall f, serve (Chain f ms) s = (w', wtr', Returned)) /\
    WStatus wtr' = Some status /\ 400 <= status < 600 /\ WInfo wtr' = WInfo (wtr s).

Lemma provenance_cons m ms s s1 s2 : passes m s s1 ->
  scopesOf s1 = scopesOf s \/ grants s (scopesOf s1) -> provenance ms s1 s2 -> provenance (m :: ms) s s2.
Proof.
  intros Hm Hg [E|(a & b & s0 & -> & Ht & Hs0)].
  - destruct Hg as [Hg|Hg]; [left; congruence|right]. exists [], (m :: ms), s. rewrite E. by split_and!; [|constructor|].
  - right. exists (m :: a), b, s0. by split_and!; [|econstructor|].
Qed.

Lemma chain_cases ms s : Forall (Gate grants) ms -> ready s ->
  (exists s', through ms s s' /\ ready s' /\ provenance ms s s' /\ WInfo (wtr s') = WInfo (wtr s)) \/ refuses ms s.
Proof.
  intros Hg. revert s. induction Hg as [|m ms Hm Hms IH]; intros s Hs.
  - left. exists s. split_and!; [constructor|apply Hs..|by left|done].
  - destruct (Hm s Hs) as [(s1 & Hp & Hs1 & Hg1 & Hi)|(w' & wtr' & st & Hr & Hst & Hb & Hi)].
    + destruct (IH s1 Hs1) as [(s2 & Ht & Hs2 & Hg2 & Hi2)|(w' & wtr' & st & Hr & Hst & Hb & Hi2)].
      * left. exists s2. split_and!; [by econstructor|apply Hs2..|by eapply provenance_cons|congruence].
      * right. exists w', wtr', st. split_and!; try done; [|lia..|congruence]. intros f. by rewrite Chain_cons, Hp.
    + right. exists w', wtr', st. split_and!; try done; [|lia..]. intros f. by rewrite Chain_cons.
Qed.

Lemma refuses_app a b s : refuses a s -> refuses (a ++ b)%list s.
Proof. intros (w' & wtr' & st & Hr & Hst). exists w', wtr', st. split; [|done]. intros f. by rewrite Chain_app. Qed.

Lemma through_refuses a b s s1 : through a s s1 -> WInfo (wtr s1) = WInfo (wtr s) ->
  refuses b s1 -> refuses (a ++ b)%list s.
Proof.
  intros Ht Hi (w' & wtr' & st & Hr & Hst & Hb & Hi1). exists w', wtr', st. split_and!; try done; [|lia..|congruence].
  intros f. by rewrite Chain_app, (through_serve _ _ _ Ht).
Qed.
(** Without what only the telemetry is interested in. *)
Lemma refuses_answer ms s : refuses ms s ->
  exists w' wtr' status, (forall f, serve (Chain f ms) s = (w', wtr', Returned)) /\
    WStatus wtr' = Some status /\ 400 <= status < 600.
Proof. intros (w' & wtr' & st & Hr & Hst & Hb & _). by exists w', wtr', st. Qed.
End Chains.

End Gates.
Arguments state : clear implicits.

Lemma WriteHeader_WInfo w st : informational st = false -> WInfo (WriteHeader w st) = WInfo w.
Proof. unfold WriteHeader. intros ->. by destruct (WStatus w). Qed.
Lemma SendError_WInfo t w r c o :
  informational (match o with [] => Status c | o :: _ => default (Status c) (ovStatus o) end) = false ->
  WInfo (SendError t w r c o) = WInfo w.
Proof.
  intros Hi. unfold SendError, Write. destruct o as [|o os]; cbn [WInfo];
    rewrite !WriteHeader_WInfo by done; done.
Qed.

(** Answering with an error of the given kind. *)
Lemma gate_reject {W} `{Clock W} (m : middleware W) (s : state W) c o r' w' x' :
  WStatus (wtr s) = None ->
  (forall next, serve (m next) s = reject c o r' x' w') -> WStatus x' = None -> WInfo x' = WInfo (wtr s) ->
  (let status := match o with [] => Status c | o :: _ => default (Status c) (ovStatus o) end in
   400 <= status < 600) -> rejects m s.
Proof.
  intros Hw Hm Hx Hi Hst. cbv zeta in Hst.
  set (st := match o with [] => Status c | o :: _ => default (Status c) (ovStatus o) end) in *.
  assert (Hf : informational st = false).
  { unfold informational. destruct (Z.leb_spec st 199); [lia|]. by rewrite andb_false_r. }
  exists w', (SendError (now w') x' r' c o), st. split_and!; try lia.
  - intros next. rewrite Hm. apply reject_run.
  - by apply SendError_status.
  - by rewrite SendError_WInfo.
Qed.

(** Handing over with a changed request, response or world. *)
Lemma gate_pass {W} (grants : state W -> list string -> Prop) (m : middleware W) (s : state W) r x v :
  (forall next, serve (m next) s = next r x v) -> ReqURL r <> None -> WStatus x = None -> WInfo x = WInfo (wtr s) ->
  (GetScopes (Ctx r) = scopesOf s \/ grants s (GetScopes (Ctx r))) ->
  (exists s', passes m s s' /\ ready s' /\ (scopesOf s' = scopesOf s \/ grants s (scopesOf s')) /\
     WInfo (wtr s') = WInfo (wtr s)) \/ rejects m s.
Proof. intros Hm Hr Hx Hi Hg. left. by exists {| req := r; wtr := x; world := v |}. Qed.

(** ** The exported middlewares (src/api/middleware/exports.go) *)

Section Exported.
Context {W S R : Type} `{Clock W, Verifier W, Random W, Fresh W, Lens (rlState R) W, Lens R W, Lens S W, Cache S}.
(** What the middlewares are configured with. *)
Variable e : Env.
Variable jwt : option (string -> result bool).
Variable validate : Z -> string -> result CustomClaims.
Variables (lists : Lists) (depth : Z) (maxBytes ttl : Z) (rules : ruleState).
Variable decodeBody : string -> option (gmap string jval).
Variables (range : iteration) (decodeJSON : string -> result json) (marshalJSON : json -> string).
Variables (unmarshal : string -> option any) (marshal : any -> option string).

(** Every exported middleware but the telemetry, which is outermost and has a model of its own. *)
Inductive Exported : middleware W -> Prop :=
  | X_AuthMiddleware : Exported (AuthMiddleware validate)
  | X_Middleware : Exported Auth.Middleware
  | X_ClientSource : Exported ClientSourceMiddleware
  | X_CORS : Exported CORSMiddleware
  | X_CSRF : Exported (CSRFMiddleware e jwt)
  | X_Idempotency : Exported (IdempotencyMiddleware (S := S) e jwt ttl)
  | X_IPAccess : Exported (IPAccessMiddleware lists depth)
  | X_MaxContentLength : Exported (MaxContentLengthMiddleware e maxBytes)
  | X_Normalization : Exported (NormalizationMiddleware range)
  | X_RateLimiter : Exported (RateLimiterMiddleware (R := R) e depth)
  | X_Redaction : Exported (RedactionMiddleware unmarshal marshal)
  | X_RequestID : Exported RequestIDMiddleware
  | X_RequireAnyScope scopes m : RequireAnyScope scopes = Some m -> Exported m
  | X_RequireServiceScope : Exported RequireServiceScope
  | X_Validation rejectUnmapped : Exported (ValidationMiddleware decodeBody e jwt rejectUnmapped rules)
  | X_Sanitization : Exported (SanitizationMiddleware range decodeJSON marshalJSON)
  | X_SecurityHeaders : Exported SecurityHeadersMiddleware.

(** The scopes of a token that the request carries and that verifies. *)
Definition granted (s : state W) (scopes : list string) : Prop :=
  exists tok, ExtractTokenFromRequest (req s) = Ok tok /\
    ((exists w' claims, Verify (world s) tok = (w', Ok claims) /\ scopes = cScopes claims) \/
     (exists claims, validate (now (world s)) tok = Ok claims /\ scopes = Scopes claims)).

Lemma GetScopes_legacyContext c ctx :
  GetScopes (legacyContext c ctx) = match Scopes c with [] => GetScopes ctx | l => l end.
Proof.
  unfold legacyContext, when, GetScopes, nonEmpty.
  destruct (Scopes c) as [|x l]; simpl; destruct (negb _), (negb _), (IsAdmin c); done.
Qed.

(** Rewriting a request leaves its scopes alone. *)
Definition keeps (r r' : Request) : Prop :=
  GetScopes (Ctx r') = GetScopes (Ctx r) /\ (ReqURL r <> None -> ReqURL r' <> None).

Lemma keeps_redact r : keeps r (redactRequest unmarshal marshal r).
Proof.
  unfold keeps, redactRequest. destruct (ReqURL r) eqn:Eu; repeat case_match; simpl; rewrite ?Eu; naive_solver.
Qed.

Lemma keeps_normalize r :
  keeps r (withMethod (normalizeQueryParams range (normalizeURL (normalizeHeaders r))) (ToUpper (Method r))).
Proof.
  unfold keeps, normalizeURL, normalizeQueryParams, normalizeHeaders. destruct (ReqURL r) as [u|] eqn:Eu; simpl; rewrite Eu; simpl;
    repeat case_match; simpl; naive_solver.
Qed.

Lemma keeps_rule r rule p : keeps r (IsRuleValid decodeBody e jwt r rule p).2.
Proof. unfold keeps, IsRuleValid, isValidBody. by repeat case_match. Qed.

Lemma keeps_body (decode : string -> result json) mar r b r' :
  sanitizeBody decode mar r b = inr r' -> keeps r r'.
Proof. unfold sanitizeBody. by destruct (BodyErr b), (decode (BodyBytes b)); intros [= <-]. Qed.

(** The middleware's run, its guards being decided by the equations at hand. *)
Ltac run_with :=
  intros next; unfold serve; cbn [req wtr world];
  unfold AuthMiddleware, Auth.Middleware, ClientSourceMiddleware, CORSMiddleware, CSRFMiddleware,
    IdempotencyMiddleware, IPAccessMiddleware, MaxContentLengthMiddleware, NormalizationMiddleware,
    RateLimiterMiddleware, RedactionMiddleware, RequestIDMiddleware, RequireServiceScope,
    ValidationMiddleware, SanitizationMiddleware, SecurityHeadersMiddleware; cbv zeta beta;
  repeat match goal with H : ?a = _ |- _ => progress (rewrite H; cbv iota beta zeta) end; reflexivity.
Ltac rejected := right; eapply gate_reject; [eassumption|run_with|simpl; done|simpl; done|simpl; lia].
Ltac passed := eapply gate_pass; [run_with|first [done|simpl; congruence]|done|done|by left].
Ltac start r x v Hu Hx := intros [r x v] [Hu Hx]; cbn [req wtr] in Hu, Hx.

(** The two that authenticate. *)
#[export] Instance gate_AuthMiddleware : Gate granted (AuthMiddleware validate).
Proof.
  start r x v Hu Hx. destruct (ExtractTokenFromRequest r) as [tok|err] eqn:Et; [|rejected].
  destruct (validate (now v) tok) as [claims|err] eqn:Ev; [|rejected].
  eapply gate_pass; [run_with|done|done|done|]. simpl. rewrite GetScopes_legacyContext.
  destruct (Scopes claims) eqn:El; [by left|]. right. exists tok. split; [done|]. right. exists claims. by rewrite El.
Qed.

#[export] Instance gate_Middleware : Gate granted Auth.Middleware.
Proof.
  start r x v Hu Hx. destruct (ExtractTokenFromRequest r) as [tok|err] eqn:Et; [|rejected].
  destruct (Verify v tok) as [w' [claims|err]] eqn:Ev; [|destruct (errors_is err ErrExpired) eqn:Ee; rejected].
  eapply gate_pass; [run_with|done|done|done|]. simpl. rewrite GetScopes_authContext.
  destruct (cScopes claims) eqn:El; [by left|]. right. exists tok. split; [done|]. left. exists w', claims. by rewrite El.
Qed.

(** The two that require a scope. *)
#[export] Instance gate_RequireServiceScope : Gate granted RequireServiceScope.
Proof.
  start r x v Hu Hx.
  destruct (existsb (fun s => HasPrefix s "svc:") (GetScopes (Ctx r))) eqn:E; [passed|rejected].
Qed.

Lemma gate_RequireAnyScope scopes m : RequireAnyScope scopes = Some m -> Gate granted m.
Proof.
  intros Hm. start r x v Hu Hx. destruct scopes as [|s scopes]; [done|]. apply (inj Some) in Hm as <-.
  destruct (existsb (fun have => existsb (String.eqb have) (s :: scopes)) (GetScopes (Ctx r))) eqn:E; [passed|rejected].
Qed.

(** The ones that keep state. *)
#[export] Instance gate_CSRF : Gate granted (CSRFMiddleware e jwt).
Proof.
  start r x v Hu Hx. pose proof (ensureToken_status x r v) as Hst. pose proof (ensureToken_info x r v) as Hin.
  destruct (ensureToken x r v) as [[x' v'] [tok|err]] eqn:Et; rewrite Hx in Hst; [|rejected].
  destruct (stateChanging (Method r) && isAPIClient (Ctx r)) eqn:E1; [passed|].
  destruct (stateChanging (Method r) && negb (headerValid e jwt HEADER_X_CSRF_TOKEN r)) eqn:E2; [rejected|passed].
Qed.

#[export] Instance gate_Idempotency : Gate granted (IdempotencyMiddleware (S := S) e jwt ttl).
Proof.
  start r x v Hu Hx. destruct (safeMethod (Method r)) eqn:E1; [passed|].
  destruct (isAPIClient (Ctx r)) eqn:E2; [passed|].
  destruct (headerValid e jwt HEADER_IDEMPOTENCY r) eqn:E3; [|rejected].
  destruct (CheckAndSet (now v) ttl (hget (Header r) "Idempotency-Key") (view v)) as [s [[]|err]] eqn:E4;
    [passed|rejected|rejected].
Qed.

#[export] Instance gate_RateLimiter : Gate granted (RateLimiterMiddleware (R := R) e depth).
Proof.
  start r x v Hu Hx. destruct (Allow (R := R) e (now v) (GetClientKey depth r) (view v) (view v)) as [[s redis] [[[] wait]|err]] eqn:E1.
  - passed.
  - destruct (0 <? wait) eqn:E2; rejected.
  - destruct (ShouldFailOpen (R := R) e (view (over redis (over s v)))) as [s' []] eqn:E2; [passed|rejected].
Qed.

(** The ones that look at the request or rewrite it. *)
#[export] Instance gate_RequestID : Gate granted RequestIDMiddleware.
Proof.
  start r x v Hu Hx.
  destruct (if negb (String.eqb (hget (Header r) "X-Request-ID") "") then (hget (Header r) "X-Request-ID", v)
            else if negb (String.eqb (stringValue (Ctx r) REQUEST_ID_KEY) "") then (stringValue (Ctx r) REQUEST_ID_KEY, v)
            else freshID v) as [id v'] eqn:E1.
  destruct (negb (String.eqb (hget (Header (withHeader r (hset (Header r) "X-Request-ID" id))) "X-Correlation-ID") "")) eqn:E2;
    passed.
Qed.

#[export] Instance gate_IPAccess : Gate granted (IPAccessMiddleware lists depth).
Proof.
  start r x v Hu Hx. destruct (String.eqb (GetClientKey depth r) "") eqn:E1; [rejected|].
  destruct (clientIP (GetClientKey depth r)) as [ip|] eqn:E2; [|rejected].
  destruct (Evaluate ip (Some lists)) eqn:E3; [passed|rejected].
Qed.

#[export] Instance gate_MaxContentLength : Gate granted (MaxContentLengthMiddleware e maxBytes).
Proof. start r x v Hu Hx. destruct (contentLimit e maxBytes <? ContentLength r) eqn:E; [rejected|passed]. Qed.

#[export] Instance gate_Validation rejectUnmapped :
  Gate granted (ValidationMiddleware decodeBody e jwt rejectUnmapped rules).
Proof.
  start r x v Hu Hx. destruct (ReqURL r) as [u|] eqn:Eu; [|done].
  destruct (GetRule rules (Path u) (Method r)) as [[rule p]|] eqn:E1.
  - destruct (keeps_rule r rule p) as [K1 K2]. rewrite Eu in K2.
    destruct (IsRuleValid decodeBody e jwt r rule p) as [[] r'] eqn:E2; cbn [snd] in K1, K2; [|rejected].
    eapply gate_pass; [run_with|by apply K2|done|done|by left].
  - destruct rejectUnmapped eqn:E2; [rejected|]. eapply gate_pass; [run_with|by simpl; rewrite Eu|done|done|by left].
Qed.

#[export] Instance gate_Sanitization : Gate granted (SanitizationMiddleware range decodeJSON marshalJSON).
Proof.
  start r x v Hu Hx. destruct (ReqURL (sanitizePathParams (sanitizeHeaders r))) as [u|] eqn:Eu; [|done].
  remember (sanitizeQueryParams range (sanitizePathParams (sanitizeHeaders r)) u) as r1 eqn:Er; symmetry in Er.
  assert (Kr : ReqURL r1 <> None /\ GetScopes (Ctx r1) = GetScopes (Ctx r)) by by rewrite <- Er.
  destruct (ReqBody r1) as [b|] eqn:Eb; [|eapply gate_pass; [run_with|apply Kr|done|done|left; apply Kr]].
  destruct (String.eqb (hget (Header r1) "Content-Type") "application/json") eqn:Ec;
    [|eapply gate_pass; [run_with|apply Kr|done|done|left; apply Kr]].
  destruct (sanitizeBody decodeJSON marshalJSON r1 b) as [detail|r'] eqn:Es; [rejected|].
  destruct (keeps_body _ _ _ _ _ Es) as [K1 K2].
  eapply gate_pass; [run_with|by apply K2, Kr|done|done|left; exact (eq_trans K1 (proj2 Kr))].
Qed.

Lemma exported_gate m : Exported m -> Gate granted m.
Proof.
  destruct 1; try apply _; [..|by eapply gate_RequireAnyScope|]; start r x v Hu Hx.
  - passed.
  - passed.
  - destruct (keeps_normalize r) as [K1 K2]. eapply gate_pass; [run_with|by apply K2|done|done|by left].
  - destruct (keeps_redact r) as [K1 K2]. eapply gate_pass; [run_with|by apply K2|done|done|by left].
  - passed.
Qed.

(** A request only goes past [RequireServiceScope] with a service scope. *)
Lemma passes_service_scope (s s' : state W) :
  passes RequireServiceScope s s' -> exists sc, In sc (scopesOf s) /\ HasPrefix sc "svc:" = true.
Proof.
  intros Hp. destruct (existsb (fun x => HasPrefix x "svc:") (scopesOf s)) eqn:E.
  - by apply existsb_exists in E.
  - specialize (Hp (fun r x v => (v, x, Panicked ""))). unfold serve, RequireServiceScope in Hp.
    unfold scopesOf in E. by rewrite E in Hp.
Qed.

Lemma exported_gates ms : Forall Exported ms -> Forall (Gate granted) ms.
Proof. intros Hms. eapply Forall_impl; [exact Hms|apply exported_gate]. Qed.

(** (C9) Any chain of the exported middlewares but the telemetry, in any order and with any settings,
    fails closed: a request that has a URL and no response yet either reaches
    the handler exactly once, with nothing sent, or is answered with one 4xx or
    5xx status that does not depend on the handler; the chain itself never panics. *)
Theorem exported_chain_fails_closed (ms : list (middleware W)) (s : state W)
    (Hms : Forall Exported ms) (Hs : ready s) :
  (exists s', (forall f, serve (Chain f ms) s = serve f s') /\ ready s') \/
  (exists w' wtr' status, (forall f, serve (Chain f ms) s = (w', wtr', Returned)) /\
     WStatus wtr' = Some status /\ 400 <= status < 600).
Proof.
  destruct (chain_cases _ ms s (exported_gates ms Hms) Hs) as [(s' & Ht & Hr & _)|Hr]; [left|right; by apply refuses_answer].
  exists s'. split; [by apply through_serve|done].
Qed.

(** (C8) In any chain of the exported middlewares but the telemetry, a
    handler behind [RequireServiceScope] runs for a request without scopes only
    if a middleware before it was reached by a request with a token that
    verifies and carries a service scope; otherwise the answer is an error
    independent of the handler. *)
Theorem scope_gate_sound (ms1 ms2 : list (middleware W)) (s : state W)
    (Hpre : Forall Exported ms1) (Hpost : Forall Exported ms2) (Hs : ready s) (Hn : GetScopes (Ctx (req s)) = []) :
  (exists s', (forall f, serve (Chain f (ms1 ++ RequireServiceScope :: ms2)%list) s = serve f s') /\
     exists a b s0 scopes sc, ms1 = (a ++ b)%list /\ (forall f, serve (Chain f a) s = serve f s0) /\
       granted s0 scopes /\ In sc scopes /\ HasPrefix sc "svc:" = true) \/
  (exists w' wtr' status,
     (forall f, serve (Chain f (ms1 ++ RequireServiceScope :: ms2)%list) s = (w', wtr', Returned)) /\
     WStatus wtr' = Some status /\ 400 <= status < 600).
Proof.
  destruct (chain_cases _ ms1 s (exported_gates _ Hpre) Hs) as [(s1 & Ht & Hr & Hp & Hi)|Hr];
    [|right; by apply refuses_answer, refuses_app].
  destruct (gate_RequireServiceScope s1 Hr) as [(s2 & Hg & Hr2 & _ & Hi2)|(w' & wtr' & st & Hj & Hst)].
  2: { right. apply refuses_answer. eapply through_refuses; [exact Ht|done|]. exists w', wtr', st. split; [|done].
       intros f. by rewrite Chain_cons. }
  destruct (chain_cases _ ms2 s2 (exported_gates _ Hpost) Hr2) as [(s3 & Ht3 & _)|Hj].
  2: { right. apply refuses_answer. eapply through_refuses; [exact Ht|done|].
       apply (through_refuses [RequireServiceScope] _ _ s2); [by econstructor; [|constructor]|done|done]. }
  left. exists s3. split.
  { apply through_serve, through_app. exists s1. split; [done|]. by econstructor. }
  destruct (passes_service_scope _ _ Hg) as (sc & Hin & Hsc). destruct Hp as [E|(a & b & s0 & -> & Ha & Hgr)].
  - unfold scopesOf in E, Hin. by rewrite E, Hn in Hin.
  - exists a, b, s0, (scopesOf s1), sc. split_and!; [done|by apply through_serve|done..].
Qed.

(** *** The telemetry around a chain *)

Context `{LogSink W}.
Variables (Proto Host : Request -> string) (formatTime : Z -> string).

(** What the telemetry wraps does to its writer what the handler does, in steps. *)
Definition realises (n : inner W) (h : handler W) (s : state W) : Prop :=
  let '(v, actions, ex) := n (req s) (wtr s) (world s) in
  serve h s = (v, Under (perform (wrapWriter (wtr s)) actions), ex) /\ Forall action_valid actions.
(** The first status it asks for. *)
Definition opening (n : inner W) (s : state W) : Z := firstStatus (n (req s) (wtr s) (world s)).1.2.

Definition logged (status : Z) (v w' : W) : Prop :=
  exists attrs, In ("status", VInt status) attrs /\
    w' = if 400 <=? status then logError "request failed" (Errorf ("status " +:+ Itoa status)) attrs v
         else logInfo "request completed" attrs v.

(** (C11) The whole server side.  Around any chain of the exported middlewares the telemetry
    never lets a panic out and logs one record.  A request the chain refuses is logged as
    failed, with the 4xx or 5xx status of the answer.  When a request reaches the handler
    and it returns, the record has the status of the response, unless the handler began
    with an informational status: then it has that one, whatever the client got in the
    end.  When the handler panics the record says so and has no status; the client gets
    a 500 unless the handler had begun an answer, but nothing at all after an
    informational status. *)
Theorem full_stack_observed (ms : list (middleware W)) (s : state W) (f : handler W) (n : inner W)
    (Hms : Forall Exported ms) (Hs : ready s) (Hn : realises n (Chain f ms) s) :
  exists w' wtr', TelemetryMiddleware Proto Host formatTime n (req s) (wtr s) (world s) = (w', wtr', Returned) /\
  ((exists v status, (forall g, serve (Chain g ms) s = (v, wtr', Returned)) /\
      WStatus wtr' = Some status /\ 400 <= status < 600 /\ logged status v w') \/
   (exists s', (forall g, serve (Chain g ms) s = serve g s') /\ ready s' /\
      match serve f s' with
      | (v, x, Returned) =>
          wtr' = x /\
          logged (if informational (opening n s) then opening n s else default 200 (WStatus x)) v w'
      | (v, x, Panicked msg) =>
          w' = logError "telemetry panicked!" (Errorf ("telemetry panicked: " +:+ msg)) [] v /\
          if informational (opening n s) then wtr' = x
          else WStatus wtr' = Some (default 500 (WStatus x)) /\ (WStatus x <> None -> wtr' = x)
      end)).
Proof.
  unfold realises in Hn. unfold opening. destruct (n (req s) (wtr s) (world s)) as [[v acts] ex] eqn:En.
  destruct Hn as [Hn Hf]. cbn [fst snd].
  pose proof Hs as [Hu Hw]. destruct (ReqURL (req s)) as [u|] eqn:Eu; [|done].
  destruct (chain_cases _ ms s (exported_gates ms Hms) Hs) as [(s' & Ht & Hr & _)|(v' & x' & st & Hr & Hst & Hb & Hi)].
  - pose proof (through_serve _ _ _ Ht f) as E. rewrite Hn in E. destruct ex as [|msg].
    + destruct (telemetry_returns Proto Host formatTime n _ _ _ _ _ _ Eu Hw En Hf) as (attrs & Ha & _ & Et).
      do 2 eexists. split; [exact Et|]. right. exists s'. rewrite <- E. split_and!; [by apply through_serve|done..|].
      by exists attrs.
    + destruct (telemetry_panics Proto Host formatTime n _ _ _ _ _ _ Hw En Hf) as (x & Et & Hx).
      do 2 eexists. split; [exact Et|]. right. exists s'. rewrite <- E. by split_and!; [apply through_serve|..].
  - pose proof (Hr f) as E. rewrite Hn in E. injection E as -> <- ->.
    destruct (telemetry_returns Proto Host formatTime n _ _ _ _ _ _ Eu Hw En Hf) as (attrs & Ha & _ & Et).
    do 2 eexists. split; [exact Et|]. left. exists v', st. do 3 (split; [done|]). exists attrs.
    assert (Hsh : shownStatus acts (Under (perform (wrapWriter (wtr s)) acts)) = st).
    { unfold shownStatus. rewrite Hst. destruct (perform_sent acts (wrapWriter (wtr s)) Hw eq_refl Hf) as [(-> & ? & _)|[(_ & -> & _)|(_ & _ & Hne)]];
        [done|done|by destruct Hne]. }
    by rewrite Hsh in *.
Qed.
End Exported.

(** ** Witnesses *)

Record stackWorld := { dTime : Z; dLimiter : rlState unit; dCache : localCache; dLog : list string }.
#[local] Program Instance demo_server : Lens unit stackWorld := {| view _ := tt; over _ w := w |}.
Solve Obligations with (by intros; repeat match goal with u : unit |- _ => destruct u end).
#[local] Program Instance demo_limiter : Lens (rlState unit) stackWorld :=
  {| view := dLimiter; over := fun s w => {| dTime := dTime w; dLimiter := s; dCache := dCache w; dLog := dLog w |} |}.
Solve Obligations with (by intros; repeat match goal with w : stackWorld |- _ => destruct w end).
#[local] Program Instance demo_store : Lens localCache stackWorld :=
  {| view := dCache; over := fun s w => {| dTime := dTime w; dLimiter := dLimiter w; dCache := s; dLog := dLog w |} |}.
Solve Obligations with (by intros; repeat match goal with w : stackWorld |- _ => destruct w end).
Definition addLog (m : string) (w : stackWorld) : stackWorld :=
  {| dTime := dTime w; dLimiter := dLimiter w; dCache := dCache w; dLog := (dLog w ++ [m])%list |}.
#[local] Instance demo_sink : LogSink stackWorld := {
  logError m _ _ w := addLog m w; logInfo m _ w := addLog m w
}.
#[local] Instance demo_clock : Clock stackWorld := dTime.
#[local] Instance demo_random : Random stackWorld := fun _ w => (Ok "abcd", w).
#[local] Instance demo_fresh : Fresh stackWorld := fun w => ("req-1", w).
#[local] Instance demo_tokens : Verifier stackWorld := fun w tok => (w, snd (Verify (W := Z) 0 tok)).

Definition demo_state (token : string) : state stackWorld :=
  {| req := with_auth token; wtr := newWriter;
     world := {| dTime := 7; dLimiter := initial; dCache := ∅; dLog := [] |} |}.
Definition demo_handler : handler stackWorld := fun req wtr w => (w, Write wtr (ChText "ok"), Returned).
Definition demo_lists : Lists := {| WhitelistIPs := []; WhitelistNets := []; BlacklistIPs := []; BlacklistNets := [] |}.
Definition demo_pre : list (middleware stackWorld) :=
  [RequestIDMiddleware; SecurityHeadersMiddleware; IPAccessMiddleware demo_lists 0; Auth.Middleware].
Definition demo_post : list (middleware stackWorld) := [MaxContentLengthMiddleware (fun _ => "") 1024].
Abbreviation demo_exported := (Exported (W := stackWorld) (S := localCache) (R := unit) (fun _ => "") None
  (fun _ _ => Err (Errorf "no legacy client")) demo_lists 0 1024 1000 unloaded (fun _ => None)
  (fun _ => []) (fun _ => Err (Errorf "no json")) (fun _ => "") (fun _ => None) (fun _ => None)).

Lemma demo_pre_exported : Forall demo_exported demo_pre.
Proof. repeat apply Forall_cons_2; constructor. Qed.
Lemma demo_post_exported : Forall demo_exported demo_post.
Proof. repeat apply Forall_cons_2; constructor. Qed.

Lemma demo_ready token : ready (demo_state token).
Proof. by split. Qed.

Lemma exported_chain_fails_closed_witness :
  WStatus (serve (Chain demo_handler demo_pre) (demo_state "Bearer bad")).1.2 = Some 401.
Proof.
  destruct (exported_chain_fails_closed (W := stackWorld) (S := localCache) (R := unit) (fun _ => "") None
    (fun _ _ => Err (Errorf "no legacy client")) demo_lists 0 1024 1000 unloaded (fun _ => None)
    (fun _ => []) (fun _ => Err (Errorf "no json")) (fun _ => "") (fun _ => None) (fun _ => None)
    demo_pre (demo_state "Bearer bad")
    demo_pre_exported (demo_ready _)) as [(s' & E & _)|(w' & x' & st & E & _)].
  - specialize (E (fun r x w => (w, x, Panicked ""))). vm_compute in E. discriminate E.
  - vm_compute. reflexivity.
Defined.

Lemma scope_gate_sound_witness :
  WStatus (serve (Chain demo_handler (demo_pre ++ RequireServiceScope :: demo_post)%list)
    (demo_state "Bearer good")).1.2 = Some 200.
Proof.
  destruct (scope_gate_sound (W := stackWorld) (S := localCache) (R := unit) (fun _ => "") None
    (fun _ _ => Err (Errorf "no legacy client")) demo_lists 0 1024 1000 unloaded (fun _ => None)
    (fun _ => []) (fun _ => Err (Errorf "no json")) (fun _ => "") (fun _ => None) (fun _ => None)
    demo_pre demo_post (demo_state "Bearer good")
    demo_pre_exported demo_post_exported (demo_ready _) eq_refl)
    as [(s' & E & _)|(w' & x' & st & E & _)].
  - vm_compute. reflexivity.
  - specialize (E (fun r x w => (w, x, Panicked ""))). vm_compute in E. discriminate E.
Defined.

(** What the scope guard does to the writer of a request without scopes. *)
Definition demo_refused : inner stackWorld := fun r x w =>
  (w, [ASetHeader "Content-Type" "application/json"; AOp (OpWriteHeader 403);
       AOp (OpWrite (ChErr {| erStatus := 403; erMessage := "Insufficient scope"; erCode := "20012"; erDetail := "";
                              erRequestId := "unknown"; erTimestamp := 7 |}) 1)], Returned).
Definition demo_observed : stackWorld * Writer * exit :=
  TelemetryMiddleware (fun _ => "") (fun _ => "") Itoa demo_refused (req (demo_state "Bearer bad"))
    (wtr (demo_state "Bearer bad")) (world (demo_state "Bearer bad")).

Lemma demo_realises : realises demo_refused (Chain demo_handler [RequireServiceScope]) (demo_state "Bearer bad").
Proof. split; [vm_compute; reflexivity|]. repeat apply Forall_cons_2; by vm_compute. Qed.

Lemma demo_gate_exported : Forall demo_exported [RequireServiceScope].
Proof. repeat apply Forall_cons_2; constructor. Qed.

(** A request the scope guard refuses, and a handler that answers 200 after early hints. *)
Definition demo_hinting : inner stackWorld := fun r x w => (w, [AOp (OpWriteHeader 103); AOp (OpWriteHeader 200)], Returned).
Definition demo_hinted : handler stackWorld := fun r x w => (w, WriteHeader (WriteHeader x 103) 200, Returned).
Lemma demo_hints_realised : realises demo_hinting (Chain demo_hinted []) (demo_state "Bearer bad").
Proof. split; [vm_compute; reflexivity|]. repeat apply Forall_cons_2; by vm_compute. Qed.
Definition demo_hinted_run : stackWorld * Writer * exit :=
  TelemetryMiddleware (fun _ => "") (fun _ => "") Itoa demo_hinting (req (demo_state "Bearer bad"))
    (wtr (demo_state "Bearer bad")) (world (demo_state "Bearer bad")).
Lemma full_stack_observed_witness :
  (exists w' wtr', demo_observed = (w', wtr', Returned) /\ dLog w' = ["request failed"] /\ WStatus wtr' = Some 403) /\
  (exists w' wtr', demo_hinted_run = (w', wtr', Returned) /\ WStatus wtr' = Some 200).
Proof.
  split.
  - destruct (full_stack_observed (W := stackWorld) (S := localCache) (R := unit) (fun _ => "") None
      (fun _ _ => Err (Errorf "no legacy client")) demo_lists 0 1024 1000 unloaded (fun _ => None)
      (fun _ => []) (fun _ => Err (Errorf "no json")) (fun _ => "") (fun _ => None) (fun _ => None)
      (fun _ => "") (fun _ => "") Itoa [RequireServiceScope] (demo_state "Bearer bad") demo_handler demo_refused
      demo_gate_exported (demo_ready _) demo_realises) as (w' & wtr' & E & _).
    exists w', wtr'. split; [exact E|]. vm_compute in E. injection E as <- <-. split; reflexivity.
  - destruct (full_stack_observed (W := stackWorld) (S := localCache) (R := unit) (fun _ => "") None
      (fun _ _ => Err (Errorf "no legacy client")) demo_lists 0 1024 1000 unloaded (fun _ => None)
      (fun _ => []) (fun _ => Err (Errorf "no json")) (fun _ => "") (fun _ => None) (fun _ => None)
      (fun _ => "") (fun _ => "") Itoa [] (demo_state "Bearer bad") demo_hinted demo_hinting
      (Forall_nil_2 _) (demo_ready _) demo_hints_realised) as (w' & wtr' & E & _).
    exists w', wtr'. split; [exact E|]. vm_compute in E. injection E as <- <-. reflexivity.
Defined.
