(* ===== verification/Outbound.v ===== *)
(** * Outgoing requests end to end (src/http/client)

    The parts of the client put together over one world: [Client.Do] with its
    retry loop and breaker, net/http's redirects, and the transport of
    [WithServiceAuth] with its token source.  [HttpClient] and [ServiceAuth]
    model the parts against what the environment answers; here the answers come
    from the next layer, down to a base transport and a token endpoint that may
    do anything to the world, which is how other goroutines interfere. *)

From S2P Require Import Prelude GoStrings Http Breaker HttpClient ServiceAuth.

Open Scope string_scope.
Open Scope Z_scope.

(** ** Requests and transports *)

(** [oHost] is the host of the URL, [oGetBody] the [GetBody] function by its result. *)
Record OutReq := { oHost : string; oReq : Request; oGetBody : option (result string) }.
Record OutResp := { oAnswer : CResponse; oRespHeader : headers }.
Definition RoundTripper (W : Type) : Type := OutReq -> W -> W * result OutResp.

Definition bodyText (r : Request) : string := match ReqBody r with Some b => BodyBytes b | None => "" end.
(** The request and the response as [HttpClient] sees them. *)
Definition seen (r : OutReq) : CRequest :=
  {| cHost := oHost r; cBody := bodyText (oReq r); cGetBody := oGetBody r |}.
Definition verdict (r : result OutResp) : outcome := rmap oAnswer r.

Definition freshBody (b : string) : option Body := Some {| BodyBytes := b; BodyErr := None |}.
Definition withRequest (r : OutReq) (q : Request) : OutReq :=
  {| oHost := oHost r; oReq := q; oGetBody := oGetBody r |}.

(** ** Redirects: [http.Client.Do] with the default policy *)

Section Redirects.
Context {W : Type}.
(** Resolving a Location against a URL, and the headers net/http copies to the
    redirected request: not those with credentials when the domain changes. *)
Variable resolve : string * URL -> string -> result (string * URL).
Variable carry : OutReq -> string -> headers.

(** [Request.outgoingLength]: -1 when unknown. *)
Definition outgoingLength (r : Request) : Z :=
  match ReqBody r with
  | None => 0
  | Some _ => if ContentLength r =? 0 then -1 else ContentLength r
  end.
(** The method of the next request, and whether it keeps the body. *)
Definition redirectBehavior (method : string) (status : Z) (ireq : OutReq) : option (string * bool) :=
  if existsb (Z.eqb status) [301; 302; 303] then
    Some (if String.eqb method "GET" || String.eqb method "HEAD" then method else "GET", false)
  else if existsb (Z.eqb status) [307; 308] then
    match oGetBody ireq with
    | None => if outgoingLength (oReq ireq) =? 0 then Some (method, true) else None
    | Some _ => Some (method, true)
    end
  else None.

Definition redirected (ireq : OutReq) (host : string) (u : URL) (method : string) (body : option Body)
    (keep : bool) : OutReq :=
  {| oHost := host;
     oReq := {| Http.Method := method; ReqURL := Some u; Header := carry ireq host; RemoteAddr := "";
                ContentLength := if keep then ContentLength (oReq ireq) else 0; ReqBody := body;
                RequestURI := ""; ReqPattern := ""; PathValues := ∅; Ctx := Ctx (oReq ireq) |};
     oGetBody := if keep then oGetBody ireq else None |}.
(** [None]: the response is handed to the caller. *)
Definition nextHop (ireq req : OutReq) (resp : OutResp) : option (result OutReq) :=
  match redirectBehavior (Http.Method (oReq req)) (StatusCode (oAnswer resp)) ireq with
  | None => None
  | Some (method, includeBody) =>
      let loc := hget (oRespHeader resp) "Location" in
      if String.eqb loc "" then None else
      match resolve (oHost req, default {| Path := ""; RawQuery := "" |} (ReqURL (oReq req))) loc with
      | Err _ => Some (Err (Errorf ("failed to parse Location header " +:+ loc)))
      | Ok (host, u) =>
          match (if includeBody then oGetBody ireq else None) with
          | Some (Err e) => Some (Err e)
          | Some (Ok b) => Some (Ok (redirected ireq host u method (freshBody b) true))
          | None => Some (Ok (redirected ireq host u method None false))
          end
      end
  end.

(** [url.Error]. *)
Definition uerr (req : OutReq) (e : error) : error := Wrap (Http.Method (oReq req) +:+ " " +:+ oHost req) e.

(** The policy of the zero [CheckRedirect]: at most 10 requests. *)
Definition maxHops : nat := 10.
Fixpoint follow (rt : RoundTripper W) (fuel : nat) (ireq req : OutReq) (w : W) : W * result OutResp :=
  match fuel with
  | O => (w, Err (uerr req (Errorf "stopped after 10 redirects")))
  | S fuel =>
      match rt req w with
      | (w, Err e) => (w, Err (uerr req e))
      | (w, Ok resp) =>
          match nextHop ireq req resp with
          | None => (w, Ok resp)
          | Some (Err e) => (w, Err (uerr req e))
          | Some (Ok next) => follow rt fuel ireq next w
          end
      end
  end.
Lemma follow_step rt fuel ireq req w :
  follow rt (S fuel) ireq req w =
  match rt req w with
  | (w, Err e) => (w, Err (uerr req e))
  | (w, Ok resp) =>
      match nextHop ireq req resp with
      | None => (w, Ok resp)
      | Some (Err e) => (w, Err (uerr req e))
      | Some (Ok next) => follow rt fuel ireq next w
      end
  end.
Proof. reflexivity. Qed.

Definition httpDo (rt : RoundTripper W) (req : OutReq) (w : W) : W * result OutResp :=
  follow rt maxHops req req w.
End Redirects.

(** ** The authenticating transport *)

Section Tokens.
Context {W : Type} `{Clock W, Lens tokenState W}.
Variable decode : string -> result tokenResponse.
Variable cfg : ServiceAuthConfig.
(** Why the token request cannot be built, if it cannot. *)
Variable urlErr : option error.
Variable endpoint : string -> W -> W * outcome.
(** Waiting to enter the singleflight section. *)
Variable enter : W -> W.

(** [Token] of a caller that runs the function of the flight itself. *)
Definition TokenIn (w : W) : W * result string :=
  if cached (view w) (now w) then (w, Ok (token (view w))) else
  let w := enter w in
  if cached (view w) (now w) then (w, Ok (token (view w))) else
  match urlErr with
  | Some e => (w, Err (Wrap "service auth: build token request" e))
  | None =>
      let '(w, o) := endpoint (tokenForm cfg) w in
      let '(s, r) := fetch decode cfg (view w) None (fun _ => o) (now w) in
      (over s w, r)
  end.

(** [authTransport.RoundTrip]. *)
Definition authRoundTrip (base : RoundTripper W) : RoundTripper W := fun req w =>
  let '(w, tok) := TokenIn w in
  match RoundTrip (oReq req) tok with
  | Err e => (w, Err e)
  | Ok q => base (withRequest req q) w
  end.
(** A nil base is [DefaultTransport]. *)
Definition WithServiceAuth (DefaultTransport : RoundTripper W) (base : option (RoundTripper W)) : RoundTripper W :=
  authRoundTrip (default DefaultTransport base).
End Tokens.

(** ** The client over a transport *)

Section Client.
Context {W : Type} `{Clock W}.
(** [http.Client.Do] of the client's transport. *)
Variable send : OutReq -> W -> W * result OutResp.
(** The wait between attempts: [time.After] against the context. *)
Variable sleep : Z -> W -> W * option error.

(** [Client.do]; [tb] is the breaker's table as this goroutine sees it. *)
Definition attempt (c : Client) (tb : table) (req : OutReq) (w : W) : W * table * bool * result OutResp :=
  let '(w', o) := send req w in
  let '(tb, called, r) := do_attempt c tb (seen req) (now w) (now w') (verdict o) in
  (if called then w' else w, tb, called, match r with Err e => Err e | Ok _ => o end).

Definition replay (req : OutReq) : result OutReq :=
  match oGetBody req with
  | Some (Ok b) =>
      Ok (withRequest req (withBody (oReq req) (freshBody b) (ContentLength (oReq req))))
  | Some (Err e) => Err e
  | None => Ok req
  end.
Definition spentBody (req : OutReq) : OutReq :=
  withRequest req (withBody (oReq req) ((fun _ => {| BodyBytes := ""; BodyErr := None |}) <$> ReqBody (oReq req))
    (ContentLength (oReq req))).

Fixpoint retryIn (fuel : nat) (c : Client) (cfg : retrySettings) (n delay : Z) (tb : table) (req : OutReq)
    (w : W) : W * (list event * result OutResp) :=
  match fuel with
  | O => (w, ([], Err (Errorf "no attempt")))
  | S fuel =>
      match (if 1 <? n then replay req else Ok req) with
      | Err e => (w, ([], Err e))
      | Ok attemptReq =>
          let '(w, tb, called, r) := attempt c tb attemptReq w in
          let ev := if called : bool then EvSend (bodyText (oReq attemptReq)) else EvRefused in
          let req := if called then spentBody req else req in
          if isErrOpen (verdict r) || (n =? maxAttempts cfg) || negb (shouldRetry cfg (verdict r))
          then (w, ([ev], r))
          else
            let '(w, done) := sleep delay w in
            match done with
            | Some e => (w, ([ev; EvWait delay], Err e))
            | None =>
                let '(w, (evs, res)) := retryIn fuel c cfg (n + 1) (Z.min (wrap64 (delay * 2)) (maxDelay cfg)) tb req w in
                (w, (ev :: EvWait delay :: evs, res))
            end
      end
  end.

(** [Client.Do], with the events [HttpClient.Do] lists. *)
Definition DoIn (c : Client) (tb : table) (req : OutReq) (w : W) : W * (list event * result OutResp) :=
  match retry c with
  | Some cfg => retryIn (Z.to_nat (maxAttempts cfg)) c cfg 1 (baseDelay cfg) tb req w
  | None =>
      let '(w, _, called, r) := attempt c tb req w in
      (w, ([if called : bool then EvSend (bodyText (oReq req)) else EvRefused], r))
  end.

(** ** The client is the one of [HttpClient] *)

Lemma seen_replay req : rmap seen (replay req) = cloneRequest (seen req).
Proof. unfold replay, cloneRequest. by destruct req as [h q [[b|e]|]]. Qed.

Lemma seen_spentBody req : seen (spentBody req) = drained (seen req).
Proof. destruct req as [h q g]. unfold seen, drained, bodyText. simpl. by destruct (ReqBody q). Qed.

(** An attempt is one of [HttpClient], at the times the world shows. *)
Lemma attempt_seen c tb req w :
  let '(w', tb', called, r) := attempt c tb req w in
  exists t1 t2 o, do_attempt c tb (seen req) t1 t2 o = (tb', called, verdict r).
Proof.
  unfold attempt. destruct (send req w) as [w2 o].
  destruct (do_attempt c tb (seen req) (now w) (now w2) (verdict o)) as [[tb1 b] r1] eqn:E.
  exists (now w), (now w2), (verdict o). rewrite E. f_equal. revert E. unfold do_attempt.
  destruct (breakerCfg c) as [bc|]; [|intros [= _ _ <-]; by destruct o].
  destruct (tableFor bc tb _) as [[s tb2]|]; [|intros [= _ _ <-]; by destruct o].
  destruct (execute _ _ _ _ _) as [[s' cl] be]. case_bool_decide; intros [= _ _ <-]; by destruct o.
Qed.

Lemma retryIn_run fuel c cfg n delay tb req w : 0 <= n ->
  exists env, forall env', (forall i, n <= Z.of_nat i -> env' i = env i) ->
  let '(_, (evs, res)) := retryIn fuel c cfg n delay tb req w in
  retry_loop fuel c cfg n delay tb (seen req) env' = (evs, verdict res).
Proof.
  revert n delay tb req w. induction fuel as [|fuel IH]; intros n delay tb req w Hn; simpl.
  { by exists (fun _ => {| tStart := 0; tEnd := 0; tOutcome := Err ErrOpen; tDone := None |}). }
  assert (Hc : (if 1 <? n then cloneRequest (seen req) else Ok (seen req)) =
               rmap seen (if 1 <? n then replay req else Ok req)) by (destruct (1 <? n); [by rewrite seen_replay|done]).
  rewrite Hc. destruct (if 1 <? n then replay req else Ok req) as [areq|e]; simpl.
  2: { by exists (fun _ => {| tStart := 0; tEnd := 0; tOutcome := Err ErrOpen; tDone := None |}). }
  pose proof (attempt_seen c tb areq w) as Ha. destruct (attempt c tb areq w) as [[[w1 tb1] called] r].
  destruct Ha as (t1 & t2 & o & Ha). destruct (sleep delay w1) as [w2 done] eqn:Es.
  set (req1 := if called then spentBody req else req).
  destruct (IH (n + 1) (Z.min (wrap64 (delay * 2)) (maxDelay cfg)) tb1 req1 w2 ltac:(lia)) as [envr Hr].
  exists (fun i => if Z.of_nat i =? n then {| tStart := t1; tEnd := t2; tOutcome := o; tDone := done |} else envr i).
  intros env' He. pose proof (He (Z.to_nat n) ltac:(lia)) as Hn'. rewrite Z2Nat.id, Z.eqb_refl in Hn' by done.
  rewrite Hn'. cbn [tStart tEnd tOutcome tDone]. rewrite Ha.
  specialize (Hr env' ltac:(intros i Hi; rewrite He by lia; destruct (Z.eqb_spec (Z.of_nat i) n); [lia|done])).
  assert (Hd : (if called then drained (seen req) else seen req) = seen req1)
    by (unfold req1; destruct called; [by rewrite seen_spentBody|done]). rewrite Hd.
  destruct (isErrOpen (verdict r) || _ || _); [done|]. destruct done as [e|]; [done|]. fold req1.
  destruct (retryIn fuel _ _ _ _ _ _ _) as [w3 [evs res]]. by rewrite Hr.
Qed.

(** The client over a world is the client of [HttpClient]: whatever the transport
    and the waits do, there are turns of the environment with which [Do] gives the
    same events (which attempts were made with which bodies, which waits) and the
    same result, so that the bounds on attempts and waits hold of it. *)
Theorem client_refines_model c tb req w :
  let '(_, (evs, res)) := DoIn c tb req w in
  exists env, Do c tb (seen req) env = (evs, verdict res).
Proof.
  unfold DoIn, Do. destruct (retry c) as [cfg|].
  - destruct (retryIn_run (Z.to_nat (maxAttempts cfg)) c cfg 1 (baseDelay cfg) tb req w ltac:(lia)) as [env He].
    specialize (He env ltac:(done)). destruct (retryIn _ _ _ _ _ _ _ _) as [w' [evs res]]. by exists env.
  - pose proof (attempt_seen c tb req w) as Ha. destruct (attempt c tb req w) as [[[w1 tb1] called] r].
    destruct Ha as (t1 & t2 & o & Ha).
    exists (fun _ => {| tStart := t1; tEnd := t2; tOutcome := o; tDone := None |}). cbn [tStart tEnd tOutcome].
    by rewrite Ha.
Qed.
End Client.

(** ** What is on the wire *)

(** A world with the requests its base transport got, each with the world it was
    sent in. *)
Record traced (W : Type) := { world : W; wire : list (OutReq * W) }.
Arguments world {W}.
Arguments wire {W}.
Arguments Build_traced {W}.

#[export] Instance clock_traced {W} `{Clock W} : Clock (traced W) := fun w => now (world w).
#[export] Program Instance lens_traced {S W} `{Lens S W} : Lens S (traced W) :=
  {| view := fun w => view (world w); over := fun s w => Build_traced (over s (world w)) (wire w) |}.
Next Obligation. intros. apply view_over. Qed.
Next Obligation. intros S W L [w l]. simpl. by rewrite over_view. Qed.
Next Obligation. intros. simpl. by rewrite over_over. Qed.

Definition lift {W A} (f : W -> W * A) (w : traced W) : traced W * A :=
  let '(v, a) := f (world w) in (Build_traced v (wire w), a).
Definition trace {W} (base : RoundTripper W) : RoundTripper (traced W) := fun req w =>
  let '(v, r) := base req (world w) in (Build_traced v (wire w ++ [(req, world w)])%list, r).

Section Wire.
Context {W : Type} `{Clock W, Lens tokenState W}.
Variable resolve : string * URL -> string -> result (string * URL).
Variable carry : OutReq -> string -> headers.
Variable decode : string -> result tokenResponse.
Variable cfg : ServiceAuthConfig.
Variable urlErr : option error.
Variable endpoint : string -> W -> W * outcome.
Variable enter : W -> W.
Variable base : RoundTripper W.
Variable sleep : Z -> W -> W * option error.
(** What the token endpoint has answered so far, newest first. *)
Variable history : W -> answers.

(** The client's transport: redirects over authentication over the traced base. *)
Definition authenticated : RoundTripper (traced W) :=
  authRoundTrip decode cfg urlErr (fun f => lift (endpoint f))
    (fun w => Build_traced (enter (world w)) (wire w)) (trace base).
Definition serviceClient (c : Client) (tb : table) (req : OutReq) (w : traced W)
  : traced W * (list event * result OutResp) :=
  DoIn (httpDo resolve carry authenticated) (fun d => lift (sleep d)) c tb req w.

(** The token is the latest one the endpoint granted, and less than 86% of its lifetime
    (and a nanosecond) has passed. *)
Definition liveToken (tok : string) (v : W) : Prop :=
  exists t0 tr, latest decode cfg (history v) = Some (t0, tr) /\ tok = AccessToken tr /\
    (sane_lifetime tr -> 100 * (now v - t0) < 86 * lifetime tr + 100).
Definition carriesToken (e : OutReq * W) : Prop :=
  exists tok, hget (Header (oReq e.1)) "Authorization" = "Bearer " +:+ tok /\ liveToken tok e.2.

(** The cache is what the answers so far leave in it. *)
Definition sound (v : W) : Prop := reached decode cfg (history v) (view v).

(** At most [n] requests went out, all with a live token, and the cache is sound. *)
Definition emits (n : nat) (w w' : traced W) : Prop :=
  sound (world w') /\
  exists new, wire w' = (wire w ++ new)%list /\ (length new <= n)%nat /\ Forall carriesToken new.

Lemma emits_refl n w : sound (world w) -> emits n w w.
Proof. intros Hr. split; [done|]. exists []. by rewrite app_nil_r; split_and!; [|simpl; lia|]. Qed.

Lemma emits_trans n m w1 w2 w3 : emits n w1 w2 -> emits m w2 w3 -> emits (n + m) w1 w3.
Proof.
  intros [_ (a & Ha & Hn & Fa)] [Hr (b & Hb & Hm & Fb)]. split; [done|]. exists (a ++ b)%list.
  rewrite Hb, Ha, length_app, <- (assoc_L (++)%list). split_and!; [done|lia|by apply Forall_app].
Qed.

Lemma emits_le n m w1 w2 : (n <= m)%nat -> emits n w1 w2 -> emits m w1 w2.
Proof. intros Hle [Hr (a & Ha & Hn & Fa)]. split; [done|]. exists a. by split_and!; [|lia|]. Qed.

(** Whatever else goes on in the world, the cache stays what the answers leave in it.
    The endpoint's answer is the latest in the history when it arrives; storing a token
    moves neither the clock nor the history. *)
Definition keepsCache {A} (f : W -> W * A) : Prop := forall w, sound w -> sound (f w).1.
Hypothesis Hendpoint : forall form w, sound w ->
  exists h, history (endpoint form w).1 = (now (endpoint form w).1, form, (endpoint form w).2) :: h /\
    reached decode cfg h (view (endpoint form w).1).
Hypothesis Henter : keepsCache (fun w => (enter w, tt)).
Hypothesis Hbase : forall r, keepsCache (base r).
Hypothesis Hsleep : forall d, keepsCache (sleep d).
Hypothesis Hover : forall s (w : W), now (over s w) = now w /\ history (over s w) = history w.

Lemma cached_live v : sound v -> cached (view v) (now v) = true -> liveToken (token (view v)) v.
Proof.
  intros Hr Hc. destruct (cached_latest _ _ _ _ _ Hr Hc) as (t0 & tr & Hl & Ht & _ & Ha). by exists t0, tr.
Qed.

Lemma TokenIn_live (w : traced W) : sound (world w) ->
  let '(w', r) := TokenIn decode cfg urlErr (fun f => lift (endpoint f))
                    (fun w => Build_traced (enter (world w)) (wire w)) w in
  emits 0 w w' /\ match r with Ok tok => liveToken tok (world w') | Err _ => True end.
Proof.
  intros Hr. unfold TokenIn. cbn [view over lens_traced]. unfold now at 1, clock_traced.
  destruct (cached (view (world w)) (now (world w))) eqn:E1.
  { split; [by apply emits_refl|by apply cached_live]. }
  pose proof (Henter (world w) Hr) as He. cbn [fst] in He. cbn [world wire].
  destruct (cached (view (enter (world w))) _) eqn:E2.
  { split; [|by apply cached_live]. split; [done|]. exists []. by rewrite app_nil_r. }
  destruct urlErr as [e|]; [split; [split; [done|]; exists []; by rewrite app_nil_r|done]|].
  unfold lift. cbn [world wire]. destruct (Hendpoint (tokenForm cfg) _ He) as (h & Hh & Hp).
  destruct (endpoint (tokenForm cfg) (enter (world w))) as [v o]. cbn [world wire fst snd] in *.
  pose proof (fetch_grant decode cfg (view v) (fun _ => o) (now v)) as Hg.
  unfold now at 1, clock_traced. cbn [world].
  destruct (fetch decode cfg (view v) None (fun _ => o) (now v)) as [s r] eqn:Ef.
  pose proof (reached_fetch decode cfg _ _ _ _ _ _ Hp Ef) as Hs.
  destruct (Hover s v) as [Hn Hv]. split.
  - split; [unfold sound; cbn [world]; by rewrite view_over, Hv, Hh|]. exists []. cbn [wire]. by rewrite app_nil_r.
  - destruct r as [tok|e]; [|done]. destruct (grantOf decode cfg _) as [tr|] eqn:Eg.
    + injection Hg as -> ->. exists (now v), tr. cbn [world]. rewrite Hn, Hv, Hh. cbn [latest]. rewrite Eg.
      split_and!; [done..|]. intros [_ [Hpos _]]%tokenTTL_lifetime. lia.
    + by destruct Hg as [e Hg].
Qed.

Lemma authenticated_emits req w : sound (world w) -> emits 1 w (authenticated req w).1.
Proof.
  intros Hr. unfold authenticated, authRoundTrip. pose proof (TokenIn_live w Hr) as Ht.
  destruct (TokenIn _ _ _ _ _ w) as [w1 tok]. destruct Ht as [He Hl].
  destruct tok as [tok|e]; simpl; [|by apply (emits_le 0); [lia|]].
  apply (emits_trans 0 1 _ w1); [done|]. unfold trace.
  pose proof (Hbase (withRequest req (withHeader (oReq req) (hset (Header (oReq req)) "Authorization" ("Bearer " +:+ tok))))
    (world w1) (proj1 He)) as Hb.
  destruct (base _ (world w1)) as [v r]. split; [done|]. eexists. split_and!; [reflexivity|simpl; lia|].
  apply Forall_cons_2; [|done]. exists tok. split; [|done]. apply hget_hset_eq.
Qed.

Lemma follow_emits fuel ireq req w : sound (world w) ->
  emits fuel w (follow resolve carry authenticated fuel ireq req w).1.
Proof.
  revert req w. induction fuel as [|fuel IH]; intros req w Hr; simpl; [by apply emits_refl|].
  pose proof (authenticated_emits req w Hr) as He. destruct (authenticated req w) as [w1 [resp|e]]; cbn [fst] in He.
  - assert (Hone : emits (S fuel) w w1) by (eapply emits_le; [|exact He]; lia).
    destruct (nextHop _ _ _ _ _) as [[next|e]|]; [|done..].
    apply (emits_trans 1 fuel _ w1); [done|]. apply IH, He.
  - eapply emits_le; [|exact He]. lia.
Qed.

Lemma attempt_emits c tb req w : sound (world w) ->
  emits maxHops w (attempt (httpDo resolve carry authenticated) c tb req w).1.1.1.
Proof.
  intros Hr. unfold attempt, httpDo. pose proof (follow_emits maxHops req req w Hr) as He.
  destruct (follow _ _ _ _ _ _ _) as [w1 o]. destruct (do_attempt _ _ _ _ _ _) as [[tb1 []] r]; [done|].
  simpl. by apply (emits_le 0); [unfold maxHops; lia|apply emits_refl].
Qed.

Lemma lift_sleep_emits n d w w1 : emits n w w1 -> emits n w (lift (sleep d) w1).1.
Proof.
  intros [Hr Hw]. unfold lift. pose proof (Hsleep d (world w1) Hr) as Hs.
  by destruct (sleep d (world w1)) as [v r].
Qed.

Lemma retryIn_emits fuel c rc n delay tb req w : sound (world w) ->
  emits (fuel * maxHops) w
    (retryIn (httpDo resolve carry authenticated) (fun d => lift (sleep d)) fuel c rc n delay tb req w).1.
Proof.
  revert n delay tb req w. induction fuel as [|fuel IH]; intros n delay tb req w Hr; simpl retryIn; [by apply emits_refl|].
  destruct (if 1 <? n then replay req else Ok req) as [areq|e];
    [|by apply (emits_le 0); [lia|apply emits_refl]].
  pose proof (attempt_emits c tb areq w Hr) as Ha. destruct (attempt _ c tb areq w) as [[[w1 tb1] called] r]. simpl in Ha.
  assert (Hone : emits (S fuel * maxHops) w w1) by (eapply emits_le; [|exact Ha]; lia).
  destruct (isErrOpen _ || _ || _); [done|].
  pose proof (lift_sleep_emits _ delay _ _ Ha) as Hs. destruct (lift (sleep delay) w1) as [w2 d]. cbn [fst] in Hs.
  destruct d as [e|]; [by eapply emits_le; [|exact Hs]; lia|].
  pose proof (IH (n + 1) (Z.min (wrap64 (delay * 2)) (maxDelay rc)) tb1
    (if called then spentBody req else req) w2 (proj1 Hs)) as Hn.
  destruct (retryIn _ _ fuel _ _ _ _ _ _ _) as [w3 [evs res]]. exact (emits_trans _ _ _ _ _ Hs Hn).
Qed.

(** (C10) Every request that reaches the wire carries a live service token.  Whatever
    the endpoint, the network and other goroutines do, through all retries and
    redirects of a call: each request the base transport gets has an Authorization
    header with the latest token that an answer of the endpoint granted to a form with
    the credentials, and less than 86% (and a nanosecond) of the lifetime in that
    answer has passed when it is sent; there are at most ten requests per attempt; and
    the cache is left holding the latest token granted. *)
Theorem outbound_authenticated (c : Client) (tb : table) (req : OutReq) (w : traced W) :
  sound (world w) ->
  let w' := (serviceClient c tb req w).1 in
  sound (world w') /\
  exists new, wire w' = (wire w ++ new)%list /\ Forall carriesToken new /\
    (length new <= 10 * match retry c with Some rc => Z.to_nat (maxAttempts rc) | None => 1 end)%nat.
Proof.
  intros Hr w'. assert (He : emits (match retry c with Some rc => Z.to_nat (maxAttempts rc) | None => 1 end * maxHops) w w').
  { unfold w', serviceClient, DoIn. destruct (retry c) as [rc|]; [by apply retryIn_emits|].
    pose proof (attempt_emits c tb req w Hr) as Ha. destruct (attempt _ c tb req w) as [[[w1 tb1] called] r].
    by rewrite Nat.mul_1_l. }
  destruct He as [Hr' (new & Hw & Hn & Hf)]. split; [done|]. exists new. split_and!; [done..|].
  unfold maxHops in Hn. lia.
Qed.

Lemma hop_on_redirect req resp host u loc :
  In (StatusCode (oAnswer resp)) [301; 302; 303] -> hget (oRespHeader resp) "Location" = loc -> loc <> "" ->
  resolve (oHost req, default {| Path := ""; RawQuery := "" |} (ReqURL (oReq req))) loc = Ok (host, u) ->
  exists next, nextHop resolve carry req req resp = Some (Ok next) /\ oHost next = host.
Proof.
  intros Hst Hl Hne%String.eqb_neq Hres. unfold nextHop, redirectBehavior.
  assert (existsb (Z.eqb (StatusCode (oAnswer resp))) [301; 302; 303] = true) as ->.
  { apply existsb_exists. exists (StatusCode (oAnswer resp)). by rewrite Z.eqb_refl. }
  rewrite Hl, Hne, Hres. by eexists.
Qed.

(** With a token in the cache the base transport is called at once. *)
Lemma cached_sends req w : sound (world w) -> cached (view (world w)) (now w) = true ->
  exists q, oHost q = oHost req /\ In (q, world w) (wire (authenticated req w).1) /\ carriesToken (q, world w).
Proof.
  intros Hr Hc. pose proof (cached_live _ Hr Hc) as Hl. unfold authenticated, authRoundTrip, TokenIn.
  cbn [view over lens_traced]. rewrite Hc. unfold trace.
  set (q := withRequest req (withHeader (oReq req)
    (hset (Header (oReq req)) "Authorization" ("Bearer " +:+ token (view (world w)))))). exists q. split_and!; [done| |].
  - simpl. fold q. destruct (base q (world w)) as [v r]. apply in_or_app. right. by left.
  - exists (token (view (world w))). split; [apply hget_hset_eq|done].
Qed.

(** (C25) A redirect takes the token along.  net/http drops credentials when a redirect
    leads to another domain, but the transport attaches the token to every
    request: if the answer to an authenticated request is a redirect whose
    Location resolves to some host, that host gets a request whose Authorization
    header is the service token, the latest one the endpoint granted to the
    credentials and still in its lifetime. *)
Theorem redirect_leaks_token (req : OutReq) (w w1 : traced W) (resp : OutResp) (loc host : string) (u : URL) :
  sound (world w) -> authenticated req w = (w1, Ok resp) ->
  In (StatusCode (oAnswer resp)) [301; 302; 303] -> hget (oRespHeader resp) "Location" = loc -> loc <> "" ->
  resolve (oHost req, default {| Path := ""; RawQuery := "" |} (ReqURL (oReq req))) loc = Ok (host, u) ->
  cached (view (world w1)) (now w1) = true ->
  exists q, In (q, world w1) (wire (httpDo resolve carry authenticated req w).1) /\ oHost q = host /\
    carriesToken (q, world w1).
Proof.
  intros Hr Ha Hst Hl Hne Hres Hc. pose proof (authenticated_emits req w Hr) as He. rewrite Ha in He. cbn [fst] in He.
  destruct (hop_on_redirect req resp host u loc Hst Hl Hne Hres) as (next & Hn & Hh).
  unfold httpDo, maxHops. rewrite follow_step, Ha, Hn.
  destruct (cached_sends next w1 (proj1 He) Hc) as (q & Hq & Hin & Ht).
  exists q. split_and!; [|congruence|done].
  pose proof (authenticated_emits next w1 (proj1 He)) as H1. rewrite follow_step.
  destruct (authenticated next w1) as [w2 [resp2|e]]; [|exact Hin]. cbn [fst] in *.
  destruct (nextHop resolve carry req next resp2) as [[n2|e]|]; [|exact Hin..].
  destruct (follow_emits 8 req n2 w2 (proj1 H1)) as [_ (new & -> & _)]. apply in_or_app. by left.
Qed.
End Wire.

(** ** Witnesses *)

(** Its clock, its cached token and the answers of its endpoint. *)
Record netWorld := { nClock : Z; nToken : tokenState; nAnswers : answers }.
#[local] Instance net_clock : Clock netWorld := nClock.
#[local] Program Instance net_token : Lens tokenState netWorld :=
  {| view := nToken; over := fun s w => {| nClock := nClock w; nToken := s; nAnswers := nAnswers w |} |}.
Solve Obligations with (by intros; repeat match goal with w : netWorld |- _ => destruct w end).

(** A minute passes until the token arrives. *)
Definition net_endpoint (form : string) (w : netWorld) : netWorld * outcome :=
  ({| nClock := nClock w + Minute; nToken := nToken w;
      nAnswers := (nClock w + Minute, form, demo_endpoint form) :: nAnswers w |}, demo_endpoint form).
(** api.internal answers with a redirect to another domain, every other host with 503. *)
Definition net_base : RoundTripper netWorld := fun req w =>
  (w, Ok (if String.eqb (oHost req) "api.internal"
          then {| oAnswer := {| StatusCode := 302; RespBody := "" |};
                  oRespHeader := {["Location" := ["https://elsewhere.example/"]]} |}
          else {| oAnswer := {| StatusCode := 503; RespBody := "" |}; oRespHeader := ∅ |})).
Definition net_sleep (d : Z) (w : netWorld) : netWorld * option error :=
  ({| nClock := nClock w + d; nToken := nToken w; nAnswers := nAnswers w |}, None).
Definition net_resolve (base : string * URL) (loc : string) : result (string * URL) :=
  Ok ("elsewhere.example", {| Path := "/"; RawQuery := "" |}).
Definition net_request : OutReq :=
  {| oHost := "api.internal"; oReq := demo_req; oGetBody := None |}.
Definition net_start (h : answers) (s : tokenState) : traced netWorld :=
  {| world := {| nClock := Minute; nToken := s; nAnswers := h |}; wire := [] |}.
Definition net_client (w : traced netWorld) : traced netWorld :=
  (serviceClient net_resolve (fun _ _ => ∅) demo_decode demo_auth None net_endpoint id net_base net_sleep
     demo_client demo_table net_request w).1.
Definition net_cold : traced netWorld := net_start [] emptyToken.

(** Three attempts, each redirected once, with the waits in between; the token is fetched
    once. *)
Example net_run_wire : map (fun e => (oHost e.1, nClock e.2)) (wire (net_client net_cold)) =
  [("api.internal", 2 * Minute); ("elsewhere.example", 2 * Minute);
   ("api.internal", 2 * Minute + 100 * Millisecond); ("elsewhere.example", 2 * Minute + 100 * Millisecond);
   ("api.internal", 2 * Minute + 300 * Millisecond); ("elsewhere.example", 2 * Minute + 300 * Millisecond)].
Proof. vm_compute. reflexivity. Qed.
Example net_run_tokens : map (fun e => hget (Header (oReq e.1)) "Authorization") (wire (net_client net_cold)) =
  repeat "Bearer tok" 6.
Proof. vm_compute. reflexivity. Qed.

Lemma net_answers form w : sound demo_decode demo_auth nAnswers w ->
  exists h, nAnswers (net_endpoint form w).1 = (now (net_endpoint form w).1, form, (net_endpoint form w).2) :: h /\
    reached demo_decode demo_auth h (view (net_endpoint form w).1).
Proof. intros Hw. by exists (nAnswers w). Qed.
Lemma net_keeps {A} (f : netWorld -> netWorld * A) :
  (forall w, nToken (f w).1 = nToken w /\ nAnswers (f w).1 = nAnswers w) -> keepsCache demo_decode demo_auth nAnswers f.
Proof. intros H w Hw. destruct (H w) as [H1 H2]. unfold sound in *. cbn [view net_token] in *. by rewrite H1, H2. Qed.
Lemma net_enter_keeps : keepsCache demo_decode demo_auth nAnswers (fun w => (id w, tt)).
Proof. by apply net_keeps. Qed.
Lemma net_base_keeps r : keepsCache demo_decode demo_auth nAnswers (net_base r).
Proof. by apply net_keeps. Qed.
Lemma net_sleep_keeps d : keepsCache demo_decode demo_auth nAnswers (net_sleep d).
Proof. by apply net_keeps. Qed.
Lemma net_over s (w : netWorld) : now (over s w) = now w /\ nAnswers (over s w) = nAnswers w.
Proof. done. Qed.

Lemma outbound_authenticated_witness :
  exists new, wire (net_client net_cold) = new /\ Forall (carriesToken demo_decode demo_auth nAnswers) new /\
    (length new <= 30)%nat.
Proof.
  destruct (outbound_authenticated net_resolve (fun _ _ => ∅) demo_decode demo_auth None net_endpoint id net_base net_sleep nAnswers
    net_answers net_enter_keeps net_base_keeps net_sleep_keeps net_over
    demo_client demo_table net_request net_cold (reached_new _ _)) as (_ & new & Hw & Hf & Hn).
  exists new. split_and!; [exact Hw|exact Hf|]. apply (Nat.le_trans _ _ _ Hn), Nat.leb_le. vm_compute. reflexivity.
Defined.

Definition net_warm : traced netWorld := net_start demo_history demo_cached.
Definition net_redirect : OutResp :=
  {| oAnswer := {| StatusCode := 302; RespBody := "" |};
     oRespHeader := {["Location" := ["https://elsewhere.example/"]]} |}.
(** The world after the first request. *)
Definition net_hop : traced netWorld :=
  (authenticated demo_decode demo_auth None net_endpoint id net_base net_request net_warm).1.

Lemma redirect_leaks_token_witness :
  exists q, In (q, world net_hop) (wire (httpDo net_resolve (fun _ _ => ∅)
    (authenticated demo_decode demo_auth None net_endpoint id net_base) net_request net_warm).1) /\
    oHost q = "elsewhere.example" /\ carriesToken demo_decode demo_auth nAnswers (q, world net_hop).
Proof.
  apply (redirect_leaks_token net_resolve (fun _ _ => ∅) demo_decode demo_auth None net_endpoint id net_base nAnswers
    net_answers net_enter_keeps net_base_keeps net_over
    net_request net_warm net_hop net_redirect "https://elsewhere.example/" "elsewhere.example"
    {| Path := "/"; RawQuery := "" |} demo_reached).
  - vm_compute. reflexivity.
  - right. by left.
  - vm_compute. reflexivity.
  - discriminate.
  - reflexivity.
  - vm_compute. reflexivity.
Defined.
