(* ===== verification/Stubs.v ===== *)
(** * Clients that are not implemented yet, and the test tiers

    The Google Cloud clients (src/gcp), the SQL and OpenSearch stores (src/db)
    and the Apple connectors only have their interfaces; their constructors and
    methods are modelled by how they end.  [Tiers] is the choice of test tiers
    of src/testing/testutil. *)

From S2P Require Import Prelude GoStrings.

Open Scope string_scope.
Open Scope Z_scope.

(** ** Stubs *)

Inductive ends : Type :=
  | Panics (msg : string)
  | Fails (e : error).
(** A package, the error of its [New] (the client is nil), and its methods. *)
Record Stub := { pkg : string; errNew : error; methods : list (string * ends) }.

Module Gcp.
Definition ErrNotImplemented (p : string) : error := Sentinel (p +:+ ": not implemented").
Definition ErrClientNotInitialized (p : string) : error := Sentinel (p +:+ ": client not initialized").
Definition WrapError (p : string) (err : option error) (operation : string) : option error :=
  Wrap (p +:+ ": " +:+ operation +:+ " failed") <$> err.
Definition stub (p : string) (names : list string) : Stub :=
  {| pkg := p; errNew := ErrNotImplemented p;
     methods := map (fun m => (m, Panics (p +:+ ": not implemented"))) names |}.

Definition ccaiinsights := stub "ccaiinsights" ["AnalyzeConversation"; "GetAnalysis"].
Definition cloudfunctions := stub "cloudfunctions" ["Invoke"].
Definition cloudlogging := stub "cloudlogging" ["Write"; "WriteBatch"].
Definition cloudmonitoring := stub "cloudmonitoring" ["PutMetric"; "PutMetrics"].
Definition cloudsql := stub "cloudsql" ["DB"; "Ping"; "Close"].
Definition dialogflow := stub "dialogflow" ["DetectIntent"].
Definition firestore := stub "firestore"
  ["GetItem"; "GetItemAs"; "PutItem"; "PutItemFrom"; "UpdateItem"; "DeleteItem"; "Query"; "QueryAs"].
Definition gcs := stub "gcs" ["GetObject"; "GetObjectAs"; "PutObject"; "DeleteObject"].
Definition memorystore := stub "memorystore" ["Get"; "Set"; "Delete"; "Exists"].
Definition pubsubpub := stub "pubsubpub" ["Publish"].
Definition pubsubsub := stub "pubsubsub" ["Receive"; "Ack"; "Nack"].
Definition secretmanager := stub "secretmanager" ["GetSecret"; "GetSecrets"].
Definition vertexai := stub "vertexai" ["Invoke"; "InvokeStream"].
Definition vertexsearch := stub "vertexsearch" ["Search"; "Index"; "Delete"].
End Gcp.

Module Stores.
Definition ErrNotImplemented : error := Sentinel "not yet implemented".
Definition sql : Stub :=
  {| pkg := "sqldb"; errNew := ErrNotImplemented;
     methods := map (fun m => (m, Fails ErrNotImplemented)) ["Query"; "Exec"] |}.
Definition opensearch : Stub :=
  {| pkg := "opensearch"; errNew := ErrNotImplemented;
     methods := map (fun m => (m, Panics "opensearch: not yet implemented")) ["Index"; "Search"; "Delete"] |}.
End Stores.

Definition stubs : list Stub :=
  [Gcp.ccaiinsights; Gcp.cloudfunctions; Gcp.cloudlogging; Gcp.cloudmonitoring; Gcp.cloudsql; Gcp.dialogflow;
   Gcp.firestore; Gcp.gcs; Gcp.memorystore; Gcp.pubsubpub; Gcp.pubsubsub; Gcp.secretmanager; Gcp.vertexai;
   Gcp.vertexsearch; Stores.sql; Stores.opensearch].

(** Of the stubs only the SQL client answers with an error: the methods of all others,
    which a zero [Client] has too, panic. *)
Lemma stub_methods_panic s m : In s stubs -> In m (methods s) ->
  (exists msg, m.2 = Panics msg) <-> pkg s <> "sqldb".
Proof.
  intros Hs. repeat (destruct Hs as [<-|Hs]; [intros Hm; repeat (destruct Hm as [<-|Hm]; [simpl; split; [by intros [? ?]|by eauto]|]); done|]).
  done.
Qed.

(** [errors.Is] sees through the wrapping of every package. *)
Lemma WrapError_is p err op e target :
  Gcp.WrapError p (Some err) op = Some e -> errors_is err target = true -> errors_is e target = true.
Proof. intros [= <-] H. by apply errors_is_wrap. Qed.

(** ** Test tiers (src/testing/testutil/tiers.go) *)

Module Tiers.
Inductive tier : Type := unit | component | integration | e2e | chaos.
#[export] Instance tier_eq_dec : EqDecision tier.
Proof. solve_decision. Defined.
(** [iota]. *)
Definition rank (t : tier) : Z :=
  match t with unit => 0 | component => 1 | integration => 2 | e2e => 3 | chaos => 4 end.
Definition resolve (short : bool) (env : string) : tier :=
  if short then unit
  else if String.eqb env "unit" then unit
  else if String.eqb env "component" then component
  else if String.eqb env "integration" then integration
  else if String.eqb env "e2e" then e2e
  else if String.eqb env "chaos" then chaos
  else unit.
(** Whether the test is skipped. *)
Definition require (short : bool) (env : string) (want : tier) : bool := rank (resolve short env) <? rank want.

(** A test that runs in a tier runs in every higher one, and with [-short] only the
    tests without a tier run. *)
Lemma require_monotone short env env' want :
  rank (resolve short env) <= rank (resolve short env') -> require short env want = false -> require short env' want = false.
Proof. unfold require. lia. Qed.

Lemma require_short env want : require true env want = negb (bool_decide (want = unit)).
Proof. by destruct want. Qed.
End Tiers.
