(* ===== verification/Claims.v ===== *)
(** * What an idempotency store promises (src/api/idempotency, src/db/redis)

    The middleware relies on one promise of the [Cache] behind its store: a key
    that was claimed stays claimed until its time to live is over.  The class
    [Register] states it; the in-memory cache and the Redis cache both keep it,
    and the middleware is proved against the class.  The promise is kept against
    claims of others, time, and the background of the store.  For the in-memory
    cache that is the evictor, whose test and delete of a key are two steps: it keeps
    the promise for a key claimed while the evictor is not between the two, and breaks
    it otherwise, see [evictor_deletes_live_claim]. *)

From S2P Require Import Prelude GoStrings Http Headers Idempotency Redis.

Open Scope string_scope.
Open Scope Z_scope.

(** ** The interface *)

(** [holds k s t]: in state [s] the key is taken at time [t].  [clockOf s t]: [t] is what
    the clock that decides about expiry shows.  [backgroundStep t]: what the store does
    by itself at time [t], with a state of its own; [threatens b k]: it is about to delete
    the key without looking at it again. *)
Class Register (S : Type) `{Cache S} := {
  holds : string -> S -> Z -> Prop;
  clockOf : S -> Z -> Prop;
  background : Type;
  backgroundStep : Z -> S -> background -> S -> background -> Prop;
  threatens : background -> string -> Prop;
  holds_refuses k s t v ttl : holds k s t -> clockOf s t -> (StoreIfAbsent t k v ttl s).2 <> Ok true;
  claim_holds k s s' t t' ttl :
    0 < ttl < 2 ^ 33 -> int64_ok (unixSec t + ttl) -> clockOf s t ->
    CheckAndSet t ttl k s = (s', Ok true) -> t <= t' -> t' + Second <= t + ttl * Second -> holds k s' t';
  holds_claim k k' s t t' v ttl :
    holds k s t' -> t <= t' -> clockOf s t -> holds k (StoreIfAbsent t k' v ttl s).1 t';
  holds_background k s b s' b' t t' :
    holds k s t' -> ~ threatens b k -> t <= t' -> backgroundStep t s b s' b' ->
    holds k s' t' /\ ~ threatens b' k;
}.

(** What happens to a store between two requests: claims of any keys, and its background. *)
Inductive history {S} `{Register S} : S -> background -> Z -> S -> background -> Z -> Prop :=
  | history_nil s b t : history s b t s b t
  | history_claim s b t s1 b1 t1 t2 k v ttl :
      history s b t s1 b1 t1 -> t1 <= t2 -> clockOf s1 t2 -> history s b t (StoreIfAbsent t2 k v ttl s1).1 b1 t2
  | history_background s b t s1 b1 t1 s2 b2 t2 :
      history s b t s1 b1 t1 -> t1 <= t2 -> backgroundStep t2 s1 b1 s2 b2 -> history s b t s2 b2 t2.

Lemma history_holds {S} `{Register S} s b t s' b' t' k u :
  history s b t s' b' t' -> t' <= u -> holds k s u -> ~ threatens b k -> holds k s' u /\ ~ threatens b' k.
Proof.
  intros Hh. induction Hh as [s b t|s b t s1 b1 t1 t2 k' v ttl Hh IH Hle Hc|s b t s1 b1 t1 s2 b2 t2 Hh IH Hle Hi];
    intros Hu Hk Hn.
  - done.
  - destruct IH as [IH1 IH2]; [lia|done..|]. split; [|done]. by apply holds_claim.
  - destruct IH as [IH1 IH2]; [lia|done..|]. by eapply holds_background.
Qed.

(** (C12) A repeated request is refused, whatever store is behind the middleware.  Once a
    state-changing request of a client that is not an API client has claimed its
    key while the store's background was not about to delete it, then after any claims
    of other requests and whatever the background does, and until a second before the
    time to live is over, a request with that key is answered 400, 409 or 500 and its
    handler does not run. *)
Theorem repeated_request_refused {S W} `{Register S, Lens S W, Clock W} (e : Env)
    (jwt : option (string -> result bool)) (ttl : Z) (f : handler W) (req : Request) (wtr : Writer) (w : W)
    (s s1 : S) (b b' : background) (t : Z) :
  0 < ttl < 2 ^ 33 -> int64_ok (unixSec t + ttl) -> clockOf s t ->
  CheckAndSet t ttl (hget (Header req) "Idempotency-Key") s = (s1, Ok true) ->
  ~ threatens b (hget (Header req) "Idempotency-Key") ->
  history s1 b t (view w) b' (now w) -> clockOf (view w) (now w) -> now w + Second <= t + ttl * Second ->
  safeMethod (Method req) = false -> isAPIClient (Ctx req) = false -> WStatus wtr = None ->
  exists w' wtr' status, (forall g, IdempotencyMiddleware (S := S) e jwt ttl g req wtr w = (w', wtr', Returned)) /\
    WStatus wtr' = Some status /\ In status [400; 409; 500].
Proof.
  intros Httl Hok Hc Hs Hn Hh Hc2 Hle Hm Ha Hw.
  assert (Ht : t <= now w) by (clear -Hh; induction Hh; lia).
  set (key := hget (Header req) "Idempotency-Key") in *.
  assert (Hk : holds key (view w) (now w)).
  { apply (history_holds _ _ _ _ _ _ key (now w) Hh); [lia| |done]. by eapply claim_holds. }
  unfold IdempotencyMiddleware. rewrite Hm, Ha. fold key.
  destruct (headerValid e jwt HEADER_IDEMPOTENCY req); cbn [negb].
  2: { do 3 eexists. split; [intros g; apply reject_run|]. split; [by apply SendError_status|simpl; auto]. }
  pose proof (holds_refuses key (view w) (now w) (CInt (wrap64 (unixSec (now w) + ttl))) ttl Hk Hc2) as Hr.
  unfold CheckAndSet. destruct (StoreIfAbsent (now w) key _ ttl (view w)) as [s2 [[]|err]]; [done| |];
    do 3 eexists; (split; [intros g; apply reject_run|]); (split; [by apply SendError_status|simpl; auto]).
Qed.

(** ** The in-memory cache *)

Definition localHolds (k : string) (s : localCache) (t : Z) : Prop :=
  exists until, s !! k = Some (CInt until) /\ unixSec t < until.

Lemma local_refuses k s t v : localHolds k s t -> localStoreIfAbsent t k v s = (s, false).
Proof. intros (u & Hs & Hu%Z.ltb_lt). unfold localStoreIfAbsent. by rewrite Hs, Hu. Qed.

(** The evictor: [found] are the keys it found expired and has not deleted yet.  Its clock
    reading may be older than the moment it looks at a key. *)
Inductive evictor (t : Z) : localCache -> list string -> localCache -> list string -> Prop :=
  | evictor_found t0 s k until found :
      t0 <= t -> s !! k = Some (CInt until) -> expired t0 (CInt until) = true -> evictor t s found s (k :: found)
  | evictor_delete s k found1 found2 :
      evictor t s (found1 ++ k :: found2)%list (delete k s) (found1 ++ found2)%list.

#[export] Program Instance local_register : Register localCache := {
  holds := localHolds; clockOf _ _ := True; background := list string; backgroundStep := evictor;
  threatens found k := In k found
}.
Next Obligation. intros k s t v ttl Hk _. simpl. by rewrite (local_refuses _ _ _ _ Hk). Qed.
Next Obligation.
  intros k s s' t t' ttl Httl Hok _ Hs Ht Hle. unfold CheckAndSet in Hs. simpl in Hs.
  destruct (localStoreIfAbsent t k _ s) as [m b] eqn:E. injection Hs as <- ->.
  assert (Hm : m = <[k := CInt (wrap64 (unixSec t + ttl))]> s).
  { revert E. unfold localStoreIfAbsent. repeat case_match; congruence. }
  exists (unixSec t + ttl). rewrite Hm, lookup_insert_eq, wrap64_id by done. split; [done|].
  apply Z.le_succ_l. unfold unixSec in *. rewrite <- Z.add_1_r.
  rewrite <- (Z.div_add t' 1 Second), <- (Z.div_add t ttl Second) by done. apply Z.div_le_mono; [done|lia].
Qed.
Next Obligation.
  intros k k' s t t' v ttl (u & Hs & Hu) Ht _. simpl.
  destruct (decide (k = k')) as [<-|Hne].
  - rewrite local_refuses; [by exists u|]. exists u. split; [done|].
    apply (Z.le_lt_trans _ (unixSec t')); [by apply unixSec_mono|done].
  - destruct (localStoreIfAbsent t k' v s) as [m b] eqn:E. exists u. split; [|done]. simpl.
    revert E. unfold localStoreIfAbsent. repeat case_match; intros [= <- _]; by rewrite ?lookup_insert_ne.
Qed.
Next Obligation.
  intros k s b s' b' t t' (u & Hs & Hu) Hn Ht He. destruct He as [t0 s k' until found Ht0 Hk' Hx|s k' f1 f2].
  - split; [by exists u|]. intros [->|Hin]; [|done]. rewrite Hs in Hk'. injection Hk' as <-. simpl in Hx. apply Z.leb_le in Hx.
    assert (unixSec t0 <= unixSec t') by (apply unixSec_mono; lia). lia.
  - assert (Hne : k' <> k) by (intros ->; apply Hn, in_elt). split.
    + exists u. by rewrite lookup_delete_ne.
    + intros Hin. apply Hn. apply in_app_or in Hin as [?|?]; apply in_or_app; [by left|right; by right].
Qed.

(** ** The Redis cache

    What Redis documents of SET with NX and an expiration, at the time of its own
    clock [srv]: [alive k w t] says that the key exists at [t] if nothing deletes it. *)

Class RedisServer (W : Type) `{goredis W} := {
  srv : W -> Z;
  alive : string -> W -> Z -> Prop;
  elapses : W -> W -> Prop;
  rcSetNX_refused k v d w : alive k w (srv w) -> (rcSetNX k v d w).2 <> Ok true;
  rcSetNX_alive k v d w w' t :
    0 < d -> rcSetNX k v d w = (w', Ok true) -> srv w <= t -> t < srv w + d -> alive k w' t;
  rcSetNX_keeps k k' v d w t : alive k w t -> srv w <= t -> alive k (rcSetNX k' v d w).1 t;
  alive_elapses k w w' t : alive k w t -> elapses w w' -> alive k w' t;
}.

#[export] Program Instance redis_register {W} `{RedisServer W} : Register (redisWorld W) := {
  holds k s t := alive k (kv s) t; clockOf s t := srv (kv s) = t; background := unit;
  backgroundStep _ s _ s' _ := elapses (kv s) (kv s'); threatens _ _ := False
}.
Next Obligation.
  intros W ? ? k s t v ttl Hk <-. simpl. unfold redisSetNX.
  pose proof (rcSetNX_refused k (sprint v) (ttlDuration ttl) (kv s) Hk).
  by destruct (rcSetNX k _ _ (kv s)) as [w r].
Qed.
Next Obligation.
  intros W ? ? k s s' t t' ttl Httl _ <- Hs Ht Hle. unfold CheckAndSet in Hs. simpl in Hs. unfold redisSetNX in Hs.
  rewrite ttlDuration_exact in Hs by lia.
  destruct (rcSetNX k _ _ (kv s)) as [w r] eqn:E. injection Hs as <- ->. simpl.
  eapply rcSetNX_alive; [|exact E|done|]; unfold Second in *; lia.
Qed.
Next Obligation.
  intros W ? ? k k' s t t' v ttl Hk Ht <-. simpl. unfold redisSetNX.
  pose proof (rcSetNX_keeps k k' (sprint v) (ttlDuration ttl) (kv s) t' Hk Ht).
  by destruct (rcSetNX k' _ _ (kv s)) as [w r].
Qed.
Next Obligation.
  intros W ? ? k s b s' b' t t' Hk _ _ Hi. simpl in *. split; [by eapply alive_elapses|by intros []].
Qed.

(** ** Witnesses *)

(** A Redis with nothing but expiring keys. *)
Record toyRedis := { toyNow : Z; toyKeys : gmap string Z }.
Definition toySetNX (k : string) (d : Z) (w : toyRedis) : toyRedis * bool :=
  let set := {| toyNow := toyNow w; toyKeys := <[k := toyNow w + d]> (toyKeys w) |} in
  match toyKeys w !! k with
  | Some u => if toyNow w <? u then (w, false) else (set, true)
  | None => (set, true)
  end.
#[local] Instance toy_goredis : goredis toyRedis := {
  rcGet _ _ := Ok None; rcGetDel _ w := (w, Ok None); rcMGet _ _ := Ok []; rcSet _ _ _ w := (w, None);
  rcIncr _ w := (w, Ok 0); rcSetNX k _ d w := let '(w, b) := toySetNX k d w in (w, Ok b); rcPing _ := None;
  rcExists _ _ := Ok 0; rcDel _ w := (w, None); rcExpire _ _ w := (w, None)
}.
#[local] Program Instance toy_server : RedisServer toyRedis := {
  srv := toyNow; elapses w w' := toyKeys w' = toyKeys w;
  alive k w t := exists u, toyKeys w !! k = Some u /\ t < u
}.
Next Obligation. intros k v d w (u & Hk & Hu%Z.ltb_lt). simpl. unfold toySetNX. by rewrite Hk, Hu. Qed.
Next Obligation.
  intros k v d w w' t Hd Hs Hle Ht. simpl in Hs. exists (toyNow w + d). split; [|done]. revert Hs. unfold toySetNX.
  repeat case_match; intros [= <-]; simplify_eq; apply lookup_insert_eq.
Qed.
Next Obligation.
  intros k k' v d w t (u & Hk & Hu) Ht. simpl. unfold toySetNX. destruct (decide (k = k')) as [<-|Hne].
  - exists u. split; [|done]. rewrite Hk. destruct (Z.ltb_spec (toyNow w) u); [done|lia].
  - exists u. split; [|done]. destruct (toyKeys w !! k') as [x|]; [destruct (toyNow w <? x)|];
      simpl; rewrite ?lookup_insert_ne; done.
Qed.
Next Obligation. intros k w w' t Hk Hi. simpl in *. by rewrite Hi. Qed.

#[local] Instance toy_clock : Clock (redisWorld toyRedis) := fun w => toyNow (kv w).
(** A claim at second 0, and the world a minute later. *)
Definition toy_first : redisWorld toyRedis :=
  (CheckAndSet 0 300 "order-0001" ({| kv := {| toyNow := 0; toyKeys := ∅ |} |} : redisWorld toyRedis)).1.
Definition toy_later : redisWorld toyRedis := {| kv := {| toyNow := Minute; toyKeys := toyKeys (kv toy_first) |} |}.

(** The in-memory cache: a claim at second 0 while the evictor is about to delete another
    key, which it then does. *)
Definition local_first : localCache := (CheckAndSet 0 300 "order-0001" ({["stale" := CInt (-5)]} : localCache)).1.
Definition local_later : world := {| wTime := Minute; wCache := delete "stale" local_first |}.

Definition toy_quiet : background (S := redisWorld toyRedis) := tt.
Definition local_found : background (S := localCache) := ["stale"].
Definition local_done : background (S := localCache) := [].

Lemma repeated_request_refused_witness :
  (exists wtr' status, WStatus wtr' = Some status /\ In status [400; 409; 500]) /\
  (exists w' wtr' status, (forall g, IdempotencyMiddleware (S := localCache) (fun _ => "") None 300 g keyed newWriter local_later =
     (w', wtr', Returned)) /\ WStatus wtr' = Some status /\ In status [400; 409; 500]).
Proof.
  split.
  - destruct (repeated_request_refused (S := redisWorld toyRedis) (W := redisWorld toyRedis) (fun _ => "") None 300
      (fun _ wtr w => (w, wtr, Returned)) keyed newWriter toy_later
      {| kv := {| toyNow := 0; toyKeys := ∅ |} |} toy_first toy_quiet toy_quiet 0)
      as (w' & wtr' & st & _ & H).
    + split; reflexivity.
    + vm_compute. split; discriminate.
    + reflexivity.
    + vm_compute. reflexivity.
    + intros [].
    + eapply history_background; [apply history_nil|discriminate|]. reflexivity.
    + reflexivity.
    + discriminate.
    + reflexivity.
    + reflexivity.
    + reflexivity.
    + by exists wtr', st.
  - apply (repeated_request_refused (S := localCache) (W := world) (fun _ => "") None 300
      (fun _ wtr w => (w, wtr, Returned)) keyed newWriter local_later {["stale" := CInt (-5)]} local_first local_found local_done 0).
    + split; reflexivity.
    + vm_compute. split; discriminate.
    + exact I.
    + vm_compute. reflexivity.
    + vm_compute. by intros [[=]|[]].
    + eapply (history_background (S := localCache) local_first local_found 0 local_first local_found 0 (delete "stale" local_first) local_done Minute); [apply history_nil|discriminate|].
      exact (evictor_delete Minute local_first "stale" [] []).
    + exact I.
    + discriminate.
    + reflexivity.
    + reflexivity.
    + reflexivity.
Defined.
